(* ===== verification/_CoqProject ===== *)
-Q . S2P
Prelude.v
GoStrings.v
GoPath.v
Float64.v
GoIo.v
GoUrl.v
IoUtils.v
GoUtf8.v
NetUtils.v
Clients.v
LogTree.v
LogConfig.v
Pilot.v
Filebeat.v
Supervisor.v
StdCopy.v
Connection.v
Quota.v
QuotaInit.v
Token.v
JwtToken.v
QuotaService.v
PodLog.v
Hub.v
PodFiles.v
FileTail.v
LogService.v
ShardMap.v
ProxyAuth.v
ConnPool.v
ServeChannel.v
ProxyHttp.v
ProxyService.v
HttpRange.v
Dcmi.v
DcDriver.v
ApiService.v
Ioctl.v
Accelerators.v
Cndev.v
GpuInit.v
WebServer.v
Cluster.v
Main.v
