(* ===== verification/Prelude.v ===== *)
(** * cvmart-log-pilot: a verification library

    cvmart-log-pilot runs on every node of a cluster. It watches Docker, writes a
    collector configuration for each container that asks for one by its labels, removes
    the configuration once the logs of a dead container have been read, serves container
    logs and files over websockets to clients that present a token, limits directories by
    project quotas, stores model archives, reports accelerator devices, and contains a
    small HTTP proxy. Requests for another node are passed on to that node.

    ** Parts and files

    What the program uses of Go:
    - [Prelude], [GoStrings], [GoPath], [GoUrl], [GoUtf8], [Float64]: outcomes of a function
      ([Ok], [Err], [Panic]) with their monad; integers of fixed width; the order in which a
      map is visited, a class [GoRange] every theorem quantifies over; the packages strings,
      strconv, path, path/filepath, net/url and unicode/utf8 on byte strings; float64.
    - [GoIo], [IoUtils] (utils/ioutil.go, io-limiter.go, functions.go): readers as a class
      [Reader], whose law says which bytes are delivered however reads are cut, an error
      possibly coming with the last of them; ioCopy and Copy, limited and rate-limited writers, tar extraction, UDP packets.
    - [NetUtils] (utils/functions.go): TLS connections and listeners, the addresses of the
      host, keys.
    - [Clients] (config/config.go, utils/Common.go): the configuration, the clients for HTTP,
      Docker, Kubernetes, Minio and the collector, and the response writer of the handlers.

    The pilot:
    - [LogTree] (pilot/pilot.go): labels as a tree of [LogInfoNode]; the label loop of
      getLogConfigs, over any list of prefixes.
    - [LogConfig] (pilot/pilot.go, piloter.go, format.go, util.go): tags, mounts, formats,
      parseLogConfig, CustomConfig, getLogConfigs. The class [Piloter] is the interface
      of piloter.go, with the instances [FilebeatPiloter] and [FluentdPiloter]; its laws
      are what the pilot relies on (distinct containers have distinct files).
    - [Pilot] (pilot/pilot.go, extension.go): event handling over a [World], the record of
      the files, directories, links, the removal list and the timers the pilot works on.
      [Faults] says which system calls fail and what they leave behind (a truncated file, a
      directory removed in part), [Docker] what the daemon answers.
    - [Filebeat] (pilot/filebeat_piloter.go): the removal scan, and runs of the whole
      pilot as sequences of inputs.
    - [Supervisor] (pilot/filebeat_piloter.go, fluentd_piloter.go, pilot.go): the collector
      process with the goroutine that restarts it, a step relation; reloads; the start of
      the pilot, which composes [Pilot] and [Filebeat].

    Logs and files:
    - [StdCopy] (container_log/StuCopy.go, utils/Common.go): the multiplexed log stream.
    - [Connection] (container_log/ConnectionManage.go): batching to a websocket; its second
      part is a step relation for two goroutines and a mutex.
    - [PodLog] (container_log/DockerLog.go, MinioLog.go): polling of a pod, tailing of its
      container, statistics.
    - [Hub] (container_log/ConnectionManage.go): all connections of a node in a heap with
      the map of the hub, the goroutines that read, write and close them, and the mutex a
      flush may hold meanwhile.
    - [LogService] (Service/LogService.go): serving, downloading and uploading logs.
    - [PodFiles], [FileTail] (pod_file/PodFileExporter.go, Service/FileService.go): listing,
      fetching and following the files of pods.
    - [Token], [JwtToken] (container_log/AESAuth.go, LogParam.go, JwtAuth.go): access tokens.

    Quotas:
    - [Quota], [QuotaInit] (quota/ProjectQuota.go): project quotas over a [QState], with a
      [Kernel] (which calls fail, what a failing removal leaves, how limits are rounded to
      blocks), and the start of the controller on an existing or a new directory.
    - [QuotaService] (Service/QuotaService.go): the handlers, and how one node
      passes a request on to another.

    Services, proxy and devices:
    - [ApiService] (Service/ModelSaveService.go, GpuInfoService.go, ProxyService.go): signed
      requests, model archives and device tables.
    - [ShardMap] (utils/map.go): the sharded map; it implements the class [StringMap].
    - [ProxyAuth] (utils/structs.go): users, host lists and requests of the proxy, written
      against [StringMap].
    - [ConnPool] (utils/pool.go, structs.go): the pool of connections to a parent proxy.
    - [ServeChannel] (utils/serve-channel.go): the accept loops.
    - [ProxyHttp] (proxy/http.go, service.go, utils/structs.go): what the proxy does with a
      connection.
    - [ProxyService] (proxy/service.go, http.go, args.go, utils/structs.go): the registry of
      services and the start of the proxy.
    - [HttpRange] (utils/httprange.go): byte ranges.
    - [Ioctl] (utils/cgoioctl, gpu/sophgo/bmctl): request numbers of device control.
    - [Dcmi] (gpu/atlas), [Accelerators] (gpu/nvidia, gpu/mlu, gpu/sophgo), [Cndev]
      (gpu/mlu/cndev): device queries over vendor libraries; [DcDriver] (gpu/atlas/dcmi):
      the driver interface of Ascend devices, and that its implementation never panics;
      [GpuInit] (gpu/GpuInfo.go, the initialisation of the backends, utils/dl): which
      backend serves the devices.

    The program:
    - [WebServer] (server/WebServer.go): the routes, the multiplexer and one dispatcher over
      all handlers.
    - [Cluster]: the servers of several nodes, with the requests of the quota service
      carried between them by an arbitrary network that may resolve a name to any member,
      lose a request, or lose an answer.
    - [Main] (main.go): flags, the base directory, what is set up in order, and the goroutines
      that then start in any order, two of which can end the process.

    Components meet where the code makes them meet: [Pilot] renders what [LogConfig]
    computes from the tree of [LogTree]; [Filebeat] runs the handlers of [Pilot] and its
    own scan on one [World]; [PodLog] feeds a [Connection] through [StdCopy];
    [QuotaService], [LogService] and [PodFiles] check and mint tokens of [Token], and their
    forwarding theorems run the handler of the node that receives what the first one sent;
    [QuotaService] works on the state of [Quota]; [ApiService] reads archives through
    [IoUtils] below directories [Quota] resolves; [ProxyHttp] composes [ProxyAuth],
    [ConnPool] and ioCopy, and [ProxyService] runs it behind [ServeChannel]; [ProxyAuth] is
    proved for any [StringMap], and [ShardMap] discharges that interface; [Hub] keeps the
    connections of [Connection]; [WebServer] dispatches to [QuotaService], [LogService],
    [PodFiles], [FileTail], [ApiService] and [Accelerators] on one state, and [Cluster]
    connects such servers; [Main] starts
    [ProxyService] and the pilot of [Supervisor] with the clients of [Clients] and the
    controller of [QuotaInit].

    ** What the theorems show

    - Labels: the tree built from labels refines a direct description of it by label keys
      (for several prefixes by the last label that reaches a node, for one without any
      loss), and the exact conditions for an error or a panic. Parsing is total, tags round-trip,
      every configuration is the one its label asks for, the host directory is that of the
      nearest mount.
    - Life cycle: what a start event does on every path, a write that fails half-way
      included; a configuration in service
      survives every sequence of events, scans and failures; a scan removes only settled
      configurations and does remove those; and the one gap, a restart before removal; a
      pilot that starts leaves no configuration of the last one; the collector is one
      process that is started again whenever it ends, by rule induction over the steps of
      its goroutine; reloads are thirty seconds apart.
    - Streams: StdCopy equals a parser of the bytes however they arrive, and inverts the
      multiplexing writer; obfuscated lines keep their bytes in order; batching neither
      loses, duplicates nor reorders the payload of a kind; when a flush can deadlock; a
      tailed container delivers its output to the client; which rounds of a poll report
      what, and that it ends when the pod is ready; a followed file is sent line by line
      and then as it grows; ioCopy moves all bytes and tells which side failed.
    - Quotas: project ids stay distinct, limits read back as the kernel rounds them,
      releasing stays below the real path of its argument, which for a direct child is
      below the base directory; path resolution, the choice
      of the partition and the start on a new directory; only a request with a valid token
      changes a quota, and a request for another node arrives there and takes effect; the
      nodes of a cluster, with their servers, implement one service of quotas whatever
      clients send to whom and whatever the network loses: at most three executions of a
      request, at the servers its attempts reach.
    - Services: an upload is passed to the node its token or pod names; a listed file can be
      fetched through any node with the token of the listing, unless its path ends in
      index.html; model files end up in the
      object store under their names; which requests pass without a signature.
    - Server: the hub holds exactly the connections that are open, whatever the order of
      requests and goroutines, a connection that is closed stays so, and one that fails is
      closed unless its mutex is held; a request without credentials is answered with the
      error of its token on every path but the ones listed, and changes nothing.
    - Tokens: round trip, and no acceptance after expiry. Proxy: exactly which credentials
      and requests are let through; the service that is started handles every accepted
      connection, sends it only to the host it asks for and ends it closed or bound unless
      its request makes the decoding panic; pooled
      connections are accounted for; both ends of a TLS connection are verified. Ranges,
      request numbers and UDP packets: round trips and bounds.
    - Devices: whatever the vendor library returns, identifiers, tables and the fields of
      the Go structs are within bounds, and the table of devices holds the values of the
      library; the last backend that finds its devices serves.
    - Start: exactly when the program gets to work, in whatever order its goroutines run,
      and that its parts share one clean directory.

    ** Bounds and fuel

    Recursion is structural except where stated here. hostDirOf goes to the parent directory
    each round: the length of the path is enough, and the theorem states that a result is
    returned. StdCopy consumes a header per round and a read event per read: the size of
    the source is enough, which the equivalence with the parser shows for every source.
    Readers carry a measure that every read decreases; ioCopy, ReadFull and the readers of
    [GoIo] and [GoUtf8] take it as their fuel, and their theorems state the result for every
    reader. Splitting by a string and printing a number use the length of the text and the
    binary logarithm (16 digits for a 64-bit number in base 16); the round trips show that
    they suffice. A request to a [Cluster] is passed on at most once, since the token minted
    for it is taken as its own by every member, so two levels are enough: its theorem holds
    for any fuel of at least two. Loops that wait for the outside (a poll, a tail, statistics, the filling
    of the pool, probes of hosts) recurse on the list of what their rounds see. Integers are
    kept modulo their width wherever the code computes with them.

    ** Not modelled

    The parsing of flags, log output, the types of proxy modes that the program does not
    have, and the allocation of C memory. Code outside the repository is a parameter:
    templates, YAML, JSON, base64, AES, MD5, certificates, the kernel, the Docker daemon,
    Kubernetes, Minio, sockets, the vendor libraries. Locks are modelled where a claim
    depends on them ([Connection], [Hub]); elsewhere an operation that runs under its lock
    is one step. The unlocked flush at the end of a tail is one step as well, so that the
    theorem on tails assumes that nothing else touches the connection meanwhile. What
    becomes of a write to a [ResponseWriter] whose handler has returned, and of a call
    through a function pointer of a closed library, is recorded but not given a meaning.
    In [Cluster] the requests of the log and file services are not carried, and clients are
    served one after another. [http.ServeFile] (a function of the request and the file) and
    the websocket library are not opened.

    ** Plan

    Next: the interleaving of the pool's goroutines with the requests of the proxy, the
    fluentd piloter in the start of the pilot, and the requests of the log and file
    services in [Cluster]. *)

From stdpp Require Export base list strings gmap sorting.
From Stdlib Require Export Ascii ZArith Lia.
Export Stdlib.Strings.String (list_ascii_of_string, string_of_list_ascii).

(** ** Bytes, strings and machine integers

    A Go [string] is a sequence of bytes and is modelled by [string]; a Go
    [[]byte] is modelled by [list ascii]. *)

Abbreviation bytes := (list ascii) (only parsing).

Definition byte_val (b : ascii) : Z := Z.of_N (N_of_ascii b).
Definition byte_of (z : Z) : ascii := ascii_of_N (Z.to_N (z mod 256)).

(** Conversions to the fixed-width integer types of Go. *)
Definition u8 (z : Z) : Z := (z mod 2 ^ 8)%Z.
Definition u16 (z : Z) : Z := (z mod 2 ^ 16)%Z.
Definition u32 (z : Z) : Z := (z mod 2 ^ 32)%Z.
Definition u64 (z : Z) : Z := (z mod 2 ^ 64)%Z.
Definition i32 (z : Z) : Z := ((z + 2 ^ 31) mod 2 ^ 32 - 2 ^ 31)%Z.
Definition i64 (z : Z) : Z := ((z + 2 ^ 63) mod 2 ^ 64 - 2 ^ 63)%Z.

Definition in_u16 (z : Z) : Prop := (0 <= z < 2 ^ 16)%Z.
Definition in_u32 (z : Z) : Prop := (0 <= z < 2 ^ 32)%Z.
Definition in_u64 (z : Z) : Prop := (0 <= z < 2 ^ 64)%Z.
Definition in_i32 (z : Z) : Prop := (- 2 ^ 31 <= z < 2 ^ 31)%Z.
Definition in_i64 (z : Z) : Prop := (- 2 ^ 63 <= z < 2 ^ 63)%Z.

Create HintDb golog.

Lemma u32_small z : in_u32 z → u32 z = z.
Proof. unfold in_u32, u32. apply Z.mod_small. Qed.

Lemma u64_small z : in_u64 z → u64 z = z.
Proof. unfold in_u64, u64. apply Z.mod_small. Qed.

Lemma i64_small z : in_i64 z → i64 z = z.
Proof. unfold in_i64, i64. intros H. rewrite Z.mod_small; lia. Qed.

Lemma i32_small z : in_i32 z → i32 z = z.
Proof. unfold in_i32, i32. intros H. rewrite Z.mod_small; lia. Qed.

Lemma u32_range z : in_u32 (u32 z).
Proof. unfold in_u32, u32. apply Z.mod_pos_bound. lia. Qed.

Lemma u16_range z : in_u16 (u16 z).
Proof. unfold in_u16, u16. apply Z.mod_pos_bound. lia. Qed.

Lemma u64_range z : in_u64 (u64 z).
Proof. unfold in_u64, u64. apply Z.mod_pos_bound. lia. Qed.

Lemma i64_range z : in_i64 (i64 z).
Proof.
  unfold in_i64, i64. pose proof (Z.mod_pos_bound (z + 2 ^ 63) (2 ^ 64)). lia.
Qed.

#[export] Hint Resolve u16_range u32_range u64_range i64_range : golog.

Lemma byte_val_range b : (0 <= byte_val b < 256)%Z.
Proof. unfold byte_val. pose proof (N_ascii_bounded b). lia. Qed.

Lemma byte_val_of z : byte_val (byte_of z) = (z mod 256)%Z.
Proof.
  unfold byte_val, byte_of.
  pose proof (Z.mod_pos_bound z 256 ltac:(lia)).
  rewrite N_ascii_embedding; lia.
Qed.

Lemma byte_of_val b : byte_of (byte_val b) = b.
Proof.
  unfold byte_of. rewrite Z.mod_small by apply byte_val_range.
  unfold byte_val. rewrite N2Z.id. apply ascii_N_embedding.
Qed.

Lemma byte_val_inj b c : byte_val b = byte_val c → b = c.
Proof. intros H. by rewrite <-(byte_of_val b), <-(byte_of_val c), H. Qed.

(** ** Outcomes of Go functions

    A function that returns [(value, error)] or may panic yields one of: a value
    with a nil error, a non-nil error with its message, or a run-time panic (index
    out of range, write to a nil map, nil dereference). *)

Inductive outcome (A : Type) : Type :=
| Ok (a : A)
| Err (msg : string)
| Panic.
Arguments Ok {A} _.
Arguments Err {A} _.
Arguments Panic {A}.

Definition obind {A B} (m : outcome A) (k : A → outcome B) : outcome B :=
  match m with
  | Ok a => k a
  | Err e => Err e
  | Panic => Panic
  end.

Declare Scope go_scope.
Delimit Scope go_scope with go.
Open Scope go_scope.

Notation "'let!' x := m 'in' k" := (obind m (λ x, k))
  (at level 10, x pattern, m at level 200, k at level 200,
   format "'[v' let!  x  :=  m  'in' '//' k ']'") : go_scope.

Definition is_ok {A} (m : outcome A) : bool :=
  match m with Ok _ => true | _ => false end.

Definition is_err {A} (m : outcome A) : bool :=
  match m with Err _ => true | _ => false end.

Lemma obind_ok_inv {A B} (m : outcome A) (k : A → outcome B) b :
  obind m k = Ok b → ∃ a, m = Ok a ∧ k a = Ok b.
Proof. destruct m; simpl; intros; [eauto | discriminate..]. Qed.

Lemma obind_panic_inv {A B} (m : outcome A) (k : A → outcome B) :
  obind m k = Panic → m = Panic ∨ ∃ a, m = Ok a ∧ k a = Panic.
Proof. destruct m; simpl; intros; [eauto | discriminate | by left]. Qed.

Lemma obind_assoc {A B C} (m : outcome A) (f : A → outcome B) (g : B → outcome C) :
  obind (obind m f) g = obind m (λ a, obind (f a) g).
Proof. by destruct m. Qed.

(** A loop over a slice that stops at the first error or panic. *)
Fixpoint ofold {A S} (f : S → A → outcome S) (s : S) (l : list A) : outcome S :=
  match l with
  | [] => Ok s
  | a :: l' => let! s' := f s a in ofold f s' l'
  end.

Lemma ofold_app {A S} (f : S → A → outcome S) s l1 l2 :
  ofold f s (l1 ++ l2) = let! s' := ofold f s l1 in ofold f s' l2.
Proof.
  revert s. induction l1 as [|a l1 IH]; intros s; simpl; [done|].
  rewrite obind_assoc. destruct (f s a); simpl; auto.
Qed.

(** A property of the loop state that every iteration keeps holds at the end. *)
Lemma ofold_inv {A S} (P : S → Prop) (f : S → A → outcome S) s l s' :
  (∀ s a s', a ∈ l → P s → f s a = Ok s' → P s') →
  P s → ofold f s l = Ok s' → P s'.
Proof.
  revert s. induction l as [|a l IH]; intros s Hstep HP Hf; simpl in Hf.
  { by simplify_eq. }
  apply obind_ok_inv in Hf as (s1 & H1 & H2).
  eapply IH; [|eapply Hstep; [|exact HP|exact H1]; constructor|exact H2].
  intros s2 b s3 Hb. apply Hstep. by constructor.
Qed.

Lemma ofold_ext {A S} (f g : S → A → outcome S) s l :
  (∀ s a, f s a = g s a) → ofold f s l = ofold g s l.
Proof.
  intros E. revert s. induction l as [|a l IH]; intros s; simpl; [done|].
  rewrite E. destruct (g s a); simpl; auto.
Qed.

Lemma ofold_no_panic {A S} (f : S → A → outcome S) s l :
  (∀ s a, a ∈ l → f s a ≠ Panic) → ofold f s l ≠ Panic.
Proof.
  revert s. induction l as [|a l IH]; intros s Hf; simpl; [done|].
  intros [Hp|(s' & _ & Hp)]%obind_panic_inv; [by apply (Hf s a ltac:(constructor))|].
  revert Hp. apply IH. intros s2 b Hb. apply Hf. by constructor.
Qed.

(** A loop that appends one result per element. *)
Lemma ofold_collect {A B} (f : A → outcome B) acc l bs :
  ofold (λ acc a, let! b := f a in Ok (acc ++ [b])) acc l = Ok bs ↔
  ∃ new, bs = acc ++ new ∧ Forall2 (λ a b, f a = Ok b) l new.
Proof.
  revert acc. induction l as [|a l IH]; intros acc; simpl.
  { split; [intros [= <-]; exists []; by rewrite app_nil_r|].
    intros (new & -> & Hn). apply Forall2_nil_inv_l in Hn as ->. by rewrite app_nil_r. }
  destruct (f a) as [b| |] eqn:E; simpl.
  - rewrite IH. split.
    + intros (new & -> & Hn). exists (b :: new). split; [by rewrite <-app_assoc|by constructor].
    + intros (new & -> & Hn). apply Forall2_cons_inv_l in Hn as (b' & new' & Hb & Hn & ->).
      exists new'. split; [|done]. rewrite <-app_assoc. simpl. congruence.
  - split; [done|]. intros (new & _ & Hn).
    apply Forall2_cons_inv_l in Hn as (? & ? & ? & _). congruence.
  - split; [done|]. intros (new & _ & Hn).
    apply Forall2_cons_inv_l in Hn as (? & ? & ? & _). congruence.
Qed.

(** ** Iteration over a Go map

    [for k, v := range m] visits the entries of [m] once each, in an order Go does
    not specify. A [GoRange] is one such choice of orders; the theorems hold for
    every choice. *)

Class GoRange := {
  go_range {V : Type} : gmap string V → list (string * V);
  go_range_perm {V : Type} (m : gmap string V) : go_range m ≡ₚ map_to_list m
}.

Definition range_sorted : GoRange :=
  {| go_range := λ V m, map_to_list m; go_range_perm := λ V m, reflexivity _ |}.

(** The opposite choice, to test that a definition does not rest on an order. *)
Program Definition range_reversed : GoRange :=
  {| go_range := λ V m, reverse (map_to_list m) |}.
Next Obligation. intros V m. apply reverse_Permutation. Qed.

Lemma elem_of_go_range `{GoRange} {V} (m : gmap string V) k v :
  (k, v) ∈ go_range m ↔ m !! k = Some v.
Proof. rewrite go_range_perm. apply elem_of_map_to_list. Qed.

Lemma NoDup_go_range_keys `{GoRange} {V} (m : gmap string V) :
  NoDup (go_range m).*1.
Proof. rewrite go_range_perm. apply NoDup_fst_map_to_list. Qed.

Lemma go_range_empty `{GoRange} {V} : go_range (∅ : gmap string V) = [].
Proof. apply Permutation_nil. by rewrite go_range_perm, map_to_list_empty. Qed.

Lemma go_range_nil_inv `{GoRange} {V} (m : gmap string V) : go_range m = [] → m = ∅.
Proof.
  intros H0. apply map_to_list_empty_iff, Permutation_nil.
  by rewrite <-H0, go_range_perm.
Qed.

Lemma length_go_range `{GoRange} {V} (m : gmap string V) :
  length (go_range m) = size m.
Proof. by rewrite go_range_perm, length_map_to_list. Qed.

(** [m[k]] on a map of strings: the zero value when the key is absent. *)
Definition mget (m : gmap string string) (k : string) : string := default "" (m !! k).

(** ** Tactics *)

(** Breaks a successful chain of [let!] into the values of its steps. *)
Ltac obind_inv :=
  repeat match goal with
  | H : obind ?m _ = Ok _ |- _ =>
      let a := fresh "a" in let Ha := fresh "Ha" in
      apply obind_ok_inv in H as (a & Ha & H)
  | H : Ok _ = Ok _ |- _ => injection H as H; subst
  | H : Err _ = Ok _ |- _ => discriminate H
  | H : Panic = Ok _ |- _ => discriminate H
  end.

(** Splits the conditionals and matches the goal or a hypothesis is stuck on. *)
Ltac split_matches :=
  repeat (case_match; simplify_eq/=; try done).

(** Proves a decidable closed proposition by evaluating its decision. *)
Ltac by_decide := apply (bool_decide_unpack _); vm_compute; exact I.

(** ** Lists *)

Lemma NoDup_fst_unique {A B} (l : list (A * B)) a b1 b2 :
  NoDup l.*1 → (a, b1) ∈ l → (a, b2) ∈ l → b1 = b2.
Proof.
  induction l as [|[a' b'] l IH]; simpl; [intros ??%elem_of_nil; done|].
  rewrite NoDup_cons. intros [Hn Hd] [E1|H1]%elem_of_cons [E2|H2]%elem_of_cons;
    simplify_eq; [done| | |by apply IH].
  all: destruct Hn; apply list_elem_of_fmap; eexists; split; [|eassumption]; done.
Qed.

Lemma take_drop_split {A} n (l : list A) : l = take n l ++ drop n l.
Proof. by rewrite take_drop. Qed.

Lemma sublist_insert_middle {A} (x : A) l1 l2 :
  l1 ++ l2 `sublist_of` l1 ++ x :: l2.
Proof. apply sublist_app; [done|]. by apply sublist_cons. Qed.
