(* ===== verification/GoStrings.v ===== *)
(** * The part of Go's [strings], [bytes] and [strconv] packages the program uses

    Executable definitions on byte strings, and the lemmas the components share.
    [TrimSpace], [Fields], [ToUpper] and [ToLower] act on ASCII: a byte above 127 is
    never a space and has no case, so they agree with Go on ASCII text. *)

From S2P Require Import Prelude.

(** ** Definitions *)

Fixpoint str_take (n : nat) (s : string) : string :=
  match n, s with
  | S n, String a s => String a (str_take n s)
  | _, _ => ""
  end.

Fixpoint str_drop (n : nat) (s : string) : string :=
  match n, s with
  | O, _ => s
  | S n, String _ s => str_drop n s
  | S _, EmptyString => ""
  end.

Definition HasPrefix (s p : string) : bool := String.prefix p s.

Definition TrimPrefix (s p : string) : string :=
  if HasPrefix s p then str_drop (String.length p) s else s.

Definition HasSuffix (s p : string) : bool :=
  bool_decide (String.length p ≤ String.length s) &&
  bool_decide (str_drop (String.length s - String.length p) s = p).

Definition TrimSuffix (s p : string) : string :=
  if HasSuffix s p then str_take (String.length s - String.length p) s else s.

(** [strings.Index]: the offset of the first occurrence. *)
Fixpoint Index (s sub : string) : option nat :=
  if String.prefix sub s then Some 0 else
  match s with
  | EmptyString => None
  | String _ s' => S <$> Index s' sub
  end.

Definition Contains (s sub : string) : bool := bool_decide (is_Some (Index s sub)).

(** [strings.Count(s, c)] for a one-byte [c]. *)
Fixpoint Count (s : string) (c : ascii) : nat :=
  match s with
  | EmptyString => 0
  | String a s' => (if decide (a = c) then 1 else 0) + Count s' c
  end.

(** [strings.Split(s, c)] for a one-byte separator. *)
Fixpoint Split (s : string) (c : ascii) : list string :=
  match s with
  | EmptyString => [""]
  | String a s' =>
      if decide (a = c) then "" :: Split s' c else
      match Split s' c with
      | [] => [String a ""]
      | h :: t => String a h :: t
      end
  end.

(** [strings.Split(s, sep)] for a separator of any positive length; the fuel is the
    length of [s], which bounds the number of separators. *)
Fixpoint SplitStr_fuel (fuel : nat) (s sep : string) : list string :=
  match fuel, Index s sep with
  | S fuel, Some n =>
      str_take n s :: SplitStr_fuel fuel (str_drop (n + String.length sep) s) sep
  | _, _ => [s]
  end.
Definition SplitStr (s sep : string) : list string :=
  SplitStr_fuel (String.length s) s sep.

(** [strings.SplitN(s, c, 2)] for a one-byte separator. *)
Fixpoint SplitN2 (s : string) (c : ascii) : list string :=
  match s with
  | EmptyString => [""]
  | String a s' =>
      if decide (a = c) then [""; s'] else
      match SplitN2 s' c with
      | [] => [String a ""]
      | h :: t => String a h :: t
      end
  end.

Fixpoint Join (l : list string) (sep : string) : string :=
  match l with
  | [] => ""
  | [x] => x
  | x :: l' => x +:+ sep +:+ Join l' sep
  end.

(** [strings.Replace(s, c, d, -1)] for one-byte [c] and [d]. *)
Fixpoint ReplaceAll (s : string) (c d : ascii) : string :=
  match s with
  | EmptyString => ""
  | String a s' => String (if decide (a = c) then d else a) (ReplaceAll s' c d)
  end.

(** [strings.Replace(s, c, "", -1)] for a one-byte [c]. *)
Fixpoint RemoveAll (s : string) (c : ascii) : string :=
  match s with
  | EmptyString => ""
  | String a s' => if decide (a = c) then RemoveAll s' c else String a (RemoveAll s' c)
  end.

(** [strings.Replace(s, old, new, 1)]. *)
Definition ReplaceOnce (s old new : string) : string :=
  match Index s old with
  | Some n => str_take n s +:+ new +:+ str_drop (n + String.length old) s
  | None => s
  end.

Fixpoint trim_left (P : ascii → bool) (s : string) : string :=
  match s with
  | EmptyString => ""
  | String a s' => if P a then trim_left P s' else s
  end.

Fixpoint trim_right (P : ascii → bool) (s : string) : string :=
  match s with
  | EmptyString => ""
  | String a s' =>
      match trim_right P s' with
      | EmptyString => if P a then "" else String a ""
      | r => String a r
      end
  end.

Definition is_space (a : ascii) : bool :=
  let n := N_of_ascii a in ((9 <=? n)%N && (n <=? 13)%N) || (n =? 32)%N.

Definition TrimSpace (s : string) : string := trim_left is_space (trim_right is_space s).

Definition in_cutset (cut : string) (a : ascii) : bool :=
  bool_decide (a ∈ list_ascii_of_string cut).

Definition Trim (s cut : string) : string :=
  trim_left (in_cutset cut) (trim_right (in_cutset cut) s).

Definition TrimRight (s cut : string) : string := trim_right (in_cutset cut) s.

(** [strings.Fields]: the maximal runs of non-space bytes. *)
Fixpoint Fields_acc (s : string) (cur : string) : list string :=
  match s with
  | EmptyString => if decide (cur = "") then [] else [cur]
  | String a s' =>
      if is_space a
      then (if decide (cur = "") then [] else [cur]) ++ Fields_acc s' ""
      else Fields_acc s' (cur +:+ String a "")
  end.
Definition Fields (s : string) : list string := Fields_acc s "".

(** [strings.FieldsFunc(s, func(r rune) bool { return r == c })]. *)
Definition FieldsByte (s : string) (c : ascii) : list string :=
  filter (λ w, w ≠ "") (Split s c).

Definition to_upper1 (a : ascii) : ascii :=
  let n := N_of_ascii a in
  if ((97 <=? n)%N && (n <=? 122)%N) then ascii_of_N (n - 32) else a.
Definition to_lower1 (a : ascii) : ascii :=
  let n := N_of_ascii a in
  if ((65 <=? n)%N && (n <=? 90)%N) then ascii_of_N (n + 32) else a.
Fixpoint str_map (f : ascii → ascii) (s : string) : string :=
  match s with
  | EmptyString => ""
  | String a s' => String (f a) (str_map f s')
  end.
Definition ToUpper := str_map to_upper1.
Definition ToLower := str_map to_lower1.

(** *** Decimal numbers *)

Definition digit_val (a : ascii) : option Z :=
  let n := N_of_ascii a in
  if ((48 <=? n)%N && (n <=? 57)%N) then Some (Z.of_N n - 48)%Z else None.

Fixpoint parse_digits (s : string) (acc : Z) : option Z :=
  match s with
  | EmptyString => Some acc
  | String a s' => d ← digit_val a; parse_digits s' (acc * 10 + d)%Z
  end.

Definition parse_nat (s : string) : option Z :=
  if decide (s = "") then None else parse_digits s 0.

(** [strconv.ParseInt(s, 10, 64)]: an optional sign and at least one digit, and a
    value of 64 bits; [None] is a non-nil error. *)
Definition ParseInt64 (s : string) : option Z :=
  let r :=
    match s with
    | String "+" s' => parse_nat s'
    | String "-" s' => Z.opp <$> parse_nat s'
    | _ => parse_nat s
    end in
  z ← r; if bool_decide (in_i64 z) then Some z else None.

(** [fmt.Sprintf("%d", z)]. *)
Definition digit_char (d : Z) : ascii := ascii_of_N (Z.to_N (48 + d)).
Fixpoint print_digits (fuel : nat) (z : Z) (acc : string) : string :=
  match fuel with
  | O => acc
  | S fuel =>
      let acc' := String (digit_char (z mod 10)) acc in
      if (z <? 10)%Z then acc' else print_digits fuel (z / 10) acc'
  end.
Definition print_nat (z : Z) : string := print_digits (S (Z.to_nat (Z.log2 z))) z "".
Definition Itoa (z : Z) : string :=
  if (z <? 0)%Z then "-" +:+ print_nat (- z) else print_nat z.

#[global] Instance in_i64_dec z : Decision (in_i64 z).
Proof. unfold in_i64. apply _. Defined.

(** ** Lemmas *)

Lemma str_app_nil_l s : "" +:+ s = s.
Proof. done. Qed.

Lemma str_app_cons a s t : String a s +:+ t = String a (s +:+ t).
Proof. done. Qed.

Lemma str_app_nil_r s : s +:+ "" = s.
Proof. induction s as [|a s IH]; [done|]. by rewrite ?str_app_cons, IH. Qed.

Lemma str_app_assoc s t u : (s +:+ t) +:+ u = s +:+ (t +:+ u).
Proof. induction s as [|a s IH]; [done|]. by rewrite !str_app_cons, IH. Qed.

Lemma str_length_app s t :
  String.length (s +:+ t) = String.length s + String.length t.
Proof. induction s as [|a s IH]; [done|]. rewrite ?str_app_cons. simpl. by rewrite IH. Qed.

Lemma str_app_inj_l s t u : s +:+ t = s +:+ u → t = u.
Proof. apply String.app_inj. Qed.

Lemma str_app_inj_len s1 s2 t1 t2 :
  String.length s1 = String.length s2 → s1 +:+ t1 = s2 +:+ t2 → s1 = s2 ∧ t1 = t2.
Proof.
  revert s2. induction s1 as [|a s1 IH]; intros [|b s2] Hl H; simpl in Hl; try lia.
  - done.
  - rewrite !str_app_cons in H. simplify_eq. destruct (IH s2) as [-> ->]; auto.
Qed.

Lemma str_app_inj_suffix s1 s2 t : s1 +:+ t = s2 +:+ t → s1 = s2.
Proof.
  intros E. apply (str_app_inj_len s1 s2 t t); [|done].
  apply (f_equal String.length) in E. rewrite !str_length_app in E. lia.
Qed.

Lemma str_drop_app s t : str_drop (String.length s) (s +:+ t) = t.
Proof. induction s as [|a s IH]; [done|]. by rewrite ?str_app_cons. Qed.

Lemma str_take_app s t : str_take (String.length s) (s +:+ t) = s.
Proof.
  induction s as [|a s IH]; [by destruct t|]. rewrite ?str_app_cons. simpl. by f_equal.
Qed.

Lemma str_take_all s : str_take (String.length s) s = s.
Proof. induction s as [|a s IH]; simpl; by f_equal. Qed.

Lemma str_take_drop n s : str_take n s +:+ str_drop n s = s.
Proof.
  revert s. induction n as [|n IH]; intros [|a s]; simpl; try done.
  by rewrite ?str_app_cons, IH.
Qed.

Lemma str_length_drop n s : String.length (str_drop n s) = String.length s - n.
Proof. revert s. induction n as [|n IH]; intros [|a s]; simpl; auto with lia. Qed.

Lemma HasPrefix_spec s p : HasPrefix s p = true ↔ ∃ r, s = p +:+ r.
Proof.
  unfold HasPrefix. revert s. induction p as [|a p IH]; intros s.
  { split; [intros _; by exists s|]. by destruct s. }
  destruct s as [|b s]; [split; [done|by intros [r ?]]|].
  cbn [String.prefix]. destruct (ascii_dec a b) as [->|Hne].
  - rewrite IH. split; intros [r Hr]; exists r.
    + by rewrite ?str_app_cons, Hr.
    + rewrite str_app_cons in Hr. by simplify_eq.
  - split; [done|]. intros [r Hr]. rewrite str_app_cons in Hr. by simplify_eq.
Qed.

Lemma HasPrefix_app p r : HasPrefix (p +:+ r) p = true.
Proof. apply HasPrefix_spec. eauto. Qed.

Lemma TrimPrefix_app p r : TrimPrefix (p +:+ r) p = r.
Proof. unfold TrimPrefix. by rewrite HasPrefix_app, str_drop_app. Qed.

Lemma TrimPrefix_no s p : HasPrefix s p = false → TrimPrefix s p = s.
Proof. unfold TrimPrefix. by intros ->. Qed.

Lemma HasPrefix_nil s : HasPrefix s "" = true.
Proof. by apply HasPrefix_spec; exists s. Qed.

(** *** Bytes of a string *)

Definition str_elems (s : string) : list ascii := list_ascii_of_string s.

Lemma str_elems_app s t : str_elems (s +:+ t) = str_elems s ++ str_elems t.
Proof. induction s as [|a s IH]; [done|]. rewrite ?str_app_cons. simpl. by f_equal. Qed.

(** *** Split and Join *)

Lemma Split_nonnil s c : Split s c ≠ [].
Proof. destruct s; simpl; [done|]. by repeat case_match. Qed.

Lemma Split_no_sep s c w : w ∈ Split s c → c ∉ str_elems w.
Proof.
  revert w. induction s as [|a s IH]; intros w; simpl.
  { intros ->%list_elem_of_singleton. apply not_elem_of_nil. }
  destruct (decide (a = c)) as [->|Hne].
  { intros [->|Hw]%elem_of_cons; [apply not_elem_of_nil|auto]. }
  destruct (Split s c) as [|h t] eqn:E; [by destruct (Split_nonnil s c)|].
  intros [->|Hw]%elem_of_cons.
  - simpl. rewrite elem_of_cons. intros [->|?]; [done|]. eapply IH; [|done]. constructor.
  - apply IH. by constructor.
Qed.

Lemma Split_single w c : c ∉ str_elems w → Split w c = [w].
Proof.
  induction w as [|a w IH]; simpl; [done|].
  rewrite elem_of_cons. intros Hn. rewrite decide_False by naive_solver.
  rewrite IH by naive_solver. done.
Qed.

Lemma Split_app_sep w r c :
  c ∉ str_elems w → Split (w +:+ String c r) c = w :: Split r c.
Proof.
  induction w as [|a w IH]; simpl; intros Hn.
  { rewrite ?str_app_nil_l. simpl. by rewrite decide_True. }
  rewrite elem_of_cons in Hn. rewrite ?str_app_cons. simpl.
  rewrite decide_False by naive_solver. rewrite IH by naive_solver. done.
Qed.

Lemma Join_cons x l sep : l ≠ [] → Join (x :: l) sep = x +:+ sep +:+ Join l sep.
Proof. by destruct l. Qed.

Lemma Split_Join (l : list string) c :
  l ≠ [] → Forall (λ w, c ∉ str_elems w) l → Split (Join l (String c "")) c = l.
Proof.
  intros Hnn Hf. induction Hf as [|w l Hw Hf IH]; [done|].
  destruct l as [|w' l]; [by apply Split_single|].
  rewrite Join_cons by done. rewrite ?str_app_cons, ?str_app_nil_l.
  rewrite Split_app_sep by done. f_equal. by apply IH.
Qed.

Lemma Join_Split s c : Join (Split s c) (String c "") = s.
Proof.
  induction s as [|a s IH]; simpl; [done|].
  destruct (decide (a = c)) as [->|Hne].
  { rewrite Join_cons by apply Split_nonnil. by rewrite IH. }
  destruct (Split s c) as [|h t] eqn:E; [by destruct (Split_nonnil s c)|].
  destruct t as [|h' t]; [simpl in *; by subst|].
  rewrite Join_cons in IH |- * by done. rewrite ?str_app_cons. by rewrite <-IH.
Qed.

Lemma Split_inj s t c : Split s c = Split t c → s = t.
Proof. intros H. by rewrite <-(Join_Split s c), <-(Join_Split t c), H. Qed.

Lemma Join_app l1 l2 sep :
  l1 ≠ [] → l2 ≠ [] → Join (l1 ++ l2) sep = Join l1 sep +:+ sep +:+ Join l2 sep.
Proof.
  intros H1 H2. induction l1 as [|x l1 IH]; [done|]. destruct l1 as [|y l1].
  { simpl app. by rewrite Join_cons. }
  change ((x :: y :: l1) ++ l2) with (x :: ((y :: l1) ++ l2)).
  rewrite !Join_cons by done. rewrite IH by done. by rewrite !str_app_assoc.
Qed.

Lemma SplitN2_app w r c :
  c ∉ str_elems w → SplitN2 (w +:+ String c r) c = [w; r].
Proof.
  induction w as [|a w IH]; simpl; intros Hn.
  { rewrite ?str_app_nil_l. simpl. by rewrite decide_True. }
  rewrite elem_of_cons in Hn. rewrite ?str_app_cons. simpl.
  rewrite decide_False by naive_solver. rewrite IH by naive_solver. done.
Qed.

Lemma SplitN2_none w c : c ∉ str_elems w → SplitN2 w c = [w].
Proof.
  induction w as [|a w IH]; simpl; [done|].
  rewrite elem_of_cons. intros Hn. rewrite decide_False by naive_solver.
  rewrite IH by naive_solver. done.
Qed.

Lemma SplitN2_cases s c :
  (∃ w r, s = w +:+ String c r ∧ (c ∉ str_elems w) ∧ SplitN2 s c = [w; r]) ∨
  ((c ∉ str_elems s) ∧ SplitN2 s c = [s]).
Proof.
  induction s as [|a s IH]; simpl; [right; split; [apply not_elem_of_nil|done]|].
  destruct (decide (a = c)) as [->|Hne].
  { left. exists "", s. split_and!; [done|apply not_elem_of_nil|done]. }
  destruct IH as [(w & r & -> & Hw & ->)|[Hs ->]].
  - left. exists (String a w), r. rewrite ?str_app_cons. simpl.
    split_and!; [done| |done]. rewrite elem_of_cons. naive_solver.
  - right. rewrite elem_of_cons. naive_solver.
Qed.

(** *** Trimming *)

Lemma trim_right_spec P s :
  ∃ r, s = trim_right P s +:+ r ∧ Forall (λ a, P a = true) (str_elems r).
Proof.
  induction s as [|a s (r & Hs & Hr)]; simpl; [by exists ""|].
  destruct (trim_right P s) as [|b t] eqn:E.
  - rewrite ?str_app_nil_l in Hs. subst. destruct (P a) eqn:Ea.
    + exists (String a r). split; [done|]. by constructor.
    + exists r. done.
  - exists r. split; [|done]. rewrite ?str_app_cons. by f_equal.
Qed.

(** [TrimRight] takes a set of bytes, not a suffix: it removes the suffix exactly
    when the byte before it is outside the set. *)
Lemma trim_right_app P s r :
  Forall (λ a, P a = true) (str_elems r) →
  trim_right P s = s → trim_right P (s +:+ r) = s.
Proof.
  intros Hr. induction s as [|a s IH]; intros Hs.
  { rewrite ?str_app_nil_l. induction r as [|b r IHr]; [done|].
    simpl in *. apply Forall_cons in Hr as [Hb Hr]. rewrite IHr by done. by rewrite Hb. }
  rewrite ?str_app_cons. simpl in *.
  destruct (trim_right P s) as [|b t] eqn:E.
  - destruct (P a) eqn:Ea; [done|]. simplify_eq. by rewrite IH by done.
  - injection Hs as Hs. rewrite IH by done. rewrite <-Hs. done.
Qed.

Lemma trim_right_none P s :
  Forall (λ a, P a = false) (str_elems s) → trim_right P s = s.
Proof.
  induction s as [|a s IH]; simpl; [done|]. intros [Ha Hs]%Forall_cons.
  rewrite IH by done. destruct s; [by rewrite Ha|done].
Qed.

(** *** Order: a proper prefix sorts first *)

Lemma str_le_app s t : String.le s (s +:+ t).
Proof.
  unfold String.le, String.leb. induction s as [|a s IH]; simpl.
  { by destruct t. }
  rewrite ?str_app_cons. simpl. unfold Ascii.compare. rewrite N.compare_refl. done.
Qed.

(** *** Numbers *)

Lemma digit_val_char d : (0 <= d < 10)%Z → digit_val (digit_char d) = Some d.
Proof.
  intros H. unfold digit_val, digit_char.
  rewrite N_ascii_embedding by lia.
  assert ((48 <=? Z.to_N (48 + d))%N = true) as -> by (apply N.leb_le; lia).
  assert ((Z.to_N (48 + d) <=? 57)%N = true) as -> by (apply N.leb_le; lia).
  simpl. f_equal. lia.
Qed.

Lemma parse_digits_app s t acc :
  parse_digits (s +:+ t) acc = (z ← parse_digits s acc; parse_digits t z).
Proof.
  revert acc. induction s as [|a s IH]; intros acc; [done|].
  rewrite ?str_app_cons. simpl. destruct (digit_val a); simpl; [apply IH|done].
Qed.

Lemma parse_print_digits fuel z acc :
  (0 <= z)%Z → (z < 2 ^ Z.of_nat fuel)%Z →
  ∃ p, print_digits fuel z acc = p +:+ acc ∧ parse_digits p 0 = Some z
    ∧ (p = "" → z = 0%Z ∧ fuel = 0).
Proof.
  revert z acc. induction fuel as [|fuel IH]; intros z acc Hz Hf.
  { exists "". rewrite ?str_app_nil_l. simpl. replace z with 0%Z by lia. done. }
  simpl. destruct (Z.ltb_spec z 10).
  { exists (String (digit_char z) ""). rewrite Z.mod_small by lia.
    rewrite ?str_app_cons, ?str_app_nil_l. simpl. rewrite digit_val_char by lia.
    simpl. split_and!; [done|f_equal; lia|done]. }
  destruct (IH (z / 10)%Z (String (digit_char (z mod 10)) acc)) as (p & -> & Hp & Hne).
  { apply Z.div_pos; lia. }
  { apply Z.div_lt_upper_bound; [lia|]. rewrite Nat2Z.inj_succ, Z.pow_succ_r in Hf; lia. }
  exists (p +:+ String (digit_char (z mod 10)) "").
  rewrite str_app_assoc, ?str_app_cons, ?str_app_nil_l. split_and!; [done| |].
  - rewrite parse_digits_app, Hp. simpl. pose proof (Z.mod_pos_bound z 10).
    rewrite digit_val_char by lia. simpl. f_equal.
    pose proof (Z.div_mod z 10). lia.
  - intros E. by destruct p.
Qed.

Lemma print_nat_spec z :
  (0 <= z)%Z → parse_nat (print_nat z) = Some z ∧ print_nat z ≠ "".
Proof.
  intros Hz. unfold print_nat, parse_nat.
  destruct (parse_print_digits (S (Z.to_nat (Z.log2 z))) z "") as (p & -> & Hp & Hne); [done| |].
  { destruct (decide (z = 0%Z)) as [->|]; [done|].
    rewrite Nat2Z.inj_succ, Z2Nat.id by apply Z.log2_nonneg.
    apply Z.log2_spec. lia. }
  rewrite str_app_nil_r. destruct (decide (p = "")) as [->|Hp0]; [|done].
  destruct (Hne eq_refl). lia.
Qed.

Lemma print_nat_digits_elems fuel z acc a :
  (0 <= z)%Z → a ∈ str_elems (print_digits fuel z acc) →
  (∃ d, (0 <= d < 10)%Z ∧ a = digit_char d) ∨ a ∈ str_elems acc.
Proof.
  revert z acc. induction fuel as [|fuel IH]; intros z acc Hz; simpl; [by right|].
  pose proof (Z.mod_pos_bound z 10).
  destruct (z <? 10)%Z.
  - simpl. rewrite elem_of_cons. intros [->|?]; [left; eexists; split; [|done]; lia|by right].
  - intros [?|Ha]%IH; [by left| |apply Z.div_pos; lia].
    simpl in Ha. apply elem_of_cons in Ha as [->|?]; [|by right].
    left. eexists. split; [|done]. lia.
Qed.

Lemma print_nat_elems z a :
  (0 <= z)%Z → a ∈ str_elems (print_nat z) →
  ∃ d, (0 <= d < 10)%Z ∧ a = digit_char d.
Proof.
  intros Hz [?|Ha]%print_nat_digits_elems; [done| |done]. by apply not_elem_of_nil in Ha.
Qed.

(** Different numbers are printed differently. *)
Lemma Itoa_inj a b : (0 <= a)%Z → (0 <= b)%Z → Itoa a = Itoa b → a = b.
Proof.
  intros Ha Hb. unfold Itoa. rewrite !(proj2 (Z.ltb_ge _ 0)) by done. intros E.
  destruct (print_nat_spec a Ha) as [Pa _], (print_nat_spec b Hb) as [Pb _]. congruence.
Qed.

Lemma Itoa_plain z c :
  (∀ d, (0 <= d < 10)%Z → c ≠ digit_char d) → c ≠ "-"%char → c ∉ str_elems (Itoa z).
Proof.
  intros Hd Hm. unfold Itoa. destruct (Z.ltb_spec z 0).
  - rewrite str_elems_app. intros [Hin|Hin]%elem_of_app.
    + apply list_elem_of_singleton in Hin. done.
    + apply print_nat_elems in Hin as (d & ? & ->); [|lia]. by apply (Hd d).
  - intros (d & ? & ->)%print_nat_elems; [|done]. by apply (Hd d).
Qed.

Lemma Itoa_no_digit z c : digit_val c = None → c ≠ "-"%char → c ∉ str_elems (Itoa z).
Proof. intros Hc Hm. apply Itoa_plain; [|done]. intros d Hd ->. by rewrite digit_val_char in Hc by done. Qed.

Lemma ReplaceOnce_prefix p r new : ReplaceOnce (p +:+ r) p new = new +:+ r.
Proof.
  unfold ReplaceOnce. assert (Index (p +:+ r) p = Some 0) as ->.
  { pose proof (HasPrefix_app p r) as Hp. unfold HasPrefix in Hp. destruct (p +:+ r); simpl in *; by rewrite Hp. }
  simpl. by rewrite str_drop_app.
Qed.

Lemma Index_shorter s sub : String.length s < String.length sub → Index s sub = None.
Proof.
  assert (∀ s, String.length s < String.length sub → String.prefix sub s = false) as Hp.
  { intros s' Hl. destruct (String.prefix sub s') eqn:E; [|done].
    assert (HasPrefix s' sub = true) as [r ->]%HasPrefix_spec by done.
    rewrite str_length_app in Hl. lia. }
  induction s as [|a s IH]; intros Hl; cbn [Index]; rewrite Hp by done; [done|].
  simpl in Hl. by rewrite IH by lia.
Qed.

Lemma ReplaceOnce_shorter s old new :
  String.length s < String.length old → ReplaceOnce s old new = s.
Proof. intros Hl. unfold ReplaceOnce. by rewrite Index_shorter. Qed.
