(* ===== verification/GoPath.v ===== *)
(** * The part of Go's [path] and [path/filepath] packages (Unix) the program uses

    [Clean], [Join], [Dir], [Base], [IsAbs] and [Rel], and their behaviour on
    absolute paths given by their components. *)

From S2P Require Import Prelude GoStrings.

Definition slash : ascii := "/"%char.

(** ** Definitions *)

(** One element of [Clean]'s scan; the stack holds the kept elements, last first. *)
Definition clean_step (rooted : bool) (stack : list string) (w : string) : list string :=
  if decide (w = "" ∨ w = ".") then stack
  else if decide (w = "..") then
    match stack with
    | [] => if rooted then [] else [".."]
    | t :: rest => if decide (t = "..") then ".." :: stack else rest
    end
  else w :: stack.

Definition clean_words (rooted : bool) (p : string) : list string :=
  rev (fold_left (clean_step rooted) (Split p slash) []).

Definition Clean (p : string) : string :=
  if decide (p = "") then "." else
  let rooted := HasPrefix p "/" in
  let ws := clean_words rooted p in
  if rooted then "/" +:+ Join ws "/"
  else if decide (ws = []) then "." else Join ws "/".

Fixpoint drop_empty (l : list string) : list string :=
  match l with
  | [] => []
  | x :: l' => if decide (x = "") then drop_empty l' else l
  end.

Definition PathJoin (elems : list string) : string :=
  match drop_empty elems with
  | [] => ""
  | l => Clean (Join l "/")
  end.

Definition IsAbs (p : string) : bool := HasPrefix p "/".

(** The text up to and including the last slash. *)
Definition dir_text (p : string) : string :=
  match rev (Split p slash) with
  | [] | [_] => ""
  | _ :: init => Join (rev init) "/" +:+ "/"
  end.

Definition Dir (p : string) : string := Clean (dir_text p).

Definition Base (p : string) : string :=
  if decide (p = "") then "." else
  let p' := trim_right (λ a, bool_decide (a = slash)) p in
  if decide (p' = "") then "/" else List.last (Split p' slash) "".

Definition path_words (p : string) : list string := FieldsByte p slash.

Fixpoint strip_common (b t : list string) : list string * list string :=
  match b, t with
  | x :: b', y :: t' => if decide (x = y) then strip_common b' t' else (b, t)
  | _, _ => (b, t)
  end.

(** [filepath.Rel]; [None] is its error. *)
Definition Rel (basepath targpath : string) : option string :=
  let base0 := Clean basepath in
  let targ := Clean targpath in
  if decide (targ = base0) then Some "." else
  let base := if decide (base0 = ".") then "" else base0 in
  if negb (Bool.eqb (HasPrefix base "/") (HasPrefix targ "/")) then None else
  let '(b, t) := strip_common (path_words base) (path_words targ) in
  if decide (head b = Some "..") then None else
  Some (Join (replicate (length b) ".." ++ t) "/").

(** ** Absolute paths by components *)

Definition comp_ok (w : string) : Prop :=
  w ≠ "" ∧ w ≠ "." ∧ w ≠ ".." ∧ slash ∉ str_elems w.

#[global] Instance comp_ok_dec w : Decision (comp_ok w).
Proof. unfold comp_ok. apply _. Defined.

Definition abs_path (cs : list string) : string := "/" +:+ Join cs "/".

(** ** Lemmas *)

Lemma fold_clean_ok r cs st :
  Forall comp_ok cs → fold_left (clean_step r) cs st = rev cs ++ st.
Proof.
  intros Hf. revert st. induction Hf as [|c cs (H1 & H2 & H3 & H4) Hf IH]; intros st; [done|].
  simpl. rewrite IH. unfold clean_step at 1.
  rewrite decide_False by naive_solver. rewrite decide_False by done.
  by rewrite <-app_assoc.
Qed.

Lemma Split_abs_path cs :
  Forall comp_ok cs → Split (abs_path cs) slash = "" :: (if decide (cs = []) then [""] else cs).
Proof.
  intros Hf. unfold abs_path. change ("/" +:+ Join cs "/") with ("" +:+ String slash (Join cs "/")).
  rewrite Split_app_sep by apply not_elem_of_nil. f_equal.
  destruct (decide (cs = [])) as [->|Hne]; [done|].
  apply (Split_Join cs slash); [done|]. eapply Forall_impl; [exact Hf|]. by intros w (?&?&?&?).
Qed.

Lemma HasPrefix_abs_path cs : HasPrefix (abs_path cs) "/" = true.
Proof. apply HasPrefix_app. Qed.

Lemma clean_words_abs_path cs :
  Forall comp_ok cs → clean_words true (abs_path cs) = cs.
Proof.
  intros Hf. unfold clean_words. rewrite Split_abs_path by done. simpl.
  destruct (decide (cs = [])) as [->|Hne]; [done|].
  rewrite fold_clean_ok by done. by rewrite app_nil_r, rev_involutive.
Qed.

Lemma Clean_abs_path cs : Forall comp_ok cs → Clean (abs_path cs) = abs_path cs.
Proof.
  intros Hf. unfold Clean. rewrite decide_False by done.
  rewrite HasPrefix_abs_path, clean_words_abs_path by done. done.
Qed.

(** The kept elements of a rooted path are proper components. *)
Lemma clean_step_ok st w :
  slash ∉ str_elems w → Forall comp_ok st → Forall comp_ok (clean_step true st w).
Proof.
  intros Hw Hst. unfold clean_step. case_decide as E1; [done|]. case_decide as E2.
  - destruct st as [|t st]; [done|]. apply Forall_cons in Hst as [Ht Hst].
    rewrite decide_False by (destruct Ht as (?&?&?&?); done). done.
  - apply Forall_cons. split; [|done]. unfold comp_ok. naive_solver.
Qed.

Lemma clean_words_ok p : Forall comp_ok (clean_words true p).
Proof.
  unfold clean_words. apply Forall_rev.
  assert (∀ ws st, Forall (λ w, slash ∉ str_elems w) ws → Forall comp_ok st →
    Forall comp_ok (fold_left (clean_step true) ws st)) as Hgen.
  { induction ws as [|w ws IH]; intros st Hws Hst; [done|]. simpl.
    apply Forall_cons in Hws as [Hw Hws]. apply IH; [done|]. by apply clean_step_ok. }
  apply Hgen; [|done]. apply Forall_forall. intros w. apply Split_no_sep.
Qed.

Lemma Clean_abs p :
  IsAbs p = true → Clean p = abs_path (clean_words true p) ∧ Forall comp_ok (clean_words true p).
Proof.
  unfold IsAbs. intros Hp. split; [|apply clean_words_ok]. unfold Clean.
  rewrite decide_False by (intros ->; done). by rewrite Hp.
Qed.

Lemma Join_snoc_slash cs c :
  cs ≠ [] → Join (cs ++ [c]) "/" = Join cs "/" +:+ "/" +:+ c.
Proof. intros H. by rewrite Join_app by done. Qed.

Lemma Clean_trailing cs :
  Forall comp_ok cs → cs ≠ [] → Clean (abs_path cs +:+ "/") = abs_path cs.
Proof.
  intros Hf Hne. unfold Clean. rewrite decide_False by done.
  assert (HasPrefix (abs_path cs +:+ "/") "/" = true) as ->.
  { unfold abs_path. rewrite str_app_assoc. apply HasPrefix_app. }
  assert (clean_words true (abs_path cs +:+ "/") = cs) as ->; [|done].
  unfold clean_words.
  assert (abs_path cs +:+ "/" = Join ("" :: cs ++ [""]) "/") as ->.
  { rewrite Join_cons by (by destruct cs). rewrite Join_snoc_slash by done.
    unfold abs_path. rewrite !str_app_assoc. done. }
  rewrite (Split_Join _ slash); [|done|].
  - simpl. rewrite fold_left_app. rewrite (fold_clean_ok true cs), app_nil_r by done.
    apply rev_involutive.
  - apply Forall_cons. split; [apply not_elem_of_nil|]. apply Forall_app. split.
    + eapply Forall_impl; [exact Hf|]. by intros w (?&?&?&?).
    + apply Forall_singleton, not_elem_of_nil.
Qed.

Lemma dir_text_snoc cs c :
  Forall comp_ok (cs ++ [c]) →
  dir_text (abs_path (cs ++ [c])) = Join ("" :: cs) "/" +:+ "/".
Proof.
  intros Hf. unfold dir_text. rewrite Split_abs_path by done.
  rewrite decide_False by (by destruct cs).
  change ("" :: cs ++ [c]) with (("" :: cs) ++ [c]). rewrite rev_app_distr. simpl rev at 1.
  simpl app. destruct (rev cs ++ [""]) as [|x l] eqn:E.
  { by destruct (rev cs). }
  rewrite <-E, rev_app_distr, rev_involutive. done.
Qed.

Lemma Dir_abs_snoc cs c :
  Forall comp_ok (cs ++ [c]) → Dir (abs_path (cs ++ [c])) = abs_path cs.
Proof.
  intros Hf. unfold Dir. rewrite dir_text_snoc by done.
  apply Forall_app in Hf as [Hf _].
  destruct (decide (cs = [])) as [->|Hne]; [done|].
  rewrite Join_cons by done. rewrite str_app_nil_l.
  by apply Clean_trailing.
Qed.

Lemma Dir_root : Dir "/" = "/".
Proof. done. Qed.

Lemma Join_nonempty cs c : comp_ok c → Join (cs ++ [c]) "/" ≠ "".
Proof.
  intros (Hc & _). destruct (decide (cs = [])) as [->|Hne]; [done|].
  rewrite Join_snoc_slash by done. intros E%(f_equal String.length).
  rewrite !str_length_app in E. simpl in E. lia.
Qed.

Lemma abs_path_inj cs ds :
  Forall comp_ok cs → Forall comp_ok ds → abs_path cs = abs_path ds → cs = ds.
Proof.
  intros Hc Hd E. rewrite <-(clean_words_abs_path cs), <-(clean_words_abs_path ds) by done.
  by rewrite E.
Qed.

Lemma trim_right_snoc_ne P s a :
  P a = false → trim_right P (s +:+ String a "") = s +:+ String a "".
Proof.
  intros Ha. induction s as [|b s IH]; simpl.
  { by rewrite ?str_app_nil_l, Ha. }
  rewrite ?str_app_cons. simpl. rewrite IH. by destruct s.
Qed.

Lemma str_snoc_cases s : s = "" ∨ ∃ t a, s = t +:+ String a "".
Proof.
  induction s as [|b s [->|(t & a & ->)]]; [by left| |]; right.
  - by exists "", b.
  - exists (String b t), a. by rewrite ?str_app_cons.
Qed.

Lemma Base_abs_snoc cs c :
  Forall comp_ok (cs ++ [c]) → Base (abs_path (cs ++ [c])) = c.
Proof.
  intros Hf. assert (comp_ok c) as Hc by (apply Forall_app in Hf as [_ Hf]; by apply Forall_cons in Hf as [? _]).
  unfold Base. rewrite decide_False by done.
  assert (trim_right (λ a, bool_decide (a = slash)) (abs_path (cs ++ [c])) = abs_path (cs ++ [c])) as ->.
  { destruct Hc as (Hc & _ & _ & Hs).
    destruct (str_snoc_cases c) as [->|(t & a & ->)]; [done|].
    assert (∃ pre, abs_path (cs ++ [t +:+ String a ""]) = pre +:+ String a "") as [pre ->].
    { unfold abs_path. destruct (decide (cs = [])) as [->|Hne].
      - exists ("/" +:+ t). simpl Join. by rewrite str_app_assoc.
      - rewrite Join_snoc_slash by done.
        exists ("/" +:+ Join cs "/" +:+ "/" +:+ t). by rewrite !str_app_assoc. }
    apply trim_right_snoc_ne. apply bool_decide_eq_false. intros ->. apply Hs.
    rewrite str_elems_app. apply elem_of_app. right. constructor. }
  rewrite decide_False by done. rewrite Split_abs_path by done.
  rewrite decide_False by (by destruct cs).
  change ("" :: cs ++ [c]) with (("" :: cs) ++ [c]). by rewrite last_last.
Qed.

Lemma path_words_abs cs : Forall comp_ok cs → path_words (abs_path cs) = cs.
Proof.
  intros Hf. unfold path_words, FieldsByte. rewrite Split_abs_path by done.
  rewrite filter_cons_False by naive_solver. case_decide as E; [by subst|].
  clear E. induction Hf as [|w cs (?&_) Hf IH]; [done|].
  rewrite filter_cons_True by done. by f_equal.
Qed.

Lemma strip_common_app cs ds : strip_common cs (cs ++ ds) = ([], ds).
Proof. induction cs as [|c cs IH]; simpl; [by destruct ds|]. by rewrite decide_True. Qed.

Lemma Rel_below cs ds :
  Forall comp_ok (cs ++ ds) → ds ≠ [] →
  Rel (abs_path cs) (abs_path (cs ++ ds)) = Some (Join ds "/").
Proof.
  intros Hf Hne. pose proof Hf as [Hc Hd]%Forall_app. unfold Rel.
  rewrite !Clean_abs_path by done. rewrite decide_False.
  2:{ intros E. apply abs_path_inj in E; [|done..].
      apply (f_equal length) in E. rewrite length_app in E. destruct ds; simpl in *; [done|lia]. }
  rewrite (decide_False (P := abs_path cs = ".")) by (unfold abs_path; by destruct (Join cs "/")).
  rewrite !HasPrefix_abs_path. simpl. rewrite !path_words_abs by done.
  by rewrite strip_common_app.
Qed.

(** The directory of an absolute path is absolute and clean. *)
Lemma Dir_abs p : IsAbs p = true → ∃ cs, Forall comp_ok cs ∧ Dir p = abs_path cs.
Proof.
  intros Hp. unfold IsAbs in Hp. apply HasPrefix_spec in Hp as [r ->].
  assert (IsAbs (dir_text ("/" +:+ r)) = true) as Habs.
  { unfold IsAbs, dir_text. change ("/" +:+ r) with ("" +:+ String slash r).
    rewrite Split_app_sep by apply not_elem_of_nil. simpl.
    destruct (rev (Split r slash)) as [|w ws] eqn:E.
    { apply (f_equal (@rev string)) in E. rewrite rev_involutive in E. by apply Split_nonnil in E. }
    simpl. destruct ws as [|w2 ws]; [done|]. simpl. rewrite !rev_app_distr. simpl.
    destruct (rev ws ++ [w2]); [done|]. rewrite str_app_nil_l, str_app_assoc. apply HasPrefix_app. }
  apply Clean_abs in Habs as [E Hf]. eauto.
Qed.

Lemma PathJoin_abs cs name :
  Forall comp_ok cs → cs ≠ [] → comp_ok name →
  PathJoin [abs_path cs; name] = abs_path (cs ++ [name]).
Proof.
  intros Hf Hne Hn. unfold PathJoin. assert (drop_empty [abs_path cs; name] = [abs_path cs; name]) as ->.
  { cbn [drop_empty]. by rewrite decide_False by (unfold abs_path; by destruct (Join cs "/")). }
  change (Join [abs_path cs; name] "/") with (abs_path cs +:+ "/" +:+ name).
  rewrite <-(Clean_abs_path (cs ++ [name])) by (apply Forall_app; auto).
  f_equal. unfold abs_path. rewrite Join_snoc_slash by done. by rewrite !str_app_assoc.
Qed.

Lemma abs_path_snoc cs name : cs ≠ [] → abs_path (cs ++ [name]) = abs_path cs +:+ "/" +:+ name.
Proof. intros Hne. unfold abs_path. rewrite Join_snoc_slash by done. by rewrite !str_app_assoc. Qed.

(** [path.Join("/", p)] is the clean absolute form of [p]. *)
Lemma PathJoin_root p : PathJoin ["/"; p] = abs_path (clean_words true p).
Proof.
  unfold PathJoin. assert (drop_empty ["/"; p] = ["/"; p]) as -> by done.
  change (Join ["/"; p] "/") with ("" +:+ String slash ("" +:+ String slash p)).
  unfold Clean. rewrite decide_False by done.
  assert (HasPrefix ("" +:+ String slash ("" +:+ String slash p)) "/" = true) as ->.
  { apply (HasPrefix_app "/" (String slash p)). }
  unfold clean_words. rewrite !Split_app_sep by apply not_elem_of_nil. done.
Qed.

Lemma Split_snoc_word cs w :
  Forall comp_ok cs → cs ≠ [] → slash ∉ str_elems w →
  Split (abs_path cs +:+ "/" +:+ w) slash = "" :: cs ++ [w].
Proof.
  intros Hf Hne Hw. unfold abs_path. rewrite str_app_assoc, <-Join_snoc_slash by done.
  change ("/" +:+ Join (cs ++ [w]) "/") with ("" +:+ String slash (Join (cs ++ [w]) "/")).
  rewrite Split_app_sep by apply not_elem_of_nil. f_equal. apply (Split_Join (cs ++ [w]) slash).
  - by destruct cs.
  - apply Forall_app. split; [|by constructor]. eapply Forall_impl; [exact Hf|]. by intros x (?&?&?&?).
Qed.

Lemma clean_words_parent cs c :
  Forall comp_ok (cs ++ [c]) → clean_words true (abs_path (cs ++ [c]) +:+ "/..") = cs.
Proof.
  intros Hf. unfold clean_words.
  change "/.." with ("/" +:+ "..").
  rewrite (Split_snoc_word (cs ++ [c]) ".."); [|done|by destruct cs|].
  2:{ intros H. repeat (apply elem_of_cons in H as [H|H]; [done|]). by apply elem_of_nil in H. }
  change ("" :: (cs ++ [c]) ++ [".."]) with ([""] ++ (cs ++ [c]) ++ [".."]).
  rewrite !fold_left_app. cbn [fold_left clean_step].
  assert (clean_step true [] "" = []) as -> by done.
  pose proof Hf as [Hcs Hc]%Forall_app. apply Forall_cons in Hc as [Hc _].
  rewrite fold_clean_ok by done. rewrite app_nil_r.
  assert (clean_step true (rev cs) c = c :: rev cs) as ->.
  { destruct Hc as (H1 & H2 & H3 & _). unfold clean_step.
    by rewrite decide_False, decide_False by naive_solver. }
  assert (clean_step true (c :: rev cs) ".." = rev cs) as ->.
  { destruct Hc as (H1 & H2 & H3 & _). unfold clean_step.
    rewrite decide_False by naive_solver. rewrite decide_True by done. by rewrite decide_False. }
  apply rev_involutive.
Qed.

Lemma Dir_dotdot cs : Forall comp_ok cs → cs ≠ [] → Dir (abs_path cs +:+ "/..") = abs_path cs.
Proof.
  intros Hf Hne. unfold Dir, dir_text. change "/.." with ("/" +:+ "..").
  rewrite (Split_snoc_word cs ".."); [|done|done|].
  2:{ intros H. repeat (apply elem_of_cons in H as [H|H]; [done|]). by apply elem_of_nil in H. }
  change ("" :: cs ++ [".."]) with (("" :: cs) ++ [".."]). rewrite rev_app_distr.
  change (rev [".."] ++ rev ("" :: cs)) with (".." :: rev ("" :: cs)).
  destruct (rev ("" :: cs)) as [|x l] eqn:E.
  { apply (f_equal length) in E. rewrite length_rev in E. done. }
  change (Clean (Join (rev (x :: l)) "/" +:+ "/") = abs_path cs).
  rewrite <-E, rev_involutive, Join_cons by done. rewrite str_app_nil_l. by apply Clean_trailing.
Qed.

Lemma PathJoin_root2 ps ts :
  Forall comp_ok ps → Forall comp_ok ts → ps ≠ [] → ts ≠ [] →
  PathJoin ["/"; abs_path ps; abs_path ts] = abs_path (ps ++ ts).
Proof.
  intros Hp Ht Hpn Htn. unfold PathJoin.
  assert (drop_empty ["/"; abs_path ps; abs_path ts] = ["/"; abs_path ps; abs_path ts]) as -> by done.
  assert (Join ["/"; abs_path ps; abs_path ts] "/" =
          "" +:+ String slash ("" +:+ String slash (abs_path ps +:+ String slash (abs_path ts)))) as -> by done.
  unfold Clean. rewrite decide_False by done.
  assert (HasPrefix ("" +:+ String slash ("" +:+ String slash (abs_path ps +:+ String slash (abs_path ts))))
            "/" = true) as -> by apply (HasPrefix_app "/").
  unfold clean_words. rewrite !Split_app_sep by apply not_elem_of_nil.
  assert (Split (abs_path ps +:+ String slash (abs_path ts)) slash = ("" :: ps) ++ ("" :: ts)) as ->.
  { unfold abs_path at 1.
    change (("/" +:+ Join ps "/") +:+ String slash (abs_path ts))
      with ("" +:+ String slash (Join ps "/" +:+ String slash (abs_path ts))).
    rewrite Split_app_sep by apply not_elem_of_nil. simpl. f_equal.
    assert (Join ps "/" +:+ String slash (abs_path ts) = Join (ps ++ "" :: ts) "/") as ->.
    { rewrite Join_app by done. rewrite (Join_cons "" ts) by done. done. }
    apply (Split_Join (ps ++ "" :: ts) slash); [by destruct ps|].
    apply Forall_app. split; [|constructor; [apply not_elem_of_nil|]].
    all: eapply Forall_impl; [eassumption|]; by intros x (?&?&?&?). }
  cbn [fold_left]. assert (∀ st, clean_step true st "" = st) as He by done.
  rewrite !He, fold_left_app. cbn [fold_left]. rewrite !He.
  rewrite !fold_clean_ok by done. rewrite app_nil_r, <-rev_app_distr, rev_involutive. done.
Qed.
