(* ===== verification/Float64.v ===== *)
(** * Floating-point numbers of 64 bits

    [float64] with the conversions the program uses, on the executable binary floating-point
    numbers of the Standard Library. *)

From Stdlib Require Export SpecFloat.
From S2P Require Import Prelude.

(** [float64(z)], rounded to nearest, and the operations. *)
Definition f64 (z : Z) : spec_float := binary_normalize 53 1024 z 0 false.
Definition fsub : spec_float → spec_float → spec_float := SFsub 53 1024.
Definition fadd : spec_float → spec_float → spec_float := SFadd 53 1024.
Definition fmul : spec_float → spec_float → spec_float := SFmul 53 1024.
Definition fdiv : spec_float → spec_float → spec_float := SFdiv 53 1024.

(** The integral part, towards zero; infinities and NaN have none. *)
Definition ftrunc (x : spec_float) : option Z :=
  match x with
  | S754_zero _ => Some 0%Z
  | S754_finite s m e =>
      let n := Z.shiftl (Z.pos m) e in Some (if s then - n else n)%Z
  | _ => None
  end.

(** [uint32(x)]; Go leaves the result open when it does not fit. *)
Definition f_u32 (unspecified : Z) (x : spec_float) : Z :=
  match ftrunc x with
  | Some z => if bool_decide (0 <= z < 2 ^ 32)%Z then z else unspecified
  | None => unspecified
  end.
