(* ===== verification/GoIo.v ===== *)
(** * Readers and writers

    The interfaces [io.Reader] and [io.Writer] of Go, and the readers of utils/ioutil.go
    and utils/io-limiter.go that wrap another one.

    A reader is characterised by the bytes it has yet to give and the error it ends with;
    the class [Reader] states this law, so that what holds of a client holds for every
    reader and for every way it cuts its bytes into reads. *)

From S2P Require Import Prelude GoStrings.

Definition blen (b : bytes) : Z := Z.of_nat (length b).

(** An [io.Writer]: the count and the error it returns for a buffer. *)
Definition Writer : Type := bytes → Z * option string.

(** ** A source of bytes *)

(** What the successive [Read] calls have to give: bytes, bytes together with [io.EOF], or
    bytes together with another error. After the last event every read is [io.EOF]. *)
Inductive read_event :=
| RChunk (b : bytes)
| RLast (b : bytes)
| RFail (b : bytes) (e : string).

Inductive read_err := NoErr | EOF | RErr (e : string).

(** [Read] into a slice of [room] bytes. *)
Definition Read (room : nat) (src : list read_event) : bytes * read_err * list read_event :=
  match src with
  | [] => ([], EOF, [])
  | RChunk b :: src' =>
      if decide (length b ≤ room) then (b, NoErr, src')
      else (take room b, NoErr, RChunk (drop room b) :: src')
  | RLast b :: src' =>
      if decide (length b ≤ room) then (b, EOF, [])
      else (take room b, NoErr, RLast (drop room b) :: src')
  | RFail b e :: src' =>
      if decide (length b ≤ room) then (b, RErr e, src')
      else (take room b, NoErr, RFail (drop room b) e :: src')
  end.

Fixpoint src_size (src : list read_event) : nat :=
  match src with
  | [] => 0
  | RChunk b :: src' | RLast b :: src' | RFail b _ :: src' => S (length b) + src_size src'
  end.

(** The bytes the source gives, and how it ends. *)
Fixpoint stream_of (src : list read_event) : bytes * option string :=
  match src with
  | [] => ([], None)
  | RChunk b :: src' => let '(d, fin) := stream_of src' in (b ++ d, fin)
  | RLast b :: _ => (b, None)
  | RFail b e :: _ => (b, Some e)
  end.

(** The bytes that come together with the error the source ends with. *)
Fixpoint with_err (src : list read_event) : bytes :=
  match src with
  | [] | RLast _ :: _ => []
  | RChunk _ :: src' => with_err src'
  | RFail b _ :: _ => b
  end.

Lemma with_err_suffix src : with_err src `suffix_of` (stream_of src).1.
Proof.
  induction src as [|[b|b|b e] src IH]; simpl; [done| |by eexists; rewrite app_nil_r|done].
  destruct (stream_of src) as [d fin]. by apply suffix_app_r.
Qed.

Lemma with_err_eof src : (stream_of src).2 = None → with_err src = [].
Proof.
  induction src as [|[b|b|b e] src IH]; simpl; [done| |done|done]. by destruct (stream_of src).
Qed.

Lemma blen_app a b : blen (a ++ b) = (blen a + blen b)%Z.
Proof. unfold blen. rewrite length_app. lia. Qed.

Lemma stream_size src : length (stream_of src).1 ≤ src_size src.
Proof.
  induction src as [|[b|b|b e] src IH]; simpl; [lia|..|lia|lia].
  destruct (stream_of src). simpl in *. rewrite length_app. lia.
Qed.


(** ** The interface of readers *)

(** A result of [Read] into [room] bytes agrees with what the reader has yet to give; a
    read without error makes progress, measured by [size]. *)
Definition read_law {R} (stream : R → bytes * option string) (size : R → nat)
    (room : nat) (r : R) (x : bytes * read_err * R) : Prop :=
  let '(b, err, r') := x in
  length b ≤ room ∧
  match err with
  | NoErr => stream r = (b ++ (stream r').1, (stream r').2) ∧ size r' < size r
  | EOF => stream r = (b, None)
  | RErr e => stream r = (b, Some e)
  end.

Class Reader (R : Type) := {
  rd : nat → R → bytes * read_err * R;
  rstream : R → bytes * option string;
  rsize : R → nat;
  rmax : Z;                                  (** the largest buffer the law covers *)
  rd_law room r : 0 < room → (Z.of_nat room <= rmax)%Z →
    read_law rstream rsize room r (rd room r)
}.

Lemma source_law room src :
  0 < room → read_law stream_of src_size room src (Read room src).
Proof.
  intros Hroom. destruct src as [|[b|b|b e] src]; cbn [Read]; [split; [simpl; lia|done]|..].
  - case_decide; cbn [read_law stream_of src_size].
    + split; [lia|]. destruct (stream_of src); simpl. split; [done|lia].
    + rewrite length_take, length_drop. destruct (stream_of src) as [d fin]; simpl.
      split; [lia|]. split; [by rewrite app_assoc, take_drop|lia].
  - case_decide; cbn [read_law stream_of src_size].
    + by split; [lia|].
    + rewrite length_take, length_drop. simpl. split; [lia|].
      split; [by rewrite take_drop|lia].
  - case_decide; cbn [read_law stream_of src_size].
    + by split; [lia|].
    + rewrite length_take, length_drop. simpl. split; [lia|].
      split; [by rewrite take_drop|lia].
Qed.

#[export] Instance source_reader : Reader (list read_event) :=
  {| rd := Read; rstream := stream_of; rsize := src_size; rmax := 2 ^ 63;
     rd_law := λ room src H _, source_law room src H |}.

(** ** utils/ioutil.go: [SkipReader] *)

Record SkipReader (R : Type) := mkSkip { sk_reader : R; skipCount : Z }.
Arguments mkSkip {R} _ _.
Arguments sk_reader {R} _.
Arguments skipCount {R} _.

Section skip.
Context `{Reader R}.

(** The loop that reads and discards; [None] stands for a loop that does not end. The
    count stays between 0 and its first value, so the subtraction cannot wrap. *)
Fixpoint skip_loop (fuel l : nat) (skip : Z) (r : R) : option (option read_err * Z * R) :=
  if (0 <? skip)%Z then
    match fuel with
    | O => None
    | S fuel' =>
        let l := if (skip <? Z.of_nat l)%Z then Z.to_nat skip else l in
        match rd l r with
        | (b, NoErr, r') => skip_loop fuel' l (skip - blen b)%Z r'
        | (_, e, r') => Some (Some e, skip, r')
        end
    end
  else Some (None, skip, r).

Definition SkipReader_Read (room : nat) (s : SkipReader R) : bytes * read_err * SkipReader R :=
  if decide (room = 0) then ([], NoErr, s) else
  match skip_loop (S (rsize (sk_reader s))) room (skipCount s) (sk_reader s) with
  | None => ([], RErr "does not return", s)
  | Some (Some e, skip, r) => ([], e, mkSkip r skip)
  | Some (None, skip, r) =>
      let '(b, e, r') := rd room r in (b, e, mkSkip r' skip)
  end.

Definition NewSkipReader (r : R) (n : Z) : SkipReader R := mkSkip r n.

(** What is left after skipping. *)
Definition skip_stream (s : SkipReader R) : bytes * option string :=
  (drop (Z.to_nat (skipCount s)) (rstream (sk_reader s)).1, (rstream (sk_reader s)).2).

Lemma skip_loop_law fuel l skip r :
  rsize r < fuel → 0 < l → (Z.of_nat l <= rmax)%Z →
  ∃ e skip' r', skip_loop fuel l skip r = Some (e, skip', r') ∧
    match e with
    | None => (skip' <= 0)%Z ∧ rsize r' ≤ rsize r ∧ skip_stream (mkSkip r skip) = rstream r'
    | Some NoErr => False
    | Some EOF => skip_stream (mkSkip r skip) = ([], None)
    | Some (RErr m) => skip_stream (mkSkip r skip) = ([], Some m)
    end.
Proof.
  revert l skip r. induction fuel as [|fuel IH]; intros l skip r Hf Hl Hm; [lia|].
  cbn [skip_loop]. destruct (Z.ltb_spec 0 skip) as [Hp|Hp].
  2:{ exists None, skip, r. unfold skip_stream. simpl. replace (Z.to_nat skip) with 0 by lia.
      split; [done|]. split; [done|]. split; [lia|]. by destruct (rstream r). }
  set (l' := if (skip <? Z.of_nat l)%Z then Z.to_nat skip else l).
  assert (0 < l' ∧ l' ≤ l ∧ (Z.of_nat l' <= skip)%Z) as (Hl1 & Hl2 & Hl3).
  { unfold l'. destruct (Z.ltb_spec skip (Z.of_nat l)); lia. }
  assert (Z.of_nat l' <= rmax)%Z as Hl4 by lia.
  pose proof (rd_law l' r Hl1 Hl4) as Hlaw.
  destruct (rd l' r) as [[b [| |m]] r']; cbn [read_law] in Hlaw; destruct Hlaw as [Hb Hlaw].
  - destruct Hlaw as [Hst Hsz]. unfold blen.
    destruct (IH l' (skip - Z.of_nat (length b))%Z r') as (e & skip' & r2 & E1 & E2);
      [lia|lia|lia|].
    exists e, skip', r2. split; [exact E1|].
    assert (skip_stream (mkSkip r skip)
            = skip_stream (mkSkip r' (skip - Z.of_nat (length b)))) as ->.
    { unfold skip_stream. simpl. rewrite Hst. simpl. rewrite drop_app_ge by lia.
      do 2 f_equal. lia. }
    destruct e as [[]|]; [done..|]. destruct E2 as (? & ? & ?). split; [done|]. split; [lia|done].
  - eexists (Some EOF), skip, r'. split; [done|]. unfold skip_stream. simpl. rewrite Hlaw. simpl.
    rewrite drop_ge by lia. done.
  - eexists (Some (RErr m)), skip, r'. split; [done|]. unfold skip_stream. simpl. rewrite Hlaw. simpl.
    rewrite drop_ge by lia. done.
Qed.

Lemma SkipReader_law room s :
  0 < room → (Z.of_nat room <= rmax)%Z →
  read_law skip_stream (λ s, rsize (sk_reader s)) room s (SkipReader_Read room s).
Proof.
  intros Hroom Hmax. unfold SkipReader_Read. rewrite decide_False by lia.
  destruct (skip_loop_law (S (rsize (sk_reader s))) room (skipCount s) (sk_reader s))
    as (e & skip' & r' & -> & He); [lia|done|done|].
  destruct s as [r skip]. cbn [sk_reader skipCount] in *.
  destruct e as [[| |m]|]; [done|split; [simpl; lia|done]|split; [simpl; lia|done]|].
  destruct He as (Hs & Hsz & Hst). pose proof (rd_law room r' Hroom Hmax) as Hlaw.
  destruct (rd room r') as [[b err] r2]. cbn [read_law] in *. destruct Hlaw as [Hb Hlaw].
  split; [done|]. rewrite Hst.
  assert (skip_stream (mkSkip r2 skip') = rstream r2) as Heq.
  { unfold skip_stream. simpl. replace (Z.to_nat skip') with 0 by lia. by destruct (rstream r2). }
  destruct err; [|done..]. rewrite Heq. destruct Hlaw. split; [done|]. simpl. lia.
Qed.

#[export] Instance skip_reader : Reader (SkipReader R) :=
  {| rd := SkipReader_Read; rstream := skip_stream;
     rsize := λ s, rsize (sk_reader s); rmax := rmax; rd_law := SkipReader_law |}.

End skip.

(** ** utils/io-limiter.go: the rate-limited [Reader] and [Writer]

    [WaitN] is the limiter of golang.org/x/time/rate; [None] for the limiter is nil. It is
    documented to fail only for more than the burst size or an expired context, and the
    context of [NewReader] is the background context. *)

Definition burstLimit : Z := 1000 * 1000 * 1000.

Record LimitedReader (R : Type) := mkLimited { lr_reader : R; limited : bool }.
Arguments mkLimited {R} _ _.
Arguments lr_reader {R} _.
Arguments limited {R} _.

Definition NewReader {R} (r : R) : LimitedReader R := mkLimited r false.
Definition SetRateLimit {R} (s : LimitedReader R) : LimitedReader R := mkLimited (lr_reader s) true.

Section limit.
Context `{Reader R} (WaitN : nat → option string).

Definition Limited_Read (room : nat) (s : LimitedReader R) : bytes * read_err * LimitedReader R :=
  let '(b, err, r') := rd room (lr_reader s) in
  let s' := mkLimited r' (limited s) in
  if negb (limited s) then (b, err, s') else
  match err with
  | NoErr => match WaitN (length b) with
             | Some e => (b, RErr e, s')
             | None => (b, NoErr, s')
             end
  | _ => (b, err, s')
  end.

Hypothesis WaitN_burst : ∀ n, (Z.of_nat n <= burstLimit)%Z → WaitN n = None.

Lemma Limited_law room s :
  0 < room → (Z.of_nat room <= Z.min burstLimit rmax)%Z →
  read_law (λ s, rstream (lr_reader s)) (λ s, rsize (lr_reader s)) room s (Limited_Read room s).
Proof.
  intros Hroom Hmax. assert (Z.of_nat room <= rmax)%Z as Hr by lia.
  pose proof (rd_law room (lr_reader s) Hroom Hr) as Hlaw. unfold Limited_Read.
  destruct (rd room (lr_reader s)) as [[b err] r']. cbn [read_law] in Hlaw.
  destruct Hlaw as [Hb Hlaw]. destruct (limited s); cbn [negb]; [|by destruct err].
  destruct err; [|done..]. rewrite WaitN_burst by lia. done.
Qed.

Definition limited_reader : Reader (LimitedReader R) :=
  {| rd := Limited_Read; rstream := λ s, rstream (lr_reader s);
     rsize := λ s, rsize (lr_reader s); rmax := Z.min burstLimit rmax;
     rd_law := Limited_law |}.

End limit.

(** ** Writers with a state *)

(** An [io.Writer]: the count, the error and the writer after the call. *)
Definition SWriter (W : Type) : Type := W → bytes → Z * option string * W.

(** A buffer that takes everything. *)
Definition buffer_write : SWriter bytes := λ w p, (blen p, None, w ++ p).

(** ** Lines *)

(** [ReadBytes('\n')] over a whole source: the complete lines, and the rest, which comes
    with the error the source ends with ([io.EOF] for [None]). *)
Fixpoint split_lines (acc b : bytes) : list bytes * bytes :=
  match b with
  | [] => ([], acc)
  | c :: b' =>
      if decide (c = ascii_of_nat 10)
      then let '(ls, rest) := split_lines [] b' in ((acc ++ [c]) :: ls, rest)
      else split_lines (acc ++ [c]) b'
  end.

(** A complete line. *)
Definition is_line (l : bytes) : Prop :=
  ∃ b, l = b ++ [ascii_of_nat 10] ∧ ascii_of_nat 10 ∉ b.

Lemma split_lines_line acc b d :
  ascii_of_nat 10 ∉ b →
  split_lines acc (b ++ ascii_of_nat 10 :: d) =
    ((acc ++ b ++ [ascii_of_nat 10]) :: (split_lines [] d).1, (split_lines [] d).2).
Proof.
  revert acc. induction b as [|c b IH]; intros acc Hb.
  - cbn [app split_lines]. rewrite decide_True by done. by destruct (split_lines [] d).
  - apply not_elem_of_cons in Hb as [Hc Hb]. cbn [app split_lines].
    rewrite decide_False by done. rewrite IH by done. by rewrite <-app_assoc.
Qed.

Lemma split_lines_rest acc b : ascii_of_nat 10 ∉ b → split_lines acc b = ([], acc ++ b).
Proof.
  revert acc. induction b as [|c b IH]; intros acc Hb; [by rewrite app_nil_r|].
  apply not_elem_of_cons in Hb as [Hc Hb]. cbn [split_lines]. rewrite decide_False by done.
  rewrite IH by done. by rewrite <-app_assoc.
Qed.

Lemma split_lines_concat ls rest :
  Forall is_line ls → ascii_of_nat 10 ∉ rest → split_lines [] (concat ls ++ rest) = (ls, rest).
Proof.
  intros Hls Hr. induction Hls as [|l ls (b & -> & Hb) Hls IH]; [by apply split_lines_rest|].
  cbn [concat]. rewrite <-!app_assoc. cbn [app]. rewrite split_lines_line by done. by rewrite IH.
Qed.
