(* ===== verification/GoUrl.v ===== *)
(** * The part of Go's [net/url] the program uses

    [QueryEscape], and how the query of a URL is read ([URL.Query().Get]). A token put into
    a URL by one is read back by the other. *)

From S2P Require Import Prelude GoStrings.

(** ** Escaping *)

Definition in_range (lo hi c : ascii) : bool :=
  (byte_val lo <=? byte_val c)%Z && (byte_val c <=? byte_val hi)%Z.

(** The bytes a query component may contain as they are. *)
Definition unreserved (c : ascii) : bool :=
  in_range "a" "z" c || in_range "A" "Z" c || in_range "0" "9" c ||
  bool_decide (c ∈ str_elems "-_.~").

Definition upperhex : string := "0123456789ABCDEF".

Definition hex_char (d : Z) : ascii :=
  match str_elems upperhex !! Z.to_nat d with Some c => c | None => "0"%char end.

Definition escape_byte (c : ascii) : list ascii :=
  if unreserved c then [c]
  else if decide (c = " "%char) then ["+"%char]
  else ["%"%char; hex_char (byte_val c / 16); hex_char (byte_val c mod 16)].

Definition QueryEscape (s : string) : string :=
  string_of_list_ascii (concat (escape_byte <$> str_elems s)).

(** [ishex] and [unhex]. *)
Definition unhex (c : ascii) : option Z :=
  if in_range "0" "9" c then Some (byte_val c - 48)%Z
  else if in_range "a" "f" c then Some (byte_val c - 87)%Z
  else if in_range "A" "F" c then Some (byte_val c - 55)%Z
  else None.

Fixpoint unescape (b : list ascii) : option (list ascii) :=
  match b with
  | [] => Some []
  | c :: b1 =>
      if decide (c = "%"%char) then
        match b1 with
        | h :: (l :: b3) as b2 =>
            match unhex h, unhex l with
            | Some x, Some y => cons (byte_of (x * 16 + y)) <$> unescape b3
            | _, _ => None
            end
        | _ => None
        end
      else cons (if decide (c = "+"%char) then " "%char else c) <$> unescape b1
  end.

Definition QueryUnescape (s : string) : option string :=
  string_of_list_ascii <$> unescape (str_elems s).

(** ** Queries *)

(** One element of a query: a key with its value, or nothing when it is empty, has a
    semicolon or a wrong escape. *)
Definition parse_pair (s : string) : option (string * string) :=
  if decide (";"%char ∈ str_elems s) then None
  else if decide (s = "") then None
  else
    let '(k, v) := match SplitN2 s "=" with [k; v] => (k, v) | _ => (s, "") end in
    match QueryUnescape k, QueryUnescape v with
    | Some k, Some v => Some (k, v)
    | _, _ => None
    end.

Definition ParseQuery (q : string) : list (string * string) := omap parse_pair (Split q "&").

(** [url.Query().Get(key)]. *)
Fixpoint query_find (l : list (string * string)) (key : string) : string :=
  match l with
  | [] => ""
  | (k, v) :: l' => if decide (k = key) then v else query_find l' key
  end.

Definition QueryGet (url key : string) : string :=
  match SplitN2 url "?" with
  | [_; q] => query_find (ParseQuery q) key
  | _ => ""
  end.

(** ** Round trip *)

Lemma unescape_byte c b : unescape (escape_byte c ++ b) = cons c <$> unescape b.
Proof. destruct c as [[] [] [] [] [] [] [] []]; reflexivity. Qed.

Lemma unescape_escape b : unescape (concat (escape_byte <$> b)) = Some b.
Proof.
  induction b as [|c b IH]; [done|]. rewrite fmap_cons. cbn [concat].
  by rewrite unescape_byte, IH.
Qed.

Lemma str_elems_of b : str_elems (string_of_list_ascii b) = b.
Proof. apply Stdlib.Strings.String.list_ascii_of_string_of_list_ascii. Qed.

Lemma of_str_elems s : string_of_list_ascii (str_elems s) = s.
Proof. apply Stdlib.Strings.String.string_of_list_ascii_of_string. Qed.

Lemma QueryUnescape_Escape s : QueryUnescape (QueryEscape s) = Some s.
Proof.
  unfold QueryUnescape, QueryEscape. rewrite str_elems_of, unescape_escape. simpl. by rewrite of_str_elems.
Qed.

(** An escaped text has none of the bytes a query is cut at. *)
Lemma QueryEscape_plain s c : c ∈ str_elems "&;=?" → c ∉ str_elems (QueryEscape s).
Proof.
  intros Hc. unfold QueryEscape. rewrite str_elems_of. induction (str_elems s) as [|a b IH]; [set_solver|].
  rewrite fmap_cons. cbn [concat]. rewrite elem_of_app. intros [H|H]; [|done]. revert H.
  apply (bool_decide_unpack (c ∉ escape_byte a)). clear b IH s.
  assert (∀ x, x ∈ str_elems "&;=?" → bool_decide (x ∉ escape_byte a)) as Hall; [|by apply Hall].
  intros x Hx. repeat (apply elem_of_cons in Hx as [->|Hx]; [destruct a as [[] [] [] [] [] [] [] []]; exact I|]).
  by apply not_elem_of_nil in Hx.
Qed.

Definition print_pair (p : string * string) : string := p.1 +:+ "=" +:+ QueryEscape p.2.

(** A key that needs no escape. *)
Definition plain_key (k : string) : Prop := k ≠ "" ∧ QueryEscape k = k.

Lemma print_pair_plain p c : plain_key p.1 → c ∈ str_elems "&;?" → c ∉ str_elems (print_pair p).
Proof.
  intros [_ Hkey] Hc. unfold print_pair. rewrite !str_elems_app, !not_elem_of_app.
  assert (c ∈ str_elems "&;=?") as Hc' by (revert Hc; vm_compute str_elems; set_solver).
  split; [rewrite <-Hkey; by apply QueryEscape_plain|]. split; [|by apply QueryEscape_plain].
  revert Hc. vm_compute str_elems. rewrite !elem_of_cons. intros [->|[->|[->|Hc]]]; [by_decide..|].
  by apply not_elem_of_nil in Hc.
Qed.

Lemma parse_print_pair p : plain_key p.1 → parse_pair (print_pair p) = Some p.
Proof.
  destruct p as [k v]. intros Hk. pose proof Hk as [Hne Hkey]. cbn [fst] in *. unfold parse_pair.
  rewrite decide_False by (apply print_pair_plain; [done|by_decide]).
  rewrite decide_False by (unfold print_pair; by destruct k).
  unfold print_pair. cbn [fst snd]. change ("=" +:+ QueryEscape v) with (String "=" (QueryEscape v)).
  rewrite SplitN2_app by (rewrite <-Hkey; apply QueryEscape_plain; by_decide).
  rewrite <-Hkey at 1. by rewrite !QueryUnescape_Escape.
Qed.

(** A query is read back as it was put together. *)
Lemma ParseQuery_print ps :
  ps ≠ [] → Forall (λ p, plain_key p.1) ps → ParseQuery (Join (print_pair <$> ps) "&") = ps.
Proof.
  intros Hne Hps. unfold ParseQuery. rewrite Split_Join.
  - clear Hne. induction Hps as [|p ps Hp Hps IH]; [done|]. rewrite fmap_cons. cbn [omap list_omap].
    by rewrite parse_print_pair, IH.
  - by destruct ps.
  - apply Forall_fmap. eapply Forall_impl; [exact Hps|]. intros p Hp. apply print_pair_plain; [done|by_decide].
Qed.

Lemma QueryGet_print u ps key :
  "?"%char ∉ str_elems u → ps ≠ [] → Forall (λ p, plain_key p.1) ps →
  QueryGet (u +:+ "?" +:+ Join (print_pair <$> ps) "&") key = query_find ps key.
Proof.
  intros Hu Hne Hps. unfold QueryGet.
  change ("?" +:+ Join (print_pair <$> ps) "&") with (String "?" (Join (print_pair <$> ps) "&")).
  by rewrite SplitN2_app, ParseQuery_print.
Qed.
