(* ===== verification/IoUtils.v ===== *)
(** * Copying, limiting and packing bytes

    utils/functions.go: [ioCopy], [UDPPacket] and [ReadUDPPacket]; utils/ioutil.go:
    [WriteOnCloser], [DeadlineWriter], [LimitWriter] and the reading of tar archives;
    utils/io-limiter.go: the rate-limited [Writer].

    The clients of a reader are proved for every [Reader]; a writer is any function on a
    state of its own. *)

From S2P Require Import Prelude GoStrings GoIo.

(** ** [ioCopy] *)

Record CopyResult (W : Type) := mkCopyResult {
  cp_written : Z;
  isSrcErr : bool;
  cp_err : read_err;
  cp_counts : list Z;        (** the calls of the counting callback *)
  cp_dst : W
}.
Arguments mkCopyResult {W} _ _ _ _ _.
Arguments cp_written {W} _.
Arguments isSrcErr {W} _.
Arguments cp_err {W} _.
Arguments cp_counts {W} _.
Arguments cp_dst {W} _.

Section ioCopy.
Context `{Reader R} {W : Type} (write : SWriter W).

(** The loop; [None] stands for a loop that does not end. *)
Fixpoint ioCopy_loop (fuel : nat) (written : Z) (counts : list Z) (dst : W) (src : R)
    : option (CopyResult W) :=
  match fuel with
  | O => None
  | S fuel' =>
      let '(buf, er, src) := rd (Z.to_nat (32 * 1024)) src in
      let after := λ written counts dst,
        match er with
        | NoErr => ioCopy_loop fuel' written counts dst src
        | _ => Some (mkCopyResult written true er counts dst)
        end in
      if (0 <? blen buf)%Z then
        let '(nw, ew, dst) := write dst buf in
        let '(written, counts) :=
          if (0 <? nw)%Z then (i64 (written + nw), counts ++ [nw]) else (written, counts) in
        match ew with
        | Some e => Some (mkCopyResult written false (RErr e) counts dst)
        | None =>
            if negb (blen buf =? nw)%Z
            then Some (mkCopyResult written false (RErr "short write") counts dst)
            else after written counts dst
        end
      else after written counts dst
  end.

Definition ioCopy (dst : W) (src : R) : option (CopyResult W) :=
  ioCopy_loop (S (rsize src)) 0 [] dst src.

End ioCopy.

(** ** UDP packets in a stream *)

Definition LE16 (z : Z) : bytes := [byte_of z; byte_of (z / 2 ^ 8)].
Definition Uint16 (b : bytes) : Z :=
  match b with
  | [b0; b1] => (byte_val b0 + byte_val b1 * 2 ^ 8)%Z
  | _ => 0
  end.

Definition UDPPacket (srcAddr : string) (packet : bytes) : bytes :=
  let addrBytes := str_elems srcAddr in
  LE16 (u16 (blen addrBytes)) ++ addrBytes ++ LE16 (u16 (blen packet)) ++ packet.

(** [bufio.Reader] with its default buffer of 4096 bytes. *)
Record Bufio (R : Type) := mkBufio { bf_buf : bytes; bf_err : read_err; bf_src : R }.
Arguments mkBufio {R} _ _ _.
Arguments bf_buf {R} _.
Arguments bf_err {R} _.
Arguments bf_src {R} _.

Definition bufio_size : nat := Z.to_nat 4096.

Section bufio.
Context `{Reader R}.

Definition bufio_copy (room : nat) (b : Bufio R) : bytes * read_err * Bufio R :=
  (take room (bf_buf b), NoErr, mkBufio (drop room (bf_buf b)) (bf_err b) (bf_src b)).

Definition bufio_Read (room : nat) (b : Bufio R) : bytes * read_err * Bufio R :=
  if decide (room = 0) then
    match bf_buf b with
    | [] => ([], bf_err b, mkBufio [] NoErr (bf_src b))
    | _ => ([], NoErr, b)
    end
  else
    match bf_buf b, bf_err b with
    | [], NoErr =>
        if decide (bufio_size ≤ room) then
          let '(d, e, r) := rd room (bf_src b) in (d, e, mkBufio [] NoErr r)
        else
          let '(d, e, r) := rd bufio_size (bf_src b) in
          match d with
          | [] => ([], e, mkBufio [] NoErr r)
          | _ => bufio_copy room (mkBufio d e r)
          end
    | [], e => ([], e, mkBufio [] NoErr (bf_src b))
    | _, _ => bufio_copy room b
    end.

(** [io.ReadFull], as [binary.Read] uses it. *)
Fixpoint ReadFull (fuel need : nat) (acc : bytes) (b : Bufio R)
    : option (bytes * read_err * Bufio R) :=
  match fuel with
  | O => None
  | S fuel' =>
      let '(d, e, b) := bufio_Read need b in
      let acc := acc ++ d in
      if decide (need ≤ length d) then Some (acc, NoErr, b) else
      match e with
      | NoErr => ReadFull fuel' (need - length d) acc b
      | EOF => Some (acc, match acc with [] => EOF | _ => RErr "unexpected EOF" end, b)
      | RErr m => Some (acc, RErr m, b)
      end
  end.

Definition read_u16 (b : Bufio R) : option (Z * read_err * Bufio R) :=
  match ReadFull (S (S (length (bf_buf b) + rsize (bf_src b)))) 2 [] b with
  | None => None
  | Some (d, NoErr, b) => Some (Uint16 d, NoErr, b)
  | Some (_, e, b) => Some (0%Z, e, b)
  end.

(** [make([]byte, n)] after a read into it. *)
Definition read_into (n : nat) (b : Bufio R) : bytes * nat * read_err * Bufio R :=
  let '(d, e, b) := bufio_Read n b in
  (d ++ replicate (n - length d) "000"%char, length d, e, b).

(** The address, the packet and the error; [None] when it does not return. *)
Definition ReadUDPPacket (conn : R) : option (string * bytes * read_err) :=
  match read_u16 (mkBufio [] NoErr conn) with
  | None => None
  | Some (addrLength, NoErr, b) =>
      match read_into (Z.to_nat addrLength) b with
      | (srcAddr, n, NoErr, b) =>
          if negb (Z.of_nat n =? addrLength)%Z then Some ("", [], NoErr) else
          let srcAddr := string_of_list_ascii srcAddr in
          match read_u16 b with
          | None => None
          | Some (bodyLength, NoErr, b) =>
              let '(packet, n, e, b) := read_into (Z.to_nat bodyLength) b in
              Some (srcAddr, packet, e)
          | Some (_, e, _) => Some (srcAddr, [], e)
          end
      | (_, _, e, _) => Some ("", [], e)
      end
  | Some (_, e, _) => Some ("", [], e)
  end.

End bufio.

(** ** Writers *)

Record LimitWriter (W : Type) := mkLimit { lw_writer : W; skipBytes : Z; wLimit : Z }.
Arguments mkLimit {W} _ _ _.
Arguments lw_writer {W} _.
Arguments skipBytes {W} _.
Arguments wLimit {W} _.

Definition LimitedWriter {W} (w : W) (skip limit : Z) : LimitWriter W := mkLimit w skip limit.

Section writers.
Context {W : Type} (write : SWriter W).

(** [p[:w.wLimit]] panics on a negative limit. *)
Definition LimitWriter_Write (w : LimitWriter W) (p : bytes)
    : outcome (Z * option string * LimitWriter W) :=
  let n := blen p in
  if (0 <? skipBytes w)%Z && (blen p <=? skipBytes w)%Z
  then Ok (n, None, mkLimit (lw_writer w) (skipBytes w - blen p) (wLimit w))
  else
    let '(p, skip) :=
      if (0 <? skipBytes w)%Z then (drop (Z.to_nat (skipBytes w)) p, 0%Z) else (p, skipBytes w) in
    if (wLimit w =? 0)%Z then Ok (n, None, mkLimit (lw_writer w) skip (wLimit w))
    else if (wLimit w <? blen p)%Z then
      if (wLimit w <? 0)%Z then Panic
      else
        let '(n1, err, w') := write (lw_writer w) (take (Z.to_nat (wLimit w)) p) in
        Ok (n, err, mkLimit w' skip (i64 (wLimit w - n1)))
    else
      let '(n1, err, w') := write (lw_writer w) p in
      Ok (n, err, mkLimit w' skip (i64 (wLimit w - n1))).

(** [WriteOnCloser]: [close] is the [Close] of the writer, when it has one. *)
Record WriteOnCloser := mkWOC { woc_writer : W; hasWritten : bool }.

Definition WriteOnClose (w : W) : WriteOnCloser := mkWOC w false.

Definition WOC_Write (w : WriteOnCloser) (p : bytes) : Z * option string * WriteOnCloser :=
  let '(n, err, w') := write (woc_writer w) p in (n, err, mkWOC w' true).

Definition WOC_Close (close : option (W → option string * W)) (w : WriteOnCloser)
    : option string * WriteOnCloser :=
  let '(err, w) :=
    if negb (hasWritten w) then let '(_, err, w) := WOC_Write w [] in (err, w) else (None, w) in
  match err with
  | Some e => (Some e, w)
  | None =>
      match close with
      | Some c => let '(err, w') := c (woc_writer w) in (err, mkWOC w' (hasWritten w))
      | None => (None, w)
      end
  end.

(** [DeadlineWriter]: [in_time] says whether the write returns before the timer; the
    write itself is made in either case. *)
Record DeadlineWriter := mkDeadline { dw_writer : W; dw_err : option string }.

Definition DeadlineWriter_Write (in_time : bool) (w : DeadlineWriter) (buf : bytes)
    : Z * option string * DeadlineWriter :=
  match dw_err w with
  | Some e => (0%Z, Some e, w)
  | None =>
      let '(n, err, w') := write (dw_writer w) buf in
      if in_time then (n, err, mkDeadline w' err)
      else (0%Z, Some "context canceled", mkDeadline w' (Some "context canceled"))
  end.

(** The rate-limited [Writer] of io-limiter.go. *)
Definition Limited_Write (WaitN : Z → option string) (has_limiter : bool) (w : W) (p : bytes)
    : Z * option string * W :=
  let '(n, err, w') := write w p in
  if negb has_limiter then (n, err, w') else
  match err with
  | Some e => (n, Some e, w')
  | None => (n, WaitN n, w')
  end.

End writers.

(** ** Tar archives *)

(** What [tarReader.Next] gives: a header with the contents that follow, or an error; at
    the end, [io.EOF]. *)
Record tar_header := mkHeader { th_name : string; th_size : Z; th_mtime : Z; th_dir : bool }.
Inductive tar_event := TEntry (h : tar_header) (data : bytes) | TError (e : string).

Record FileItem := mkFileItem { fi_Name : string; fi_Size : Z; fi_CreateTime : Z }.

(** An error other than [io.EOF] leaves a nil header, whose use panics. *)
Fixpoint list_loop (res : list FileItem) (tar : list tar_event) : outcome (list FileItem) :=
  match tar with
  | [] => Ok res
  | TError _ :: _ => Panic
  | TEntry h _ :: tar' =>
      if th_dir h then list_loop res tar'
      else list_loop (res ++ [mkFileItem (th_name h) (th_size h) (th_mtime h)]) tar'
  end.

(** [archive] is what opening the file gives: an error, or the entries of the archive
    (gzipped or not). *)
Definition ListFiles (archive : string + list tar_event) : outcome (list FileItem) :=
  match archive with
  | inl e => Err e
  | inr tar => list_loop [] tar
  end.

Fixpoint extract_loop (fileName : string) (tar : list tar_event) : outcome bytes :=
  match tar with
  | [] => Err ("not found file:" +:+ fileName)
  | TError e :: _ => Err e
  | TEntry h data :: tar' =>
      if decide (th_name h = fileName) then Ok data else extract_loop fileName tar'
  end.

(** The data copied to the destination. *)
Definition ExtractFile (archive : string + list tar_event) (fileName : string) : outcome bytes :=
  match archive with
  | inl _ => Err "invalid argument"
  | inr tar => extract_loop fileName tar
  end.

(** [ExtractFileTo] hands the reader of the archive to [cal], which takes what the entry
    still holds to what it leaves unread; [S] is the state the closure works on. *)
Section extract_to.
Context {S : Type} (cal : string → bytes → S → bytes * S).

Fixpoint entry_calls (h : tar_header) (data : bytes) (fileNames : list string) (s : S) : S :=
  match fileNames with
  | [] => s
  | name :: names =>
      if decide (th_name h = name) then
        let '(rest, s) := cal name data s in entry_calls h rest names s
      else entry_calls h data names s
  end.

Fixpoint extract_to_loop (fileNames : list string) (tar : list tar_event) (s : S)
    : option string * S :=
  match tar with
  | [] => (None, s)
  | TError e :: _ => (Some e, s)
  | TEntry h data :: tar' => extract_to_loop fileNames tar' (entry_calls h data fileNames s)
  end.

Definition ExtractFileTo (archive : string + list tar_event) (fileNames : list string) (s : S)
    : option string * S :=
  match archive with
  | inl _ => (Some "invalid argument", s)
  | inr tar => extract_to_loop fileNames tar s
  end.

End extract_to.

(** ** Copying a stream *)

Section copy_lemmas.
Context `{Reader R}.

Lemma copy_room : (Z.of_nat (Z.to_nat (32 * 1024)) = 32768)%Z.
Proof. done. Qed.

(** Each round that goes on makes progress, so the loop ends, whatever the writer does. *)
Lemma ioCopy_loop_returns {W} (write : SWriter W) fuel written counts dst r :
  (32768 <= rmax)%Z → rsize r < fuel →
  ∃ res, ioCopy_loop write fuel written counts dst r = Some res ∧ cp_err res ≠ NoErr.
Proof.
  intros Hmax. revert written counts dst r.
  induction fuel as [|fuel IH]; intros written counts dst r Hf; [lia|].
  pose proof (rd_law (Z.to_nat (32 * 1024)) r ltac:(lia) ltac:(by rewrite copy_room)) as Hlaw.
  cbn [ioCopy_loop]. destruct (rd _ r) as [[b er] r'].
  assert (∀ written counts dst, ∃ res : CopyResult W,
    match er with
    | NoErr => ioCopy_loop write fuel written counts dst r'
    | _ => Some (mkCopyResult written true er counts dst)
    end = Some res ∧ cp_err res ≠ NoErr) as Hafter.
  { intros written' counts' dst'. destruct er; [|by eexists..].
    destruct Hlaw as [_ [_ Hsz]]. apply IH. lia. }
  clear IH Hlaw. destruct (0 <? blen b)%Z; [|apply Hafter].
  destruct (write dst b) as [[nw [e|]] dst'];
    destruct (0 <? nw)%Z; (by eexists) || (destruct (blen b =? nw)%Z; [apply Hafter|by eexists]).
Qed.

Definition copy_end (fin : option string) : read_err :=
  match fin with None => EOF | Some e => RErr e end.

(** One round with a buffer as the destination. *)
Lemma ioCopy_buffer_round fuel written counts dst r :
  ioCopy_loop buffer_write (S fuel) written counts dst r =
  let '(b, er, r') := rd (Z.to_nat (32 * 1024)) r in
  let written := if (0 <? blen b)%Z then i64 (written + blen b) else written in
  let counts := if (0 <? blen b)%Z then counts ++ [blen b] else counts in
  match er with
  | NoErr => ioCopy_loop buffer_write fuel written counts (dst ++ b) r'
  | _ => Some (mkCopyResult written true er counts (dst ++ b))
  end.
Proof.
  cbn [ioCopy_loop]. destruct (rd _ r) as [[b er] r']. unfold buffer_write at 1.
  destruct (Z.ltb_spec 0 (blen b)) as [Hp|Hp].
  - by rewrite Z.eqb_refl.
  - destruct b; [by rewrite app_nil_r|unfold blen in Hp; simpl in Hp; lia].
Qed.

(** Copying into a buffer: everything arrives, in order, and is counted. *)
Lemma ioCopy_loop_buffer fuel written counts dst r :
  (32768 <= rmax)%Z → rsize r < fuel →
  (0 <= written)%Z → (written + blen (rstream r).1 < 2 ^ 63)%Z →
  ∃ counts', ioCopy_loop buffer_write fuel written counts dst r =
    Some (mkCopyResult (written + blen (rstream r).1) true (copy_end (rstream r).2) counts'
            (dst ++ (rstream r).1)) ∧
    foldl Z.add 0%Z counts' = (foldl Z.add 0%Z counts + blen (rstream r).1)%Z.
Proof.
  intros Hmax. revert written counts dst r.
  induction fuel as [|fuel IH]; intros written counts dst r Hf Hw Hlen; [lia|].
  pose proof (rd_law (Z.to_nat (32 * 1024)) r ltac:(lia) ltac:(by rewrite copy_room)) as Hlaw.
  rewrite ioCopy_buffer_round. destruct (rd _ r) as [[b er] r']. destruct Hlaw as [Hb Hlaw].
  cbv zeta.
  assert (0 <= blen b <= blen (rstream r).1)%Z as Hle.
  { unfold blen. destruct er; [destruct Hlaw as [-> _]; simpl; rewrite length_app; lia
                              |rewrite Hlaw; simpl; lia..]. }
  assert ((if (0 <? blen b)%Z then i64 (written + blen b) else written) = (written + blen b)%Z) as ->.
  { destruct (Z.ltb_spec 0 (blen b)); [apply i64_small; unfold in_i64; lia|lia]. }
  set (counts1 := if (0 <? blen b)%Z then counts ++ [blen b] else counts).
  assert (foldl Z.add 0%Z counts1 = (foldl Z.add 0%Z counts + blen b)%Z) as Hc.
  { unfold counts1. destruct (Z.ltb_spec 0 (blen b)); [by rewrite foldl_app|lia]. }
  clearbody counts1. destruct er.
  - destruct Hlaw as [Hst Hsz]. rewrite Hst in Hlen. simpl in Hlen. rewrite blen_app in Hlen.
    destruct (IH (written + blen b)%Z counts1 (dst ++ b) r') as (c' & E1 & E2); [lia|lia|lia|].
    exists c'. rewrite E1, E2, Hc, Hst. simpl. rewrite blen_app, <-app_assoc.
    split; [by rewrite Z.add_assoc|lia].
  - exists counts1. rewrite Hlaw. by split.
  - exists counts1. rewrite Hlaw. by split.
Qed.

End copy_lemmas.

(** [ioCopy] always returns, with an error, for every reader and every writer; and when
    the destination takes all it is given, it receives exactly the bytes of the source, in
    order, however the source cuts them into reads, the counts reported add up to the total,
    and the error is the one the source ends with (the end of the source included). *)
Theorem ioCopy_spec `{Reader R} (r : R) :
  (32768 <= rmax)%Z →
  (∀ W (write : SWriter W) dst, ∃ res, ioCopy write dst r = Some res ∧ cp_err res ≠ NoErr) ∧
  (∀ d fin dst, rstream r = (d, fin) → (blen d < 2 ^ 63)%Z →
     ∃ counts, ioCopy buffer_write dst r = Some (mkCopyResult (blen d) true (copy_end fin) counts (dst ++ d)) ∧
       foldl Z.add 0%Z counts = blen d).
Proof.
  intros Hmax. split.
  - intros W write dst. apply ioCopy_loop_returns; [done|lia].
  - intros d fin dst Hst Hd.
    destruct (ioCopy_loop_buffer (S (rsize r)) 0 [] dst r) as (c & E1 & E2);
      [done|lia|lia|by rewrite Hst|].
    rewrite Hst in E1, E2. by exists c.
Qed.

(** Copying through a [SkipReader]. *)
Definition demo_source : list read_event :=
  [RChunk (str_elems "ab"); RChunk []; RChunk (str_elems "cde"); RLast (str_elems "f")].

Lemma ioCopy_spec_witness :
  ∃ counts, ioCopy buffer_write [] (NewSkipReader demo_source 3)
    = Some (mkCopyResult 3 true EOF counts (str_elems "def")) ∧ foldl Z.add 0%Z counts = 3%Z.
Proof.
  refine (proj2 (ioCopy_spec (NewSkipReader demo_source 3) _) (str_elems "def") None [] _ _).
  - vm_compute. discriminate.
  - reflexivity.
  - vm_compute. reflexivity.
Defined.

(** ** The window a [LimitWriter] lets through *)

(** The part of the bytes from [skip] on, at most [limit] of them. *)
Definition window (skip limit : Z) (d : bytes) : bytes :=
  take (Z.to_nat limit) (drop (Z.to_nat skip) d).

Lemma window_split skip limit p rest :
  (0 <= skip)%Z → (0 <= limit)%Z →
  window skip limit (p ++ rest) =
  window skip limit p ++
    window (Z.max 0 (skip - blen p)) (limit - blen (window skip limit p)) rest.
Proof.
  intros Hs Hl. unfold window. rewrite drop_app, take_app. f_equal.
  unfold blen. rewrite length_take, length_drop. f_equal; [lia|]. f_equal. lia.
Qed.

Lemma LimitWriter_Write_window w skip limit p :
  (0 <= skip)%Z → (0 <= limit < 2 ^ 63)%Z →
  LimitWriter_Write buffer_write (mkLimit w skip limit) p =
  Ok (blen p, None, mkLimit (w ++ window skip limit p) (Z.max 0 (skip - blen p))
                      (limit - blen (window skip limit p))).
Proof.
  intros Hs Hl. unfold LimitWriter_Write, buffer_write. cbn [skipBytes wLimit lw_writer].
  unfold window, blen in *.
  destruct (Z.ltb_spec 0 skip) as [Hp|Hp]; cbn [andb].
  - destruct (Z.leb_spec (Z.of_nat (length p)) skip) as [Hc|Hc].
    + rewrite drop_ge by lia. rewrite take_nil, app_nil_r. simpl. do 3 f_equal; lia.
    + replace (Z.max 0 _) with 0%Z by lia. set (q := drop (Z.to_nat skip) p).
      destruct (Z.eqb_spec limit 0) as [->|Hn].
      { simpl. by rewrite app_nil_r. }
      destruct (Z.ltb_spec limit (Z.of_nat (length q))) as [Hlt|Hge].
      * rewrite (proj2 (Z.ltb_ge limit 0)) by lia. rewrite i64_small; [done|].
        unfold in_i64. rewrite length_take. lia.
      * rewrite (take_ge q) by lia. rewrite i64_small by (unfold in_i64; lia). done.
  - assert (skip = 0)%Z as -> by lia. replace (Z.max 0 _) with 0%Z by lia. simpl drop.
    destruct (Z.eqb_spec limit 0) as [->|Hn].
    { simpl. by rewrite app_nil_r. }
    destruct (Z.ltb_spec limit (Z.of_nat (length p))) as [Hlt|Hge].
    + rewrite (proj2 (Z.ltb_ge limit 0)) by lia. rewrite i64_small; [done|].
      unfold in_i64. rewrite length_take. lia.
    + rewrite (take_ge p) by lia. rewrite i64_small by (unfold in_i64; lia). done.
Qed.

(** A sequence of writes, with the results of each. *)
Definition LimitWriter_Writes {W} (write : SWriter W) (w : LimitWriter W) (ps : list bytes)
    : outcome (list (Z * option string) * LimitWriter W) :=
  ofold (λ st p, let! (n, err, w') := LimitWriter_Write write st.2 p in
                 Ok (st.1 ++ [(n, err)], w')) ([], w) ps.

Lemma LimitWriter_Writes_window res w skip limit ps :
  (0 <= skip)%Z → (0 <= limit < 2 ^ 63)%Z →
  ∃ skip' limit',
  ofold (λ st p, let! (n, err, w') := LimitWriter_Write buffer_write st.2 p in
                 Ok (st.1 ++ [(n, err)], w')) (res, mkLimit w skip limit) ps =
  Ok (res ++ ((λ p, (blen p, None)) <$> ps),
      mkLimit (w ++ window skip limit (concat ps)) skip' limit').
Proof.
  revert res w skip limit. induction ps as [|p ps IH]; intros res w skip limit Hs Hl.
  { exists skip, limit. simpl. unfold window. by rewrite drop_nil, take_nil, !app_nil_r. }
  cbn [ofold fmap list_fmap concat]. cbn [snd fst].
  rewrite LimitWriter_Write_window by done. cbn [obind].
  destruct (IH (res ++ [(blen p, None)]) (w ++ window skip limit p)
              (Z.max 0 (skip - blen p)) (limit - blen (window skip limit p))%Z)
    as (skip' & limit' & ->); [lia| |].
  { unfold window, blen in *. rewrite length_take. lia. }
  exists skip', limit'. rewrite (window_split skip limit p) by lia. by rewrite <-!app_assoc.
Qed.

(** Whatever pieces the bytes are written in, a [LimitWriter] with a non-negative skip
    and limit passes on exactly the bytes from the skip on, up to the limit, and reports
    every write as complete. With a negative limit, which elsewhere in the code means no
    limit, its first write panics. *)
Theorem LimitWriter_passes w skip limit ps :
  (0 <= skip)%Z → (limit < 2 ^ 63)%Z →
  ((0 <= limit)%Z → ∃ w',
     LimitWriter_Writes buffer_write (LimitedWriter w skip limit) ps =
       Ok ((λ p, (blen p, None)) <$> ps, w') ∧
     lw_writer w' = w ++ take (Z.to_nat limit) (drop (Z.to_nat skip) (concat ps))) ∧
  ((limit < 0)%Z → ∀ p, (skip < blen p)%Z →
     LimitWriter_Write buffer_write (LimitedWriter w skip limit) p = Panic).
Proof.
  intros Hs Hl. split.
  - intros Hl0. destruct (LimitWriter_Writes_window [] w skip limit ps) as (s' & l' & E); [done|lia|].
    unfold LimitWriter_Writes, LimitedWriter. rewrite E. by eexists.
  - intros Hneg p Hp. unfold LimitWriter_Write, LimitedWriter. cbn [skipBytes wLimit lw_writer].
    rewrite (proj2 (Z.leb_gt (blen p) skip)) by lia. rewrite andb_false_r.
    destruct (0 <? skip)%Z; (destruct (Z.eqb_spec limit 0); [lia|]);
      rewrite (proj2 (Z.ltb_lt limit _)) by (unfold blen; lia);
      by rewrite (proj2 (Z.ltb_lt limit 0)) by lia.
Qed.

Lemma LimitWriter_passes_witness :
  ∃ w', LimitWriter_Writes buffer_write (LimitedWriter [] 2 3) [str_elems "abc"; str_elems "def"; str_elems "g"]
          = Ok ([(3%Z, None); (3%Z, None); (1%Z, None)], w') ∧ lw_writer w' = str_elems "cde".
Proof.
  refine (proj1 (LimitWriter_passes [] 2 3 [str_elems "abc"; str_elems "def"; str_elems "g"] _ _) _);
    vm_compute; congruence.
Defined.

(** ** UDP packets over a stream *)

Lemma Z_to_nat_blen b : Z.to_nat (blen b) = length b.
Proof. unfold blen. lia. Qed.

Lemma Uint16_LE16 z : (0 <= z < 2 ^ 16)%Z → Uint16 (LE16 z) = z.
Proof.
  intros Hz. unfold Uint16, LE16. rewrite !byte_val_of.
  assert (0 <= z / 2 ^ 8 < 256)%Z by (split; [apply Z.div_pos|apply Z.div_lt_upper_bound]; lia).
  rewrite (Z.mod_small (z / 2 ^ 8)) by lia.
  pose proof (Z.div_mod z (2 ^ 8) ltac:(lia)). change (z mod 256)%Z with (z mod 2 ^ 8)%Z. lia.
Qed.

Section udp.
Context `{Reader R}.

(** Reads that the bytes already buffered can serve. *)
Lemma bufio_Read_buffered room d e (r : R) :
  0 < room → d ≠ [] →
  bufio_Read room (mkBufio d e r) = (take room d, NoErr, mkBufio (drop room d) e r).
Proof. intros Hr Hd. unfold bufio_Read. rewrite decide_False by lia. by destruct d. Qed.

Lemma read_u16_buffered z d e (r : R) :
  (0 <= z < 2 ^ 16)%Z →
  read_u16 (mkBufio (LE16 z ++ d) e r) = Some (z, NoErr, mkBufio d e r).
Proof.
  intros Hz. unfold read_u16. cbn [ReadFull]. rewrite bufio_Read_buffered by (lia || done).
  rewrite take_app_length', drop_app_length' by done. rewrite app_nil_l.
  rewrite decide_True by (simpl; lia). by rewrite Uint16_LE16.
Qed.

(** A read of [a ++ d1], of which [a] is buffered; nothing more is fetched. *)
Lemma read_into_buffered n a d (r : R) :
  (a ≠ [] ∨ n = 0) → length a ≤ n → (d = [] ∨ length a = n) →
  read_into n (mkBufio (a ++ d) NoErr r) =
    (a ++ replicate (n - length a) "000"%char, length a, NoErr, mkBufio d NoErr r).
Proof.
  intros Ha Hn Hd. unfold read_into. destruct (decide (n = 0)) as [->|Hn0].
  - destruct a; [|simpl in *; lia]. simpl. unfold bufio_Read. rewrite decide_True by done.
    by destruct d.
  - destruct Ha as [Ha|]; [|lia]. rewrite bufio_Read_buffered; [|lia|by destruct a].
    assert (take n (a ++ d) = a) as ->.
    { destruct Hd as [-> | <-]; [rewrite app_nil_r; by apply take_ge|apply take_app_length]. }
    assert (drop n (a ++ d) = d) as ->; [|done].
    destruct Hd as [-> | <-]; [rewrite app_nil_r; by apply drop_ge|apply drop_app_length].
Qed.

End udp.

(** The first read fills the buffer. *)
Lemma read_u16_fresh z d rest :
  (0 <= z < 2 ^ 16)%Z → 2 + length d ≤ bufio_size →
  read_u16 (mkBufio [] NoErr (RChunk (LE16 z ++ d) :: rest)) = Some (z, NoErr, mkBufio d NoErr rest).
Proof.
  intros Hz Hd. unfold read_u16. cbn [ReadFull].
  assert (bufio_Read 2 (mkBufio [] NoErr (RChunk (LE16 z ++ d) :: rest)) =
          (LE16 z, NoErr, mkBufio d NoErr rest)) as ->.
  { unfold bufio_Read. rewrite decide_False by done. cbn [bf_buf bf_err bf_src].
    rewrite decide_False by (unfold bufio_size; lia).
    cbn [rd source_reader Read]. rewrite decide_True by (rewrite length_app; simpl; lia).
    reflexivity. }
  rewrite app_nil_l, decide_True by (simpl; lia). by rewrite Uint16_LE16.
Qed.

(** The part of a packet that a first read brings: everything up to the first bytes [p1] of
    the body. *)
Definition udp_arrived (a : string) (p1 p2 : bytes) : bytes :=
  take (4 + length (str_elems a) + length p1) (UDPPacket a (p1 ++ p2)).

Lemma udp_arrived_eq a p1 p2 :
  udp_arrived a p1 p2 = LE16 (u16 (blen (str_elems a))) ++ str_elems a ++
                        LE16 (u16 (blen (p1 ++ p2))) ++ p1.
Proof.
  unfold udp_arrived, UDPPacket. rewrite (app_assoc _ p1 p2), (app_assoc (str_elems a)), app_assoc.
  apply take_app_length'. rewrite !length_app. simpl. lia.
Qed.

Lemma u16_small z : (0 <= z < 2 ^ 16)%Z → u16 z = z.
Proof. intros. unfold u16. by apply Z.mod_small. Qed.

(** A packet whose parts fit 16-bit lengths and the 4096 bytes of the buffer, and which
    arrives with one read, is read back exactly: address, body and no error. When that
    read brings only the first part of the body, the packet is returned at once, with
    zero bytes in place of the part that has not arrived and still without an error. *)
Theorem ReadUDPPacket_first_read a p1 p2 rest :
  4 + length (str_elems a) + length p1 ≤ Z.to_nat 4096 →
  (blen p1 + blen p2 < 2 ^ 16)%Z → (p1 ≠ [] ∨ p2 = []) →
  ReadUDPPacket (RChunk (udp_arrived a p1 p2) :: rest) =
    Some (a, p1 ++ replicate (length p2) "000"%char, NoErr) ∧
  (p2 = [] → udp_arrived a p1 p2 = UDPPacket a p1).
Proof.
  intros Hlen Hb Hp. split; cycle 1.
  { intros ->. unfold udp_arrived. rewrite app_nil_r. apply take_ge. unfold UDPPacket.
    rewrite !length_app. simpl. lia. }
  rewrite udp_arrived_eq, blen_app. rewrite !u16_small by (unfold blen in *; lia).
  unfold ReadUDPPacket.
  rewrite read_u16_fresh by (unfold bufio_size, blen in *; rewrite ?length_app; simpl; lia).
  rewrite Z_to_nat_blen.
  rewrite read_into_buffered by (destruct (str_elems a); simpl; auto).
  rewrite Nat.sub_diag. cbn [replicate]. rewrite app_nil_r.
  fold (blen (str_elems a)). rewrite Z.eqb_refl. cbn [negb].
  rewrite read_u16_buffered by (unfold blen in *; lia).
  rewrite <-(app_nil_r p1) at 2. rewrite read_into_buffered; [|..|unfold blen; lia|by left].
  - unfold str_elems. rewrite Stdlib.Strings.String.string_of_list_ascii_of_string.
    by replace (_ - length p1) with (length p2) by (unfold blen; lia).
  - destruct Hp as [Hp | ->]; [by left|]. destruct p1; [by right|by left].
Qed.

(** The body of 5 bytes of which two have arrived. *)
Lemma ReadUDPPacket_first_read_witness :
  ReadUDPPacket [RChunk (udp_arrived "10.0.0.1:53" (str_elems "ab") (str_elems "cde"));
                 RChunk (str_elems "cde")] =
    Some ("10.0.0.1:53", str_elems "ab" ++ replicate 3 "000"%char, NoErr) ∧
  (str_elems "cde" = [] → udp_arrived "10.0.0.1:53" (str_elems "ab") (str_elems "cde")
                          = UDPPacket "10.0.0.1:53" (str_elems "ab")).
Proof.
  apply (ReadUDPPacket_first_read "10.0.0.1:53" (str_elems "ab") (str_elems "cde")).
  - apply Nat.leb_le. vm_compute. reflexivity.
  - vm_compute. reflexivity.
  - left. discriminate.
Defined.

(** ** Closing, copying and comparing *)

Section closing.
Context {W : Type} (write : SWriter W).

Definition HasWritten (w : WriteOnCloser (W := W)) : bool := hasWritten w.

(** The method of a writer that can be closed, if it is one. *)
Context (close : option (W → option string * W)).

Definition LimitWriter_Close (w : LimitWriter W) : option string * LimitWriter W :=
  match close with
  | Some c => let '(err, w') := c (lw_writer w) in (err, mkLimit w' (skipBytes w) (wLimit w))
  | None => (None, w)
  end.

Definition NewDeadlineWriter (w : W) : DeadlineWriter (W := W) := mkDeadline w None.

Definition DeadlineWriter_Close (c : W → option string * W) (w : DeadlineWriter (W := W))
    : option string * DeadlineWriter (W := W) :=
  let '(err, w') := c (dw_writer w) in (err, mkDeadline w' (dw_err w)).

(** A writer whose [Close] does nothing. *)
Definition NopCloser : W → option string * W := λ w, (None, w).

(** The rate-limited writer: without a limiter until a rate is set. *)
Record Writer := mkWriter { wr_w : W; wr_limiter : bool }.
Definition NewWriter (w : W) : Writer := mkWriter w false.
Definition Writer_SetRateLimit (w : Writer) : Writer := mkWriter (wr_w w) true.
Definition Writer_Write (WaitN : Z → option string) (w : Writer) (p : bytes) : Z * option string * Writer :=
  let '(n, err, w') := Limited_Write write WaitN (wr_limiter w) (wr_w w) p in (n, err, mkWriter w' (wr_limiter w)).

End closing.

(** [Copy] is [io.CopyBuffer] with a buffer of 32 KiB from a pool. *)
Section copy.
Context `{Reader R} {W : Type} (write : SWriter W).

Fixpoint Copy_loop (fuel : nat) (written : Z) (dst : W) (src : R) : option (Z * option string * W) :=
  match fuel with
  | O => None
  | S fuel' =>
      let '(buf, er, src) := rd (Z.to_nat (32 * 1024)) src in
      let after := λ written dst,
        match er with
        | NoErr => Copy_loop fuel' written dst src
        | EOF => Some (written, None, dst)
        | RErr e => Some (written, Some e, dst)
        end in
      if (0 <? blen buf)%Z then
        let '(nw, ew, dst) := write dst buf in
        let '(nw, ew) :=
          if (nw <? 0)%Z || (blen buf <? nw)%Z
          then (0%Z, match ew with None => Some "invalid write result" | e => e end) else (nw, ew) in
        let written := i64 (written + nw) in
        match ew with
        | Some e => Some (written, Some e, dst)
        | None => if negb (blen buf =? nw)%Z then Some (written, Some "short write", dst) else after written dst
        end
      else after written dst
  end.

Definition Copy (dst : W) (src : R) : option (Z * option string * W) := Copy_loop (S (rsize src)) 0 dst src.

(** What [ioCopy] says, with the end of the source as no error. *)
Definition copy_view (r : CopyResult W) : Z * option string * W :=
  (cp_written r, match cp_err r with RErr e => Some e | _ => None end, cp_dst r).

(** For a writer that keeps the contract of [io.Writer], [ioCopy] is [Copy], except that the
    end of the source is reported and the bytes are counted. *)
Lemma Copy_loop_ioCopy fuel written counts dst src :
  (∀ w p, (0 <= (write w p).1.1 <= blen p)%Z) → in_i64 written →
  Copy_loop fuel written dst src = copy_view <$> ioCopy_loop write fuel written counts dst src.
Proof.
  intros Hw. revert written counts dst src. induction fuel as [|fuel IH]; intros written counts dst src Hi; [done|].
  cbn [Copy_loop ioCopy_loop]. destruct (rd _ src) as [[buf er] src'].
  assert (∀ written counts dst, in_i64 written →
    match er with
    | NoErr => Copy_loop fuel written dst src' | EOF => Some (written, None, dst) | RErr e => Some (written, Some e, dst)
    end = copy_view <$> match er with
    | NoErr => ioCopy_loop write fuel written counts dst src'
    | _ => Some (mkCopyResult written true er counts dst)
    end) as Hafter.
  { intros wr c d Hr. destruct er; [by apply IH|done|done]. }
  destruct (Z.ltb_spec 0 (blen buf)); [|by apply Hafter].
  specialize (Hw dst buf). destruct (write dst buf) as [[nw ew] dst']. simpl in Hw.
  rewrite (proj2 (Z.ltb_ge nw 0)), (proj2 (Z.ltb_ge (blen buf) nw)) by lia. cbn [orb].
  assert (i64 (written + nw) = if (0 <? nw)%Z then i64 (written + nw) else written) as E.
  { destruct (Z.ltb_spec 0 nw); [done|]. replace nw with 0%Z by lia. rewrite Z.add_0_r. by apply i64_small. }
  assert (in_i64 (i64 (written + nw))) as Hr by apply i64_range. rewrite E in Hr |- *.
  destruct (0 <? nw)%Z, ew; [done| |done|]; (destruct (negb _); [done|by apply Hafter]).
Qed.

(** [Copy] returns for every reader, and with an error exactly when reading or writing
    failed before the end of the source. *)
Theorem Copy_ioCopy dst src :
  (32768 <= rmax)%Z → (∀ w p, (0 <= (write w p).1.1 <= blen p)%Z) →
  ∃ r, ioCopy write dst src = Some r ∧ Copy dst src = Some (copy_view r).
Proof.
  intros Hm Hw. destruct (ioCopy_loop_returns write (S (rsize src)) 0 [] dst src Hm) as (r & E & _); [lia|].
  exists r. split; [done|]. unfold Copy. rewrite (Copy_loop_ioCopy _ _ [] _ _ Hw) by (unfold in_i64; lia). by rewrite E.
Qed.

End copy.

(** Closing a limited or a timed writer closes what is behind it and keeps the rest. *)
Lemma LimitWriter_Close_keeps {W} (close : option (W → option string * W)) w :
  skipBytes (LimitWriter_Close close w).2 = skipBytes w ∧ wLimit (LimitWriter_Close close w).2 = wLimit w ∧
  (close = None → LimitWriter_Close close w = (None, w)).
Proof. unfold LimitWriter_Close. destruct close as [c|]; [|done]. by destruct (c _). Qed.

(** A new writer does not wait. *)
Lemma NewWriter_unlimited {W} (write : SWriter W) WaitN w p :
  Writer_Write write WaitN (NewWriter w) p = (let '(n, err, w') := write w p in (n, err, NewWriter w')).
Proof. unfold Writer_Write, Limited_Write, NewWriter. simpl. by destruct (write w p) as [[]]. Qed.

(** What [os.FileInfo] says of a file. *)
Record FileInfo := mkFileInfo { fi_dev : Z; fi_ino : Z; fi_mtime : Z; fi_mode : Z; fi_size : Z }.

Definition SameFile (fi1 fi2 : FileInfo) : bool :=
  if negb ((fi_dev fi1 =? fi_dev fi2)%Z && (fi_ino fi1 =? fi_ino fi2)%Z) then false
  else if negb (fi_mtime fi1 =? fi_mtime fi2)%Z then false
  else if negb (fi_mode fi1 =? fi_mode fi2)%Z then false
  else (fi_size fi1 =? fi_size fi2)%Z.

Lemma SameFile_spec fi1 fi2 : SameFile fi1 fi2 = true ↔ fi1 = fi2.
Proof.
  unfold SameFile. destruct fi1 as [d1 i1 t1 m1 s1], fi2 as [d2 i2 t2 m2 s2]. simpl.
  destruct (Z.eqb_spec d1 d2), (Z.eqb_spec i1 i2), (Z.eqb_spec t1 t2), (Z.eqb_spec m1 m2), (Z.eqb_spec s1 s2);
    simpl; naive_solver.
Qed.
