(* ===== verification/GoUtf8.v ===== *)
(** * The part of Go's [unicode/utf8] and of [bufio.Reader.ReadRune] the program uses

    A text is decoded rune by rune as it arrives and encoded again. [ReadRune] asks its
    source for more as long as the bytes it has could begin a rune; the reference is
    [DecodeRune] applied to all the bytes ([recode]). *)

From S2P Require Import Prelude GoStrings GoIo IoUtils.
Local Open Scope Z_scope.

(** ** Runes *)

Definition RuneError : Z := 65533.
Definition MaxRune : Z := 1114111.

(** A Unicode scalar value. *)
Definition valid_rune (r : Z) : bool :=
  (0 <=? r) && (r <=? MaxRune) && negb ((55296 <=? r) && (r <=? 57343)).

Definition EncodeRune (r : Z) : bytes :=
  let r := if valid_rune r then r else RuneError in
  if r <=? 127 then [byte_of r]
  else if r <=? 2047 then [byte_of (192 + r / 64); byte_of (128 + r mod 64)]
  else if r <=? 65535 then
    [byte_of (224 + r / 4096); byte_of (128 + r / 64 mod 64); byte_of (128 + r mod 64)]
  else [byte_of (240 + r / 262144); byte_of (128 + r / 4096 mod 64);
        byte_of (128 + r / 64 mod 64); byte_of (128 + r mod 64)].

(** The size of a rune by its first byte, and the range of the second byte. *)
Definition first (b0 : Z) : option (nat * Z * Z) :=
  if (b0 <? 194) then None
  else if (b0 <=? 223) then Some (2%nat, 128, 191)
  else if (b0 =? 224) then Some (3%nat, 160, 191)
  else if (b0 =? 237) then Some (3%nat, 128, 159)
  else if (b0 <=? 239) then Some (3%nat, 128, 191)
  else if (b0 =? 240) then Some (4%nat, 144, 191)
  else if (b0 <=? 243) then Some (4%nat, 128, 191)
  else if (b0 =? 244) then Some (4%nat, 128, 143)
  else None.

Definition between (lo hi b : Z) : bool := (lo <=? b) && (b <=? hi).
Definition cont (b : Z) : bool := between 128 191 b.

(** The rune and its width; an encoding that is wrong or short has width 1. *)
Definition DecodeRune (p : bytes) : Z * nat :=
  let b i := match p !! i with Some c => byte_val c | None => -1 end in
  match p with
  | [] => (RuneError, 0%nat)
  | _ =>
      if b 0%nat <? 128 then (b 0%nat, 1%nat)
      else
        match first (b 0%nat) with
        | None => (RuneError, 1%nat)
        | Some (sz, lo, hi) =>
            if negb (between lo hi (b 1%nat)) then (RuneError, 1%nat)
            else if decide (sz = 2%nat) then ((b 0%nat mod 32) * 64 + b 1%nat mod 64, 2%nat)
            else if negb (cont (b 2%nat)) then (RuneError, 1%nat)
            else if decide (sz = 3%nat) then
              ((b 0%nat mod 16) * 4096 + (b 1%nat mod 64) * 64 + b 2%nat mod 64, 3%nat)
            else if negb (cont (b 3%nat)) then (RuneError, 1%nat)
            else ((b 0%nat mod 8) * 262144 + (b 1%nat mod 64) * 4096 + (b 2%nat mod 64) * 64 + b 3%nat mod 64,
                  4%nat)
        end
  end.

(** Whether the bytes begin with a whole rune, a wrong encoding included. *)
Definition FullRune (p : bytes) : bool :=
  match p with
  | [] => false
  | c0 :: p1 =>
      if byte_val c0 <? 128 then true
      else
        match first (byte_val c0) with
        | None => true
        | Some (sz, lo, hi) =>
            if decide (sz ≤ length p)%nat then true
            else
              match p1 with
              | [] => false
              | c1 :: p2 =>
                  if negb (between lo hi (byte_val c1)) then true
                  else match p2 with c2 :: _ => negb (cont (byte_val c2)) | [] => false end
              end
        end
  end.

(** ** Reading runes *)

Section runes.
Context `{Reader R}.

(** The loop of [ReadRune] that fills the buffer. *)
Fixpoint fill_rune (fuel : nat) (b : Bufio R) : option (Bufio R) :=
  match fuel with
  | O => None
  | S fuel' =>
      if decide (length (bf_buf b) < 4)%nat then
        if FullRune (bf_buf b) then Some b
        else
          match bf_err b with
          | NoErr =>
              let '(d, e, r) := rd (bufio_size - length (bf_buf b)) (bf_src b) in
              fill_rune fuel' (mkBufio (bf_buf b ++ d) e r)
          | _ => Some b
          end
      else Some b
  end.

(** A rune with its width, or the error; [None] when it does not return. *)
Definition ReadRune (b : Bufio R) : option ((Z * nat + read_err) * Bufio R) :=
  match fill_rune (S (S (rsize (bf_src b)))) b with
  | None => None
  | Some b =>
      match bf_buf b with
      | [] => Some (inr (bf_err b), mkBufio [] NoErr (bf_src b))
      | p =>
          let '(r, size) := DecodeRune p in
          Some (inl (r, size), mkBufio (drop size p) (bf_err b) (bf_src b))
      end
  end.

(** Runes are read and encoded again until an error. *)
Fixpoint read_round (fuel : nat) (app : bytes) (b : Bufio R) : option (bytes * read_err * Bufio R) :=
  match fuel with
  | O => None
  | S fuel' =>
      match ReadRune b with
      | None => None
      | Some (inr e, b) => Some (app, e, b)
      | Some (inl (a, size), b) => read_round fuel' (app ++ EncodeRune a) b
      end
  end.

End runes.

(** All of a text, decoded and encoded again. *)
Fixpoint recode (fuel : nat) (p : bytes) : bytes :=
  match fuel, p with
  | S fuel', _ :: _ => let '(r, size) := DecodeRune p in EncodeRune r ++ recode fuel' (drop size p)
  | _, _ => []
  end.

(** ** Lemmas *)

Lemma byte_val_small z : 0 <= z < 256 → byte_val (byte_of z) = z.
Proof. intros Hz. rewrite byte_val_of. by apply Z.mod_small. Qed.

(** Quotients and remainders by their defining equations. *)
Ltac divlia := Z.to_euclidean_division_equations; lia.

Ltac utf8_bytes := repeat rewrite byte_val_small by divlia.

Ltac utf8_branch :=
  match goal with
  | |- context [(?a <? ?b)%Z] => destruct (Z.ltb_spec a b); try (exfalso; divlia)
  | |- context [(?a <=? ?b)%Z] => destruct (Z.leb_spec a b); try (exfalso; divlia)
  | |- context [(?a =? ?b)%Z] => destruct (Z.eqb_spec a b); try (exfalso; divlia)
  end.

Lemma valid_rune_cases r :
  valid_rune r = true → 0 <= r <= 55295 ∨ 57344 <= r <= MaxRune.
Proof.
  unfold valid_rune, MaxRune. rewrite !andb_true_iff, negb_true_iff, andb_false_iff, !Z.leb_le, !Z.leb_gt. lia.
Qed.

(** What was encoded is decoded, whatever follows. *)
Lemma Decode_EncodeRune r rest :
  valid_rune r = true → DecodeRune (EncodeRune r ++ rest) = (r, length (EncodeRune r)).
Proof.
  intros Hv. pose proof (valid_rune_cases r Hv) as Hr. unfold MaxRune in Hr.
  unfold EncodeRune. rewrite Hv. cbv zeta.
  destruct (Z.leb_spec r 127); [|destruct (Z.leb_spec r 2047); [|destruct (Z.leb_spec r 65535)]];
    cbn [app length]; unfold DecodeRune; cbv zeta beta; cbn [lookup list_lookup]; utf8_bytes;
    unfold first, cont, between; repeat (utf8_branch; cbn [andb negb]; cbv iota);
    try (rewrite ?decide_True, ?decide_False by done); try (f_equal; divlia).
Qed.

Lemma first_size b sz lo hi : first b = Some (sz, lo, hi) → (2 ≤ sz ≤ 4)%nat ∧ 128 <= lo.
Proof. unfold first. intros E. repeat case_match; simplify_eq; lia. Qed.

Lemma between_absent lo hi : 128 <= lo → between lo hi (-1) = false.
Proof. intros H. unfold between. destruct (Z.leb_spec lo (-1)); [lia|done]. Qed.

(** A rune that is decoded is not empty and within the text. *)
Lemma DecodeRune_size p : p ≠ [] → (1 ≤ (DecodeRune p).2 ≤ length p)%nat.
Proof.
  intros Hp. destruct p as [|c0 p]; [done|]. unfold DecodeRune. cbv zeta beta. cbn [lookup list_lookup].
  destruct (byte_val c0 <? 128); [simpl; lia|].
  destruct (first (byte_val c0)) as [[[sz lo] hi]|] eqn:E; [|simpl; lia].
  apply first_size in E as [Hsz Hlo].
  destruct p as [|c1 p]; [rewrite between_absent by done; simpl; lia|]. cbn [lookup list_lookup].
  destruct (between lo hi (byte_val c1)); [|simpl; lia]. cbn [negb].
  destruct (decide (sz = 2%nat)); [simpl; lia|].
  destruct p as [|c2 p]; [unfold cont; rewrite between_absent by done; simpl; lia|]. cbn [lookup list_lookup].
  destruct (cont (byte_val c2)); [|simpl; lia]. cbn [negb].
  destruct (decide (sz = 3%nat)); [simpl; lia|].
  destruct p as [|c3 p]; [unfold cont; rewrite between_absent by done; simpl; lia|]. cbn [lookup list_lookup].
  destruct (cont (byte_val c3)); simpl; lia.
Qed.

(** Bytes that are known to begin with a whole rune are decoded without looking further. *)
Lemma DecodeRune_prefix p x :
  FullRune p = true ∨ (4 ≤ length p)%nat → DecodeRune (p ++ x) = DecodeRune p.
Proof.
  intros Hf. destruct p as [|c0 p]; [by destruct Hf as [?|?%Nat.le_0_r]|].
  unfold DecodeRune. cbv zeta beta. cbn [lookup list_lookup app].
  cbn [FullRune length] in Hf. destruct (byte_val c0 <? 128); [done|].
  destruct (first (byte_val c0)) as [[[sz lo] hi]|] eqn:E; [|done].
  apply first_size in E as [Hsz Hlo].
  assert (cont (-1) = false) as Hc by done.
  destruct p as [|c1 p]; [exfalso; destruct (decide _); simpl in *; destruct Hf; try lia; done|].
  cbn [lookup list_lookup app]. destruct (between lo hi (byte_val c1)); [|done]. cbn [negb] in *.
  destruct (decide (sz = 2%nat)); [done|].
  destruct p as [|c2 p]; [exfalso; destruct (decide _); simpl in *; destruct Hf; try lia; done|].
  cbn [lookup list_lookup app]. destruct (cont (byte_val c2)); [|done]. cbn [negb] in *.
  destruct (decide (sz = 3%nat)); [done|].
  destruct p as [|c3 p]; [exfalso; destruct (decide _); simpl in *; destruct Hf; try lia; done|].
  done.
Qed.

(** Enough fuel is enough. *)
Lemma recode_fuel fuel fuel' p : (length p ≤ fuel)%nat → (length p ≤ fuel')%nat → recode fuel p = recode fuel' p.
Proof.
  revert fuel' p. induction fuel as [|fuel IH]; intros [|fuel'] [|c p] H1 H2; try done; try (cbn in *; lia).
  cbn [recode].
  pose proof (DecodeRune_size (c :: p) ltac:(done)) as Hs. destruct (DecodeRune (c :: p)) as [r size].
  f_equal. apply IH; rewrite length_drop; simpl in *; lia.
Qed.

(** A text that is UTF-8 comes out as it went in. *)
Lemma recode_valid rs fuel :
  Forall (λ r, valid_rune r = true) rs →
  (length (concat (EncodeRune <$> rs)) ≤ fuel)%nat →
  recode fuel (concat (EncodeRune <$> rs)) = concat (EncodeRune <$> rs).
Proof.
  intros Hrs. revert fuel. induction Hrs as [|r rs Hr Hrs IH]; intros fuel Hf; [by destruct fuel|].
  rewrite fmap_cons in *. cbn [concat] in *. rewrite length_app in Hf.
  assert (EncodeRune r ≠ []) as Hne.
  { unfold EncodeRune. cbv zeta. by repeat case_match. }
  destruct (EncodeRune r) as [|c e] eqn:E; [done|]. destruct fuel as [|fuel]; [simpl in Hf; lia|].
  cbn [recode app]. change (c :: e ++ concat (EncodeRune <$> rs)) with ((c :: e) ++ concat (EncodeRune <$> rs)).
  rewrite <-E in *. rewrite Decode_EncodeRune by done. cbv iota. f_equal.
  rewrite drop_app_length. apply IH. rewrite E in Hf. simpl in Hf. lia.
Qed.

(** ** The reader is equivalent to the reference *)

Section rune_lemmas.
Context `{Reader R}.

(** What a buffered reader has yet to give, and how it ends. *)
Definition pending (b : Bufio R) : bytes * read_err :=
  match bf_err b with
  | NoErr => (bf_buf b ++ (rstream (bf_src b)).1,
              match (rstream (bf_src b)).2 with None => EOF | Some e => RErr e end)
  | e => (bf_buf b, e)
  end.

Definition bufio_big : Prop := 4096 <= rmax.

Lemma fill_rune_spec fuel b :
  bufio_big → (match bf_err b with NoErr => S (S (rsize (bf_src b))) | _ => 1 end ≤ fuel)%nat →
  ∃ b', fill_rune fuel b = Some b' ∧ pending b' = pending b ∧
    (bf_err b' = NoErr → FullRune (bf_buf b') = true ∨ (4 ≤ length (bf_buf b'))%nat).
Proof.
  intros Hmax. revert b. induction fuel as [|fuel IH]; intros b Hf; [destruct (bf_err b); lia|].
  cbn [fill_rune].
  destruct (decide (length (bf_buf b) < 4)%nat) as [Hl|Hl]; [|exists b; split_and!; [done|done|intros; right; lia]].
  destruct (FullRune (bf_buf b)) eqn:Efull; [exists b; split_and!; [done|done|by left]|].
  destruct (bf_err b) eqn:Eerr; [|exists b; split_and!; [done|done|by rewrite Eerr]..].
  unfold bufio_big in Hmax.
  pose proof (rd_law (bufio_size - length (bf_buf b)) (bf_src b)) as Hlaw.
  unfold bufio_size in *. specialize (Hlaw ltac:(lia) ltac:(lia)).
  destruct (rd _ (bf_src b)) as [[d e] r]. cbn [read_law] in Hlaw. destruct Hlaw as [_ Hlaw].
  assert (pending (mkBufio (bf_buf b ++ d) e r) = pending b) as Hp.
  { unfold pending. cbn [bf_err bf_buf bf_src]. rewrite Eerr. destruct e as [| |m].
    - destruct Hlaw as [-> _]. simpl. by rewrite <-app_assoc.
    - by rewrite Hlaw.
    - by rewrite Hlaw. }
  destruct (IH (mkBufio (bf_buf b ++ d) e r)) as (b' & Hb & Hp' & Hfull).
  { cbn [bf_err bf_src]. destruct e; lia. }
  exists b'. split; [done|]. split; [by rewrite Hp'|done].
Qed.

(** [ReadRune] gives the first rune of the bytes that are to come. *)
Lemma ReadRune_spec b :
  bufio_big →
  ∃ b', ReadRune b = Some (match (pending b).1 with [] => inr (pending b).2 | p => inl (DecodeRune p) end, b') ∧
    ((pending b).1 ≠ [] → pending b' = (drop (DecodeRune (pending b).1).2 (pending b).1, (pending b).2)).
Proof.
  intros Hmax. unfold ReadRune.
  destruct (fill_rune_spec (S (S (rsize (bf_src b)))) b Hmax) as (b' & -> & Hp & Hfull); [destruct (bf_err b); lia|].
  rewrite <-Hp. clear Hp. destruct b' as [p e src]. cbn [bf_buf bf_err bf_src] in *.
  destruct p as [|c p].
  { destruct e as [| |m].
    - exfalso. destruct (Hfull eq_refl) as [|Hl]; [done|simpl in Hl; lia].
    - eexists. split; [done|]. by intros [].
    - eexists. split; [done|]. by intros []. }
  assert (∃ x, (pending (mkBufio (c :: p) e src)).1 = (c :: p) ++ x ∧
    DecodeRune ((c :: p) ++ x) = DecodeRune (c :: p) ∧
    ∀ q, pending (mkBufio q e src) = (q ++ x, (pending (mkBufio (c :: p) e src)).2)) as (x & Hx & Hd & Hq).
  { destruct e; cbn [pending bf_err bf_buf bf_src fst snd].
    - eexists. split; [done|]. split; [by apply DecodeRune_prefix, Hfull|done].
    - exists []. rewrite !app_nil_r. split_and!; [done..|]. intros q. by rewrite app_nil_r.
    - exists []. rewrite !app_nil_r. split_and!; [done..|]. intros q. by rewrite app_nil_r. }
  pose proof (DecodeRune_size (c :: p) ltac:(done)) as Hsz. rewrite Hx.
  change (match (c :: p) ++ x with [] => inr (pending (mkBufio (c :: p) e src)).2
          | q => inl (DecodeRune q) end) with (@inl (Z * nat) read_err (DecodeRune ((c :: p) ++ x))).
  rewrite Hd. destruct (DecodeRune (c :: p)) as [r size].
  cbn [snd] in *. eexists. split; [reflexivity|]. intros _. rewrite Hq. f_equal.
  by rewrite drop_app_le by lia.
Qed.

(** Reading runes and encoding them again is [recode] of the bytes, however they arrive. *)
Lemma read_round_recode fuel app b :
  bufio_big → (length (pending b).1 < fuel)%nat →
  ∃ b', read_round fuel app b = Some (app ++ recode (length (pending b).1) (pending b).1, (pending b).2, b').
Proof.
  intros Hmax. revert app b. induction fuel as [|fuel IH]; intros app b Hf; [lia|]. cbn [read_round].
  destruct (ReadRune_spec b Hmax) as (b' & -> & Hb'). destruct (pending b) as [p e]. cbn [fst snd] in *.
  destruct p as [|c p].
  { eexists. cbn [length recode]. by rewrite app_nil_r. }
  specialize (Hb' ltac:(done)). pose proof (DecodeRune_size (c :: p) ltac:(done)) as Hsz.
  destruct (DecodeRune (c :: p)) as [r size] eqn:E. cbn [snd] in *.
  destruct (IH (app ++ EncodeRune r) b') as [b'' ->].
  { rewrite Hb'. cbn [fst]. rewrite length_drop. simpl in *. lia. }
  rewrite Hb'. cbn [fst snd]. exists b''. do 3 f_equal. rewrite <-app_assoc. f_equal. cbn [length recode].
  rewrite E. cbv iota. f_equal. apply recode_fuel; [lia|]. rewrite length_drop. simpl in *. lia.
Qed.

End rune_lemmas.
