(* ===== verification/NetUtils.v ===== *)
(** * Connections and interfaces

    utils/functions.go: [TlsConnectHost], [TlsConnect], [getRequestTlsConfig],
    [ConnectHost], [ListenTls], [PathExists], [HTTPGet], [CloseConn], [Keygen],
    [GetAllInterfaceAddr].

    Dialling, listening, parsing of certificates, the interfaces of the host and the
    commands it runs are inputs. *)

From S2P Require Import Prelude GoStrings.

(** ** [strconv.Atoi] with its error dropped *)

(** [ParseUint] returns at the first byte that is no digit (with 0) and at the first digit
    that leaves 64 bits (with the largest value). *)
Definition maxUint64 : Z := (2 ^ 64 - 1)%Z.
Fixpoint parse_uint (s : string) (n : Z) : Z :=
  match s with
  | "" => n
  | String a s' =>
      match digit_val a with
      | None => 0%Z
      | Some d => if (maxUint64 <? n * 10 + d)%Z then maxUint64 else parse_uint s' (n * 10 + d)
      end
  end.

(** The number [Atoi] returns, whether or not it also returns an error. *)
Definition Atoi_value (s : string) : Z :=
  match s with
  | String "-" s' => Z.max (- parse_uint s' 0) (- 2 ^ 63)
  | String "+" s' => Z.min (parse_uint s' 0) (2 ^ 63 - 1)
  | _ => Z.min (parse_uint s 0) (2 ^ 63 - 1)
  end.

(** [time.Duration(timeout)*time.Millisecond], in nanoseconds. *)
Definition Milliseconds (timeout : Z) : Z := i64 (timeout * 1000000).

(** [fmt.Sprintf("%s:%d", host, port)]. *)
Definition host_port (host : string) (port : Z) : string := host +:+ ":" +:+ Itoa port.

(** ** TLS *)

(** A pool of certificates is the text it was filled from. *)
Record TlsConfig := mkTls {
  RootCAs : bytes;
  ClientCAs : bytes;
  Certificates : list (bytes * bytes);
  ServerName : string;
  InsecureSkipVerify : bool;
  RequireAndVerifyClientCert : bool
}.

Section tls.
(** [tls.X509KeyPair], its error; [AppendCertsFromPEM], whether a certificate was found. *)
Context (X509KeyPair : bytes → bytes → option string) (AppendCertsFromPEM : bytes → bool).

Definition cert_pool (certBytes : bytes) : bytes := if AppendCertsFromPEM certBytes then certBytes else [].

Definition getRequestTlsConfig (certBytes keyBytes : bytes) : option TlsConfig * option string :=
  match X509KeyPair certBytes keyBytes with
  | Some err => (None, Some err)
  | None =>
      let err := if negb (AppendCertsFromPEM certBytes) then Some "failed to parse root certificate" else None in
      (Some (mkTls (cert_pool certBytes) [] [(certBytes, keyBytes)] "proxy" false false), err)
  end.

(** [net.DialTimeout("tcp", address, timeout)]. *)
Context {C : Type} (DialTimeout : string → Z → string + C).

Definition ConnectHost (hostAndPort : string) (timeout : Z) : string + C :=
  DialTimeout hostAndPort (Milliseconds timeout).

(** The connection under the client of [tls.Client], and its configuration. *)
Definition TlsConnect (host : string) (port timeout : Z) (certBytes keyBytes : bytes)
    : string + C * option TlsConfig :=
  match getRequestTlsConfig certBytes keyBytes with
  | (_, Some err) => inl err
  | (conf, None) =>
      match DialTimeout (host_port host port) (Milliseconds timeout) with
      | inl err => inl err
      | inr conn => inr (conn, conf)
      end
  end.

(** [h[1]] panics without a colon. *)
Definition TlsConnectHost (host : string) (timeout : Z) (certBytes keyBytes : bytes)
    : outcome (C * option TlsConfig) :=
  match Split host ":"%char with
  | h0 :: h1 :: _ =>
      match TlsConnect h0 (Atoi_value h1) timeout certBytes keyBytes with
      | inl err => Err err
      | inr c => Ok c
      end
  | _ => Panic
  end.

(** [tls.Listen]: its error. The error for a certificate that is not found is replaced by
    that of [Listen]. *)
Definition ListenTls (tls_Listen : string → TlsConfig → option string) (ip : string) (port : Z)
    (certBytes keyBytes : bytes) : string + TlsConfig :=
  match X509KeyPair certBytes keyBytes with
  | Some err => inl err
  | None =>
      let config := mkTls [] (cert_pool certBytes) [(certBytes, keyBytes)] "proxy" false true in
      match tls_Listen (host_port ip port) config with
      | Some err => inl err
      | None => inr config
      end
  end.

End tls.

(** ** Files, requests, connections *)

(** What [os.Stat] says. *)
Inductive stat_result := StatOk | StatNotExist | StatError (err : string).

Definition PathExists (stat : string → stat_result) (path : string) : bool :=
  match stat path with StatNotExist => false | _ => true end.

(** What [client.Get] returns: a response, with or without a body, and an error. *)
Inductive http_effect := GetRequest (URL : string) (timeout : Z) | CloseBody | CloseIdleConnections.

Definition HTTPGet (Get : string → Z → option bool * option string) (URL : string) (timeout : Z)
    : option string * list http_effect :=
  let '(resp, err) := Get URL (Milliseconds timeout) in
  let body := match resp with Some true => [CloseBody] | _ => [] end in
  (err, GetRequest URL (Milliseconds timeout) :: body ++ [CloseIdleConnections]).

(** [conn] is nil, or points to an interface that may be nil. *)
Inductive close_effect {C : Type} := SetDeadline (c : C) (after_ms : Z) | CloseConnection (c : C).
Arguments close_effect : clear implicits.

Definition CloseConn {C} (conn : option (option C)) : list (close_effect C) :=
  match conn with
  | Some (Some c) => [SetDeadline c 1; CloseConnection c]
  | _ => []
  end.

(** The commands run and the error; [CombinedOutput] gives the output and the error. *)
Definition genrsa : string := "openssl genrsa -out proxy.key 2048".
Definition dq : string := String (ascii_of_nat 34) "".
Definition req_x509 : string :=
  "openssl req -new -key proxy.key -x509 -days 3650 -out proxy.crt -subj /C=CN/ST=BJ/O=" +:+ dq +:+
  "Localhost Ltd" +:+ dq +:+ "/CN=proxy".

Definition Keygen (sh : string → string * option string) : list string * list string * option string :=
  match sh genrsa with
  | (_, Some err) => ([genrsa], [], Some err)
  | (out, None) =>
      match sh req_x509 with
      | (_, Some err) => ([genrsa; req_x509], [out], Some err)
      | (out', None) => ([genrsa; req_x509], [out; out'], None)
      end
  end.

(** ** The addresses of the host *)

(** A [net.IP] is a slice of bytes; nil is the empty one. *)
Inductive Addr := IPNet (ip : bytes) | IPAddr (ip : bytes) | OtherAddr.
Record Interface := mkInterface { flag_up : bool; Addrs : string + list Addr }.

Definition v4InV6Prefix : bytes := replicate 10 (byte_of 0) ++ [byte_of 255; byte_of 255].

(** [ip.To4]. *)
Definition To4 (ip : bytes) : option bytes :=
  if decide (length ip = 4) then Some ip
  else if decide (length ip = 16 ∧ take 12 ip = v4InV6Prefix) then Some (drop 12 ip)
  else None.

(** The switch on the type of the address. *)
Definition addr_ip (a : Addr) : bytes :=
  match a with IPNet ip => ip | IPAddr ip => ip | OtherAddr => [] end.

Definition iface_addrs (iface : Interface) : list bytes :=
  if negb (flag_up iface) then []
  else match Addrs iface with
       | inl _ => []
       | inr addrs => omap (λ a, To4 (addr_ip a)) addrs
       end.

Definition GetAllInterfaceAddr (Interfaces : string + list Interface) : string + list bytes :=
  match Interfaces with
  | inl err => inl err
  | inr ifaces =>
      match ifaces ≫= iface_addrs with
      | [] => inl "no address Found, net.InterfaceAddrs: []"
      | addresses => inr addresses
      end
  end.

(** [IP.String] of an address of four bytes. *)
Definition IPv4_String (ip : bytes) : string := Join (Itoa ∘ byte_val <$> ip) ".".

(** ** Lemmas *)

Lemma digit_val_range a d : digit_val a = Some d → (0 <= d < 10)%Z.
Proof.
  unfold digit_val. destruct (N.leb_spec 48 (N_of_ascii a)), (N.leb_spec (N_of_ascii a) 57); simpl; try done.
  intros [= <-]. lia.
Qed.

Lemma parse_digits_ge s acc z : (0 <= acc)%Z → parse_digits s acc = Some z → (acc <= z)%Z.
Proof.
  revert acc. induction s as [|a s IH]; intros acc Ha; simpl; [by intros [= ->]|].
  destruct (digit_val a) as [d|] eqn:Ed; simpl; [|done]. apply digit_val_range in Ed.
  intros E. apply IH in E; lia.
Qed.

Lemma parse_uint_digits s acc z :
  (0 <= acc)%Z → (z <= maxUint64)%Z → parse_digits s acc = Some z → parse_uint s acc = z.
Proof.
  revert acc. induction s as [|a s IH]; intros acc Ha Hz; simpl; [by intros [= ->]|].
  destruct (digit_val a) as [d|] eqn:Ed; simpl; [|done]. apply digit_val_range in Ed.
  intros E. assert (acc * 10 + d <= z)%Z by (apply (parse_digits_ge s); [lia|done]).
  rewrite (proj2 (Z.ltb_ge _ _)) by lia. apply IH; [lia|done|done].
Qed.

Lemma parse_uint_range s n : (0 <= n <= maxUint64)%Z → (0 <= parse_uint s n <= maxUint64)%Z.
Proof.
  revert n. induction s as [|a s IH]; intros n Hn; simpl; [done|].
  destruct (digit_val a) as [d|] eqn:Ed; [|unfold maxUint64; lia]. apply digit_val_range in Ed.
  destruct (Z.ltb_spec maxUint64 (n * 10 + d)); [unfold maxUint64; lia|]. apply IH. lia.
Qed.

(** Whatever the text, the number is of 64 bits. *)
Lemma Atoi_value_range s : in_i64 (Atoi_value s).
Proof.
  assert (∀ t, (0 <= parse_uint t 0)%Z) as Hp.
  { intros t. destruct (parse_uint_range t 0); [unfold maxUint64; lia|done]. }
  assert (∀ t, in_i64 (Z.min (parse_uint t 0) (2 ^ 63 - 1))) as Hmin.
  { intros t. specialize (Hp t). unfold in_i64. lia. }
  assert (∀ t, in_i64 (Z.max (- parse_uint t 0) (- 2 ^ 63))) as Hmax.
  { intros t. specialize (Hp t). unfold in_i64. lia. }
  destruct s as [|[[][][][][][][][]] s]; apply Hmin || apply Hmax.
Qed.

Lemma print_nat_uint z : (0 <= z <= maxUint64)%Z → parse_uint (print_nat z) 0 = z.
Proof.
  intros Hz. destruct (print_nat_spec z) as [Hp Hne]; [lia|]. unfold parse_nat in Hp.
  rewrite decide_False in Hp by done. apply parse_uint_digits; [done|lia|done].
Qed.

(** A printed number is read back. *)
Lemma Atoi_Itoa z : in_i64 z → Atoi_value (Itoa z) = z.
Proof.
  unfold in_i64. intros Hz. unfold Itoa. destruct (Z.ltb_spec z 0).
  - cbn [String.append Atoi_value]. change ("-" +:+ print_nat (- z)) with (String "-" (print_nat (- z))).
    cbn [Atoi_value]. rewrite print_nat_uint by (unfold maxUint64; lia). lia.
  - destruct (print_nat z) as [|c s] eqn:E; [by destruct (print_nat_spec z)|].
    assert (∃ d, (0 <= d < 10)%Z ∧ c = digit_char d) as (d & Hd & Hc).
    { apply (print_nat_elems z); [lia|]. rewrite E. constructor. }
    assert (digit_val c = Some d) as Hv by (rewrite Hc; by apply digit_val_char).
    assert (Atoi_value (String c s) = Z.min (parse_uint (String c s) 0) (2 ^ 63 - 1)) as ->.
    { destruct c as [[][][][][][][][]]; done. }
    rewrite <-E, print_nat_uint by (unfold maxUint64; lia). lia.
Qed.

(** ** Properties *)

(** A client dials the address it was given, when that is a name or an IPv4 address and a
    port; an address without a colon makes it panic. *)
Lemma TlsConnectHost_dials X509KeyPair AppendCerts {C} (Dial : string → Z → string + C) host port timeout cert key :
  (":"%char ∉ str_elems host → in_i64 port →
   TlsConnectHost X509KeyPair AppendCerts Dial (host_port host port) timeout cert key =
     match TlsConnect X509KeyPair AppendCerts Dial host port timeout cert key with
     | inl err => Err err
     | inr c => Ok c
     end) ∧
  (":"%char ∉ str_elems host → TlsConnectHost X509KeyPair AppendCerts Dial host timeout cert key = Panic).
Proof.
  split; intros Hh; unfold TlsConnectHost.
  - intros Hp. unfold host_port. change (":" +:+ Itoa port) with (String ":" (Itoa port)).
    rewrite Split_app_sep, Split_single by (done || by apply Itoa_no_digit). by rewrite Atoi_Itoa.
  - by rewrite Split_single.
Qed.

(** Both ends of a TLS connection verify the other against the one certificate they have: a
    client that connects has it as its root and never skips the check, a listener requires
    a client certificate. A certificate that cannot be read stops the client before it
    dials; the listener still starts, with no certificate a client could present. *)
Theorem tls_verified X509KeyPair AppendCerts {C} (Dial : string → Z → string + C) tls_Listen host port timeout cert key :
  (∀ conn conf, TlsConnect X509KeyPair AppendCerts Dial host port timeout cert key = inr (conn, conf) →
     Dial (host_port host port) (Milliseconds timeout) = inr conn ∧ AppendCerts cert = true ∧
     ∃ c, conf = Some c ∧ RootCAs c = cert ∧ InsecureSkipVerify c = false ∧ Certificates c = [(cert, key)]) ∧
  (∀ conf, ListenTls X509KeyPair AppendCerts tls_Listen host port cert key = inr conf →
     tls_Listen (host_port host port) conf = None ∧ RequireAndVerifyClientCert conf = true ∧
     ClientCAs conf = if AppendCerts cert then cert else []).
Proof.
  split.
  - intros conn conf. unfold TlsConnect, getRequestTlsConfig.
    destruct (X509KeyPair cert key); [done|]. destruct (AppendCerts cert) eqn:Ea; [|done].
    cbn [negb]. destruct (Dial _ _) as [|c]; [done|]. intros [= <- <-]. split; [done|]. split; [done|].
    eexists. unfold cert_pool. rewrite Ea. done.
  - intros conf. unfold ListenTls. destruct (X509KeyPair cert key); [done|].
    destruct (tls_Listen _ _) eqn:El; [done|]. by intros [= <-].
Qed.

(** The second command of [Keygen] is run only after the first, and no error is lost. *)
Lemma Keygen_spec sh cmds outs err :
  Keygen sh = (cmds, outs, err) →
  cmds `prefix_of` [genrsa; req_x509] ∧
  (err = None ↔ (sh genrsa).2 = None ∧ (sh req_x509).2 = None) ∧
  (err = None → outs = [(sh genrsa).1; (sh req_x509).1]).
Proof.
  unfold Keygen. destruct (sh genrsa) as [o [e|]], (sh req_x509) as [o' [e'|]]; intros [= <- <- <-]; simpl;
    (split; [by eexists|]); naive_solver.
Qed.

(** An address is that of an interface. *)
Definition has_addr (ifaces : list Interface) (ip : bytes) : Prop :=
  ∃ iface addrs a, iface ∈ ifaces ∧ flag_up iface = true ∧ Addrs iface = inr addrs ∧ a ∈ addrs ∧ To4 (addr_ip a) = Some ip.

Lemma iface_addrs_spec ifaces ip : ip ∈ ifaces ≫= iface_addrs ↔ has_addr ifaces ip.
Proof.
  rewrite list_elem_of_bind. unfold has_addr, iface_addrs. split.
  - intros (iface & Hin & Hi). destruct (flag_up iface) eqn:Eu; simpl in Hin; [|by apply not_elem_of_nil in Hin].
    destruct (Addrs iface) as [|addrs] eqn:Ea; [by apply not_elem_of_nil in Hin|].
    apply list_elem_of_omap in Hin as (a & Ha & E). by exists iface, addrs, a.
  - intros (iface & addrs & a & Hi & Eu & Ea & Ha & E). exists iface. split; [|done].
    rewrite Eu, Ea. simpl. apply list_elem_of_omap. by exists a.
Qed.

(** The addresses are exactly the IPv4 addresses of the interfaces that are up, loopback
    included, each of four bytes; there is an error exactly when the interfaces cannot be
    listed or have none. *)
Theorem GetAllInterfaceAddr_spec ifaces :
  match GetAllInterfaceAddr (inr ifaces) with
  | inr addresses => addresses ≠ [] ∧ ∀ ip, ip ∈ addresses ↔ has_addr ifaces ip
  | inl _ => ∀ ip, ¬ has_addr ifaces ip
  end ∧ (∀ ip, has_addr ifaces ip → length ip = 4).
Proof.
  split.
  - cbn [GetAllInterfaceAddr]. destruct (ifaces ≫= iface_addrs) as [|x l] eqn:E.
    + intros ip. rewrite <-iface_addrs_spec, E. apply not_elem_of_nil.
    + split; [done|]. intros ip. by rewrite <-iface_addrs_spec, E.
  - intros ip (iface & addrs & a & _ & _ & _ & _ & E). unfold To4 in E.
    repeat case_decide; simplify_eq; [done|]. rewrite length_drop. lia.
Qed.

(** A request through [HTTPGet] leaves neither its body nor an idle connection open, and
    reports the error of the request. *)
Lemma HTTPGet_closes Get URL timeout err eff :
  HTTPGet Get URL timeout = (err, eff) →
  err = (Get URL (Milliseconds timeout)).2 ∧ last eff = Some CloseIdleConnections ∧
  (CloseBody ∈ eff ↔ (Get URL (Milliseconds timeout)).1 = Some true).
Proof.
  unfold HTTPGet. destruct (Get _ _) as [resp e]. intros [= <- <-]. split; [done|].
  split; [by rewrite app_comm_cons, last_snoc|]. destruct resp as [[]|]; simpl; split; set_solver.
Qed.
