(* ===== verification/Clients.v ===== *)
(** * Configuration, clients and answers

    config/config.go: [Config] and [ParseFromFile]; utils/Common.go: [InitConfig],
    [UseProxy], [GetProxy], [InitProxyHttpClient], [GetHttpClient], [GetURLByHost],
    [InitMinioClient], [NewDockerClient], [InitFileBeatClient], [InitK8sClient],
    [InitRetryHttpClient], [InitEnvDockerClient], [SUCCESS_RES] and [FAIL_RES]; and the
    [http.ResponseWriter] the handlers answer through.

    A client is known by the proxy its transport goes through: that is what the code
    decides about it. Regular expressions, URL parsing and JSON are parameters. *)

From S2P Require Import Prelude GoStrings.

(** ** Configuration *)

Record AuthConfig := mkAuthConfig { UserName : string; PassWord : string; AuthToken : string }.

Record Config := mkConfig {
  ServerPort : Z;
  SecretKey : string;
  DockerServerPort : Z;
  DockerAuth : AuthConfig;
  KubeApiUrl : string;
  KubeAuth : AuthConfig;
  RemoteProxyHost : string;
  EnableProxy : bool;
  ProxyGlobal : bool;
  ProxyHostPattern : string;
  MinioUrl : string;
  Bucket : string;
  MinioAuth : AuthConfig;
  PilotType : string;
  PilotLogPrefix : string;
  LineMaxSize : Z;
  ProxyPort : Z;
  HostTempDataPath : string
}.

Definition set_LineMaxSize (n : Z) (c : Config) : Config :=
  mkConfig (ServerPort c) (SecretKey c) (DockerServerPort c) (DockerAuth c) (KubeApiUrl c)
    (KubeAuth c) (RemoteProxyHost c) (EnableProxy c) (ProxyGlobal c) (ProxyHostPattern c)
    (MinioUrl c) (Bucket c) (MinioAuth c) (PilotType c) (PilotLogPrefix c) n (ProxyPort c)
    (HostTempDataPath c).

Definition set_HostTempDataPath (p : string) (c : Config) : Config :=
  mkConfig (ServerPort c) (SecretKey c) (DockerServerPort c) (DockerAuth c) (KubeApiUrl c)
    (KubeAuth c) (RemoteProxyHost c) (EnableProxy c) (ProxyGlobal c) (ProxyHostPattern c)
    (MinioUrl c) (Bucket c) (MinioAuth c) (PilotType c) (PilotLogPrefix c) (LineMaxSize c)
    (ProxyPort c) p.

(** [file] is the contents of the file, if it can be read; [unmarshal] fills the fields
    the text gives, its error is ignored. *)
Definition ParseFromFile (file : option bytes) (unmarshal : bytes → Config → Config) (c : Config)
    : outcome Config :=
  match file with
  | None => Panic
  | Some data =>
      let c := unmarshal data c in
      let c := if (LineMaxSize c =? 0)%Z then set_LineMaxSize (4 * 1024) c else c in
      let c := if decide (HostTempDataPath c ≠ "")
               then set_HostTempDataPath (TrimSuffix (HostTempDataPath c) "/") c else c in
      Ok c
  end.

(** ** Clients *)

Section clients.
Context (conf : Config).
(** [url.Parse] and [regexp.Compile]. *)
Context (Parse : string → option string) (Compile : string → option (string → bool)).

(** [remoteProxyUrl] after [InitConfig]; [None] is nil. *)
Definition InitConfig : option string :=
  if decide (RemoteProxyHost conf ≠ "") then
    if EnableProxy conf then Parse (RemoteProxyHost conf) else None
  else None.

Definition UseProxy (host : string) : bool :=
  if EnableProxy conf && negb (ProxyGlobal conf) && bool_decide (ProxyHostPattern conf ≠ "") then
    match Compile (ProxyHostPattern conf) with
    | None => true
    | Some regex => regex host
    end
  else bool_decide (RemoteProxyHost conf ≠ "") && ProxyGlobal conf.

(** A transport is created without a proxy and may be given one; [http.ProxyURL] of a nil
    URL proxies nothing. *)
Definition Transport : Type := option string.

Record Clients := mkClients { proxyHttpClient : Transport; httpClient : Transport }.

Definition InitProxyHttpClient : Clients :=
  let remoteProxyUrl := InitConfig in
  let transport : Transport := match remoteProxyUrl with Some u => Some u | None => None end in
  let transport2 : Transport := None in
  let httpClient2 := transport in
  mkClients transport httpClient2.

Definition GetHttpClient (host : string) : Transport :=
  if UseProxy host then proxyHttpClient InitProxyHttpClient else httpClient InitProxyHttpClient.

(** [None]: no proxy function. *)
Definition GetProxy (host : string) : option (option string) :=
  if UseProxy host then Some InitConfig else None.

Definition GetURLByHost (host : string) : string :=
  if HasPrefix host "http"
  then TrimSuffix host "/" +:+ ":" +:+ Itoa (ServerPort conf)
  else "http://" +:+ TrimSuffix host "/" +:+ ":" +:+ Itoa (ServerPort conf).

(** Whether a Minio client is created, and for which end point. *)
Definition InitMinioClient (New : string → string → string → bool) : option string :=
  if bool_decide (UserName (MinioAuth conf) ≠ "") && bool_decide (PassWord (MinioAuth conf) ≠ "") &&
     bool_decide (MinioUrl conf ≠ "") && bool_decide (Bucket conf ≠ "")
  then if New (MinioUrl conf) (UserName (MinioAuth conf)) (PassWord (MinioAuth conf))
       then Some (MinioUrl conf) else None
  else None.

(** The host the client talks to and the proxy of its transport. [ParseHostURL] and
    [NewClient] are the Docker client's; when [NewClient] fails, [error] is nil and
    [error.Error()] panics. *)
Definition NewDockerClient (ParseHostURL : string → bool) (NewClient : string → bool)
    (dockerHost : string) : outcome (option (string * Transport)) :=
  if decide (dockerHost = "") then Ok None else
  let dockerHost := if HasPrefix dockerHost "http://" then dockerHost else "http://" +:+ dockerHost in
  if ParseHostURL dockerHost then
    let transport : Transport :=
      if UseProxy (TrimPrefix dockerHost "http://") then InitConfig else None in
    if NewClient dockerHost then Ok (Some (dockerHost, transport)) else Panic
  else Ok None.

(** The configuration of a Kubernetes client. *)
Record K8sConfig := mkK8sConfig { k8s_Host : string; k8s_BearerToken : string; k8s_Insecure : bool }.

(** [InCluster] is the configuration of a pod, if the program runs in one; a client that
    cannot be made ends the program. *)
Definition InitK8sClient (InCluster : option K8sConfig) (NewForConfig : K8sConfig → option string) : outcome K8sConfig :=
  let c := match InCluster with
           | Some c => c
           | None => mkK8sConfig (KubeApiUrl conf) (AuthToken (KubeAuth conf)) true
           end in
  match NewForConfig c with
  | Some _ => Panic
  | None => Ok c
  end.

End clients.

(** The client of the collector: whatever address a request names, it goes to one socket.
    Times are in seconds. *)
Definition DefaultFileBeatHost : string := "/run/filebeat_minio.sock".

Record FileBeatClient := mkFileBeatClient { fb_timeout : Z; fb_dial : string → string → string * string }.

Definition InitFileBeatClient : FileBeatClient := mkFileBeatClient 120 (λ _ _, ("unix", DefaultFileBeatHost)).

Record RetryClient := mkRetryClient {
  rc_timeout : Z;
  rc_InsecureSkipVerify : bool;
  rc_RetryMax : Z;
  rc_RetryWaitMin : Z;
  rc_RetryWaitMax : Z
}.

Definition InitRetryHttpClient : RetryClient := mkRetryClient 5 true 8 2 60.

(** Whether there is a client of the local daemon; [NewEnvClient] gives the error. *)
Definition InitEnvDockerClient (NewEnvClient : option string) : bool :=
  match NewEnvClient with None => true | Some _ => false end.

(** ** Answers *)

Definition SUCCESS_CODE : Z := 200.
Definition FAIL_CODE : Z := 999.

Definition StatusOK : Z := 200.
Definition StatusBadRequest : Z := 400.
Definition StatusUnauthorized : Z := 401.

(** [http.ResponseWriter]: the first write sends the header, with status 200 unless
    [WriteHeader] sent another; what is set later has no effect. *)
Record ResponseWriter := mkRW {
  rw_sent : option (Z * option string);   (** status and content type on the wire *)
  rw_type : option string;                (** [Header().Get("Content-Type")] *)
  rw_body : bytes
}.

Definition newRW : ResponseWriter := mkRW None None [].

Definition WriteHeader (status : Z) (w : ResponseWriter) : ResponseWriter :=
  match rw_sent w with
  | Some _ => w
  | None => mkRW (Some (status, rw_type w)) (rw_type w) (rw_body w)
  end.

Definition SetContentType (t : string) (w : ResponseWriter) : ResponseWriter :=
  mkRW (rw_sent w) (Some t) (rw_body w).

Definition RW_Write (p : bytes) (w : ResponseWriter) : ResponseWriter :=
  let w := WriteHeader StatusOK w in mkRW (rw_sent w) (rw_type w) (rw_body w ++ p).

(** The status the client sees once the handler has returned. *)
Definition rw_status (w : ResponseWriter) : Z :=
  match rw_sent w with Some (s, _) => s | None => StatusOK end.

Record BaseResult (A : Type) := mkBaseResult {
  Code : Z; Status : Z; Msg : string; Data : A
}.
Arguments mkBaseResult {A} _ _ _ _.
Arguments Code {A} _.
Arguments Status {A} _.
Arguments Msg {A} _.
Arguments Data {A} _.

Section answers.
Context {A : Type} (MarshalRes : BaseResult A → bytes).

(** The bytes returned, and the writer. *)
Definition send_res (code : Z) (msg : string) (data : A) (w : ResponseWriter) : bytes * ResponseWriter :=
  let c := MarshalRes (mkBaseResult code 0 msg data) in
  (c, RW_Write c (SetContentType "application/json" w)).

Definition SUCCESS_RES := send_res SUCCESS_CODE.
Definition FAIL_RES := send_res FAIL_CODE.

End answers.

(** ** Lemmas *)

Lemma rw_status_written p w : rw_status (RW_Write p w) = rw_status w.
Proof. unfold RW_Write, WriteHeader, rw_status. by destruct w as [[[]|] ? ?]. Qed.

(** A status set after the body was written is not sent. *)
Lemma WriteHeader_late s p w : WriteHeader s (RW_Write p w) = RW_Write p w.
Proof. unfold RW_Write, WriteHeader. by destruct w as [[]]. Qed.

Lemma send_res_status {A} (M : BaseResult A → bytes) code msg d w :
  rw_status (send_res M code msg d w).2 = rw_status w.
Proof. unfold send_res. cbn [snd]. rewrite rw_status_written. by destruct w. Qed.

(** The remote proxy is used for every host once it is configured: for a host that the
    pattern exempts, [UseProxy] says no and [GetProxy], which the websocket dialers use,
    gives no proxy, but the client [GetHttpClient] returns for it still sends its requests
    through the proxy, because the client kept for direct requests shares the transport of
    the other one. *)
Theorem GetHttpClient_proxy conf Parse Compile regex host proxy :
  EnableProxy conf = true → RemoteProxyHost conf ≠ "" →
  Parse (RemoteProxyHost conf) = Some proxy →
  ProxyGlobal conf = false → ProxyHostPattern conf ≠ "" →
  Compile (ProxyHostPattern conf) = Some regex → regex host = false →
  UseProxy conf Compile host = false ∧ GetProxy conf Parse Compile host = None ∧
  GetHttpClient conf Parse Compile host = Some proxy.
Proof.
  intros He Hr Hp Hg Hpat Hc Hh.
  assert (UseProxy conf Compile host = false) as Hu.
  { unfold UseProxy. rewrite He, Hg, bool_decide_true by done. simpl. by rewrite Hc. }
  unfold GetProxy, GetHttpClient, InitProxyHttpClient, InitConfig.
  rewrite Hu, He, Hp, decide_True by done. done.
Qed.

Definition demo_auth : AuthConfig := mkAuthConfig "" "" "".
Definition demo_config : Config :=
  mkConfig 888 "0123456789abcdef" 2375 demo_auth "" demo_auth "http://proxy:80" true false "10.*"
    "" "" demo_auth "filebeat" "" 4096 0 "/var/lib/data".

Lemma GetHttpClient_proxy_witness :
  let Compile := λ p, if decide (p = "10.*") then Some (λ h, HasPrefix h "10.") else None in
  UseProxy demo_config Compile "192.168.0.1" = false ∧
  GetProxy demo_config Some Compile "192.168.0.1" = None ∧
  GetHttpClient demo_config Some Compile "192.168.0.1" = Some "http://proxy:80".
Proof.
  intros Compile.
  apply (GetHttpClient_proxy demo_config Some Compile (λ h, HasPrefix h "10.") "192.168.0.1");
    (reflexivity || discriminate).
Defined.
