(* ===== verification/LogTree.v ===== *)
(** * Log labels as a tree: [LogInfoNode] and its construction from container labels

    pilot/pilot.go: [LogInfoNode], [newLogInfoNode], [insert], [get] and the label
    loop of [getLogConfigs]. A label [<prefix>.logs.a.b = v] puts the value [v] at
    the path [a; b]. *)

From S2P Require Import Prelude GoStrings.

Definition dot : ascii := "."%char.
Definition semicolon : ascii := ";"%char.
Definition equals : ascii := "="%char.

(** ** The node type and its methods *)

Inductive LogInfoNode := mkNode {
  value : string;
  children : gmap string LogInfoNode
}.

Definition newLogInfoNode (v : string) : LogInfoNode := mkNode v ∅.

(** [insert] mutates the tree under the receiver and returns an error; the model
    returns the tree after the call with the error. The error of the nested call is
    dropped, as in the code. *)
Fixpoint insert (keys : list string) (v : string) (node : LogInfoNode)
    : LogInfoNode * option string :=
  match keys with
  | [] => (node, None)
  | key :: rest =>
      match rest with
      | [] => (mkNode (value node) (<[key := newLogInfoNode v]> (children node)), None)
      | _ :: _ =>
          match children node !! key with
          | Some child =>
              let '(child', _) := insert rest v child in
              (mkNode (value node) (<[key := child']> (children node)), None)
          | None => (node, Some (key +:+ " has no parent node"))
          end
      end
  end.

Definition get (node : LogInfoNode) (key : string) : string :=
  match children node !! key with
  | Some child => value child
  | None => ""
  end.

(** The value a path of keys leads to. *)
Fixpoint node_value (path : list string) (node : LogInfoNode) : option string :=
  match path with
  | [] => Some (value node)
  | k :: rest => child ← children node !! k; node_value rest child
  end.

(** ** The label loop of [getLogConfigs] *)

Definition custom_config_key (prefix : string) : string := prefix +:+ "_logs_custom_config".
Definition service_logs (prefix : string) : string := prefix +:+ ".logs.".

(** [for _, c := range configs]: one [key=value] segment of the custom
    configuration; a segment without [=] indexes past the end of the slice. *)
Definition custom_step (cc : gmap string string) (c : string) : outcome (gmap string string) :=
  if decide (c = "") then Ok cc else
  match SplitN2 c equals with
  | k :: v :: _ => Ok (<[k := v]> cc)
  | _ => Panic
  end.

Definition label_step (labels : gmap string string) (k : string)
    (st : gmap string string * LogInfoNode) (prefix : string)
    : outcome (gmap string string * LogInfoNode) :=
  let '(cc, root) := st in
  if decide (custom_config_key prefix = k) then
    let! cc' := ofold custom_step cc (Split (mget labels k) semicolon) in
    Ok (cc', root)
  else if negb (HasPrefix k (service_logs prefix)) || bool_decide (Count k dot = 1) then Ok st
  else
    let logLabel := TrimPrefix k (service_logs prefix) in
    match insert (Split logLabel dot) (mget labels k) root with
    | (root', None) => Ok (cc, root')
    | (_, Some e) => Err e
    end.

Definition label_names `{GoRange} (labels : gmap string string) : list string :=
  merge_sort String.le (go_range labels).*1.

Definition build_root `{GoRange} (logPrefix : list string) (labels : gmap string string)
    : outcome (gmap string string * LogInfoNode) :=
  ofold (λ st k, ofold (label_step labels k) st logPrefix)
    (∅, newLogInfoNode "") (label_names labels).

(** ** The tree operations *)

Lemma insert_cons2 k k2 rest v node :
  insert (k :: k2 :: rest) v node =
    match children node !! k with
    | Some child =>
        (mkNode (value node) (<[k := (insert (k2 :: rest) v child).1]> (children node)), None)
    | None => (node, Some (k +:+ " has no parent node"))
    end.
Proof.
  change (insert (k :: k2 :: rest) v node) with
    (match children node !! k with
     | Some child =>
         let '(child', _) := insert (k2 :: rest) v child in
         (mkNode (value node) (<[k := child']> (children node)), @None string)
     | None => (node, Some (k +:+ " has no parent node"))
     end).
  destruct (children node !! k); [|done]. by destruct (insert (k2 :: rest) v l).
Qed.

Lemma node_value_insert_ok path path' v node :
  path ≠ [] → is_Some (node_value (removelast path) node) →
  node_value path' (insert path v node).1 =
    if decide (path `prefix_of` path')
    then (if decide (path' = path) then Some v else None)
    else node_value path' node.
Proof.
  revert node path'. induction path as [|k path IH]; intros node path' Hne Hp; [done|].
  clear Hne. destruct path as [|k2 path].
  - cbn [insert fst]. destruct path' as [|k' path'].
    { rewrite decide_False by (intros [? ?]; done). done. }
    cbn [node_value children]. destruct (decide (k' = k)) as [->|Hk].
    + rewrite lookup_insert_eq. cbn [mbind option_bind].
      rewrite decide_True by (by exists path').
      destruct path' as [|? path']; [by rewrite decide_True|].
      rewrite decide_False by done. simpl. by rewrite lookup_empty.
    + rewrite lookup_insert_ne by done.
      rewrite decide_False; [done|]. by intros ?%prefix_cons_inv_1.
  - change (removelast (k :: k2 :: path)) with (k :: removelast (k2 :: path)) in Hp.
    cbn [node_value] in Hp. rewrite insert_cons2.
    destruct (children node !! k) as [child|] eqn:Ek; [|by destruct Hp].
    simpl in Hp. specialize (IH child). cbn [fst]. destruct path' as [|k' path'].
    { rewrite decide_False by (intros [? ?]; done). done. }
    cbn [node_value children]. destruct (decide (k' = k)) as [->|Hk].
    + rewrite lookup_insert_eq. cbn [mbind option_bind]. rewrite IH by done.
      rewrite Ek. cbn [mbind option_bind].
      destruct (decide (k2 :: path `prefix_of` path')) as [Hpre|Hpre].
      * rewrite (decide_True (P := k :: k2 :: path `prefix_of` k :: path')) by (by apply prefix_cons).
        destruct (decide (path' = k2 :: path)) as [->|Hn]; [by rewrite decide_True|].
        rewrite decide_False by congruence. done.
      * rewrite decide_False; [done|]. by intros ?%prefix_cons_inv_2.
    + rewrite lookup_insert_ne by done. rewrite decide_False; [done|].
      by intros ?%prefix_cons_inv_1.
Qed.

Lemma insert_missing_parent path v node :
  path ≠ [] → node_value (removelast path) node = None →
  ∀ path', node_value path' (insert path v node).1 = node_value path' node.
Proof.
  revert node. induction path as [|k path IH]; intros node Hne Hp path'; [done|].
  destruct path as [|k2 path]; [done|]. clear Hne.
  change (removelast (k :: k2 :: path)) with (k :: removelast (k2 :: path)) in Hp.
  cbn [node_value] in Hp. rewrite insert_cons2.
  destruct (children node !! k) as [child|] eqn:Ek; [|done].
  simpl in Hp. specialize (IH child). cbn [fst]. destruct path' as [|k' path']; [done|]. cbn [node_value children].
  destruct (decide (k' = k)) as [->|Hk].
  - rewrite lookup_insert_eq, Ek. cbn [mbind option_bind]. by apply IH.
  - by rewrite lookup_insert_ne.
Qed.

Lemma insert_error_iff path v node e :
  (insert path v node).2 = Some e ↔
  ∃ k k2 rest, path = k :: k2 :: rest ∧ children node !! k = None
    ∧ e = k +:+ " has no parent node".
Proof.
  destruct path as [|k [|k2 rest]]; [naive_solver..|]. rewrite insert_cons2.
  destruct (children node !! k) as [child|] eqn:Ek; naive_solver.
Qed.

(** The nodes of a tree are closed under proper prefixes. *)
Lemma node_value_prefix p q node :
  p `prefix_of` q → is_Some (node_value q node) → is_Some (node_value p node).
Proof.
  intros [r ->]. revert node. induction p as [|k p IH]; intros node Hq; simpl in *; [done|].
  destruct (children node !! k); simpl in *; [by apply IH|done].
Qed.

(** ** The tree represents the labels *)

(** The label that stands for a path, and the paths labels can stand for. *)
Definition path_key (prefix : string) (path : list string) : string :=
  service_logs prefix +:+ Join path ".".

Definition dotless (path : list string) : Prop :=
  path ≠ [] ∧ Forall (λ w, dot ∉ str_elems w) path.

#[global] Instance dotless_dec path : Decision (dotless path).
Proof. unfold dotless. apply _. Defined.

Lemma dotless_Split s : dotless (Split s dot).
Proof. split; [apply Split_nonnil|]. apply Forall_forall. intros w. apply Split_no_sep. Qed.

Lemma dotless_prefix p q : q ≠ [] → q `prefix_of` p → dotless p → dotless q.
Proof. intros Hq [r ->] [_ Hf]. apply Forall_app in Hf as [Hf _]. done. Qed.

Lemma path_key_inj prefix p q :
  dotless p → dotless q → path_key prefix p = path_key prefix q → p = q.
Proof.
  intros [Hp1 Hp2] [Hq1 Hq2] E%str_app_inj_l.
  rewrite <-(Split_Join p dot), <-(Split_Join q dot) by done. by f_equal.
Qed.

Lemma path_key_Split prefix k :
  HasPrefix k (service_logs prefix) = true →
  path_key prefix (Split (TrimPrefix k (service_logs prefix)) dot) = k.
Proof.
  intros [r ->]%HasPrefix_spec. rewrite TrimPrefix_app. unfold path_key. f_equal.
  apply (Join_Split r dot).
Qed.

Lemma path_key_not_custom prefix p : path_key prefix p ≠ custom_config_key prefix.
Proof.
  unfold path_key, custom_config_key, service_logs. rewrite str_app_assoc.
  intros E%str_app_inj_l. done.
Qed.

Lemma path_key_le prefix p q : p ≠ [] → p `prefix_of` q → String.le (path_key prefix p) (path_key prefix q).
Proof.
  intros Hp [r ->]. unfold path_key. destruct (decide (r = [])) as [->|Hr].
  { by rewrite app_nil_r. }
  rewrite Join_app by done. rewrite <-str_app_assoc. apply str_le_app.
Qed.

Lemma Count_app s t c : Count (s +:+ t) c = Count s c + Count t c.
Proof. induction s as [|a s IH]; [done|]. rewrite ?str_app_cons. simpl. rewrite IH. lia. Qed.

Lemma Count_service prefix k :
  HasPrefix k (service_logs prefix) = true → Count k dot ≠ 1.
Proof.
  intros [r ->]%HasPrefix_spec. unfold service_logs. rewrite !Count_app.
  change (Count ".logs." dot) with 2. lia.
Qed.

(** What the tree holds after the labels [ks] have been processed. *)
Definition tree_inv (prefix : string) (labels : gmap string string)
    (ks : list string) (root : LogInfoNode) : Prop :=
  ∀ path v, dotless path →
    node_value path root = Some v ↔
    (∀ q, q ≠ [] → q `prefix_of` path → path_key prefix q ∈ ks) ∧
    labels !! path_key prefix path = Some v.

Section label_loop.
Context (prefix : string) (labels : gmap string string).

Lemma tree_inv_other k ks root :
  (∀ p, path_key prefix p ≠ k) → tree_inv prefix labels ks root →
  tree_inv prefix labels (k :: ks) root.
Proof.
  intros Hk Hinv path v Hd. rewrite (Hinv path v Hd).
  setoid_rewrite elem_of_cons. naive_solver.
Qed.

Lemma removelast_prefix {A} (p q : list A) :
  q `prefix_of` p → q ≠ p → q `prefix_of` removelast p.
Proof.
  intros [r ->] Hne. destruct r as [|x r]; [by rewrite app_nil_r in Hne|].
  rewrite removelast_app by done. by eexists.
Qed.

Lemma removelast_prefix_of {A} (p : list A) : p ≠ [] → removelast p `prefix_of` p.
Proof. intros H. destruct (exists_last H) as (l & x & ->). rewrite removelast_last. by exists [x]. Qed.

Lemma tree_inv_insert p0 v ks root root' :
  tree_inv prefix labels ks root →
  (∀ x, x ∈ ks → String.le x (path_key prefix p0) ∧ is_Some (labels !! x)) →
  path_key prefix p0 ∉ ks → labels !! path_key prefix p0 = Some v → dotless p0 →
  insert p0 v root = (root', None) →
  tree_inv prefix labels (path_key prefix p0 :: ks) root'.
Proof.
  intros Hinv Hle Hnew Hv Hd Hins path v' Hdp.
  assert (∀ q, q ≠ [] → q `prefix_of` path → path_key prefix q = path_key prefix p0 →
            p0 `prefix_of` path) as Hkey.
  { intros q Hq Hqp E. apply path_key_inj in E; [by subst| |done]. by eapply dotless_prefix. }
  assert (root' = (insert p0 v root).1) as -> by (by rewrite Hins). clear Hins.
  destruct Hd as [Hp0 Hf0]. pose proof (conj Hp0 Hf0 : dotless p0) as Hd.
  setoid_rewrite elem_of_cons.
  destruct (node_value (removelast p0) root) as [vp|] eqn:Epar.
  - rewrite node_value_insert_ok by (by rewrite ?Epar). case_decide as Hpre.
    + case_decide as Heq.
      * subst path. rewrite Hv. split; [|by intros [_ ?]]. intros [= <-]. split; [|done].
        intros q Hq Hqp. destruct (decide (q = p0)) as [->|Hne]; [by left|right].
        pose proof (removelast_prefix p0 q Hqp Hne) as Hqr.
        assert (removelast p0 ≠ []) as Hr.
        { intros E. rewrite E in Hqr. destruct Hqr as [r Hr]. by destruct q. }
        refine (proj1 (proj1 (Hinv (removelast p0) vp _) Epar) q Hq Hqr).
        eapply dotless_prefix; [done| |exact Hd]. by apply removelast_prefix_of.
      * split; [done|]. intros [Hall _]. exfalso.
        assert (path ≠ []) as Hpn by apply Hdp.
        destruct (Hall path Hpn) as [E|Hin]; [done|by apply path_key_inj in E|].
        destruct (Hle _ Hin) as [Hl _].
        assert (path_key prefix path = path_key prefix p0) as E.
        { eapply (anti_symm String.le); [done|]. by apply path_key_le. }
        by apply path_key_inj in E.
    + rewrite (Hinv path v' Hdp). naive_solver.
  - rewrite insert_missing_parent by done. rewrite (Hinv path v' Hdp).
    split; [naive_solver|]. intros [Hall Hlab]. split; [|done].
    intros q Hq Hqp. destruct (Hall q Hq Hqp) as [E|?]; [exfalso|done].
    specialize (Hkey q Hq Hqp E).
    assert (removelast p0 ≠ []) as Hr by (intros E'; by rewrite E' in Epar).
    assert (dotless (removelast p0)) as Hdr.
    { eapply dotless_prefix; [done| |exact Hd]. by apply removelast_prefix_of. }
    assert (∀ q, q ≠ [] → q `prefix_of` removelast p0 → path_key prefix q ∈ ks) as Hall'.
    { intros q' Hq' Hqr. assert (q' `prefix_of` p0) as Hqp0.
      { etrans; [exact Hqr|]. by apply removelast_prefix_of. }
      destruct (Hall q' Hq') as [E'|?]; [by etrans| |done].
      apply path_key_inj in E'; [|by eapply dotless_prefix|done]. subst q'.
      apply prefix_length in Hqr. destruct (exists_last Hp0) as (l & x & ->).
      rewrite removelast_last, length_app in Hqr. simpl in Hqr. lia. }
    destruct (Hle _ (Hall' (removelast p0) Hr (reflexivity _))) as [_ [vp Hvp]].
    pose proof (proj2 (Hinv (removelast p0) vp Hdr) (conj Hall' Hvp)). congruence.
Qed.

Lemma label_step_inv k v ks cc root cc' root' :
  labels !! k = Some v → k ∉ ks →
  (∀ x, x ∈ ks → String.le x k ∧ is_Some (labels !! x)) →
  tree_inv prefix labels ks root →
  label_step labels k (cc, root) prefix = Ok (cc', root') →
  tree_inv prefix labels (k :: ks) root'.
Proof.
  intros Hv Hnew Hle Hinv. unfold label_step. case_decide as Ec.
  { intros H. obind_inv. apply tree_inv_other; [|done].
    intros p ?. destruct (path_key_not_custom prefix p). congruence. }
  destruct (HasPrefix k (service_logs prefix)) eqn:Ep; simpl.
  2:{ intros [= <- <-]. apply tree_inv_other; [|done]. intros p <-.
      unfold path_key in Ep. by rewrite HasPrefix_app in Ep. }
  rewrite bool_decide_false by (by eapply Count_service).
  destruct (insert _ _ _) as [r' [e|]] eqn:Ei; [done|]. intros [= <- <-].
  rewrite <-(path_key_Split prefix k Ep) in Hv, Hnew, Hle |- *.
  eapply tree_inv_insert; [done..|apply dotless_Split|]. unfold mget in Ei.
  rewrite path_key_Split in Hv by done. by rewrite Hv in Ei.
Qed.
End label_loop.

Section label_names.
Context `{GoRange} (labels : gmap string string).

Lemma label_names_perm : label_names labels ≡ₚ (go_range labels).*1.
Proof. apply merge_sort_Permutation. Qed.

Lemma label_names_NoDup : NoDup (label_names labels).
Proof. rewrite label_names_perm. apply NoDup_go_range_keys. Qed.

Lemma elem_of_label_names k : k ∈ label_names labels ↔ is_Some (labels !! k).
Proof.
  rewrite label_names_perm, list_elem_of_fmap. split.
  - intros ([k' v] & -> & Hk%elem_of_go_range). by eexists.
  - intros [v Hv]. exists (k, v). split; [done|]. by apply elem_of_go_range.
Qed.

Lemma label_names_sorted : StronglySorted String.le (label_names labels).
Proof. apply (StronglySorted_merge_sort String.le). Qed.

(** Every label before [k] in the sorted order is smaller and present. *)
Lemma label_names_before l1 k l2 x :
  label_names labels = l1 ++ k :: l2 → x ∈ l1 → String.le x k ∧ is_Some (labels !! x).
Proof.
  intros E Hx. split.
  - pose proof label_names_sorted as Hs. rewrite E in Hs.
    eapply StronglySorted_app_1_elem_of; [done..|constructor].
  - apply elem_of_label_names. rewrite E. apply elem_of_app. by left.
Qed.

Lemma label_loop_inv prefix l1 l2 cc root cc' root' :
  label_names labels = l1 ++ l2 →
  tree_inv prefix labels (reverse l1) root →
  ofold (λ st k, ofold (label_step labels k) st [prefix]) (cc, root) l2 = Ok (cc', root') →
  tree_inv prefix labels (reverse (l1 ++ l2)) root'.
Proof.
  revert l1 cc root. induction l2 as [|k l2 IH]; intros l1 cc root E Hinv Hf; simpl in Hf.
  { rewrite app_nil_r. by simplify_eq. }
  apply obind_ok_inv in Hf as ([cc1 root1] & Hk & Hf).
  apply obind_ok_inv in Hk as ([cc2 root2] & Hk & [= <- <-]).
  assert (is_Some (labels !! k)) as [v Hv].
  { apply elem_of_label_names. rewrite E. apply elem_of_app. right. constructor. }
  pose proof label_names_NoDup as Hnd. rewrite E in Hnd.
  apply NoDup_app in Hnd as (_ & Hdis & _).
  rewrite (cons_middle k l1 l2), app_assoc in E |- *. eapply IH; [exact E| |exact Hf].
  rewrite reverse_snoc. eapply label_step_inv; [done| | |done|done].
  - rewrite elem_of_reverse. intros Hx. eapply Hdis; [done|constructor].
  - intros x Hx. rewrite elem_of_reverse in Hx. apply (label_names_before l1 k l2); [|exact Hx].
    by rewrite E, <-app_assoc.
Qed.
End label_names.

(** *** When the loop fails *)

(** A [key=value;key=value] text that the loop can split. *)
Definition custom_wf (s : string) : bool :=
  forallb (λ c, bool_decide (c = "") || bool_decide (equals ∈ str_elems c)) (Split s semicolon).

Lemma custom_fold_outcome cc l :
  if forallb (λ c, bool_decide (c = "") || bool_decide (equals ∈ str_elems c)) l
  then ∃ cc', ofold custom_step cc l = Ok cc'
  else ofold custom_step cc l = Panic.
Proof.
  revert cc. induction l as [|c l IH]; intros cc; simpl; [by eexists|].
  unfold custom_step at 1 3. destruct (decide (c = "")) as [->|Hc].
  { rewrite bool_decide_true by done. apply IH. }
  rewrite (bool_decide_false (c = "")) by done. simpl.
  destruct (SplitN2_cases c equals) as [(w & r & -> & Hw & ->)|[Hn ->]].
  - rewrite bool_decide_true; [apply IH|]. rewrite str_elems_app. set_solver.
  - by rewrite bool_decide_false.
Qed.

Lemma tree_inv_init prefix labels : tree_inv prefix labels [] (newLogInfoNode "").
Proof.
  intros p w [Hp _]. split.
  - destruct p as [|k p]; [done|]. simpl. by rewrite lookup_empty.
  - intros [Hall _]. specialize (Hall p Hp (reflexivity _)). by apply not_elem_of_nil in Hall.
Qed.

(** ** Theorems *)

Lemma build_root_tree_inv `{GoRange} (prefix : string) (labels : gmap string string) cc root :
  build_root [prefix] labels = Ok (cc, root) →
  tree_inv prefix labels (label_names labels) root.
Proof.
  intros Hb path v Hd.
  assert (tree_inv prefix labels (reverse ([] ++ label_names labels)) root) as Hinv.
  { eapply label_loop_inv; [done|apply tree_inv_init|exact Hb]. }
  rewrite (Hinv path v Hd). simpl. by setoid_rewrite elem_of_reverse.
Qed.

(** ** Several prefixes

    With several prefixes the labels of different prefixes can stand for the same path. The
    tree is then described by the history of insertions. *)

(** The turns of the two loops, in order. *)
Definition steps `{GoRange} (prefixes : list string) (labels : gmap string string) : list (string * string) :=
  concat ((λ k, pair k <$> prefixes) <$> label_names labels).

(** The path a turn inserts at, if it inserts. *)
Definition entry (kp : string * string) : option (list string) :=
  if decide (custom_config_key kp.2 = kp.1) then None
  else if HasPrefix kp.1 (service_logs kp.2) then Some (Split (TrimPrefix kp.1 (service_logs kp.2)) dot)
  else None.

(** The insertions, the latest first. *)
Definition history (labels : gmap string string) (l : list (string * string)) : list (list string * string) :=
  reverse (omap (λ kp, (λ p, (p, mget labels kp.1)) <$> entry kp) l).

(** When a path was last set, and to what. *)
Fixpoint last_at (E : list (list string * string)) (p : list string) : option (nat * string) :=
  match E with
  | [] => None
  | (q, v) :: E' => if decide (q = p) then Some (length E', v) else last_at E' p
  end.

(** [path] was last set to [v], and every node on the way to it was last set before the next
    one below it. *)
Definition holds (E : list (list string * string)) (path : list string) (v : string) : Prop :=
  (∃ i, last_at E path = Some (i, v)) ∧
  ∀ q x, q ≠ [] → q ++ [x] `prefix_of` path →
    ∃ i w j u, last_at E q = Some (i, w) ∧ last_at E (q ++ [x]) = Some (j, u) ∧ i < j.

Lemma last_at_lt E p i v : last_at E p = Some (i, v) → i < length E.
Proof.
  induction E as [|[q w] E IH]; simpl; [done|]. case_decide; [intros [= <- <-]; lia|]. intros Hl%IH. lia.
Qed.

Lemma last_at_elem E p : is_Some (last_at E p) ↔ p ∈ E.*1.
Proof.
  induction E as [|[q w] E IH]; simpl; [split; [by intros []|by intros ?%elem_of_nil]|].
  rewrite elem_of_cons. case_decide as Hq; [|rewrite IH; naive_solver]. split; [by left|by eexists].
Qed.

Lemma holds_other E p0 v0 path v :
  ¬ p0 `prefix_of` path → holds ((p0, v0) :: E) path v ↔ holds E path v.
Proof.
  intros Hp. assert (∀ q, q `prefix_of` path → last_at ((p0, v0) :: E) q = last_at E q) as Hq.
  { intros q Hq. cbn [last_at]. by rewrite decide_False by (by intros ->). }
  unfold holds. rewrite Hq by done. apply and_iff_compat_l.
  assert (∀ q x, q ++ [x] `prefix_of` path → q `prefix_of` path) as Hpre.
  { intros q x [r ->]. exists ([x] ++ r). by rewrite app_assoc. }
  split; intros Hw q x Hne Hqx; destruct (Hw q x Hne Hqx) as (i & w & j & u & H1 & H2 & Hij);
    exists i, w, j, u; [rewrite Hq in H1, H2|rewrite !Hq]; eauto.
Qed.

Lemma holds_here E q0 x0 v0 v :
  holds ((q0 ++ [x0], v0) :: E) (q0 ++ [x0]) v ↔ v = v0 ∧ (q0 = [] ∨ ∃ w, holds E q0 w).
Proof.
  assert (∀ q, q `prefix_of` q0 → last_at ((q0 ++ [x0], v0) :: E) q = last_at E q) as Hq.
  { intros q [r ->]. cbn [last_at]. rewrite decide_False; [done|]. intros Heq%(f_equal length).
    rewrite !length_app in Heq. simpl in Heq. lia. }
  assert (last_at ((q0 ++ [x0], v0) :: E) (q0 ++ [x0]) = Some (length E, v0)) as Hnew.
  { cbn [last_at]. by rewrite decide_True. }
  split.
  - intros [[i Hi] Hw]. rewrite Hnew in Hi. injection Hi as <- ->. split; [done|].
    destruct (decide (q0 = [])) as [->|Hne]; [by left|right].
    destruct (Hw q0 x0 Hne (reflexivity _)) as (i & w & _ & _ & Hi & _). rewrite Hq in Hi by done.
    exists w. split; [by exists i|]. intros q x Hqn Hqx.
    destruct (Hw q x Hqn) as (i' & w' & j & u & H1 & H2 & Hij); [by apply prefix_app_r|].
    rewrite Hq in H1, H2; [by exists i', w', j, u|done|]. destruct Hqx as [r ->]. exists ([x] ++ r). by rewrite app_assoc.
  - intros [-> H]. split; [by exists (length E)|]. intros q x Hqn [r Hr].
    destruct r as [|y r' _] using rev_ind.
    + rewrite app_nil_r in Hr. apply app_inj_tail in Hr as [<- <-].
      destruct H as [->|(w & (i & Hi) & _)]; [done|]. exists i, w, (length E), v0.
      rewrite Hq by done. split_and!; [done..|by eapply last_at_lt].
    + rewrite app_assoc in Hr. apply app_inj_tail in Hr as [-> _].
      destruct H as [H|(w & _ & Hw)]; [by destruct q|].
      destruct (Hw q x Hqn) as (i & w' & j & u & H1 & H2 & Hij); [by exists r'|]. exists i, w', j, u.
      rewrite !Hq; [done|by exists r'|]. exists ([x] ++ r'). by rewrite app_assoc.
Qed.

Lemma holds_below E p0 v0 y r v : p0 ≠ [] → ¬ holds ((p0, v0) :: E) (p0 ++ y :: r) v.
Proof.
  intros Hne [_ Hw]. destruct (Hw p0 y Hne) as (i & w & j & u & H1 & H2 & Hij).
  { exists r. by rewrite <-app_assoc. }
  cbn [last_at] in H1, H2. rewrite decide_True in H1 by done. injection H1 as <- <-.
  rewrite decide_False in H2.
  - apply last_at_lt in H2. lia.
  - intros Heq%(f_equal length). rewrite length_app in Heq. simpl in Heq. lia.
Qed.

(** The tree after the insertions [E]. *)
Definition tree_of (E : list (list string * string)) (root : LogInfoNode) : Prop :=
  ∀ path v, path ≠ [] → node_value path root = Some v ↔ holds E path v.

Lemma tree_of_insert E root p0 v0 :
  p0 ≠ [] → tree_of E root → tree_of ((p0, v0) :: E) (insert p0 v0 root).1.
Proof.
  intros Hne HT path v Hpath. destruct (exists_last Hne) as (q0 & x0 & ->).
  assert (removelast (q0 ++ [x0]) = q0) as Hrl by apply removelast_last.
  assert (is_Some (node_value q0 root) ↔ q0 = [] ∨ ∃ w, holds E q0 w) as Hpar.
  { destruct (decide (q0 = [])) as [->|Hq0]; [split; [by left|by eexists]|]. split.
    - intros [w Hw]. right. exists w. by apply HT.
    - intros [?|[w Hw]]; [done|]. exists w. by apply HT. }
  destruct (node_value q0 root) as [vp|] eqn:Ep.
  - rewrite node_value_insert_ok; [|done|by rewrite Hrl, Ep]. case_decide as Hpre.
    + destruct Hpre as [[|y r] ->].
      * rewrite app_nil_r, decide_True by done. rewrite holds_here. split; [|by intros [-> _]].
        intros [= <-]. split; [done|]. apply Hpar. by eexists.
      * rewrite decide_False.
        -- split; [done|]. by intros ?%holds_below.
        -- intros Heq%(f_equal length). rewrite !length_app in Heq. simpl in Heq. lia.
    + rewrite holds_other by done. by apply HT.
  - assert (¬ (q0 = [] ∨ ∃ w, holds E q0 w)) as Hno by (intros []%Hpar; done).
    rewrite insert_missing_parent; [|done|by rewrite Hrl].
    destruct (decide (q0 ++ [x0] `prefix_of` path)) as [Hpre|Hpre].
    2:{ rewrite holds_other by done. by apply HT. }
    assert (node_value path root = None) as ->.
    { destruct (node_value path root) eqn:E1; [|done].
      destruct (node_value_prefix q0 path root) as [w Hw]; [|by rewrite E1|congruence].
      etrans; [|exact Hpre]. by exists [x0]. }
    split; [done|]. destruct Hpre as [[|y r] ->]; [|by intros ?%holds_below].
    rewrite app_nil_r, holds_here. intros [_ ?]. done.
Qed.

Lemma label_step_entry labels kp cc root :
  match entry kp with
  | Some p => label_step labels kp.1 (cc, root) kp.2 =
      match (insert p (mget labels kp.1) root).2 with
      | None => Ok (cc, (insert p (mget labels kp.1) root).1)
      | Some e => Err e
      end
  | None => ∀ st, label_step labels kp.1 (cc, root) kp.2 = Ok st → st.2 = root
  end.
Proof.
  destruct kp as [k prefix]. unfold entry, label_step. cbn [fst snd]. case_decide.
  { intros st (cc' & _ & [= <-])%obind_ok_inv. done. }
  destruct (HasPrefix k (service_logs prefix)) eqn:Ep; cbn [negb orb]; [|by intros st [= <-]].
  rewrite bool_decide_false by (by eapply Count_service).
  by destruct (insert _ _ root) as [root' []].
Qed.

Lemma entry_dotless kp p : entry kp = Some p → dotless p.
Proof. unfold entry. repeat case_match; intros [= <-]; [done..|apply dotless_Split]. Qed.

Definition turn (labels : gmap string string) (st : gmap string string * LogInfoNode) (kp : string * string) :=
  label_step labels kp.1 st kp.2.

Lemma build_root_steps `{GoRange} prefixes labels :
  build_root prefixes labels = ofold (turn labels) (∅, newLogInfoNode "") (steps prefixes labels).
Proof.
  unfold build_root, steps. generalize (∅ : gmap string string, newLogInfoNode "").
  induction (label_names labels) as [|k l IH]; intros st; [done|]. rewrite fmap_cons. cbn [concat ofold].
  rewrite ofold_app. assert (∀ st, ofold (turn labels) st (pair k <$> prefixes) = ofold (label_step labels k) st prefixes)
    as ->; [|by destruct (ofold (label_step labels k) st prefixes); cbn [obind]].
  clear. induction prefixes as [|p ps IH]; intros st; [done|]. rewrite fmap_cons. cbn [ofold]. unfold turn at 1. cbn [fst snd].
  by destruct (label_step labels k st p); cbn [obind].
Qed.

Lemma turns_tree labels l cc root cc' root' E :
  tree_of E root → ofold (turn labels) (cc, root) l = Ok (cc', root') → tree_of (history labels l ++ E) root'.
Proof.
  revert cc root E. induction l as [|kp l IH]; intros cc root E HT; cbn [ofold].
  { by intros [= <- <-]. }
  intros ([cc1 root1] & Hk & Hl)%obind_ok_inv. pose proof (label_step_entry labels kp cc root) as He.
  unfold turn in Hk. unfold history. cbn [omap list_omap].
  destruct (entry kp) as [p|] eqn:Ep; cbn [fmap option_fmap option_map].
  - rewrite He in Hk. destruct (insert p (mget labels kp.1) root).2; [done|]. injection Hk as <- <-.
    rewrite reverse_cons, <-app_assoc. eapply (IH cc _ ((p, mget labels kp.1) :: E)); [|exact Hl].
    apply tree_of_insert; [|done]. by apply (entry_dotless kp).
  - specialize (He _ Hk). cbn [snd] in He. subst root1. by eapply IH.
Qed.

Lemma tree_of_init : tree_of [] (newLogInfoNode "").
Proof.
  intros [|k p] v Hp; [done|]. simpl. rewrite lookup_empty. split; [done|]. by intros [[i Hi] _].
Qed.

(** C1 (refinement): the tree of the label loop of [getLogConfigs], for any list of prefixes,
    is the one its insertions describe. The labels are taken in the order of their names,
    each once per prefix. After a loop without error the tree holds a value at a path
    exactly when that is the value the path was last set to, and every node on the way was
    last set before the next one below it (setting a node again discards what is below). With
    a single prefix nothing is ever discarded: the tree holds at a path exactly the value of
    the label of that path, provided every label on the way to it exists. *)
Theorem build_root_refines `{GoRange} (prefixes : list string) (labels : gmap string string) cc root :
  build_root prefixes labels = Ok (cc, root) →
  (∀ path v, path ≠ [] →
     node_value path root = Some v ↔ holds (history labels (steps prefixes labels)) path v) ∧
  (∀ prefix, prefixes = [prefix] → ∀ path v, dotless path →
     node_value path root = Some v ↔
     (∀ q, q ≠ [] → q `prefix_of` path → is_Some (labels !! path_key prefix q)) ∧
     labels !! path_key prefix path = Some v).
Proof.
  intros Hb. split.
  - rewrite build_root_steps in Hb. intros path v Hp. rewrite <-(app_nil_r (history _ _)).
    by apply (turns_tree _ _ _ _ _ _ [] tree_of_init Hb).
  - intros prefix -> path v Hd. rewrite (build_root_tree_inv _ _ _ _ Hb path v Hd).
    by setoid_rewrite elem_of_label_names.
Qed.

(** *** When the loop fails *)

(** A turn that splits a custom configuration with a segment without [=]. *)
Definition bad_custom (labels : gmap string string) (kp : string * string) : Prop :=
  custom_config_key kp.2 = kp.1 ∧ custom_wf (mget labels kp.1) = false.

(** A turn for a label below the log name [k], when none before it has inserted [k]. *)
Definition orphan_at (before : list (string * string)) (kp : string * string) (k : string) : Prop :=
  (∃ k2 rest, entry kp = Some (k :: k2 :: rest)) ∧ ∀ s, s ∈ before → entry s ≠ Some [k].

Definition clean (labels : gmap string string) (l : list (string * string)) : Prop :=
  ∀ l1 kp l2, l = l1 ++ kp :: l2 → ¬ bad_custom labels kp ∧ ∀ k, ¬ orphan_at l1 kp k.

Lemma history_elem labels l p : p ∈ (history labels l).*1 ↔ ∃ s, s ∈ l ∧ entry s = Some p.
Proof.
  unfold history. rewrite list_elem_of_fmap. setoid_rewrite elem_of_reverse. setoid_rewrite list_elem_of_omap. split.
  - intros ([p' v] & -> & s & Hs & Hp). destruct (entry s) eqn:Es; [|done]. injection Hp as -> <-. by exists s.
  - intros (s & Hs & Hp). exists (p, mget labels s.1). split; [done|]. exists s. by rewrite Hp.
Qed.

(** The next turn, after turns that went well. *)
Lemma turn_outcome labels l kp cc root :
  tree_of (history labels l) root →
  (bad_custom labels kp → turn labels (cc, root) kp = Panic) ∧
  (∀ k, orphan_at l kp k → turn labels (cc, root) kp = Err (k +:+ " has no parent node")) ∧
  (¬ bad_custom labels kp → (∀ k, ¬ orphan_at l kp k) → ∃ st, turn labels (cc, root) kp = Ok st).
Proof.
  intros HT. destruct kp as [k0 prefix]. unfold turn, bad_custom.
  pose proof (label_step_entry labels (k0, prefix) cc root) as Hent. cbn [fst snd] in *.
  assert (∀ k, children root !! k = None ↔ ∀ s, s ∈ l → entry s ≠ Some [k]) as Htop.
  { intros k. assert (is_Some (children root !! k) ↔ ∃ s, s ∈ l ∧ entry s = Some [k]) as Hc.
    { rewrite <-(history_elem labels), <-last_at_elem. split.
      - intros [node Hn]. destruct (proj1 (HT [k] (value node) ltac:(done))) as [[i Hi] _]; [simpl; by rewrite Hn|].
        by rewrite Hi.
      - intros [[i v] Hi]. destruct (children root !! k) eqn:Ek; [by eexists|].
        assert (node_value [k] root = Some v) as Hv; [|simpl in Hv; by rewrite Ek in Hv].
        apply HT; [done|]. split; [by exists i|]. intros [|a [|b q]] x Hq [r Hr]; done. }
    rewrite eq_None_not_Some, Hc. naive_solver. }
  destruct (entry (k0, prefix)) as [p|] eqn:Ep.
  - assert (custom_config_key prefix ≠ k0) as Hnc by (intros E; unfold entry in Ep; cbn in Ep; by rewrite decide_True in Ep).
    split; [by intros [? _]|]. rewrite Hent. split.
    + intros k [(k2 & rest & He) Hno]. rewrite Ep in He. injection He as ->. rewrite insert_cons2. apply Htop in Hno. by rewrite Hno.
    + intros _ Hno. destruct (insert p _ root).2 as [e|] eqn:Ei; [|by eexists]. exfalso.
      apply insert_error_iff in Ei as (k & k2 & rest & -> & Hk & _). apply (Hno k).
      split; [by exists k2, rest|]. by apply Htop.
  - clear Hent. split; [|split].
    + intros [Hk Hw]. unfold label_step. rewrite decide_True by done.
      pose proof (custom_fold_outcome cc (Split (mget labels k0) semicolon)) as Hf.
      fold (custom_wf (mget labels k0)) in Hf. rewrite Hw in Hf. by rewrite Hf.
    + intros k [(k2 & rest & ?) _]. congruence.
    + intros Hnb _. unfold label_step. unfold entry in Ep. cbn [fst snd] in Ep. case_decide as Hk.
      * pose proof (custom_fold_outcome cc (Split (mget labels k0) semicolon)) as Hf.
        fold (custom_wf (mget labels k0)) in Hf. destruct (custom_wf (mget labels k0)); [|naive_solver].
        destruct Hf as [cc' ->]. by eexists.
      * destruct (HasPrefix k0 (service_logs prefix)); [done|]. by eexists.
Qed.

Lemma clean_ok labels l : clean labels l → ∃ st, ofold (turn labels) (∅, newLogInfoNode "") l = Ok st.
Proof.
  induction l as [|kp l IH] using rev_ind; intros Hc; [by eexists|]. destruct IH as [[cc root] Hst].
  { intros l1 s l2 ->. apply (Hc l1 s (l2 ++ [kp])). by rewrite <-app_assoc. }
  rewrite ofold_app, Hst. cbn [obind ofold]. destruct (Hc l kp [] eq_refl) as [Hb Ho].
  pose proof (turns_tree _ _ _ _ _ _ [] tree_of_init Hst) as HT. rewrite app_nil_r in HT.
  destruct (turn_outcome labels l kp cc root HT) as (_ & _ & Hok). destruct (Hok Hb Ho) as [st ->]. by eexists.
Qed.

(** C31 (error): how the label loop ends, for any list of prefixes. It ends well when no turn
    is bad; otherwise the first bad turn decides. A turn on a custom configuration with a
    non-empty segment that has no [=] panics (the second half of the segment is indexed past
    the end of the slice); a turn on a label below a log name that no earlier turn has
    inserted returns the error that names it. *)
Theorem build_root_outcome `{GoRange} (prefixes : list string) (labels : gmap string string) :
  (clean labels (steps prefixes labels) → ∃ st, build_root prefixes labels = Ok st) ∧
  (∀ l1 kp l2, steps prefixes labels = l1 ++ kp :: l2 → clean labels l1 →
     (bad_custom labels kp → build_root prefixes labels = Panic) ∧
     (∀ k, orphan_at l1 kp k → build_root prefixes labels = Err (k +:+ " has no parent node"))).
Proof.
  rewrite build_root_steps. split; [apply clean_ok|]. intros l1 kp l2 -> Hc.
  destruct (clean_ok labels l1 Hc) as [[cc root] Hst]. rewrite ofold_app, Hst. cbn [obind ofold].
  pose proof (turns_tree _ _ _ _ _ _ [] tree_of_init Hst) as HT. rewrite app_nil_r in HT.
  destruct (turn_outcome labels l1 kp cc root HT) as (Hb & Ho & _).
  split; [by intros ->%Hb|]. by intros k ->%Ho.
Qed.

(** ** Witnesses *)

(** Two prefixes: the second label of the log [a] discards the format of the first. *)
Definition demo_labels : gmap string string :=
  {["cv.logs.a" := "/var/log/a.log"; "cv.logs.a.format" := "json"; "zz.logs.a" := "stdout";
    "cv.logs.b.c.d" := "lost"; "cv.logs.b" := "stdout"; "maintainer" := "ops"]}.

Lemma build_root_refines_witness :
  match build_root (H := range_reversed) ["cv"; "zz"] demo_labels,
        build_root (H := range_reversed) ["cv"] demo_labels with
  | Ok (_, root), Ok (_, root1) =>
      node_value ["a"] root = Some "stdout" ∧ node_value ["a"; "format"] root ≠ Some "json" ∧
      node_value ["a"; "format"] root1 = Some "json" ∧ node_value ["b"; "c"; "d"] root1 ≠ Some "lost"
  | _, _ => False
  end.
Proof.
  pose proof (build_root_refines (H := range_reversed) ["cv"; "zz"] demo_labels) as T2.
  pose proof (build_root_refines (H := range_reversed) ["cv"] demo_labels) as T1.
  destruct (build_root (H := range_reversed) ["cv"; "zz"] demo_labels) as [[cc root]| |] eqn:E2;
    [|vm_compute in E2; discriminate..].
  destruct (build_root (H := range_reversed) ["cv"] demo_labels) as [[cc1 root1]| |] eqn:E1;
    [|vm_compute in E1; discriminate..].
  destruct (T2 cc root eq_refl) as [T2' _]. destruct (T1 cc1 root1 eq_refl) as [_ T1']. clear T1 T2.
  specialize (T1' "cv" eq_refl). split_and!.
  - apply (T2' ["a"] "stdout" ltac:(done)). split; [eexists; vm_compute; reflexivity|].
    intros [|x [|y q]] z Hq [r Hr]; [by destruct Hq|discriminate Hr..].
  - intros Hv. apply (T2' ["a"; "format"] "json" ltac:(done)) in Hv as [_ Hw].
    destruct (Hw ["a"] "format" ltac:(done) (reflexivity _)) as (i & w & j & u & H1 & H2 & Hij).
    assert (fst <$> last_at (history demo_labels (steps (H := range_reversed) ["cv"; "zz"] demo_labels)) ["a"] = Some 4)
      as F1 by (vm_compute; reflexivity).
    assert (fst <$> last_at (history demo_labels (steps (H := range_reversed) ["cv"; "zz"] demo_labels)) ["a"; "format"] = Some 1)
      as F2 by (vm_compute; reflexivity).
    rewrite H1 in F1. change (["a"] ++ ["format"]) with ["a"; "format"] in H2. rewrite H2 in F2.
    injection F1 as ->. injection F2 as ->. lia.
  - apply T1'; [by_decide|]. split; [|vm_compute; reflexivity].
    intros q Hq [r Hr]. clear E1 E2. destruct q as [|x [|y [|z q]]]; [done| | |].
    + injection Hr as <- _. by_decide.
    + injection Hr as <- <- _. by_decide.
    + discriminate Hr.
  - intros Hv. apply T1' in Hv as [Hall _]; [|by_decide].
    specialize (Hall ["b"; "c"] ltac:(done) ltac:(by exists ["d"])).
    clear E1 E2 T1' T2'. revert Hall. by_decide.
Defined.

Definition demo_custom : gmap string string :=
  {["a_logs_custom_config" := "x=1"; "cv_logs_custom_config" := "a.fields.x=1;oops"]}.

Lemma build_root_outcome_witness :
  build_root (H := range_sorted) ["a"; "cv"] demo_custom = Panic ∧
  build_root (H := range_sorted) ["cv"] {["cv.logs.b.c" := "v"]} = Err "b has no parent node".
Proof.
  split.
  - destruct (build_root_outcome (H := range_sorted) ["a"; "cv"] demo_custom) as [_ T].
    assert (steps (H := range_sorted) ["a"; "cv"] demo_custom =
      [("a_logs_custom_config", "a"); ("a_logs_custom_config", "cv"); ("cv_logs_custom_config", "a")] ++
      ("cv_logs_custom_config", "cv") :: []) as E by (vm_compute; reflexivity).
    apply (T _ _ _ E); [|by split; vm_compute; reflexivity].
    intros l1 kp l2 El. assert (kp ∈ [("a_logs_custom_config", "a"); ("a_logs_custom_config", "cv"); ("cv_logs_custom_config", "a")])
      as Hin by (rewrite El; apply elem_of_app; right; left). clear El E T.
    rewrite !elem_of_cons, elem_of_nil in Hin. destruct_or! Hin; subst; try done.
    all: (split; [intros [H1 H2]; vm_compute in H1, H2; congruence|intros k [(k2 & rest & He) _]; vm_compute in He; congruence]).
  - destruct (build_root_outcome (H := range_sorted) ["cv"] {["cv.logs.b.c" := "v"]}) as [_ T].
    refine (proj2 (T [] ("cv.logs.b.c", "cv") [] _ _) "b" _).
    + vm_compute. reflexivity.
    + intros [|? ?] kp l2 El; discriminate.
    + split; [exists "c", []; vm_compute; reflexivity|]. intros s Hs. by apply elem_of_nil in Hs.
Defined.
