(* ===== verification/LogConfig.v ===== *)
(** * From labels to log configurations

    pilot/piloter.go (the [Piloter] interface, [CustomConfig]), pilot/format.go (the
    format converters), pilot/util.go and the parsing half of pilot/pilot.go:
    [hostDirOf], [parseTags], [tryCheckKafkaTopic], [parseLogConfig] and
    [getLogConfigs]. *)

From S2P Require Import Prelude GoStrings GoPath LogTree.

(** ** The piloter interface *)

Definition PILOT_FILEBEAT : string := "filebeat".
Definition PILOT_FLUENTD : string := "fluentd".

(** The part of [Piloter] that does not act: names and configuration paths. Two
    containers never share a configuration path. *)
Class Piloter := {
  Name : string;
  GetBaseConf : string;
  GetConfHome : string;
  GetConfPath : string → string;
  GetConfPath_inj : Inj (=) (=) GetConfPath;
  GetConfHome_abs : ∃ cs, Forall comp_ok cs ∧ cs ≠ [] ∧ GetConfHome = abs_path cs;
  GetConfPath_home c : ∃ f, GetConfPath c = GetConfHome +:+ "/" +:+ c +:+ f
}.
#[export] Existing Instance GetConfPath_inj.

Definition FILEBEAT_BASE_CONF : string := "/config/filebeat".
Definition FILEBEAT_CONF_DIR : string := FILEBEAT_BASE_CONF +:+ "/prospectors.d".
Definition FLUENTD_BASE_CONF : string := "/etc/fluentd".
Definition FLUENTD_CONF_DIR : string := FLUENTD_BASE_CONF +:+ "/conf.d".

Definition filebeat_GetConfPath (container : string) : string :=
  FILEBEAT_CONF_DIR +:+ "/" +:+ container +:+ ".yml".
Definition fluentd_GetConfPath (container : string) : string :=
  FLUENTD_CONF_DIR +:+ "/" +:+ container +:+ ".conf".

#[export] Instance filebeat_GetConfPath_inj : Inj (=) (=) filebeat_GetConfPath.
Proof.
  intros a b E%str_app_inj_l%str_app_inj_l. apply (str_app_inj_suffix a b ".yml" E).
Qed.

#[export] Instance fluentd_GetConfPath_inj : Inj (=) (=) fluentd_GetConfPath.
Proof.
  intros a b E%str_app_inj_l%str_app_inj_l. apply (str_app_inj_suffix a b ".conf" E).
Qed.

Lemma filebeat_home_abs :
  ∃ cs, Forall comp_ok cs ∧ cs ≠ [] ∧ FILEBEAT_CONF_DIR = abs_path cs.
Proof. exists ["config"; "filebeat"; "prospectors.d"]. split; [by_decide|done]. Qed.

Lemma fluentd_home_abs :
  ∃ cs, Forall comp_ok cs ∧ cs ≠ [] ∧ FLUENTD_CONF_DIR = abs_path cs.
Proof. exists ["etc"; "fluentd"; "conf.d"]. split; [by_decide|done]. Qed.

Definition FilebeatPiloter : Piloter := {|
  Name := PILOT_FILEBEAT;
  GetBaseConf := FILEBEAT_BASE_CONF;
  GetConfHome := FILEBEAT_CONF_DIR;
  GetConfPath := filebeat_GetConfPath;
  GetConfHome_abs := filebeat_home_abs;
  GetConfPath_home := λ c, ex_intro _ ".yml" eq_refl
|}.

Definition FluentdPiloter : Piloter := {|
  Name := PILOT_FLUENTD;
  GetBaseConf := FLUENTD_BASE_CONF;
  GetConfHome := FLUENTD_CONF_DIR;
  GetConfPath := fluentd_GetConfPath;
  GetConfHome_abs := fluentd_home_abs;
  GetConfPath_home := λ c, ex_intro _ ".conf" eq_refl
|}.

Definition NewPiloter (PilotType : string) : outcome Piloter :=
  if decide (PilotType = PILOT_FILEBEAT) then Ok FilebeatPiloter
  else if decide (PilotType = PILOT_FLUENTD) then Ok FluentdPiloter
  else Err "InvalidPilotType".

(** ** Data *)

Record MountPoint := mkMountPoint {
  MountType : string;
  MountName : string;
  Source : string;
  Destination : string
}.

Record LogConfig := mkLogConfig {
  ConfName : string;
  HostDir : string;
  ContainerDir : string;
  Format : string;
  FormatConfig : gmap string string;
  File : string;
  Tags : gmap string string;
  Target : string;
  EstimateTime : bool;
  Stdout : bool;
  CustomFields : gmap string string;
  CustomConfigs : gmap string string
}.

(** What the parser reads from the process and the file system: environment
    variables, [os.Stat] and [ioutil.ReadFile]. *)
Inductive stat_result := StatOk | StatNotExist | StatErr (msg : string).

Record PilotEnv := mkPilotEnv {
  baseDir : string;
  logPrefix : list string;
  createSymlink : bool;
  PilotType : string;
  Getenv : string → string;
  fs_stat : string → stat_result;
  fs_read : string → string + string
}.

(** ** Format converters *)

Definition FormatConverter : Type := LogInfoNode → outcome (gmap string string).

(** The converter checks each child while it ranges over them, so which of several
    invalid properties the message names depends on the iteration order. *)
Definition simpleConverter `{GoRange} (properties : list string) : FormatConverter := λ info,
  ofold (λ ret kv,
      if decide (kv.1 ∈ properties) then Ok (<[kv.1 := value kv.2]> ret)
      else Err (kv.1 +:+ " is not a valid properties for format " +:+ value info))
    ∅ (go_range (children info)).

Definition regexpConverter `{GoRange} : FormatConverter := λ info,
  let! ret := simpleConverter ["pattern"; "time_format"] info in
  if decide (mget ret "pattern" = "") then Err "regex pattern can not be empty" else Ok ret.

(** [Register] overwrites; the registrations are in the order of [init]. *)
Definition Register (format : string) (converter : FormatConverter)
    (converters : gmap string FormatConverter) : gmap string FormatConverter :=
  <[format := converter]> converters.

Definition converters `{GoRange} : gmap string FormatConverter :=
  Register "regexp" regexpConverter $
  Register "nginx" (simpleConverter []) $
  Register "apache_error" (simpleConverter []) $
  Register "apache2" (simpleConverter []) $
  Register "regexp" (simpleConverter ["time_key"; "time_format"]) $
  Register "json" (simpleConverter ["time_key"; "time_format"]) $
  Register "csv" (simpleConverter ["time_key"; "time_format"; "keys"]) $
  Register "nonex" (simpleConverter []) ∅.

Definition Convert `{GoRange} (info : LogInfoNode) : outcome (gmap string string) :=
  match converters !! value info with
  | None => Err ("unsupported log format: " +:+ value info)
  | Some converter => converter info
  end.

(** ** Tags, topics and mounts *)

Definition comma : ascii := ","%char.

Definition parse_kv (tagMap : gmap string string) (kv : string) : outcome (gmap string string) :=
  match Split kv equals with
  | [a0; a1] =>
      let key := TrimSpace a0 in
      let val := TrimSpace a1 in
      if decide (key = "" ∨ val = "") then Err (kv +:+ " is not a valid k=v format")
      else Ok (<[key := val]> tagMap)
  | _ => Err (kv +:+ " is not a valid k=v format")
  end.

Definition parseTags (tags : string) : outcome (gmap string string) :=
  if decide (tags = "") then Ok ∅ else ofold parse_kv ∅ (Split tags comma).

Definition ReadFile (env : PilotEnv) (path : string) (separator : ascii) : outcome (list string) :=
  match fs_read env path with
  | inl data => Ok (Split data separator)
  | inr err => Err err
  end.

Definition tryCheckKafkaTopic `{Piloter} (env : PilotEnv) (topic : string) : outcome unit :=
  if negb (bool_decide (Getenv env "LOGGING_OUTPUT" = "kafka")) then Ok ()
  else
    let topicPath := PathJoin [GetBaseConf; "config"; "kafka_topics"] in
    match fs_stat env topicPath with
    | StatNotExist => Ok ()
    | _ =>
        let! topics := ReadFile env topicPath comma in
        if decide (topic ∈ topics) then Ok ()
        else Err ("invalid topic: " +:+ topic +:+ ", supported topics: [" +:+
                  Join topics " " +:+ "]")
    end.

(** The loop of [hostDirOf]; each round goes to the parent directory, so the length of
    the path bounds the rounds (see [hostDirOf_nearest] for its sufficiency). *)
Fixpoint hostDirOf_loop (fuel : nat) (confPath path : string)
    (mounts : gmap string MountPoint) : outcome string :=
  match fuel with
  | O => Panic
  | S fuel' =>
      match mounts !! path with
      | Some point =>
          if decide (confPath = path) then Ok (Source point)
          else match Rel path confPath with
               | Some relPath => Ok (Source point +:+ "/" +:+ relPath)
               | None => Panic
               end
      | None =>
          let path' := Dir path in
          if decide (path' = "/" ∨ path' = ".") then Ok ""
          else hostDirOf_loop fuel' confPath path' mounts
      end
  end.

Definition hostDirOf (path : string) (mounts : gmap string MountPoint) : outcome string :=
  hostDirOf_loop (S (String.length path)) path path mounts.

(** ** One log configuration *)

(** The default index or topic: the tag, else the target, else the name of the log. *)
Definition default_tag (key target name : string) (tagMap : gmap string string)
    : gmap string string :=
  match tagMap !! key with
  | Some _ => tagMap
  | None => <[key := if decide (target = "") then name else target]> tagMap
  end.

Definition map_err {A} (f : string → string) (m : outcome A) : outcome A :=
  match m with Err e => Err (f e) | _ => m end.

Definition parseLogConfig `{GoRange, Piloter} (env : PilotEnv) (name : string)
    (info : LogInfoNode) (jsonLogPath : string) (mounts : gmap string MountPoint)
    : outcome LogConfig :=
  let path := TrimSpace (value info) in
  if decide (path = "") then Err ("path for " +:+ name +:+ " is empty") else
  let! tagMap0 := map_err (λ e, "parse tags for " +:+ name +:+ " error: " +:+ e)
                    (parseTags (get info "tags")) in
  let target := get info "target" in
  let tagMap := default_tag "topic" target name (default_tag "index" target name tagMap0) in
  let! _ := tryCheckKafkaTopic env (mget tagMap "topic") in
  let format :=
    match children info !! "format" with
    | None => newLogInfoNode "nonex"
    | Some f => if decide (value f = "none") then newLogInfoNode "nonex" else f
    end in
  let! formatConfig0 := map_err (λ e, "in log " +:+ name +:+ ": format error: " +:+ e)
                          (Convert format) in
  let is_regexp := bool_decide (value format = "regexp") in
  let format_value :=
    if is_regexp then "/" +:+ mget formatConfig0 "pattern" +:+ "/" else value format in
  let formatConfig := if is_regexp then delete "pattern" formatConfig0 else formatConfig0 in
  if decide (path = "stdout") then
    let logFile := Base jsonLogPath in
    let logFile := if decide (Name = PILOT_FILEBEAT) then logFile +:+ "*" else logFile in
    Ok {| ConfName := name; HostDir := PathJoin [baseDir env; Dir jsonLogPath];
          ContainerDir := ""; Format := format_value;
          FormatConfig := {["time_format" := "%Y-%m-%dT%H:%M:%S.%NZ"]};
          File := logFile; Tags := tagMap; Target := target; EstimateTime := false;
          Stdout := true; CustomFields := ∅; CustomConfigs := ∅ |}
  else if negb (IsAbs path) then Err (path +:+ " must be absolute path, for " +:+ name)
  else
    let containerDir := Dir path in
    let file := Base path in
    if decide (file = "")
    then Err (path +:+ " must be a file path, not directory, for " +:+ name) else
    let! hostDir := hostDirOf containerDir mounts in
    if decide (hostDir = "")
    then Err ("in log " +:+ name +:+ ": " +:+ path +:+ " is not mount on host") else
    let estimate := bool_decide (mget formatConfig "time_key" = "") in
    Ok {| ConfName := name; HostDir := PathJoin [baseDir env; hostDir];
          ContainerDir := containerDir; Format := format_value;
          FormatConfig := if estimate then <["time_key" := "time"]> formatConfig
                          else formatConfig;
          File := file; Tags := tagMap; Target := target; EstimateTime := estimate;
          Stdout := false; CustomFields := ∅; CustomConfigs := ∅ |}.

(** ** Custom configuration and the whole list *)

Definition custom_config_step (name : string)
    (acc : gmap string string * gmap string string) (kv : string * string)
    : gmap string string * gmap string string :=
  let '(fields, configs) := acc in
  let '(k, v) := kv in
  if HasPrefix k name then
    let key := TrimPrefix k (name +:+ ".") in
    if HasPrefix key "fields" then (<[TrimPrefix key "fields." := v]> fields, configs)
    else (fields, <[key := v]> configs)
  else acc.

Definition CustomConfig `{GoRange} (env : PilotEnv) (name : string)
    (customConfigs : gmap string string) (logConfig : LogConfig) : LogConfig :=
  if decide (PilotType env = PILOT_FILEBEAT) then
    let '(fields, configs) :=
      foldl (custom_config_step name) (∅, ∅) (go_range customConfigs) in
    {| ConfName := ConfName logConfig; HostDir := HostDir logConfig;
       ContainerDir := ContainerDir logConfig; Format := Format logConfig;
       FormatConfig := FormatConfig logConfig; File := File logConfig;
       Tags := Tags logConfig; Target := Target logConfig;
       EstimateTime := EstimateTime logConfig; Stdout := Stdout logConfig;
       CustomFields := fields; CustomConfigs := configs |}
  else logConfig.

Definition mounts_map (mounts : list MountPoint) : gmap string MountPoint :=
  foldl (λ m p, <[Destination p := p]> m) ∅ mounts.

Definition getLogConfigs `{GoRange, Piloter} (env : PilotEnv) (jsonLogPath : string)
    (mounts : list MountPoint) (labels : gmap string string) : outcome (list LogConfig) :=
  let! (customConfigs, root) := build_root (logPrefix env) labels in
  ofold (λ ret kv,
      let! logConfig := parseLogConfig env kv.1 kv.2 jsonLogPath (mounts_map mounts) in
      Ok (ret ++ [CustomConfig env kv.1 customConfigs logConfig]))
    [] (go_range (children root)).

(** ** Mounts: the nearest mounted ancestor *)

(** [pre] is the nearest ancestor of [pre ++ suf] with a mount point. The root
    directory counts only for itself. *)
Definition nearest_mount (mounts : gmap string MountPoint) (pre suf : list string)
    (point : MountPoint) : Prop :=
  mounts !! abs_path pre = Some point ∧ (pre ≠ [] ∨ suf = []) ∧
  ∀ l1 l2, suf = l1 ++ l2 → l1 ≠ [] → mounts !! abs_path (pre ++ l1) = None.

Definition host_of (point : MountPoint) (suf : list string) : string :=
  if decide (suf = []) then Source point else Source point +:+ "/" +:+ Join suf "/".

Lemma abs_path_not_root cs : cs ≠ [] → Forall comp_ok cs → abs_path cs ≠ "/" ∧ abs_path cs ≠ ".".
Proof.
  intros Hne Hf. split.
  - intros E. by apply (abs_path_inj cs []) in E.
  - unfold abs_path. by destruct (Join cs "/").
Qed.

Lemma hostDirOf_loop_spec mounts suf : ∀ pre fuel,
  Forall comp_ok (pre ++ suf) → length pre < fuel →
  (∀ l1 l2, suf = l1 ++ l2 → l1 ≠ [] → mounts !! abs_path (pre ++ l1) = None) →
  (pre ≠ [] ∨ suf = []) →
  ∃ r, hostDirOf_loop fuel (abs_path (pre ++ suf)) (abs_path pre) mounts = Ok r ∧
    ((∃ pre' suf' p, pre ++ suf = pre' ++ suf' ∧ nearest_mount mounts pre' suf' p ∧
        r = host_of p suf') ∨
     ((∀ pre' suf', pre ++ suf = pre' ++ suf' → pre' ≠ [] ∨ suf' = [] →
        mounts !! abs_path pre' = None) ∧ r = "")).
Proof.
  intros pre. remember (length pre) as n eqn:Hn. revert pre suf Hn.
  induction n as [|n IH]; intros pre suf Hn fuel Hf Hfuel Hnone Hroot;
    destruct fuel as [|fuel]; try lia; simpl.
  all: destruct (mounts !! abs_path pre) as [p|] eqn:Ep.
  1, 3: pose proof (conj Ep (conj Hroot Hnone) : nearest_mount mounts pre suf p) as Hnear;
    destruct (decide (suf = [])) as [->|Hne];
    [ rewrite app_nil_r, decide_True by done; eexists; split; [done|];
      left; exists pre, [], p; by rewrite app_nil_r
    | rewrite decide_False; [rewrite Rel_below by done|];
      [ eexists; split; [done|]; left; exists pre, suf, p; unfold host_of;
        by rewrite decide_False by done
      | intros E; apply abs_path_inj in E; [|done|by apply Forall_app in Hf as [? _]];
        rewrite <-(app_nil_r pre) in E at 2; by apply app_inv_head in E ] ].
  - destruct pre; [|done]. destruct Hroot as [?| ->]; [done|].
    rewrite decide_True by (left; apply Dir_root). eexists. split; [done|]. right. split; [|done].
    intros [|] ?; done.
  - destruct (exists_last (l := pre)) as (pre0 & c & ->); [by intros ->|].
    rewrite length_app in Hn. simpl in Hn.
    rewrite <-app_assoc in Hf. pose proof Hf as [Hf0 Hf1]%Forall_app.
    rewrite Dir_abs_snoc by (apply Forall_app; split; [done|];
      by apply (Forall_app _ [c] suf) in Hf1 as [? _]).
    assert (∀ l1 l2, c :: suf = l1 ++ l2 → l1 ≠ [] → mounts !! abs_path (pre0 ++ l1) = None) as Hn'.
    { intros [|x [|y l1]] l2 E Hl1; [done|..]; injection E as <- E; [done|].
      change (pre0 ++ c :: y :: l1) with (pre0 ++ [c] ++ y :: l1). rewrite app_assoc. eapply Hnone; [exact E|done]. }
    destruct (decide (pre0 = [])) as [->|Hp0].
    + rewrite decide_True by (by left). eexists. split; [done|]. right. split; [|done].
      intros [|x pre'] suf' E [?|Hs]; try done.
      * simpl in E. by subst.
      * simpl in E. injection E as <- E. exact (Hn' (c :: pre') suf' ltac:(by rewrite E) ltac:(done)).
      * simpl in E. injection E as <- E. exact (Hn' (c :: pre') suf' ltac:(by rewrite E) ltac:(done)).
    + pose proof (abs_path_not_root pre0 Hp0 Hf0). rewrite decide_False by naive_solver.
      rewrite <-!app_assoc. apply (IH pre0 (c :: suf)); [lia|done|lia|done|by left].
Qed.

Lemma length_abs_path cs : Forall comp_ok cs → length cs < S (String.length (abs_path cs)).
Proof.
  intros Hf. unfold abs_path. rewrite str_length_app.
  assert (length cs ≤ String.length (Join cs "/")) as H; [|simpl; lia].
  induction Hf as [|c cs (Hc & _) Hf IH]; [simpl; lia|].
  assert (1 ≤ String.length c) by (destruct c; simpl; [done|lia]).
  destruct cs as [|c2 cs]; [simpl; lia|].
  rewrite Join_cons by done. rewrite !str_length_app. simpl length in *. lia.
Qed.

(** C9: [hostDirOf] on the clean absolute path of the components [cs] always returns
    (its loop ends, and neither [filepath.Rel] nor anything else panics). Either some
    ancestor of the path is mounted, and the result is the source of the nearest
    mounted one extended with the rest of the path, or no ancestor below the root is
    mounted and the result is empty. *)
Theorem hostDirOf_nearest (cs : list string) (mounts : gmap string MountPoint) :
  Forall comp_ok cs →
  ∃ r, hostDirOf (abs_path cs) mounts = Ok r ∧
    ((∃ pre suf p, cs = pre ++ suf ∧ nearest_mount mounts pre suf p ∧ r = host_of p suf) ∨
     ((∀ pre suf, cs = pre ++ suf → pre ≠ [] ∨ suf = [] → mounts !! abs_path pre = None) ∧
      r = "")).
Proof.
  intros Hf. destruct (hostDirOf_loop_spec mounts [] cs (S (String.length (abs_path cs))))
    as (r & Hr & Hspec).
  - by rewrite app_nil_r.
  - by apply length_abs_path.
  - intros [|] ? E ?; done.
  - by right.
  - rewrite app_nil_r in *. exists r. by split.
Qed.

Lemma hostDirOf_total p mounts : IsAbs p = true → ∃ r, hostDirOf (Dir p) mounts = Ok r.
Proof.
  intros (cs & Hf & ->)%Dir_abs. unfold hostDirOf.
  destruct (hostDirOf_loop_spec mounts [] cs (S (String.length (abs_path cs)))) as (r & Hr & _);
    [by rewrite app_nil_r|by apply length_abs_path|by intros [|] ???|by right|].
  exists r. by rewrite app_nil_r in Hr.
Qed.

(** ** Tags *)

(** The pair a [k=v] item stands for. *)
Definition kv_of (kv : string) : option (string * string) :=
  match Split kv equals with
  | [a0; a1] => if decide (TrimSpace a0 = "" ∨ TrimSpace a1 = "") then None
                else Some (TrimSpace a0, TrimSpace a1)
  | _ => None
  end.

Definition tags_of (l : list (string * string)) (m : gmap string string) : gmap string string :=
  foldl (λ m kv, <[kv.1 := kv.2]> m) m l.

Lemma parse_kv_spec m kv :
  parse_kv m kv = match kv_of kv with
                  | Some p => Ok (<[p.1 := p.2]> m)
                  | None => Err (kv +:+ " is not a valid k=v format")
                  end.
Proof.
  unfold parse_kv, kv_of. destruct (Split kv equals) as [|a0 [|a1 [|]]]; try done.
  by case_decide.
Qed.

Lemma parse_kvs_ok kvs l m :
  Forall2 (λ kv p, kv_of kv = Some p) kvs l → ofold parse_kv m kvs = Ok (tags_of l m).
Proof.
  intros Hf. revert m. induction Hf as [|kv p kvs l E Hf IH]; intros m; simpl; [done|].
  rewrite parse_kv_spec, E. simpl. apply IH.
Qed.

Lemma parse_kvs_cases kvs m :
  (∃ l, Forall2 (λ kv p, kv_of kv = Some p) kvs l ∧ ofold parse_kv m kvs = Ok (tags_of l m)) ∨
  (∃ pre kv post, kvs = pre ++ kv :: post ∧ Forall (λ kv, is_Some (kv_of kv)) pre ∧
     kv_of kv = None ∧ ofold parse_kv m kvs = Err (kv +:+ " is not a valid k=v format")).
Proof.
  revert m. induction kvs as [|kv kvs IH]; intros m.
  { left. by exists []. }
  simpl. rewrite parse_kv_spec. destruct (kv_of kv) as [p|] eqn:E; simpl.
  - destruct (IH (<[p.1:=p.2]> m)) as [(l & Hl & ->)|(pre & kv' & post & -> & Hpre & Hkv & ->)].
    + left. exists (p :: l). split; [by constructor|done].
    + right. exists (kv :: pre), kv', post. split_and!; try done. constructor; [by rewrite E|done].
  - right. exists [], kv, kvs. split_and!; [done|constructor|done|done].
Qed.

(** [parseTags] never panics. It fails exactly when a tag list is given and one of
    its items is not [k=v] with non-blank sides, naming the first such item; otherwise
    it yields the map of the items, a later key overriding an earlier one. *)
Theorem parseTags_outcome (tags : string) :
  (tags = "" ∧ parseTags tags = Ok ∅) ∨
  (∃ l, tags ≠ "" ∧ Forall2 (λ kv p, kv_of kv = Some p) (Split tags comma) l ∧
     parseTags tags = Ok (tags_of l ∅)) ∨
  (∃ pre kv post, tags ≠ "" ∧ Split tags comma = pre ++ kv :: post ∧
     Forall (λ kv, is_Some (kv_of kv)) pre ∧ kv_of kv = None ∧
     parseTags tags = Err (kv +:+ " is not a valid k=v format")).
Proof.
  unfold parseTags. case_decide as Ht; [by left|right].
  destruct (parse_kvs_cases (Split tags comma) ∅) as [(l & ?)|(pre & kv & post & ?)];
    [left; exists l|right; exists pre, kv, post]; tauto.
Qed.

Lemma parseTags_no_panic tags : parseTags tags ≠ Panic.
Proof.
  unfold parseTags. case_decide; [done|].
  destruct (parse_kvs_cases (Split tags comma) ∅) as [(l & _ & ->)|(? & ? & ? & _ & _ & _ & ->)]; done.
Qed.

(** A key or value that survives the separators and the trimming. *)
Definition tag_word (w : string) : Prop :=
  w ≠ "" ∧ TrimSpace w = w ∧ (equals ∉ str_elems w) ∧ (comma ∉ str_elems w).

#[global] Instance tag_word_dec w : Decision (tag_word w).
Proof. unfold tag_word. apply _. Defined.

Definition print_tag (p : string * string) : string := p.1 +:+ "=" +:+ p.2.
Definition print_tags (l : list (string * string)) : string := Join (print_tag <$> l) ",".

Lemma kv_of_print k v : tag_word k → tag_word v → kv_of (print_tag (k, v)) = Some (k, v).
Proof.
  intros (Hk & Tk & Ek & _) (Hv & Tv & Ev & _). unfold kv_of, print_tag.
  change ((k, v).1 +:+ "=" +:+ (k, v).2) with (k +:+ String equals v).
  rewrite (Split_app_sep k v equals) by done. rewrite Split_single by done.
  rewrite Tk, Tv. by rewrite decide_False by naive_solver.
Qed.

Lemma print_tag_no_comma p : tag_word p.1 → tag_word p.2 → comma ∉ str_elems (print_tag p).
Proof.
  intros (_ & _ & _ & Hk) (_ & _ & _ & Hv). unfold print_tag.
  rewrite !str_elems_app, !elem_of_app. intros [?|[Hc|?]]; try done.
  apply list_elem_of_singleton in Hc. done.
Qed.

(** Printing a list of tags and parsing it gives the map of the list back. *)
Theorem parseTags_print (l : list (string * string)) :
  Forall (λ p, tag_word p.1 ∧ tag_word p.2) l →
  parseTags (print_tags l) = Ok (tags_of l ∅).
Proof.
  intros Hf. destruct (decide (l = [])) as [->|Hne]; [done|].
  unfold parseTags. rewrite decide_False.
  - unfold print_tags. rewrite (Split_Join (print_tag <$> l) comma).
    + apply parse_kvs_ok. apply Forall2_fmap_l, Forall_Forall2_diag.
      eapply Forall_impl; [exact Hf|]. intros [k v] [Hk Hv]. by apply kv_of_print.
    + by destruct l.
    + apply Forall_fmap. eapply Forall_impl; [exact Hf|]. intros p [Hk Hv]. by apply print_tag_no_comma.
  - destruct l as [|[k v] l]; [done|]. apply Forall_cons in Hf as [[(Hk & _) _] _].
    simpl in Hk. unfold print_tags. simpl. destruct k; [done|]. by destruct l.
Qed.

(** ** One configuration *)

Lemma simpleConverter_no_panic `{GoRange} props info : simpleConverter props info ≠ Panic.
Proof. apply ofold_no_panic. intros s [k v] _. by case_decide. Qed.

Lemma Convert_no_panic `{GoRange} info : Convert info ≠ Panic.
Proof.
  unfold Convert. destruct (converters !! value info) as [c|] eqn:E; [|done].
  unfold converters, Register in E.
  repeat (apply lookup_insert_Some in E as [[_ <-]|[_ E]];
          [apply simpleConverter_no_panic || idtac|]); [|cbn [snd] in E; by rewrite lookup_empty in E].
  unfold regexpConverter. intros [Hp|(ret & _ & Hr)]%obind_panic_inv.
  - by apply simpleConverter_no_panic in Hp.
  - by case_decide.
Qed.

Lemma map_err_ok {A} f (m : outcome A) a : map_err f m = Ok a ↔ m = Ok a.
Proof. by destruct m. Qed.

Lemma map_err_panic {A} f (m : outcome A) : map_err f m = Panic ↔ m = Panic.
Proof. by destruct m. Qed.

Lemma tryCheckKafkaTopic_no_panic `{Piloter} env topic : tryCheckKafkaTopic env topic ≠ Panic.
Proof.
  unfold tryCheckKafkaTopic, ReadFile.
  destruct (negb _); [done|].
  destruct (fs_stat _ _); [destruct (fs_read _ _)|..|destruct (fs_read _ _)]; simpl;
    try done; by case_decide.
Qed.

(** Parsing one log label never panics, whatever the labels and mounts are: it
    returns a configuration or an error. *)
Theorem parseLogConfig_no_panic `{GoRange, Piloter} env name info jsonLogPath mounts :
  parseLogConfig env name info jsonLogPath mounts ≠ Panic.
Proof.
  unfold parseLogConfig. case_decide; [done|].
  intros [Hp|(tm & _ & Hp)]%obind_panic_inv.
  { rewrite map_err_panic in Hp. by apply parseTags_no_panic in Hp. }
  apply obind_panic_inv in Hp as [Hp|(u & _ & Hp)].
  { by apply tryCheckKafkaTopic_no_panic in Hp. }
  apply obind_panic_inv in Hp as [Hp|(fc & _ & Hp)].
  { rewrite map_err_panic in Hp. by apply Convert_no_panic in Hp. }
  case_decide; [done|]. destruct (IsAbs _) eqn:Habs; [|done]. cbn [negb] in Hp.
  case_decide; [done|]. destruct (hostDirOf_total _ mounts Habs) as [r Hr].
  rewrite Hr in Hp. simpl in Hp. by case_decide.
Qed.

(** The value a tag gets: the one given, else the target, else the log's name. *)
Definition tag_or_default (given : gmap string string) (key target name : string) : string :=
  default (if decide (target = "") then name else target) (given !! key).

Lemma default_tag_same key target name m :
  default_tag key target name m !! key = Some (tag_or_default m key target name).
Proof.
  unfold default_tag, tag_or_default. destruct (m !! key) eqn:E; [by rewrite E|].
  by rewrite lookup_insert_eq.
Qed.

Lemma default_tag_other key key' target name m :
  key ≠ key' → default_tag key target name m !! key' = m !! key'.
Proof.
  intros Hne. unfold default_tag. destruct (m !! key); [done|]. by rewrite lookup_insert_ne.
Qed.

(** C10: a configuration that parses has the log's name and target; its tags hold an
    index and a topic (the tag given, else the target, else the name); the topic
    passed the Kafka check; it is a stdout configuration exactly when the trimmed
    label is [stdout]; otherwise the label is an absolute path whose directory is
    mounted, the configuration points below the base directory to the mount's source,
    and the time key is never empty. *)
Theorem parseLogConfig_spec `{GoRange, Piloter} env name info jsonLogPath mounts cfg :
  parseLogConfig env name info jsonLogPath mounts = Ok cfg →
  let path := TrimSpace (value info) in
  let target := get info "target" in
  ConfName cfg = name ∧ Target cfg = target ∧
  (∃ given, parseTags (get info "tags") = Ok given ∧
     Tags cfg !! "index" = Some (tag_or_default given "index" target name) ∧
     Tags cfg !! "topic" = Some (tag_or_default given "topic" target name) ∧
     tryCheckKafkaTopic env (tag_or_default given "topic" target name) = Ok ()) ∧
  (Stdout cfg = true ↔ path = "stdout") ∧
  (Stdout cfg = false →
     IsAbs path = true ∧ ContainerDir cfg = Dir path ∧ File cfg = Base path ∧
     mget (FormatConfig cfg) "time_key" ≠ "" ∧
     ∃ h, hostDirOf (Dir path) mounts = Ok h ∧ h ≠ "" ∧
       HostDir cfg = PathJoin [baseDir env; h]).
Proof.
  intros Hp. unfold parseLogConfig in Hp. case_decide; [done|].
  apply obind_ok_inv in Hp as (given & Hg & Hp). apply map_err_ok in Hg.
  apply obind_ok_inv in Hp as ([] & Hk & Hp).
  apply obind_ok_inv in Hp as (fc & _ & Hp).
  set (tm := default_tag "topic" _ _ _) in *.
  assert (tm !! "index" = Some (tag_or_default given "index" (get info "target") name)) as Hi.
  { unfold tm. rewrite default_tag_other by done. apply default_tag_same. }
  assert (tm !! "topic" = Some (tag_or_default given "topic" (get info "target") name)) as Ht.
  { unfold tm. rewrite default_tag_same. unfold tag_or_default.
    by rewrite default_tag_other. }
  unfold mget in Hk. rewrite Ht in Hk. simpl in Hk.
  case_decide as Hs.
  { injection Hp as <-. simpl. split_and!; try done. by exists given. }
  destruct (IsAbs _) eqn:Habs; [|done]. cbn [negb] in Hp. case_decide; [done|].
  apply obind_ok_inv in Hp as (h & Hh & Hp). case_decide; [done|]. injection Hp as <-. simpl.
  split_and!; try done; [by exists given|]. intros _. split_and!; try done; [|by exists h].
  case_bool_decide as Htk; [|done]. unfold mget. by rewrite lookup_insert_eq.
Qed.

(** ** The whole list *)

Lemma build_root_keys_dotless `{GoRange} prefixes labels cc root n :
  build_root prefixes labels = Ok (cc, root) → is_Some (children root !! n) →
  dot ∉ str_elems n.
Proof.
  intros Hb. revert n.
  set (P := λ st : gmap string string * LogInfoNode,
              ∀ n, is_Some (children st.2 !! n) → dot ∉ str_elems n).
  change (P (cc, root)). unfold build_root in Hb.
  eapply (ofold_inv P _ (∅, newLogInfoNode "")); [
    |intros n; change (is_Some ((∅ : gmap string LogInfoNode) !! n) → dot ∉ str_elems n); 
     rewrite lookup_empty; by intros []
    |exact Hb].
  intros st k st' _ HP Hk. eapply (ofold_inv P); [|exact HP|exact Hk].
  clear dependent st st' Hb. intros [cc1 r1] pfx [cc2 r2] _ HP Hl. unfold label_step in Hl.
  case_decide; [by obind_inv|]. destruct (_ || _); [by obind_inv|].
  destruct (insert _ _ _) as [r [e|]] eqn:Ei; [done|]. injection Hl as <- <-.
  intros n Hn. simpl in *. pose proof (dotless_Split (TrimPrefix k (service_logs pfx))) as [Hne Hf].
  revert Hne Hf Ei. generalize (Split (TrimPrefix k (service_logs pfx)) dot) as ks.
  intros [|key rest0] Hne Hf Ei; [done|]. apply Forall_cons in Hf as [Hkey _].
  destruct rest0 as [|k2 rest].
  - simpl in Ei. injection Ei as <-. simpl in Hn.
    destruct (decide (n = key)) as [->|]; [done|]. rewrite lookup_insert_ne in Hn by done. by apply HP.
  - rewrite insert_cons2 in Ei. destruct (children r1 !! key) eqn:Ek; [|done].
    injection Ei as <-. simpl in Hn. destruct (decide (n = key)) as [->|]; [done|].
    rewrite lookup_insert_ne in Hn by done. by apply HP.
Qed.

Lemma CustomConfig_name `{GoRange} env name cc cfg :
  ConfName (CustomConfig env name cc cfg) = ConfName cfg.
Proof. unfold CustomConfig. case_decide; [|done]. by destruct (foldl _ _ _). Qed.

Lemma parseLogConfig_name `{GoRange, Piloter} env name info j m cfg :
  parseLogConfig env name info j m = Ok cfg → ConfName cfg = name.
Proof.
  unfold parseLogConfig. intros Hp. case_decide; [done|]. obind_inv.
  case_decide; [by obind_inv|]. destruct (negb _); [done|]. case_decide; [done|].
  obind_inv. case_decide; [done|]. by obind_inv.
Qed.

(** What a successful [getLogConfigs] holds, entry by entry. *)
Lemma getLogConfigs_entries `{GoRange, Piloter} env j mounts labels ret :
  getLogConfigs env j mounts labels = Ok ret →
  ∃ cc root, build_root (logPrefix env) labels = Ok (cc, root) ∧
    Forall2 (λ kv cfg, ∃ cfg0, parseLogConfig env kv.1 kv.2 j (mounts_map mounts) = Ok cfg0 ∧
                               cfg = CustomConfig env kv.1 cc cfg0)
      (go_range (children root)) ret.
Proof.
  unfold getLogConfigs. intros ([cc root] & Hb & Hr)%obind_ok_inv. exists cc, root. split; [done|].
  set (f := λ kv : string * LogInfoNode,
    let! c := parseLogConfig env kv.1 kv.2 j (mounts_map mounts) in
    Ok (CustomConfig env kv.1 cc c)).
  assert (ofold (λ acc a, let! b := f a in Ok (acc ++ [b])) [] (go_range (children root)) = Ok ret)
    as Hc.
  { rewrite <-Hr. apply ofold_ext. intros acc kv. unfold f. by rewrite obind_assoc. }
  apply (ofold_collect f []) in Hc as (new & -> & Hn). simpl.
  eapply Forall2_impl; [exact Hn|]. intros kv cfg Hf. unfold f in Hf. obind_inv. eauto.
Qed.

(** For a container whose labels parse, there is exactly one configuration per
    label [<prefix>.logs.<name>] without further dots, named after it; no name occurs
    twice, and nothing else yields a configuration. *)
Theorem getLogConfigs_names `{GoRange, Piloter} env prefix j mounts labels ret :
  logPrefix env = [prefix] →
  getLogConfigs env j mounts labels = Ok ret →
  NoDup (ConfName <$> ret) ∧
  ∀ n, n ∈ ConfName <$> ret ↔
       (dot ∉ str_elems n) ∧ is_Some (labels !! path_key prefix [n]).
Proof.
  intros Hpre (cc & root & Hb & Hf)%getLogConfigs_entries. rewrite Hpre in Hb.
  assert (ConfName <$> ret = (go_range (children root)).*1) as ->.
  { clear Hb. induction Hf as [|kv cfg l ret (cfg0 & Hp & ->) Hf IH]; [done|].
    rewrite !fmap_cons, IH, CustomConfig_name. f_equal. by eapply parseLogConfig_name. }
  split; [apply NoDup_go_range_keys|]. intros n. rewrite list_elem_of_fmap. split.
  - intros ([k node] & -> & Hin%elem_of_go_range). simpl.
    assert (dot ∉ str_elems k) as Hd by (eapply build_root_keys_dotless; [exact Hb|by eexists]).
    split; [done|]. exists (value node).
    eapply (build_root_tree_inv _ _ _ _ Hb [k]); [split; [done|by constructor]|].
    simpl. by rewrite Hin.
  - intros [Hd [v Hv]].
    assert (node_value [n] root = Some v) as Hn.
    { apply (build_root_tree_inv _ _ _ _ Hb [n]); [split; [done|by constructor]|].
      split; [|done]. intros q Hq [r Hr]. destruct q as [|x [|]]; [done| |done].
      injection Hr as <- _. apply elem_of_label_names. by rewrite Hv. }
    simpl in Hn. destruct (children root !! n) as [node|] eqn:En; [|done].
    exists (n, node). split; [done|]. by apply elem_of_go_range.
Qed.

(** ** Custom configuration *)

(** The key a custom setting [k] gets in the configurations of the log [name]. *)
Definition config_key (name k : string) : option string :=
  if HasPrefix k name then
    let key := TrimPrefix k (name +:+ ".") in
    if HasPrefix key "fields" then None else Some key
  else None.

Lemma custom_config_step_configs name acc k v :
  (custom_config_step name acc (k, v)).2 =
    match config_key name k with Some key => <[key := v]> acc.2 | None => acc.2 end.
Proof.
  destruct acc as [fields configs]. unfold custom_config_step, config_key.
  destruct (HasPrefix k name); [|done]. by destruct (HasPrefix _ "fields").
Qed.

Lemma custom_config_fold name l acc key v :
  (foldl (custom_config_step name) acc l).2 !! key = Some v →
  acc.2 !! key = Some v ∨ ∃ k, (k, v) ∈ l ∧ config_key name k = Some key.
Proof.
  revert acc. induction l as [|[k w] l IH]; intros acc; simpl; [by left|].
  intros [H|(k' & Hin & Hk)]%IH; [|right; exists k'; split; [by constructor|done]].
  rewrite custom_config_step_configs in H.
  destruct (config_key name k) as [key'|] eqn:Ek; [|by left].
  apply lookup_insert_Some in H as [[-> ->]|[_ ?]]; [|by left].
  right. exists k. split; [constructor|done].
Qed.

Lemma custom_config_fold_dom name l acc key :
  is_Some (acc.2 !! key) ∨ (∃ k v, (k, v) ∈ l ∧ config_key name k = Some key) →
  is_Some ((foldl (custom_config_step name) acc l).2 !! key).
Proof.
  revert acc. induction l as [|[k w] l IH]; intros acc; simpl.
  { intros [?|(? & ? & Hin & _)]; [done|]. by apply elem_of_nil in Hin. }
  intros Hor. apply IH. rewrite custom_config_step_configs.
  destruct Hor as [Hs|(k' & v & [E|Hin]%elem_of_cons & Hk)].
  - left. destruct (config_key name k); [|done]. apply lookup_insert_is_Some.
    destruct (decide (s = key)); auto.
  - simplify_eq. left. rewrite Hk, lookup_insert_eq. done.
  - right. eauto.
Qed.

(** With filebeat, the settings a log gets are the custom settings whose key
    starts with the log's name, under the key that remains once [<name>.] is removed;
    when only one custom setting leads to a key, the log gets its value. Since the
    code tests for the bare name, a setting of another log whose name merely starts
    with this one's is picked up too, under its full key. *)
Theorem CustomConfig_settings `{GoRange} env name customConfigs cfg :
  PilotType env = PILOT_FILEBEAT →
  let settings := CustomConfigs (CustomConfig env name customConfigs cfg) in
  (∀ key, is_Some (settings !! key) ↔
     ∃ k v, customConfigs !! k = Some v ∧ config_key name k = Some key) ∧
  (∀ key k v, customConfigs !! k = Some v → config_key name k = Some key →
     (∀ k', is_Some (customConfigs !! k') → config_key name k' = Some key → k' = k) →
     settings !! key = Some v) ∧
  (∀ other rest v, other ≠ "" → HasPrefix other "." = false →
     customConfigs !! (name +:+ other +:+ "." +:+ rest) = Some v →
     HasPrefix (name +:+ other +:+ "." +:+ rest) "fields" = false →
     is_Some (settings !! (name +:+ other +:+ "." +:+ rest))).
Proof.
  intros Hf settings.
  assert (settings = (foldl (custom_config_step name) (∅, ∅) (go_range customConfigs)).2) as Hs.
  { unfold settings, CustomConfig. rewrite decide_True by done. by destruct (foldl _ _ _). }
  clearbody settings. subst settings.
  assert (∀ key, is_Some ((foldl (custom_config_step name) (∅, ∅) (go_range customConfigs)).2 !! key)
     ↔ ∃ k v, customConfigs !! k = Some v ∧ config_key name k = Some key) as Hdom.
  { intros key. split.
    - intros [v [E|(k & Hin%elem_of_go_range & Hk)]%custom_config_fold]; [|by exists k, v].
      cbn [snd] in E; by rewrite lookup_empty in E.
    - intros (k & v & Hv & Hk). apply custom_config_fold_dom. right. exists k, v.
      by rewrite elem_of_go_range. }
  split; [done|]. split.
  - intros key k v Hv Hk Huniq. destruct (proj2 (Hdom key)) as [w Hw]; [by exists k, v|].
    rewrite Hw. apply custom_config_fold in Hw as [E|(k' & Hin%elem_of_go_range & Hk')].
    { cbn [snd] in E; by rewrite lookup_empty in E. }
    rewrite (Huniq k') in Hin by (by rewrite ?Hin). congruence.
  - intros other rest v Ho Hdot Hv Hfields. apply Hdom. exists (name +:+ other +:+ "." +:+ rest), v.
    split; [done|]. unfold config_key. rewrite HasPrefix_app.
    rewrite TrimPrefix_no; [by rewrite Hfields|].
    destruct (HasPrefix (name +:+ other +:+ "." +:+ rest) (name +:+ ".")) eqn:E; [|done].
    apply HasPrefix_spec in E as [r E]. rewrite str_app_assoc in E. apply str_app_inj_l in E.
    destruct other as [|a other]; [done|]. rewrite str_app_cons in E. injection E as -> _.
    pose proof (HasPrefix_app "." other) as Hp. change (HasPrefix (String "." other) "." = true) in Hp. congruence.
Qed.

(** ** Witnesses *)

Definition demo_env : PilotEnv := {|
  baseDir := "/host"; logPrefix := ["cv"]; createSymlink := false; PilotType := PILOT_FILEBEAT;
  Getenv := λ _, ""; fs_stat := λ _, StatNotExist; fs_read := λ _, inr "no such file" |}.

Definition demo_mount : MountPoint := mkMountPoint "bind" "" "/data/vol" "/var/log".

Lemma hostDirOf_nearest_witness :
  ∃ r, hostDirOf "/var/log/app/x" {["/var/log" := demo_mount]} = Ok r ∧ r = "/data/vol/app/x".
Proof.
  destruct (hostDirOf_nearest ["var"; "log"; "app"; "x"] {["/var/log" := demo_mount]})
    as (r & Hr & _); [by_decide|].
  exists r. split; [exact Hr|]. vm_compute in Hr. congruence.
Defined.

Lemma parseTags_print_witness :
  parseTags "index=web,topic=logs" = Ok {["index" := "web"; "topic" := "logs"]}.
Proof. apply (parseTags_print [("index", "web"); ("topic", "logs")]). by_decide. Defined.

Definition demo_info : LogInfoNode :=
  mkNode " /var/log/app/a.log " {["tags" := newLogInfoNode "stage=prod";
                                  "target" := newLogInfoNode "web"]}.

Lemma parseLogConfig_spec_witness :
  ∃ cfg, parseLogConfig (H := range_sorted) (H0 := FilebeatPiloter) demo_env "a" demo_info
           "/docker/c-json.log" {["/var/log" := demo_mount]} = Ok cfg ∧
         Tags cfg !! "index" = Some "web" ∧ HostDir cfg = "/host/data/vol/app".
Proof.
  destruct (parseLogConfig (H := range_sorted) (H0 := FilebeatPiloter) demo_env "a" demo_info
              "/docker/c-json.log" {["/var/log" := demo_mount]}) as [cfg| |] eqn:E;
    [|vm_compute in E; discriminate..].
  exists cfg. pose proof (parseLogConfig_spec (H := range_sorted) (H0 := FilebeatPiloter)
    demo_env "a" demo_info "/docker/c-json.log" _ cfg E) as (_ & _ & (given & Hg & Hi & _) & _ & Hp).
  split; [done|]. split.
  - rewrite Hi. vm_compute in Hg. injection Hg as <-. by vm_compute.
  - vm_compute in E. by injection E as <-.
Defined.

Lemma getLogConfigs_names_witness :
  ∃ ret, getLogConfigs (H := range_reversed) (H0 := FilebeatPiloter) demo_env "/docker/c-json.log"
           [demo_mount] {["cv.logs.a" := "/var/log/a.log"; "cv.logs.b" := "stdout"; "x" := "y"]}
           = Ok ret ∧ "b" ∈ ConfName <$> ret ∧ "x" ∉ ConfName <$> ret.
Proof.
  destruct (getLogConfigs (H := range_reversed) (H0 := FilebeatPiloter) demo_env "/docker/c-json.log"
      [demo_mount] {["cv.logs.a" := "/var/log/a.log"; "cv.logs.b" := "stdout"; "x" := "y"]})
    as [ret| |] eqn:E; [|vm_compute in E; discriminate..].
  exists ret. pose proof (getLogConfigs_names (H := range_reversed) (H0 := FilebeatPiloter)
    demo_env "cv" _ _ _ ret eq_refl E) as [_ Hn].
  split; [done|]. clear E. rewrite !Hn. split; by_decide.
Defined.

Lemma CustomConfig_settings_witness :
  is_Some (CustomConfigs (CustomConfig (H := range_sorted) demo_env "a" {["ab.level" := "x"]}
             (mkLogConfig "a" "" "" "" ∅ "" ∅ "" false false ∅ ∅)) !! "ab.level").
Proof.
  apply (CustomConfig_settings (H := range_sorted) demo_env "a" {["ab.level" := "x"]}
           (mkLogConfig "a" "" "" "" ∅ "" ∅ "" false false ∅ ∅) eq_refl)
    with (other := "b") (rest := "level") (v := "x"); by vm_compute.
Defined.
