(* ===== verification/Pilot.v ===== *)
(** * The pilot: container events and the configuration files they leave behind

    pilot/pilot.go: [cleanConfigs], [processAllContainers], [processSymlink],
    [listAllSymlinkContainer], [listSubDirectory], [container], [newContainer],
    [delContainer], [processEvent], [exists], [render], [createVolumeSymlink] and
    [removeVolumeSymlink], with pilot/extension.go. The state is the part of the file
    system these operations touch, the watch list of the filebeat piloter, the
    delayed removals of the fluentd piloter and whether the reload goroutine waits. *)

From S2P Require Import Prelude GoStrings GoPath LogTree LogConfig.

(** ** Data *)

Record ContainerJSON := mkContainerJSON {
  ID : string;
  CName : string;
  LogPath : string;
  Env : list string;
  Labels : option (gmap string string);   (** [None] is a nil map *)
  Mounts : list MountPoint
}.

(** An entry of a directory: a regular file with its contents or something else. *)
Inductive fentry := FReg (content : string) | FOther.

(** Directories and symbolic links are kept by the components of their path. *)
Record World := mkWorld {
  files : gmap string fentry;
  dirs : gset (list string);
  links : gmap (list string) string;
  watchContainer : gmap string string;
  timers : list string;
  reload_waiting : bool
}.

Definition set_files (f : gmap string fentry) (w : World) : World :=
  mkWorld f (dirs w) (links w) (watchContainer w) (timers w) (reload_waiting w).
Definition set_dirs (d : gset (list string)) (w : World) : World :=
  mkWorld (files w) d (links w) (watchContainer w) (timers w) (reload_waiting w).
Definition set_links (l : gmap (list string) string) (w : World) : World :=
  mkWorld (files w) (dirs w) l (watchContainer w) (timers w) (reload_waiting w).
Definition set_watch (c : gmap string string) (w : World) : World :=
  mkWorld (files w) (dirs w) (links w) c (timers w) (reload_waiting w).
Definition set_timers (t : list string) (w : World) : World :=
  mkWorld (files w) (dirs w) (links w) (watchContainer w) t (reload_waiting w).
Definition set_waiting (b : bool) (w : World) : World :=
  mkWorld (files w) (dirs w) (links w) (watchContainer w) (timers w) b.

(** The answers of the docker daemon, which each step receives as they are then. *)
Record Docker := mkDocker {
  ContainerInspect : string → string + ContainerJSON;
  ContainerList : string + list (string * string);   (** id and state *)
  VolumeInspect : string → string + (string * string) (** name and mount point *)
}.

(** Which system calls fail, by path. A failing [WriteFile] may have opened the file, which
    creates or truncates it, and written some bytes; a failing [RemoveAll] has removed what
    it could; the list is what could not be removed. *)
Record Faults := mkFaults {
  stat_fault : string → bool;
  open_fault : string → option string;
  write_fault : string → option (string * option nat);
  remove_fault : string → option string;
  mkdir_fault : string → bool;
  symlink_fault : string → bool;
  removeall_fault : string → list (list string)
}.

Definition no_faults : Faults :=
  mkFaults (λ _, false) (λ _, None) (λ _, None) (λ _, None) (λ _, false) (λ _, false) (λ _, []).

(** The compiled configuration template. *)
Definition Template : Type :=
  string → gmap string string → list LogConfig → string → string + string.

(** ** The description of a container *)

Definition putIfNotEmpty (store : gmap string string) (key val : string) : gmap string string :=
  if decide (key = "" ∨ val = "") then store else <[key := val]> store.

Definition underscore : ascii := "_"%char.

Definition labels_of (c : ContainerJSON) : gmap string string := default ∅ (Labels c).

Definition extension `{GoRange} (c : gmap string string) (containerJSON : ContainerJSON)
    : gmap string string :=
  foldl (λ c kv, if HasPrefix kv.1 "com.aliyun.access."
                 then putIfNotEmpty c (ReplaceAll kv.1 dot underscore) kv.2 else c)
    c (go_range (labels_of containerJSON)).

Definition container `{GoRange} (env : PilotEnv) (containerJSON : ContainerJSON)
    : gmap string string :=
  let labels := labels_of containerJSON in
  let c := ∅ in
  let c := putIfNotEmpty c "docker_app" (mget labels "com.docker.compose.project") in
  let c := putIfNotEmpty c "docker_app" (mget labels "com.docker.stack.namespace") in
  let c := putIfNotEmpty c "docker_service" (mget labels "com.docker.compose.service") in
  let c := putIfNotEmpty c "docker_service" (mget labels "com.docker.swarm.service.name") in
  let c := putIfNotEmpty c "k8s_pod" (mget labels "io.kubernetes.pod.name") in
  let c := putIfNotEmpty c "k8s_pod_namespace" (mget labels "io.kubernetes.pod.namespace") in
  let c := putIfNotEmpty c "k8s_container_name" (mget labels "io.kubernetes.container.name") in
  let c := putIfNotEmpty c "k8s_node_name" (Getenv env "NODE_NAME") in
  let c := putIfNotEmpty c "docker_container" (TrimPrefix (CName containerJSON) "/") in
  extension c containerJSON.

(** ** Environment variables as labels *)

(** A write to a nil map panics. *)
Definition map_set (m : option (gmap string string)) (k v : string)
    : outcome (option (gmap string string)) :=
  match m with
  | Some m => Ok (Some (<[k := v]> m))
  | None => Panic
  end.

Definition env_service_logs (prefix : string) : string := prefix +:+ "_logs_".

Definition env_step (e : string) (labels : option (gmap string string)) (prefix : string)
    : outcome (option (gmap string string)) :=
  let customConfig := custom_config_key prefix in
  if HasPrefix e customConfig then
    (* e[len(customConfig)+1:] *)
    if decide (String.length e < String.length customConfig + 1) then Panic
    else map_set labels customConfig (str_drop (String.length customConfig + 1) e)
  else if negb (HasPrefix e (env_service_logs prefix)) then Ok labels
  else match SplitN2 e equals with
       | [k; v] => map_set labels (ReplaceAll k underscore dot) v
       | _ => Ok labels
       end.

Definition env_labels (prefixes : list string) (labels : option (gmap string string))
    (env : list string) : outcome (option (gmap string string)) :=
  ofold (λ labels e, ofold (env_step e) labels prefixes) labels env.

Definition skip_flag (labels : gmap string string) (prefix : string) : bool :=
  match labels !! (prefix +:+ "_log_skip") with
  | Some v => bool_decide (v = "1") || bool_decide (v = "true")
  | None => false
  end.

(** ** Volume symlinks *)

Definition SYMLINK_LOGS_BASE : string := "/acs/log/".

Definition linkBaseDir (env : PilotEnv) : string := PathJoin [baseDir env; SYMLINK_LOGS_BASE].

(** [os.Stat] on a directory reports that it does not exist. *)
Definition dir_missing (flt : Faults) (w : World) (p : string) : bool :=
  negb (stat_fault flt p) && bool_decide (path_words p ∉ dirs w).

Fixpoint inits {A} (l : list A) : list (list A) :=
  match l with
  | [] => [[]]
  | x :: l' => [] :: (cons x <$> inits l')
  end.

Definition MkdirAll (p : string) (w : World) : World :=
  set_dirs (list_to_set (inits (path_words p)) ∪ dirs w) w.

Definition createVolumeSymlink `{GoRange} (env : PilotEnv) (docker : Docker) (flt : Faults)
    (containerJSON : ContainerJSON) (w : World) : World :=
  if negb (createSymlink env) then w else
  let base := linkBaseDir env in
  let w := if dir_missing flt w base && negb (mkdir_fault flt base) then MkdirAll base w else w in
  let applicationInfo := container env containerJSON in
  let containerLinkBaseDir := PathJoin [base; mget applicationInfo "docker_app";
                                        mget applicationInfo "docker_service"; ID containerJSON] in
  let symlinks : gmap string string :=
    foldl (λ symlinks mountPoint,
        if negb (bool_decide (MountType mountPoint = "volume")) then symlinks else
        match VolumeInspect docker (MountName mountPoint) with
        | inl _ => symlinks
        | inr (vname, vmount) =>
            let symlink := PathJoin [containerLinkBaseDir; vname] in
            match symlinks !! vmount with
            | Some _ => symlinks
            | None => <[vmount := symlink]> symlinks
            end
        end) ∅ (Mounts containerJSON) in
  if decide (size symlinks = 0) then w else
  let missing := dir_missing flt w containerLinkBaseDir in
  if missing && mkdir_fault flt containerLinkBaseDir then w else
  let w := if missing then MkdirAll containerLinkBaseDir w else w in
  foldl (λ w kv,
      let at_ := path_words kv.2 in
      if symlink_fault flt kv.2 || bool_decide (removelast at_ ∉ dirs w) then w
      else if decide (is_Some (links w !! at_) ∨ at_ ∈ dirs w) then w   (* os.IsExist *)
      else set_links (<[at_ := kv.1]> (links w)) w) w (go_range symlinks).

Definition RemoveAll (flt : Faults) (p : list string) (w : World) : World :=
  let stuck := removeall_fault flt (abs_path p) in
  set_links (filter (λ kv, ¬ p `prefix_of` kv.1 ∨ Exists (λ e, kv.1 `prefix_of` e) stuck) (links w))
    (set_dirs (filter (λ d, ¬ p `prefix_of` d ∨ Exists (λ e, d `prefix_of` e) stuck) (dirs w)) w).

(** [filepath.Glob(base/*/*/containerId)]. *)
Definition glob_container (base : list string) (containerId : string) (w : World)
    : list (list string) :=
  filter (λ e, length e = length base + 3 ∧ base `prefix_of` e ∧ last e = Some containerId ∧
               removelast e ∈ dirs w)
    (elements (dirs w ∪ dom (links w))).

Definition removeVolumeSymlink (env : PilotEnv) (flt : Faults) (containerId : string) (w : World)
    : World :=
  if negb (createSymlink env) then w else
  foldl (λ w e, RemoveAll flt e w) w (glob_container (path_words (linkBaseDir env)) containerId w).

(** The names of the directories below [p]; [ioutil.ReadDir] sorts them. *)
Definition listSubDirectory (p : list string) (w : World) : list string :=
  if decide (p ∈ dirs w) then
    merge_sort String.le
      (omap (λ d, match last d with
                  | Some n => if decide (d = p ++ [n]) then Some n else None
                  | None => None
                  end) (elements (dirs w)))
  else [].

Definition listAllSymlinkContainer (env : PilotEnv) (flt : Faults) (w : World)
    : gmap string string :=
  if dir_missing flt w (linkBaseDir env) then ∅ else
  let base := path_words (linkBaseDir env) in
  foldl (λ ids project,
    foldl (λ ids service,
      foldl (λ ids containerID,
          match ids !! containerID with
          | Some _ => ids
          | None => <[containerID := containerID]> ids
          end) ids (listSubDirectory (base ++ [project; service]) w))
      ids (listSubDirectory (base ++ [project]) w))
    ∅ (listSubDirectory base w).

Definition processSymlink `{GoRange} (env : PilotEnv) (flt : Faults)
    (existingContainerIDs : gmap string string) (w : World) : World :=
  foldl (λ w kv, match existingContainerIDs !! kv.1 with
                 | Some _ => w
                 | None => removeVolumeSymlink env flt kv.1 w
                 end) w (go_range (listAllSymlinkContainer env flt w)).

(** ** Handlers *)

Section handlers.
Context `{GoRange, Piloter} (env : PilotEnv) (templ : Template).

(** [os.Stat] failing with anything but "does not exist" counts as existing. *)
Definition exists_conf (flt : Faults) (containId : string) (w : World) : bool :=
  stat_fault flt (GetConfPath containId) || bool_decide (is_Some (files w !! GetConfPath containId)).

Definition render (containerId : string) (cont : gmap string string) (configList : list LogConfig)
    : string + string :=
  let output := if decide (Name = PILOT_FILEBEAT) then Getenv env "FILEBEAT_OUTPUT"
                else Getenv env "FLUENTD_OUTPUT" in
  let output := if decide (output = "") then Getenv env "LOGGING_OUTPUT" else output in
  templ containerId cont configList output.

(** A non-blocking send: it reaches the reload goroutine only while that one waits. *)
Definition tryReload (w : World) : World := set_waiting false w.

(** [ioutil.WriteFile]. *)
Definition WriteFile (flt : Faults) (path content : string) (w : World) : World * option string :=
  match write_fault flt path with
  | None => (set_files (<[path := FReg content]> (files w)) w, None)
  | Some (err, None) => (w, Some err)
  | Some (err, Some n) => (set_files (<[path := FReg (str_take n content)]> (files w)) w, Some err)
  end.

Definition newContainer (docker : Docker) (flt : Faults) (containerJSON : ContainerJSON)
    (w : World) : World * outcome unit :=
  let id := ID containerJSON in
  let cont := container env containerJSON in
  match env_labels (logPrefix env) (Labels containerJSON) (Env containerJSON) with
  | Panic => (w, Panic)
  | Err e => (w, Err e)
  | Ok labels =>
      match getLogConfigs env (LogPath containerJSON) (Mounts containerJSON) (default ∅ labels) with
      | Panic => (w, Panic)
      | Err e => (w, Err e)
      | Ok logConfigs =>
          if existsb (skip_flag (default ∅ labels)) (logPrefix env) then (w, Ok ())
          else if decide (length logConfigs = 0) then (w, Ok ())
          else
            let containerJSON' := mkContainerJSON id (CName containerJSON) (LogPath containerJSON)
                                    (Env containerJSON) labels (Mounts containerJSON) in
            let w := createVolumeSymlink env docker flt containerJSON' w in
            match render id cont logConfigs with
            | inr err => (w, Err err)
            | inl logConfig =>
                match WriteFile flt (GetConfPath id) logConfig w with
                | (w, Some err) => (w, Err err)
                | (w, None) => (tryReload w, Ok ())
                end
            end
      end
  end.

(** [FilebeatPiloter.OnDestroyEvent] is [feed]; [FluentdPiloter.OnDestroyEvent] only logs. *)
Definition feed (containerID : string) (w : World) : World :=
  match watchContainer w !! containerID with
  | Some _ => w
  | None => set_watch (<[containerID := containerID]> (watchContainer w)) w
  end.

Definition OnDestroyEvent (c : string) (w : World) : World :=
  if decide (Name = PILOT_FILEBEAT) then feed c w else w.

Definition delContainer (flt : Faults) (id : string) (w : World) : World * outcome unit :=
  let w := removeVolumeSymlink env flt id w in
  if decide (Name = PILOT_FLUENTD) then (set_timers (timers w ++ [id]) w, Ok ())
  else (OnDestroyEvent id w, Ok ()).

(** The delayed [clean] of [delContainer], when the timer of [id] fires. *)
Definition fire_clean (flt : Faults) (id : string) (w : World) : World :=
  match files w !! GetConfPath id, remove_fault flt (GetConfPath id) with
  | Some _, None => tryReload (set_files (delete (GetConfPath id) (files w)) w)
  | _, _ => w
  end.

Definition processEvent (docker : Docker) (flt : Faults) (action containerId : string) (w : World)
    : World * outcome unit :=
  if decide (action = "start" ∨ action = "restart") then
    if exists_conf flt containerId w then (w, Ok ())
    else match ContainerInspect docker containerId with
         | inl err => (w, Err err)
         | inr containerJSON => newContainer docker flt containerJSON w
         end
  else if decide (action = "destroy" ∨ action = "die") then
    let '(w, r) := delContainer flt containerId w in
    (w, match r with Panic => Panic | _ => Ok () end)
  else (w, Ok ()).

(** The loop of [processAllContainers]; errors of one container are logged. *)
Fixpoint process_list (docker : Docker) (flt : Faults) (cs : list (string * string)) (w : World)
    : World * outcome unit :=
  match cs with
  | [] => (w, Ok ())
  | (cid, state) :: cs =>
      if decide (state = "removing") then process_list docker flt cs w
      else if exists_conf flt cid w then process_list docker flt cs w
      else match ContainerInspect docker cid with
           | inl _ => process_list docker flt cs w
           | inr containerJSON =>
               match newContainer docker flt containerJSON w with
               | (w, Panic) => (w, Panic)
               | (w, _) => process_list docker flt cs w
               end
           end
  end.

Definition processAllContainers (docker : Docker) (flt : Faults) (w : World)
    : World * outcome unit :=
  match ContainerList docker with
  | inl _ => (w, Ok ())
  | inr containers =>
      let containerIDs : gmap string string :=
        list_to_map ((λ c, (c.1, c.1)) <$> containers) in
      match process_list docker flt containers w with
      | (w, Panic) => (w, Panic)
      | (w, _) => (processSymlink env flt containerIDs w, Ok ())
      end
  end.

(** The entries of a directory, by name. *)
Definition dir_names (dir : string) (w : World) : list string :=
  omap (λ p, let n := TrimPrefix p (dir +:+ "/") in
             if decide (HasPrefix p (dir +:+ "/") = true ∧ comp_ok n) then Some n else None)
    (go_range (files w)).*1.

Fixpoint clean_loop (flt : Faults) (confDir : string) (names : list string) (w : World)
    : World * outcome unit :=
  match names with
  | [] => (w, Ok ())
  | name :: names =>
      let conf := PathJoin [confDir; name] in
      if stat_fault flt conf then (w, Err ("stat " +:+ conf)) else
      match files w !! conf with
      | None => (w, Err ("stat " +:+ conf +:+ ": no such file or directory"))
      | Some FOther => clean_loop flt confDir names w
      | Some (FReg _) =>
          match remove_fault flt conf with
          | Some err => (w, Err err)
          | None => clean_loop flt confDir names (set_files (delete conf (files w)) w)
          end
      end
  end.

Definition cleanConfigs (flt : Faults) (w : World) : World * outcome unit :=
  let confDir := GetConfHome in
  match open_fault flt confDir with
  | Some err => (w, Err err)
  | None => clean_loop flt confDir (dir_names confDir w) w
  end.

End handlers.

(** ** What each operation leaves alone *)

(** Two worlds that differ at most in directories and symbolic links. *)
Definition same_conf (w w' : World) : Prop :=
  files w' = files w ∧ watchContainer w' = watchContainer w ∧ timers w' = timers w ∧
  reload_waiting w' = reload_waiting w.

#[global] Instance same_conf_preorder : PreOrder same_conf.
Proof.
  split; [by intros w|]. intros w1 w2 w3 (? & ? & ? & ?) (? & ? & ? & ?).
  split_and!; congruence.
Qed.

Lemma foldl_rel {A S} (R : S → S → Prop) `{!PreOrder R} (f : S → A → S) l s :
  (∀ s a, R s (f s a)) → R s (foldl f s l).
Proof.
  intros Hf. revert s. induction l as [|a l IH]; intros s; simpl; [done|].
  etrans; [apply Hf|apply IH].
Qed.

Lemma RemoveAll_same flt p w : same_conf w (RemoveAll flt p w).
Proof. done. Qed.

Lemma removeVolumeSymlink_same env flt id w : same_conf w (removeVolumeSymlink env flt id w).
Proof.
  unfold removeVolumeSymlink. case_match; [done|].
  apply (foldl_rel same_conf). intros. apply RemoveAll_same.
Qed.

Lemma createVolumeSymlink_same `{GoRange} env docker flt c w :
  same_conf w (createVolumeSymlink env docker flt c w).
Proof.
  unfold createVolumeSymlink. case_match; [done|].
  set (w1 := if dir_missing _ _ _ && _ then _ else w).
  assert (same_conf w w1) as H1 by (unfold w1; by case_match).
  clearbody w1. etrans; [exact H1|]. clear w H1.
  case_decide; [done|]. case_match; [done|]. etrans.
  2:{ apply (foldl_rel same_conf). intros w' kv. case_match; [done|]. by case_match. }
  by case_match.
Qed.

Lemma processSymlink_same `{GoRange} env flt ids w : same_conf w (processSymlink env flt ids w).
Proof.
  unfold processSymlink. apply (foldl_rel same_conf). intros w' kv.
  case_match; [done|]. apply removeVolumeSymlink_same.
Qed.

(** ** Starting a container *)

Section start.
Context `{GoRange, Piloter} (env : PilotEnv) (templ : Template).

(** A container that gets a configuration, and its text. *)
Definition configured (c : ContainerJSON) (text : string) : Prop :=
  ∃ labels cfgs,
    env_labels (logPrefix env) (Labels c) (Env c) = Ok labels ∧
    getLogConfigs env (LogPath c) (Mounts c) (default ∅ labels) = Ok cfgs ∧
    cfgs ≠ [] ∧ existsb (skip_flag (default ∅ labels)) (logPrefix env) = false ∧
    render env templ (ID c) (container env c) cfgs = inl text.

(** What [newContainer] does to the configurations: nothing, or it writes its own one, all of
    it or, when the write fails, a part. *)
Lemma newContainer_cases docker flt c w w' r :
  newContainer env templ docker flt c w = (w', r) →
  (same_conf w w' ∧ (r = Ok () → w' = w ∧ ∀ text, ¬ configured c text)) ∨
  (∃ text content, configured c text ∧
     files w' = <[GetConfPath (ID c) := FReg content]> (files w) ∧
     watchContainer w' = watchContainer w ∧ timers w' = timers w ∧
     (r = Ok () ∧ content = text ∧ reload_waiting w' = false ∨
      ∃ err n, r = Err err ∧ write_fault flt (GetConfPath (ID c)) = Some (err, Some n) ∧
        content = str_take n text)).
Proof.
  unfold newContainer, configured. intros E.
  destruct (env_labels _ _ _) as [labels| |] eqn:El; [|simplify_eq; left; split; done..].
  destruct (getLogConfigs _ _ _ _) as [cfgs| |] eqn:Ec; [|simplify_eq; left; split; done..].
  destruct (existsb _ _) eqn:Es.
  { simplify_eq. left. split; [done|]. split; [done|]. intros text (l & cf & [= <-] & _ & _ & Hs & _). congruence. }
  case_decide as Hlen.
  { simplify_eq. left. split; [done|]. split; [done|]. intros text (l & cf & [= <-] & Hc & Hne & _).
    rewrite Ec in Hc. injection Hc as <-. by apply length_zero_iff_nil in Hlen. }
  set (w1 := createVolumeSymlink _ _ _ _ _) in E.
  assert (same_conf w w1) as Hw1 by apply createVolumeSymlink_same. clearbody w1.
  destruct (render _ _ _ _ _) as [text|err] eqn:Er; [|simplify_eq; by left].
  destruct Hw1 as (Hf & Hw & Ht & Hr).
  assert (∃ labels' cfgs', Ok labels = Ok labels' ∧
    getLogConfigs env (LogPath c) (Mounts c) (default ∅ labels') = Ok cfgs' ∧ cfgs' ≠ [] ∧
    existsb (skip_flag (default ∅ labels')) (logPrefix env) = false ∧
    render env templ (ID c) (container env c) cfgs' = inl text) as Hconf.
  { exists labels, cfgs. split_and!; try done. by intros ->. }
  unfold WriteFile in E. destruct (write_fault flt (GetConfPath (ID c))) as [[err [n|]]|] eqn:Ew; simplify_eq.
  - right. exists text, (str_take n text). simpl. rewrite Hf. split_and!; try done. right. by exists err, n.
  - by left.
  - right. exists text, text. simpl. rewrite Hf. split_and!; try done. by left.
Qed.

Lemma start_cases docker flt id w w' r :
  processEvent env templ docker flt "start" id w = (w', r) →
  (w' = w ∧ r = Ok () ∧ exists_conf flt id w = true) ∨
  (w' = w ∧ exists_conf flt id w = false ∧
     ∃ e, ContainerInspect docker id = inl e ∧ r = Err e) ∨
  (exists_conf flt id w = false ∧ ∃ c, ContainerInspect docker id = inr c ∧
     newContainer env templ docker flt c w = (w', r)).
Proof.
  unfold processEvent. rewrite decide_True by (by left).
  destruct (exists_conf flt id w) eqn:Ex; [intros; simplify_eq; by left|].
  destruct (ContainerInspect docker id) as [e|c] eqn:Ei; intros E; right; [left|right]; [|by eauto].
  simplify_eq. eauto.
Qed.

End start.


(** ** Cleaning the configuration directory *)

Section clean.
Context `{GoRange, Piloter} (flt : Faults).

(** The path of an entry of the configuration directory. *)
Definition entry (name : string) : string := GetConfHome +:+ "/" +:+ name.

Lemma PathJoin_entry name : comp_ok name → PathJoin [GetConfHome; name] = entry name.
Proof.
  intros Hn. unfold entry. destruct GetConfHome_abs as (cs & Hf & Hne & ->).
  by rewrite PathJoin_abs, abs_path_snoc.
Qed.

Lemma entry_inj n m : entry n = entry m → n = m.
Proof. unfold entry. by intros ?%str_app_inj_l%str_app_inj_l. Qed.

Lemma elem_of_dir_names w name :
  name ∈ dir_names GetConfHome w ↔ comp_ok name ∧ is_Some (files w !! entry name).
Proof.
  unfold dir_names. rewrite list_elem_of_omap. split.
  - intros (p & Hp & E). case_decide as Hd; [|done]. destruct Hd as [Hpre Hok]. injection E as <-.
    split; [done|]. apply HasPrefix_spec in Hpre as [r ->].
    rewrite TrimPrefix_app. apply list_elem_of_fmap in Hp as ([q f] & Eq & Hq%elem_of_go_range).
    simpl in Eq. subst q. rewrite str_app_assoc in Hq. unfold entry. by rewrite Hq.
  - intros [Hok [f Hf]]. exists (entry name). split.
    + apply list_elem_of_fmap. exists (entry name, f). by rewrite elem_of_go_range.
    + unfold entry. rewrite <-str_app_assoc, HasPrefix_app, TrimPrefix_app.
      by rewrite decide_True by done.
Qed.

Lemma dir_names_NoDup w : NoDup (dir_names GetConfHome w).
Proof.
  unfold dir_names. pose proof (NoDup_go_range_keys (files w)) as Hnd. revert Hnd.
  generalize (go_range (files w)).*1 as l. induction l as [|p l IH]; intros Hnd; [constructor|].
  apply NoDup_cons in Hnd as [Hp Hnd]. simpl. case_decide as Hd; [|by apply IH]. constructor; [|by apply IH].
  rewrite list_elem_of_omap. intros (q & Hq & E). case_decide as Hd2; [|done].
  destruct Hd as [[r1 ->]%HasPrefix_spec _], Hd2 as [[r2 ->]%HasPrefix_spec _].
  rewrite !TrimPrefix_app in E. by injection E as ->.
Qed.

Lemma clean_loop_spec names : ∀ w w' r,
  NoDup names → (∀ n, n ∈ names → comp_ok n ∧ is_Some (files w !! entry n)) →
  clean_loop flt GetConfHome names w = (w', r) →
  (∀ p, (∀ n, n ∈ names → p ≠ entry n) → files w' !! p = files w !! p) ∧
  (r = Ok () → ∀ n, n ∈ names →
     files w' !! entry n = match files w !! entry n with Some FOther => Some FOther | _ => None end) ∧
  r ≠ Panic ∧
  ((∀ n, n ∈ names → stat_fault flt (entry n) = false ∧ remove_fault flt (entry n) = None) → r = Ok ()).
Proof.
  induction names as [|name names IH]; intros w w' r Hnd Hin E; simpl in E.
  { simplify_eq. split_and!; try done. intros _ n Hn. by apply elem_of_nil in Hn. }
  apply NoDup_cons in Hnd as [Hnew Hnd]. destruct (Hin name) as [Hok [f Hf]]; [constructor|].
  rewrite PathJoin_entry, Hf in E by done.
  destruct (stat_fault flt (entry name)) eqn:Es.
  { simplify_eq. split_and!; try done. intros Hall. destruct (Hall name); [constructor|congruence]. }
  assert (∀ m, m ∈ names → entry m ≠ entry name) as Hne.
  { intros m Hm ->%entry_inj. done. }
  destruct f as [content|].
  - destruct (remove_fault flt (entry name)) eqn:Er.
    { simplify_eq. split_and!; try done. intros Hall. destruct (Hall name); [constructor|congruence]. }
    apply IH in E as (H1 & H2 & H3 & H4); [|done|].
    2:{ intros m Hm. simpl. rewrite lookup_delete_ne by (symmetry; by apply Hne).
        apply Hin. by constructor. }
    split_and!; [|..|done|intros Hall; apply H4; intros; apply Hall; by constructor].
    + intros p Hp. rewrite H1 by (intros; apply Hp; by constructor). simpl.
      rewrite lookup_delete_ne; [done|]. symmetry. apply Hp. constructor.
    + intros Hr n [->|Hn]%elem_of_cons.
      * rewrite H1 by (intros m Hm; symmetry; by apply Hne). simpl. by rewrite lookup_delete_eq, Hf.
      * rewrite (H2 Hr n Hn). simpl. by rewrite lookup_delete_ne by (symmetry; by apply Hne).
  - apply IH in E as (H1 & H2 & H3 & H4); [|done|intros; apply Hin; by constructor].
    split_and!; [|..|done|intros Hall; apply H4; intros; apply Hall; by constructor].
    + intros p Hp. apply H1. intros; apply Hp; by constructor.
    + intros Hr n [->|Hn]%elem_of_cons; [|by apply H2].
      rewrite H1 by (intros m Hm; symmetry; by apply Hne). by rewrite Hf.
Qed.

End clean.

(** [cleanConfigs] touches nothing outside the configuration directory and never
    panics; when it succeeds, no regular file is left in that directory and every
    other entry is kept; without system-call failures it does succeed. *)
Theorem cleanConfigs_spec `{GoRange, Piloter} flt w w' r :
  cleanConfigs flt w = (w', r) →
  (∀ p, (∀ n, comp_ok n → p ≠ entry n) → files w' !! p = files w !! p) ∧
  (r = Ok () → ∀ n, comp_ok n →
     files w' !! entry n = match files w !! entry n with Some FOther => Some FOther | _ => None end) ∧
  r ≠ Panic ∧ (flt = no_faults → r = Ok ()).
Proof.
  unfold cleanConfigs. intros E. destruct (open_fault flt GetConfHome) eqn:Eo.
  { simplify_eq. split_and!; try done. intros ->. done. }
  apply clean_loop_spec in E as (H1 & H2 & H3 & H4);
    [|apply dir_names_NoDup|intros n Hn; by apply elem_of_dir_names].
  split_and!; [|..|done|intros ->; by apply H4].
  - intros p Hp. apply H1. intros n [Hok _]%elem_of_dir_names. by apply Hp.
  - intros Hr n Hok. destruct (files w !! entry n) as [f|] eqn:Ef.
    + rewrite (H2 Hr), Ef; [done|]. apply elem_of_dir_names. by rewrite Ef.
    + rewrite H1; [done|]. intros m [_ Hm]%elem_of_dir_names. intros <-%entry_inj.
      rewrite Ef in Hm. by destruct Hm.
Qed.

(** ** Symbolic links of removed containers *)

(** Parents of directories are directories. *)
Definition dirs_closed (w : World) : Prop :=
  ∀ d p, d ∈ dirs w → p `prefix_of` d → p ∈ dirs w.

Lemma elem_of_inits {A} (l p : list A) : p ∈ inits l ↔ p `prefix_of` l.
Proof.
  revert p. induction l as [|x l IH]; intros p; simpl.
  - rewrite list_elem_of_singleton. split; [by intros ->|by intros ?%prefix_nil_inv].
  - rewrite elem_of_cons, list_elem_of_fmap. split.
    + intros [->|(q & -> & Hq%IH)]; [by eexists|]. by apply prefix_cons.
    + destruct p as [|y p]; [by left|]. intros Hp. right.
      pose proof (prefix_cons_inv_1 _ _ _ _ Hp) as ->. apply prefix_cons_inv_2 in Hp.
      exists p. by rewrite IH.
Qed.

Lemma MkdirAll_closed p w : dirs_closed w → dirs_closed (MkdirAll p w).
Proof.
  intros Hc d q. unfold MkdirAll. simpl. rewrite !elem_of_union, !elem_of_list_to_set, !elem_of_inits.
  intros [Hd|Hd] Hq; [left; by etrans|right; by eapply Hc].
Qed.

Lemma RemoveAll_dirs p d w : d ∈ dirs (RemoveAll no_faults p w) ↔ d ∈ dirs w ∧ ¬ p `prefix_of` d.
Proof.
  unfold RemoveAll. cbn [set_links set_dirs dirs]. rewrite elem_of_filter. cbn [removeall_fault no_faults].
  rewrite Exists_nil. tauto.
Qed.

Lemma RemoveAll_all_dirs l d w :
  d ∈ dirs (foldl (λ w e, RemoveAll no_faults e w) w l) ↔
  d ∈ dirs w ∧ ∀ e, e ∈ l → ¬ e `prefix_of` d.
Proof.
  revert w. induction l as [|e l IH]; intros w; simpl.
  { split; [|tauto]. intros Hd. split; [done|]. by intros e ?%elem_of_nil. }
  rewrite IH, RemoveAll_dirs. setoid_rewrite elem_of_cons. naive_solver.
Qed.

(** The link directory of a container, three levels below the base. *)
Definition link_dir (env : PilotEnv) (project service id : string) : list string :=
  path_words (linkBaseDir env) ++ [project; service; id].

Lemma link_dir_prefix env a b id a' b' id' :
  link_dir env a b id `prefix_of` link_dir env a' b' id' → id = id'.
Proof.
  intros Hp. assert (link_dir env a b id = link_dir env a' b' id') as E.
  { destruct Hp as [r E]. rewrite E. destruct r as [|x r]; [by rewrite app_nil_r|].
    apply (f_equal length) in E. unfold link_dir in E. rewrite !length_app in E. simpl in E. lia. }
  unfold link_dir in E. apply app_inv_head in E. congruence.
Qed.

Lemma elem_of_glob base id w e :
  e ∈ glob_container base id w ↔
  ∃ a b, e = base ++ [a; b; id] ∧ base ++ [a; b] ∈ dirs w ∧ e ∈ dirs w ∪ dom (links w).
Proof.
  unfold glob_container. rewrite list_elem_of_filter, elem_of_elements. split.
  - intros [(Hl & [r ->] & Hlast & Hd) Hin]. rewrite length_app in Hl.
    destruct r as [|a [|b [|c [|]]]]; simpl in Hl; try lia.
    rewrite last_app in Hlast. simpl in Hlast. injection Hlast as ->.
    exists a, b. split_and!; [done| |done].
    rewrite removelast_app in Hd by done. exact Hd.
  - intros (a & b & -> & Hd & Hin). split; [|done]. rewrite length_app, last_app, removelast_app by done.
    split_and!; [done|by eexists|done|exact Hd].
Qed.

Section symlinks.
Context `{GoRange} (env : PilotEnv) (Hcreate : createSymlink env = true).

Lemma removeVolumeSymlink_dirs id w a b c :
  dirs_closed w →
  link_dir env a b c ∈ dirs (removeVolumeSymlink env no_faults id w) ↔
  link_dir env a b c ∈ dirs w ∧ c ≠ id.
Proof.
  intros Hc. unfold removeVolumeSymlink. rewrite Hcreate. simpl. rewrite RemoveAll_all_dirs.
  split; intros [Hd Hno]; (split; [done|]).
  - intros ->. apply (Hno (link_dir env a b id)); [|done]. apply elem_of_glob.
    exists a, b. split_and!; [done|eapply Hc; [exact Hd|]|set_solver].
    exists [id]. unfold link_dir. by rewrite <-app_assoc.
  - intros e (a' & b' & -> & _)%elem_of_glob Hp. apply Hno. symmetry. by eapply link_dir_prefix.
Qed.

Lemma removeVolumeSymlink_closed id w :
  dirs_closed w → dirs_closed (removeVolumeSymlink env no_faults id w).
Proof.
  intros Hc. unfold removeVolumeSymlink. rewrite Hcreate. simpl. intros d p.
  rewrite !RemoveAll_all_dirs. intros [Hd Hno] Hp. split; [by eapply Hc|].
  intros e He Hep. apply (Hno e He). by etrans.
Qed.

Lemma elem_of_listSubDirectory p n w :
  p ∈ dirs w → n ∈ listSubDirectory p w ↔ p ++ [n] ∈ dirs w.
Proof.
  intros Hp. unfold listSubDirectory. rewrite decide_True by done.
  rewrite merge_sort_Permutation, list_elem_of_omap. split.
  - intros (d & Hd%elem_of_elements & E). destruct (last d); [|done]. case_decide; simplify_eq. done.
  - intros Hd. exists (p ++ [n]). split; [by apply elem_of_elements|].
    rewrite last_snoc. by rewrite decide_True.
Qed.

(** A loop that adds names to a map records each of them. *)
Lemma add_ids_dom (l : list string) (ids : gmap string string) n :
  is_Some (foldl (λ (ids : gmap string string) c, match ids !! c with
                          | Some _ => ids | None => <[c := c]> ids end) ids l !! n) ↔
  is_Some (ids !! n) ∨ n ∈ l.
Proof.
  revert ids. induction l as [|c l IH]; intros ids; simpl.
  { rewrite elem_of_nil. tauto. }
  rewrite IH, elem_of_cons. destruct (ids !! c) as [x|] eqn:E.
  - split; [tauto|]. intros [?|[->|?]]; [tauto|left; by rewrite E|tauto].
  - rewrite lookup_insert_is_Some. destruct (decide (c = n)); naive_solver.
Qed.

(** A loop over [l] whose body adds the elements a condition [Q] names. *)
Lemma foldl_dom {B} (f : gmap string string → B → gmap string string) (Q : B → string → Prop) l ids n :
  (∀ ids b, is_Some (f ids b !! n) ↔ is_Some (ids !! n) ∨ Q b n) →
  is_Some (foldl f ids l !! n) ↔ is_Some (ids !! n) ∨ ∃ b, b ∈ l ∧ Q b n.
Proof.
  intros Hf. revert ids. induction l as [|b l IH]; intros ids; simpl.
  { setoid_rewrite elem_of_nil. naive_solver. }
  rewrite IH, Hf. setoid_rewrite elem_of_cons. naive_solver.
Qed.

Lemma listAll_dom flt w id :
  (∀ p, stat_fault flt p = false) → dirs_closed w →
  is_Some (listAllSymlinkContainer env flt w !! id) ↔ ∃ a b, link_dir env a b id ∈ dirs w.
Proof.
  intros Hflt Hc. unfold listAllSymlinkContainer, dir_missing. rewrite Hflt. simpl.
  set (base := path_words (linkBaseDir env)).
  assert (∀ a b, link_dir env a b id ∈ dirs w →
    base ∈ dirs w ∧ base ++ [a] ∈ dirs w ∧ base ++ [a; b] ∈ dirs w) as Hpre.
  { intros a b Hd. split_and!; (eapply Hc; [exact Hd|]); unfold link_dir.
    - by eexists.
    - exists [b; id]. by rewrite <-app_assoc.
    - exists [id]. by rewrite <-app_assoc. }
  case_bool_decide as Hb.
  { rewrite lookup_empty. split; [by intros []|]. intros (a & b & Hd). by destruct (Hpre a b Hd). }
  rewrite (foldl_dom _ (λ project id, ∃ service, service ∈ listSubDirectory (base ++ [project]) w ∧
             id ∈ listSubDirectory (base ++ [project; service]) w)).
  2:{ intros ids a. apply (foldl_dom _ (λ service id, id ∈ listSubDirectory (base ++ [a; service]) w)).
      intros ids' b. apply add_ids_dom. }
  rewrite lookup_empty. split.
  - intros [[]%is_Some_None|(a & Ha & b & Hb' & Hid)]. exists a, b.
    apply elem_of_listSubDirectory in Ha; [|done].
    apply elem_of_listSubDirectory in Hb'; [|done]. rewrite <-app_assoc in Hb'.
    apply elem_of_listSubDirectory in Hid; [|done]. by rewrite <-app_assoc in Hid.
  - intros (a & b & Hd). destruct (Hpre a b Hd) as (_ & Ha & Hab). right.
    exists a. rewrite elem_of_listSubDirectory by done. split; [done|]. exists b.
    rewrite !elem_of_listSubDirectory by done. rewrite <-!app_assoc. by split.
Qed.

Lemma processSymlink_loop (ids : gmap string string) (l : list (string * string)) w a b c :
  dirs_closed w →
  link_dir env a b c ∈ dirs (foldl (λ w kv, match ids !! kv.1 with
      | Some _ => w | None => removeVolumeSymlink env no_faults kv.1 w end) w l) ↔
  link_dir env a b c ∈ dirs w ∧ (c ∈ l.*1 → is_Some (ids !! c)).
Proof.
  revert w. induction l as [|[k x] l IH]; intros w Hc; simpl.
  { setoid_rewrite elem_of_nil. naive_solver. }
  setoid_rewrite elem_of_cons. destruct (ids !! k) eqn:E.
  - rewrite IH by done. split; intros [Hd Hs]; (split; [done|]).
    + intros [->|?]; [by rewrite E|auto].
    + auto.
  - rewrite IH by (by apply removeVolumeSymlink_closed). rewrite removeVolumeSymlink_dirs by done.
    split.
    + intros [[Hd Hck] Hs]. split; [done|]. intros [->|?]; [done|auto].
    + intros [Hd Hs]. split_and!; [done| |auto]. intros ->. rewrite E in Hs.
      by destruct (Hs (or_introl eq_refl)).
Qed.

End symlinks.

(** With symbolic links enabled and no system-call failure, [processSymlink]
    deletes exactly the link directories [<base>/<project>/<service>/<id>] of the
    containers that are not in the list it is given. *)
Theorem processSymlink_spec `{GoRange} env ids w project service id :
  createSymlink env = true → dirs_closed w →
  link_dir env project service id ∈ dirs (processSymlink env no_faults ids w) ↔
  link_dir env project service id ∈ dirs w ∧ is_Some (ids !! id).
Proof.
  intros Hcreate Hc. unfold processSymlink. rewrite processSymlink_loop by done.
  split; intros [Hd Hs]; (split; [done|]); [|done]. apply Hs.
  assert (is_Some (listAllSymlinkContainer env no_faults w !! id)) as [x Hx].
  { apply listAll_dom; [done..|eauto]. }
  apply list_elem_of_fmap. exists (id, x). by rewrite elem_of_go_range.
Qed.

Lemma RemoveAll_closed flt p w : dirs_closed w → dirs_closed (RemoveAll flt p w).
Proof.
  intros Hc d q. unfold RemoveAll. cbn [set_links set_dirs dirs]. rewrite !elem_of_filter. intros [Hn Hd] Hq.
  split; [|by eapply Hc]. destruct Hn as [Hn|Hn].
  - left. intros Hpq. apply Hn. by etrans.
  - right. eapply Exists_impl; [exact Hn|]. intros e He. by etrans.
Qed.

Lemma foldl_keeps {A S} (P : S → Prop) (f : S → A → S) l s :
  (∀ s a, P s → P (f s a)) → P s → P (foldl f s l).
Proof. intros Hf. revert s. induction l as [|a l IH]; intros s Hs; simpl; auto. Qed.

Lemma removeVolumeSymlink_closed' env flt id w :
  dirs_closed w → dirs_closed (removeVolumeSymlink env flt id w).
Proof.
  intros Hc. unfold removeVolumeSymlink. case_match; [done|].
  apply (foldl_keeps dirs_closed); [|done]. intros. by apply RemoveAll_closed.
Qed.

Lemma processSymlink_closed `{GoRange} env flt ids w :
  dirs_closed w → dirs_closed (processSymlink env flt ids w).
Proof.
  intros Hc. unfold processSymlink. apply (foldl_keeps dirs_closed); [|done].
  intros w' kv Hw. case_match; [done|]. by apply removeVolumeSymlink_closed'.
Qed.

Lemma createVolumeSymlink_closed `{GoRange} env docker flt c w :
  dirs_closed w → dirs_closed (createVolumeSymlink env docker flt c w).
Proof.
  intros Hc. unfold createVolumeSymlink. case_match; [done|].
  set (w1 := if dir_missing _ _ _ && _ then _ else w).
  assert (dirs_closed w1) as H1 by (unfold w1; case_match; [by apply MkdirAll_closed|done]).
  clearbody w1. clear w Hc. case_decide; [done|]. case_match; [done|].
  apply (foldl_keeps dirs_closed).
  - intros w' kv Hw. case_match; [done|]. case_match; [done|]. exact Hw.
  - case_match; [by apply MkdirAll_closed|done].
Qed.

Lemma newContainer_closed `{GoRange, Piloter} env templ docker flt c w :
  dirs_closed w → dirs_closed (newContainer env templ docker flt c w).1.
Proof.
  intros Hc. unfold newContainer.
  assert (∀ path text w, dirs_closed w → dirs_closed (WriteFile flt path text w).1) as Hw.
  { intros path text w0 Hw0. unfold WriteFile. by destruct (write_fault flt path) as [[e []]|]. }
  repeat (case_match; try done); try (by apply createVolumeSymlink_closed).
  all: match goal with E : WriteFile _ ?path ?text ?w1 = _ |- _ =>
    specialize (Hw path text w1 (createVolumeSymlink_closed _ _ _ _ _ Hc)); by rewrite E in Hw end.
Qed.
