(* ===== verification/Filebeat.v ===== *)
(** * The filebeat piloter: when a configuration may be removed

    pilot/filebeat_piloter.go: [getRegsitryState], [loadConfig], [loadConfigPaths],
    [isAutoMountPath], [canRemoveConf], [scan] and [feed] (the latter in [Pilot]),
    and the runs of the whole pilot: events, passes over all containers, scans and
    reloads in any order. *)

From S2P Require Import Prelude GoStrings GoPath LogTree LogConfig Pilot.

(** ** Data *)

Record RegistryState := mkRegistryState {
  RSource : string;
  Offset : Z;
  Timestamp : Z;
  TTL : Z;
  RType : string;
  FileStateOS : Z * Z
}.

Inductive log_stat := LSize (size : Z) | LNotExist | LErr.

(** What a scan reads besides the configuration directory: the registry as decoded from
    its JSON file ([None] when it cannot be read), the paths a YAML configuration
    lists, the log files a pattern matches and their sizes; and regular expressions. *)
Record ScanEnv := mkScanEnv {
  registry_file : option (list RegistryState);
  parse_config : string → option (list string);
  glob : string → list string;
  stat_log : string → log_stat;
  MatchString : string → string → bool   (** [regexp.MatchString], false for a pattern that does not compile *)
}.

Definition add_state (m : gmap string RegistryState) (s : RegistryState) : gmap string RegistryState :=
  match m !! RSource s with
  | Some _ => m
  | None => <[RSource s := s]> m
  end.

Definition getRegsitryState (senv : ScanEnv) : option (gmap string RegistryState) :=
  foldl add_state ∅ <$> registry_file senv.

Definition DOCKER_SYSTEM_PATH : string := "/var/lib/docker/".
Definition KUBELET_SYSTEM_PATH : string := "/var/lib/kubelet/".

Definition isAutoMountPath (env : PilotEnv) (senv : ScanEnv) (path : string) : bool :=
  let dockerVolumePattern := "^" +:+ PathJoin [baseDir env; DOCKER_SYSTEM_PATH] +:+ ".*$" in
  if MatchString senv dockerVolumePattern path then true
  else
    let kubeletVolumePattern := "^" +:+ PathJoin [baseDir env; KUBELET_SYSTEM_PATH] +:+ ".*$" in
    MatchString senv kubeletVolumePattern path.

Section scan.
Context `{GoRange} (env : PilotEnv) (senv : ScanEnv) (flt : Faults).

#[local] Existing Instance FilebeatPiloter.

Definition loadConfig (w : World) (c : string) : option (list string) :=
  match files w !! GetConfPath c with
  | Some (FReg text) => parse_config senv text
  | _ => None
  end.

Definition loadConfigPaths (w : World) : gmap string string :=
  let confs := match open_fault flt GetConfHome with
               | Some _ => []
               | None => merge_sort String.le (dir_names GetConfHome w)
               end in
  foldl (λ paths name,
      let c := TrimRight name ".yml" in
      match watchContainer w !! c with
      | Some _ => paths
      | None =>
          match loadConfig w c with
          | None => paths
          | Some ps =>
              foldl (λ paths p, match paths !! p with
                                | Some _ => paths
                                | None => <[p := c]> paths
                                end) paths ps
          end
      end) ∅ confs.

(** One log file of a pattern: [Ok true] lets the loop go on, [Ok false] is
    [return false]; a failing [os.Stat] other than "not exist" leaves a nil
    [FileInfo], whose use panics. *)
Definition check_file (autoMount : bool) (path : string) (registry : gmap string RegistryState)
    (configPaths : gmap string string) (logFile : string) : outcome bool :=
  match stat_log senv logFile with
  | LNotExist => Ok true
  | st =>
      match registry !! logFile with
      | None => Ok true
      | Some s =>
          match st with
          | LSize size =>
              if decide (Offset s < size)%Z then
                if autoMount then Ok false
                else match configPaths !! path with
                     | None => Ok false
                     | Some _ => Ok true
                     end
              else Ok true
          | _ => Panic
          end
      end
  end.

Fixpoint all_files (check : string → outcome bool) (l : list string) : outcome bool :=
  match l with
  | [] => Ok true
  | f :: l => let! b := check f in if b then all_files check l else Ok false
  end.

Definition canRemoveConf (w : World) (c : string) (registry : gmap string RegistryState)
    (configPaths : gmap string string) : outcome bool :=
  match loadConfig w c with
  | None => Ok false
  | Some paths =>
      all_files (λ path,
          let autoMount := isAutoMountPath env senv (Dir path) in
          all_files (check_file autoMount path registry configPaths) (glob senv path)) paths
  end.

Definition scan_step (registry : gmap string RegistryState) (configPaths : gmap string string)
    (w : World) (c : string) : outcome World :=
  let confPath := GetConfPath c in
  if negb (stat_fault flt confPath) && bool_decide (files w !! confPath = None)
  then Ok (set_watch (delete c (watchContainer w)) w)
  else
    let! can := canRemoveConf w c registry configPaths in
    if can then
      match remove_fault flt confPath, files w !! confPath with
      | None, Some _ =>
          Ok (set_watch (delete c (watchContainer w)) (set_files (delete confPath (files w)) w))
      | _, _ => Ok w
      end
    else Ok w.

Definition scan (w : World) : outcome World :=
  match getRegsitryState senv with
  | None => Ok w
  | Some states =>
      let configPaths := loadConfigPaths w in
      ofold (scan_step states configPaths) w (go_range (watchContainer w)).*1
  end.

End scan.

(** ** What lets a configuration go *)

(** A log file that no longer keeps the configuration of its pattern: gone, unknown to
    the registry, read to its end, or a host path that a live configuration covers. *)
Definition settled (env : PilotEnv) (senv : ScanEnv) (registry : gmap string RegistryState)
    (configPaths : gmap string string) (path logFile : string) : Prop :=
  stat_log senv logFile = LNotExist ∨ registry !! logFile = None ∨
  ∃ s size, registry !! logFile = Some s ∧ stat_log senv logFile = LSize size ∧
    ((size <= Offset s)%Z ∨
     isAutoMountPath env senv (Dir path) = false ∧ is_Some (configPaths !! path)).

Lemma check_file_true env senv registry configPaths path f :
  check_file senv (isAutoMountPath env senv (Dir path)) path registry configPaths f = Ok true ↔
  settled env senv registry configPaths path f.
Proof.
  unfold check_file, settled.
  destruct (stat_log senv f) as [size| |] eqn:Es; [|naive_solver|].
  - destruct (registry !! f) as [s|] eqn:Er; [|naive_solver].
    case_decide as Ho.
    + destruct (isAutoMountPath env senv (Dir path)).
      * split; [done|]. intros [?|[?|(s' & z & [= <-] & [= <-] & [?|[? _]])]]; done || lia.
      * destruct (configPaths !! path) eqn:Ec.
        -- split; [|done]. intros _. right. right. exists s, size. split_and!; try done. by right.
        -- split; [done|].
           intros [?|[?|(s' & z & [= <-] & [= <-] & [?|[_ []]])]]; done || lia.
    + split; [|done]. intros _. right. right. exists s, size. split_and!; try done. left. lia.
  - destruct (registry !! f) as [s|] eqn:Er; naive_solver.
Qed.

Lemma all_files_true (check : string → outcome bool) l :
  all_files check l = Ok true ↔ ∀ f, f ∈ l → check f = Ok true.
Proof.
  induction l as [|f l IH]; simpl.
  { split; [|done]. by intros _ f ?%elem_of_nil. }
  destruct (check f) as [[]| |] eqn:E; simpl.
  2,3,4: split; [done|]; intros Hall; specialize (Hall f (list_elem_of_here _ _)); congruence.
  rewrite IH. split.
  - intros Hall g [->|Hg]%elem_of_cons; auto.
  - intros Hall g Hg. apply Hall. by constructor.
Qed.

(** The configuration of [c] lists only settled files. *)
Definition removable (env : PilotEnv) (senv : ScanEnv) (registry : gmap string RegistryState)
    (configPaths : gmap string string) (w : World) (c : string) : Prop :=
  ∃ paths, loadConfig senv w c = Some paths ∧
    ∀ path f, path ∈ paths → f ∈ glob senv path → settled env senv registry configPaths path f.

Lemma canRemoveConf_true env senv w c registry configPaths :
  canRemoveConf env senv w c registry configPaths = Ok true ↔
  removable env senv registry configPaths w c.
Proof.
  unfold canRemoveConf, removable. destruct (loadConfig senv w c) as [paths|]; [|naive_solver].
  rewrite all_files_true. setoid_rewrite all_files_true. setoid_rewrite check_file_true. naive_solver.
Qed.

(** ** The scan *)

Section scan_loop.
Context (env : PilotEnv) (senv : ScanEnv) (flt : Faults)
  (registry : gmap string RegistryState) (configPaths : gmap string string).

Abbreviation path_of c := (filebeat_GetConfPath c).
Abbreviation step := (scan_step env senv flt registry configPaths).

(** The part of a world that concerns one container. *)
Definition same_at (c : string) (w w' : World) : Prop :=
  files w !! path_of c = files w' !! path_of c ∧
  watchContainer w !! c = watchContainer w' !! c.

Lemma loadConfig_local c w w' : same_at c w w' → loadConfig senv w c = loadConfig senv w' c.
Proof. intros [Hf _]. unfold loadConfig. simpl. by rewrite Hf. Qed.

(** A step of [c] reads and writes only what concerns [c]. *)
Lemma scan_step_local c w w' w1 :
  same_at c w w' → step w c = Ok w1 → ∃ w1', step w' c = Ok w1' ∧ same_at c w1 w1'.
Proof.
  intros Hs. pose proof (loadConfig_local c w w' Hs) as Hl. destruct Hs as [Hf Hw].
  unfold scan_step, canRemoveConf. simpl. rewrite <-Hl, <-Hf. unfold same_at.
  destruct (_ && _).
  { intros E. obind_inv. eexists. split; [done|]. simpl. rewrite !lookup_delete_eq. by rewrite Hf. }
  intros (b & -> & E)%obind_ok_inv. simpl. destruct b; [|obind_inv; eauto].
  destruct (remove_fault flt (path_of c)); [obind_inv; eauto|].
  destruct (files w !! path_of c) eqn:Ef; [|obind_inv; rewrite ?Ef; eauto].
  obind_inv. eexists. split; [done|]. simpl. by rewrite !lookup_delete_eq.
Qed.

Lemma scan_step_frame c d w w1 : c ≠ d → step w c = Ok w1 → same_at d w w1.
Proof.
  intros Hne. unfold scan_step. simpl.
  assert (path_of d ≠ path_of c) as Hp by (by intros ?%(inj filebeat_GetConfPath)).
  destruct (_ && _); [intros; obind_inv; split; simpl; [done|by rewrite lookup_delete_ne]|].
  intros (b & _ & E)%obind_ok_inv. destruct b; [|by obind_inv].
  destruct (remove_fault _ _); [by obind_inv|].
  destruct (files w !! path_of c); obind_inv; [|done].
  split; simpl; by rewrite lookup_delete_ne.
Qed.

Lemma scan_step_others c w w1 p :
  step w c = Ok w1 → p ≠ path_of c → files w1 !! p = files w !! p.
Proof.
  unfold scan_step. simpl. intros E Hp. destruct (_ && _); [by obind_inv|].
  apply obind_ok_inv in E as (b & _ & E). destruct b; [|by obind_inv].
  destruct (remove_fault _ _); [by obind_inv|].
  destruct (files w !! path_of c); obind_inv; [|done]. simpl. by rewrite lookup_delete_ne.
Qed.

Lemma scan_loop_at l c w w' :
  NoDup l → ofold step w l = Ok w' →
  (c ∈ l → ∃ wc, step w c = Ok wc ∧ same_at c wc w') ∧ (c ∉ l → same_at c w w').
Proof.
  revert w. induction l as [|d l IH]; intros w Hnd E; simpl in E.
  { obind_inv. split; [by intros ?%elem_of_nil|done]. }
  apply NoDup_cons in Hnd as [Hd Hnd]. apply obind_ok_inv in E as (w1 & E1 & E).
  destruct (IH w1 Hnd E) as [IHin IHout]. split.
  - intros [->|Hin]%elem_of_cons; [exists w1; auto|].
    destruct (IHin Hin) as (wc & Ec & Hc). assert (d ≠ c) as Hne by (intros ->; done).
    pose proof (scan_step_frame d c w w1 Hne E1) as [Hf1 Hw1].
    destruct (scan_step_local c w1 w wc) as (wc' & Ec' & [Hf2 Hw2]); [by split|done|].
    exists wc'. split; [done|]. destruct Hc as [Hf3 Hw3]. split; congruence.
  - rewrite not_elem_of_cons. intros [Hne Hnin].
    destruct (IHout Hnin) as [Hf Hw]. destruct (scan_step_frame d c w w1) as [Hf1 Hw1]; [done..|].
    split; congruence.
Qed.

Lemma scan_loop_others l w w' p :
  (∀ c, c ∈ l → p ≠ path_of c) → ofold step w l = Ok w' → files w' !! p = files w !! p.
Proof.
  intros Hp E. eapply (ofold_inv (λ w', files w' !! p = files w !! p)); [|done|exact E].
  intros s c s' Hc Hs Hstep. rewrite <-Hs. eapply scan_step_others; [exact Hstep|by apply Hp].
Qed.

(** One container of the watch list: its configuration is removed and it leaves the
    list, or it leaves the list because the configuration is gone, or nothing. *)
Lemma scan_step_cases c w w1 :
  step w c = Ok w1 →
  (files w !! path_of c = None ∧ w1 = set_watch (delete c (watchContainer w)) w) ∨
  (removable env senv registry configPaths w c ∧ remove_fault flt (path_of c) = None ∧
   is_Some (files w !! path_of c) ∧
   w1 = set_watch (delete c (watchContainer w)) (set_files (delete (path_of c) (files w)) w)) ∨
  (w1 = w ∧ (flt = no_faults → files w !! path_of c ≠ None ∧
                              ¬ removable env senv registry configPaths w c)).
Proof.
  unfold scan_step. simpl. intros E.
  destruct (negb _ && _) eqn:Eg.
  { apply andb_prop in Eg as [_ Eg%bool_decide_eq_true]. obind_inv. by left. }
  assert (flt = no_faults → files w !! path_of c ≠ None) as Hex.
  { intros ->. by apply bool_decide_eq_false in Eg. }
  apply obind_ok_inv in E as (b & Hb & E). destruct b.
  - apply canRemoveConf_true in Hb. destruct (remove_fault flt (path_of c)) eqn:Er.
    { obind_inv. right. right. split; [done|]. by intros ->. }
    destruct (files w !! path_of c) eqn:Ef; obind_inv.
    + right. left. split_and!; [done..|by eexists|done].
    + right. right. split; [done|]. intros Hflt. by destruct (Hex Hflt).
  - obind_inv. right. right. split; [done|]. intros Hflt. split; [by apply Hex|].
    intros Hr%canRemoveConf_true. congruence.
Qed.

End scan_loop.

(** ** The paths of live configurations *)

Section live_paths.
Context `{GoRange} (senv : ScanEnv) (flt : Faults) (w : World).

Definition add_paths (c : string) (paths : gmap string string) (ps : list string) : gmap string string :=
  foldl (λ (paths : gmap string string) p, match paths !! p with Some _ => paths | None => <[p := c]> paths end) paths ps.

Lemma add_paths_Some c paths ps p x :
  add_paths c paths ps !! p = Some x → paths !! p = Some x ∨ x = c ∧ p ∈ ps.
Proof.
  revert paths. induction ps as [|q ps IH]; intros paths E; simpl in E; [by left|].
  destruct (IH _ E) as [E1|[-> Hin]]; [|right; split; [done|by constructor]].
  destruct (paths !! q) eqn:Eq; [by left|].
  apply lookup_insert_Some in E1 as [[-> ->]|[_ ?]]; [right; split; [done|constructor]|by left].
Qed.

Lemma add_paths_dom c paths ps p :
  is_Some (paths !! p) ∨ p ∈ ps → is_Some (add_paths c paths ps !! p).
Proof.
  revert paths. induction ps as [|q ps IH]; intros paths Hor; simpl.
  { destruct Hor as [?|Hp]; [done|]. by apply elem_of_nil in Hp. }
  apply IH. destruct Hor as [Hs|[->|Hp]%elem_of_cons]; [left|left|by right].
  - destruct (paths !! q); [done|]. apply lookup_insert_is_Some. destruct (decide (q = p)); auto.
  - destruct (paths !! q) eqn:E; [by rewrite E|]. by rewrite lookup_insert_eq.
Qed.

Definition path_step (paths : gmap string string) (name : string) : gmap string string :=
  let c := TrimRight name ".yml" in
  match watchContainer w !! c with
  | Some _ => paths
  | None => match loadConfig senv w c with None => paths | Some ps => add_paths c paths ps end
  end.

Lemma path_fold_Some names paths p c :
  foldl path_step paths names !! p = Some c →
  paths !! p = Some c ∨
  (watchContainer w !! c = None ∧ ∃ ps, loadConfig senv w c = Some ps ∧ p ∈ ps).
Proof.
  revert paths. induction names as [|n names IH]; intros paths E; simpl in E; [by left|].
  destruct (IH _ E) as [E1|?]; [|by right]. unfold path_step in E1.
  destruct (watchContainer w !! TrimRight n ".yml") eqn:Ew; [by left|].
  destruct (loadConfig senv w (TrimRight n ".yml")) as [ps|] eqn:El; [|by left].
  apply add_paths_Some in E1 as [?|[-> ?]]; [by left|]. right. eauto.
Qed.

Lemma path_fold_mono names paths p :
  is_Some (paths !! p) → is_Some (foldl path_step paths names !! p).
Proof.
  revert paths. induction names as [|n names IH]; intros paths Hs; simpl; [done|].
  apply IH. unfold path_step. repeat (case_match; [done|] || (case_match; [|done])); try done.
  apply add_paths_dom. by left.
Qed.

Lemma path_fold_dom names paths n ps p :
  n ∈ names → watchContainer w !! TrimRight n ".yml" = None →
  loadConfig senv w (TrimRight n ".yml") = Some ps → p ∈ ps →
  is_Some (foldl path_step paths names !! p).
Proof.
  intros Hn Hw Hl Hp. revert paths. induction names as [|m names IH]; intros paths.
  { by apply elem_of_nil in Hn. }
  simpl. apply elem_of_cons in Hn as [<-|Hn]; [|by apply IH].
  apply path_fold_mono. unfold path_step. rewrite Hw, Hl. apply add_paths_dom. by right.
Qed.

Lemma loadConfigPaths_live p c :
  loadConfigPaths senv flt w !! p = Some c →
  watchContainer w !! c = None ∧ ∃ ps, loadConfig senv w c = Some ps ∧ p ∈ ps.
Proof. intros E. apply (path_fold_Some _ ∅) in E as [E|?]; [by rewrite lookup_empty in E|done]. Qed.

End live_paths.

(** The identifiers docker gives out: lower-case hexadecimal digits. *)
Definition hex_digit (a : ascii) : bool := in_cutset "0123456789abcdef" a.
Definition hex_id (c : string) : Prop := c ≠ "" ∧ Forall (λ a, hex_digit a = true) (str_elems c).

#[global] Instance hex_id_dec c : Decision (hex_id c).
Proof. unfold hex_id. apply _. Defined.

Lemma TrimRight_yml c : hex_id c → TrimRight (c +:+ ".yml") ".yml" = c.
Proof.
  intros [_ Hc]. unfold TrimRight. apply trim_right_app; [by_decide|]. apply trim_right_none.
  eapply Forall_impl; [exact Hc|]. intros a Ha. unfold hex_digit, in_cutset in *.
  apply bool_decide_eq_true in Ha. apply bool_decide_eq_false. revert a Ha.
  apply (Forall_forall (λ a, a ∉ str_elems ".yml")). by_decide.
Qed.

Lemma hex_name_ok c : hex_id c → comp_ok (c +:+ ".yml").
Proof.
  intros [Hne Hc]. unfold comp_ok. split_and!.
  - intros E%(f_equal String.length). rewrite str_length_app in E. simpl in E. lia.
  - destruct c as [|a [|b c]]; [done|by destruct a as [[][][][][][][][]]|done].
  - intros E%(f_equal String.length). rewrite str_length_app in E. simpl in E.
    destruct c; simpl in E; [done|lia].
  - rewrite str_elems_app, elem_of_app. intros [Hs|Hs]; [|revert Hs; by_decide].
    rewrite Forall_forall in Hc. apply Hc in Hs. done.
Qed.

(** The paths a scan considers as covered are those listed by the configuration
    of some container that is not waiting for removal; for containers with docker
    identifiers the converse holds: every path of a live configuration is covered. *)
Theorem loadConfigPaths_spec `{GoRange} senv flt w p :
  (∀ c, loadConfigPaths senv flt w !! p = Some c →
     watchContainer w !! c = None ∧ ∃ ps, loadConfig senv w c = Some ps ∧ p ∈ ps) ∧
  (∀ c ps, hex_id c → open_fault flt FILEBEAT_CONF_DIR = None →
     watchContainer w !! c = None → loadConfig senv w c = Some ps → p ∈ ps →
     is_Some (loadConfigPaths senv flt w !! p)).
Proof.
  split; [intros c; apply loadConfigPaths_live|].
  intros c ps Hhex Hopen Hw Hl Hp. unfold loadConfigPaths. simpl. rewrite Hopen.
  apply (path_fold_dom senv w _ ∅ (c +:+ ".yml") ps p).
  - rewrite merge_sort_Permutation.
    apply (elem_of_dir_names (H0 := FilebeatPiloter)). split; [by apply hex_name_ok|].
    unfold loadConfig in Hl. simpl in Hl. unfold entry. simpl.
    destruct (files w !! filebeat_GetConfPath c) as [f|] eqn:Ef; [|done].
    unfold filebeat_GetConfPath in Ef. by rewrite Ef.
  - by rewrite TrimRight_yml.
  - by rewrite TrimRight_yml.
  - done.
Qed.

(** C3: a scan only ever removes configuration files, and only that of a container
    whose removal is awaited, which then leaves the list. When it does so, every log
    file the configuration lists that exists, is registered and is not read to its end
    is a host path (not a docker or kubelet volume) that the configuration of another,
    live container also lists. *)
Theorem scan_removal_safe `{GoRange} env senv flt w w' p :
  scan env senv flt w = Ok w' → files w' !! p ≠ files w !! p →
  files w' !! p = None ∧
  ∃ c states, p = filebeat_GetConfPath c ∧ is_Some (watchContainer w !! c) ∧
    watchContainer w' !! c = None ∧ getRegsitryState senv = Some states ∧
    ∃ paths, loadConfig senv w c = Some paths ∧
      ∀ path f s size, path ∈ paths → f ∈ glob senv path →
        states !! f = Some s → stat_log senv f = LSize size → (Offset s < size)%Z →
        isAutoMountPath env senv (Dir path) = false ∧
        ∃ c' paths', c' ≠ c ∧ watchContainer w !! c' = None ∧
          loadConfig senv w c' = Some paths' ∧ path ∈ paths'.
Proof.
  unfold scan. destruct (getRegsitryState senv) as [states|]; [|by intros; obind_inv].
  intros E Hp. destruct (decide (Exists (λ c, p = filebeat_GetConfPath c) (go_range (watchContainer w)).*1))
    as [Hex|Hnex].
  2:{ destruct Hp. eapply scan_loop_others; [|exact E]. intros c Hc ->. apply Hnex, Exists_exists. eauto. }
  apply Exists_exists in Hex as (c & Hc & ->).
  destruct (scan_loop_at env senv flt states _ _ c w w' (NoDup_go_range_keys _) E) as [Hat _].
  destruct (Hat Hc) as (wc & Ec & Hf & Hw).
  assert (is_Some (watchContainer w !! c)) as Hwatch.
  { apply list_elem_of_fmap in Hc as ([k v] & Ek & Hkv%elem_of_go_range).
    simpl in Ek. subst k. by rewrite Hkv. }
  apply scan_step_cases in Ec as [[Hn ->]|[((paths & Hl & Hset) & _ & _ & ->)|[-> _]]];
    simpl in Hf, Hw; [by rewrite <-Hf in Hp| |by rewrite <-Hf in Hp].
  rewrite lookup_delete_eq in Hf. rewrite lookup_delete_eq in Hw. split; [done|]. exists c, states. split_and!; try done.
  exists paths. split; [done|]. intros path f s size Hpath Hfile Hs Hst Hlt.
  destruct (Hset path f Hpath Hfile) as [?|[?|(s' & z & Hs' & Hz & Hor)]]; [congruence..|].
  destruct Hor as [?|[Hauto [c' Hc']]].
  { rewrite Hs in Hs'. rewrite Hst in Hz. simplify_eq. lia. }
  split; [done|]. apply loadConfigPaths_live in Hc' as [Hw' (ps & Hps & Hin)].
  exists c', ps. split_and!; try done. intros ->. rewrite Hw' in Hwatch. by destruct Hwatch.
Qed.

(** C30: without system-call failures a scan settles every awaited container: its
    configuration is gone and it leaves the list exactly when the configuration was
    already gone or all its files are settled; otherwise both stay as they were. *)
Theorem scan_progress `{GoRange} env senv w w' states c :
  scan env senv no_faults w = Ok w' → getRegsitryState senv = Some states →
  is_Some (watchContainer w !! c) →
  let gone := files w !! filebeat_GetConfPath c = None ∨
              removable env senv states (loadConfigPaths senv no_faults w) w c in
  (gone → files w' !! filebeat_GetConfPath c = None ∧ watchContainer w' !! c = None) ∧
  (¬ gone → same_at c w w').
Proof.
  intros E Hst Hw gone. unfold scan in E. rewrite Hst in E.
  destruct (scan_loop_at env senv no_faults states _ _ c w w' (NoDup_go_range_keys _) E) as [Hat _].
  destruct Hat as (wc & Ec & Hf & Hwc).
  { destruct Hw as [v Hv]. apply list_elem_of_fmap. exists (c, v). by rewrite elem_of_go_range. }
  unfold gone. apply scan_step_cases in Ec as [[Hn ->]|[(Hr & _ & _ & ->)|[-> Hnr]]]; simpl in *.
  - rewrite lookup_delete_eq in Hwc. split; [|tauto]. intros _. by rewrite <-Hf.
  - rewrite lookup_delete_eq in Hf. rewrite lookup_delete_eq in Hwc. split; [|tauto]. done.
  - destruct (Hnr eq_refl) as [? ?]. split; [tauto|by split].
Qed.

(** ** Runs of the pilot with filebeat *)

(** What can happen next: a docker event, the initial pass over all containers, a scan
    of the watcher, the reload goroutine becoming ready again. *)
Inductive input :=
| IEvent (docker : Docker) (flt : Faults) (action id : string)
| ISync (docker : Docker) (flt : Faults)
| IScan (senv : ScanEnv) (flt : Faults)
| IReloaded.

(** Errors of a handler are logged and the loop goes on; a panic ends the process. *)
Definition logged (r : World * outcome unit) : outcome World :=
  match r with
  | (w, Panic) => Panic
  | (w, _) => Ok w
  end.

Section runs.
Context `{GoRange} (env : PilotEnv) (templ : Template).
#[local] Existing Instance FilebeatPiloter.

Definition run_input (w : World) (i : input) : outcome World :=
  match i with
  | IEvent docker flt action id => logged (processEvent env templ docker flt action id w)
  | ISync docker flt => logged (processAllContainers env templ docker flt w)
  | IScan senv flt => scan env senv flt w
  | IReloaded => Ok (set_waiting true w)
  end.

Definition run (w : World) (inputs : list input) : outcome World := ofold run_input w inputs.

(** Docker answers an inspection with the container it was asked for. *)
Definition honest (docker : Docker) : Prop :=
  ∀ id c, ContainerInspect docker id = inr c → ID c = id.

Definition input_honest (i : input) : Prop :=
  match i with
  | IEvent docker _ _ _ | ISync docker _ => honest docker
  | _ => True
  end.

(** The input reports the end of the container [id]. *)
Definition ends (id : string) (i : input) : Prop :=
  match i with
  | IEvent _ _ action id' => id' = id ∧ (action = "die" ∨ action = "destroy")
  | _ => False
  end.

(** A container in service: its configuration is [f] and its removal is not awaited. *)
Definition in_service (id : string) (f : fentry) (w : World) : Prop :=
  files w !! GetConfPath id = Some f ∧ watchContainer w !! id = None.

Lemma in_service_same id f w w' : same_conf w w' → in_service id f w → in_service id f w'.
Proof. intros (Hf & Hw & _) [H1 H2]. unfold in_service. by rewrite Hf, Hw. Qed.

Lemma newContainer_in_service docker flt c w id f :
  ID c ≠ id → in_service id f w → in_service id f (newContainer env templ docker flt c w).1.
Proof.
  intros Hne [Hf Hw]. destruct (newContainer env templ docker flt c w) as [w' r] eqn:E.
  apply newContainer_cases in E as [[Hs _]|(text & content & _ & Hf' & Hw' & _)].
  { by eapply in_service_same; [exact Hs|]. }
  unfold in_service. simpl. rewrite Hf', Hw'. split; [|done].
  rewrite lookup_insert_ne; [done|]. by intros ?%(inj filebeat_GetConfPath).
Qed.

Lemma processEvent_in_service docker flt action id' w id f :
  honest docker → ¬ ends id (IEvent docker flt action id') →
  in_service id f w → in_service id f (processEvent env templ docker flt action id' w).1.
Proof.
  intros Hh Hend Hs. unfold processEvent. case_decide.
  - destruct (exists_conf flt id' w) eqn:Ex; [done|].
    destruct (ContainerInspect docker id') as [|c] eqn:Ei; [done|].
    apply newContainer_in_service; [|done]. rewrite (Hh _ _ Ei). intros ->.
    unfold exists_conf in Ex. destruct Hs as [Hf _]. rewrite Hf in Ex.
    rewrite bool_decide_true in Ex by done. by rewrite orb_true_r in Ex.
  - case_decide as Ha; [|done]. unfold delContainer. simpl.
    eapply in_service_same in Hs as [Hf Hw]; [|apply (removeVolumeSymlink_same env flt id')].
    unfold OnDestroyEvent. simpl. unfold feed. case_match; [by split|]. split; simpl; [done|].
    rewrite lookup_insert_ne; [done|]. intros ->. apply Hend. simpl. tauto.
Qed.

Lemma process_list_in_service docker flt cs w id f :
  honest docker → in_service id f w → in_service id f (process_list env templ docker flt cs w).1.
Proof.
  intros Hh. revert w. induction cs as [|[cid state] cs IH]; intros w Hs; simpl; [done|].
  case_decide; [by apply IH|]. destruct (exists_conf flt cid w) eqn:Ex; [by apply IH|].
  destruct (ContainerInspect docker cid) as [|c] eqn:Ei; [by apply IH|].
  assert (ID c ≠ id) as Hne.
  { rewrite (Hh _ _ Ei). intros ->. unfold exists_conf in Ex. destruct Hs as [Hf _].
    rewrite Hf, bool_decide_true, orb_true_r in Ex by done. done. }
  pose proof (newContainer_in_service docker flt c w id f Hne Hs) as Hn.
  destruct (newContainer env templ docker flt c w) as [w' []]; simpl in Hn; [by apply IH..|done].
Qed.

Lemma run_input_in_service i w w' id f :
  input_honest i → ¬ ends id i → run_input w i = Ok w' → in_service id f w → in_service id f w'.
Proof.
  intros Hh Hend E Hs. destruct i as [docker flt action id'|docker flt|senv flt|]; simpl in *.
  - pose proof (processEvent_in_service docker flt action id' w id f Hh Hend Hs) as Hp.
    destruct (processEvent _ _ _ _ _ _ _) as [w1 []]; simpl in *; congruence.
  - unfold processAllContainers in E. destruct (ContainerList docker) as [|cs]; simpl in E; [congruence|].
    pose proof (process_list_in_service docker flt cs w id f Hh Hs) as Hp.
    destruct (process_list _ _ _ _ _ _) as [w1 []]; simpl in *; obind_inv;
      (eapply in_service_same; [apply processSymlink_same|exact Hp]).
  - unfold scan in E. destruct (getRegsitryState senv) as [states|]; [|by obind_inv].
    destruct (scan_loop_at env senv flt states _ _ id w w' (NoDup_go_range_keys _) E) as [_ Hout].
    destruct Hs as [Hf Hw]. destruct Hout as [Hf' Hw'].
    { intros ([k v] & Ek & Hkv%elem_of_go_range)%list_elem_of_fmap. simpl in Ek. subst k. congruence. }
    simpl in Hf. split; simpl; congruence.
  - obind_inv. exact Hs.
Qed.

End runs.

(** C2: whatever events, passes, scans and system-call failures occur, and in whatever
    order, the configuration of a container that is in service keeps existing with the
    same contents, and its removal is not awaited, as long as no event reports the
    container's end. *)
Theorem config_survives `{GoRange} env templ inputs w w' id f :
  Forall input_honest inputs → Forall (λ i, ¬ ends id i) inputs →
  in_service id f w → run env templ w inputs = Ok w' → in_service id f w'.
Proof.
  intros Hh He Hs E. eapply (ofold_inv (in_service id f)); [|exact Hs|exact E].
  intros w1 i w2 Hi Hs1 E1. rewrite Forall_forall in Hh, He.
  eapply run_input_in_service; [by apply Hh|by apply He|exact E1|done].
Qed.

Lemma logged_ok r w : logged r = Ok w → ∃ o, r = (w, o).
Proof. destruct r as [w0 []]; simpl; intros; simplify_eq; eauto. Qed.

Lemma die_awaits `{GoRange} env templ docker flt id w w' r f :
  files w !! filebeat_GetConfPath id = Some f →
  processEvent (H0 := FilebeatPiloter) env templ docker flt "die" id w = (w', r) →
  files w' !! filebeat_GetConfPath id = Some f ∧ is_Some (watchContainer w' !! id).
Proof.
  intros Hf E. unfold processEvent in E. rewrite decide_False, decide_True in E by naive_solver.
  unfold delContainer in E. rewrite decide_False in E by done. injection E as <- _.
  destruct (removeVolumeSymlink_same env flt id w) as (Hff & _).
  unfold OnDestroyEvent. rewrite decide_True by done. unfold feed. case_match eqn:Ew.
  - split; [by rewrite Hff|by rewrite Ew].
  - simpl. rewrite Hff. split; [done|]. by rewrite lookup_insert_eq.
Qed.

Lemma start_existing `{GoRange, Piloter} env templ docker flt id w w' r :
  is_Some (files w !! GetConfPath id) →
  processEvent env templ docker flt "start" id w = (w', r) → w' = w.
Proof.
  intros Hs. unfold processEvent, exists_conf. rewrite decide_True by (by left).
  rewrite (bool_decide_true _ Hs), orb_true_r. congruence.
Qed.

(** A container that dies and is started again before its configuration was
    removed keeps the old configuration for the moment (the start event finds it and
    does nothing) but stays on the removal list: the next scan that finds its files
    settled removes the configuration of the running container. *)
Theorem restart_loses_config `{GoRange} env templ docker flt senv states w w' id f :
  files w !! filebeat_GetConfPath id = Some f →
  run env templ w [IEvent docker flt "die" id; IEvent docker flt "start" id;
                   IScan senv no_faults] = Ok w' →
  getRegsitryState senv = Some states →
  (∀ configPaths, removable env senv states configPaths w id) →
  files w' !! filebeat_GetConfPath id = None.
Proof.
  intros Hf E Hst Hr. unfold run in E. cbn [ofold run_input] in E.
  apply obind_ok_inv in E as (w1 & E1 & E). apply obind_ok_inv in E as (w2 & E2 & E).
  apply obind_ok_inv in E as (w3 & E & [= ->]).
  assert (files w1 !! filebeat_GetConfPath id = Some f ∧ is_Some (watchContainer w1 !! id)) as [Hf1 Hw1].
  { apply logged_ok in E1 as [r1 E1]. by eapply die_awaits. }
  assert (w2 = w1) as ->.
  { apply logged_ok in E2 as [r2 E2]. eapply start_existing; [|exact E2]. simpl. by rewrite Hf1. }
  unfold scan in E. rewrite Hst in E.
  destruct (scan_loop_at env senv no_faults states _ _ id w1 w' (NoDup_go_range_keys _) E) as [Hat _].
  destruct Hat as (wc & Ec & Hfc & _).
  { destruct Hw1 as [v Hv]. apply list_elem_of_fmap. exists (id, v). by rewrite elem_of_go_range. }
  assert (loadConfig senv w1 id = loadConfig senv w id) as Hl.
  { unfold loadConfig. simpl. by rewrite Hf, Hf1. }
  apply scan_step_cases in Ec as [[Hn _]|[(_ & _ & _ & ->)|[_ Hno]]]; [congruence| |].
  - rewrite <-Hfc. simpl. by rewrite lookup_delete_eq.
  - destruct (Hno eq_refl) as [_ Hno']. destruct Hno'. unfold removable in *. rewrite Hl. apply Hr.
Qed.

(** ** Witnesses *)

Definition demo_container (id : string) : ContainerJSON :=
  mkContainerJSON id "/web" "/docker/c-json.log" ["cv_logs_b=/var/log/b.log"]
    (Some {["cv.logs.a" := "stdout"]}) [demo_mount].

Definition demo_docker : Docker :=
  mkDocker (λ id, inr (demo_container id)) (inr [("c0", "running")]) (λ _, inl "no such volume").

Definition demo_templ : Template := λ id _ cfgs _, inl (id +:+ ":" +:+ Join (ConfName <$> cfgs) ",").

Definition demo_world : World := mkWorld ∅ ∅ ∅ ∅ [] true.

(** Patterns of the form [^lit.*$], whose dot does not match a newline. *)
Definition match_prefix (pattern s : string) : bool :=
  let lit := TrimSuffix (TrimPrefix pattern "^") ".*$" in
  HasPrefix s lit && bool_decide (ascii_of_nat 10 ∉ str_elems (TrimPrefix s lit)).

Definition demo_senv : ScanEnv := {|
  MatchString := match_prefix;
  registry_file := Some [mkRegistryState "/l/a.log" 10 0 0 "log" (1, 1)%Z];
  parse_config := λ _, Some ["/l/*.log"];
  glob := λ _, ["/l/a.log"];
  stat_log := λ _, LSize 10 |}.

Definition one_conf (id : string) : World :=
  mkWorld {[filebeat_GetConfPath id := FReg "x"]} ∅ ∅ ∅ [] true.


Lemma cleanConfigs_spec_witness :
  cleanConfigs (H := range_sorted) (H0 := FilebeatPiloter) no_faults (one_conf "c0")
    = (set_files ∅ (one_conf "c0"), Ok ()) ∧
  files (set_files ∅ (one_conf "c0")) !! filebeat_GetConfPath "c0" = None.
Proof.
  assert (cleanConfigs (H := range_sorted) (H0 := FilebeatPiloter) no_faults (one_conf "c0")
    = (set_files ∅ (one_conf "c0"), Ok ())) as E by (vm_compute; reflexivity).
  split; [exact E|].
  pose proof (cleanConfigs_spec (H := range_sorted) (H0 := FilebeatPiloter) _ _ _ _ E)
    as (_ & Hgone & _).
  apply (Hgone eq_refl "c0.yml"). by_decide.
Defined.

Definition link_env : PilotEnv := {|
  baseDir := "/host"; logPrefix := ["cv"]; createSymlink := true; PilotType := PILOT_FILEBEAT;
  Getenv := λ _, ""; fs_stat := λ _, StatNotExist; fs_read := λ _, inr "no such file" |}.

Definition link_world : World :=
  mkWorld ∅ (list_to_set (inits (link_dir link_env "shop" "web" "c0") ++
                          inits (link_dir link_env "shop" "web" "c1"))) ∅ ∅ [] true.

Lemma processSymlink_spec_witness :
  link_dir link_env "shop" "web" "c1"
    ∉ dirs (processSymlink (H := range_sorted) link_env no_faults {["c0" := "c0"]} link_world).
Proof.
  rewrite (processSymlink_spec (H := range_sorted) link_env {["c0" := "c0"]} link_world).
  - intros [_ H]. revert H. by_decide.
  - reflexivity.
  - intros d p. unfold link_world. cbn [dirs]. rewrite !elem_of_list_to_set, !elem_of_app, !elem_of_inits.
    intros [Hd|Hd] Hp; [left|right]; by etrans.
Defined.

Definition awaited (id : string) : World :=
  set_watch {[id := id]} (one_conf id).

Lemma scan_removal_safe_witness :
  ∃ w', scan (H := range_sorted) demo_env demo_senv no_faults (awaited "c0") = Ok w' ∧
        watchContainer w' !! "c0" = None.
Proof.
  destruct (scan (H := range_sorted) demo_env demo_senv no_faults (awaited "c0")) as [w'| |] eqn:E;
    [|vm_compute in E; discriminate..].
  exists w'. split; [done|].
  destruct (scan_removal_safe (H := range_sorted) _ _ _ _ w' (filebeat_GetConfPath "c0") E)
    as (_ & c & states & Hc & _ & Hw & _).
  - vm_compute in E. injection E as <-. vm_compute. discriminate.
  - apply (inj filebeat_GetConfPath) in Hc as <-. exact Hw.
Defined.

Lemma demo_removable configPaths :
  removable demo_env demo_senv (default ∅ (getRegsitryState demo_senv)) configPaths (one_conf "c0") "c0".
Proof.
  exists ["/l/*.log"]. split; [by vm_compute|].
  intros path f _ ->%list_elem_of_singleton. right. right.
  exists (mkRegistryState "/l/a.log" 10 0 0 "log" (1, 1)%Z), 10%Z. split_and!; [by vm_compute|done|].
  left. simpl. lia.
Qed.

Lemma scan_progress_witness :
  ∃ w', scan (H := range_sorted) demo_env demo_senv no_faults (awaited "c0") = Ok w' ∧
        files w' !! filebeat_GetConfPath "c0" = None.
Proof.
  destruct (scan (H := range_sorted) demo_env demo_senv no_faults (awaited "c0")) as [w'| |] eqn:E;
    [|vm_compute in E; discriminate..].
  exists w'. split; [done|].
  apply (scan_progress (H := range_sorted) demo_env demo_senv _ w' (default ∅ (getRegsitryState demo_senv)) "c0" E);
    [done|by_decide|]. right. apply demo_removable.
Defined.

Lemma config_survives_witness :
  ∃ w', run (H := range_sorted) demo_env demo_templ (one_conf "c0")
          [IEvent demo_docker no_faults "start" "c1"; IScan demo_senv no_faults;
           IEvent demo_docker no_faults "die" "c1"; ISync demo_docker no_faults] = Ok w' ∧
        files w' !! filebeat_GetConfPath "c0" = Some (FReg "x").
Proof.
  destruct (run (H := range_sorted) demo_env demo_templ (one_conf "c0")
          [IEvent demo_docker no_faults "start" "c1"; IScan demo_senv no_faults;
           IEvent demo_docker no_faults "die" "c1"; ISync demo_docker no_faults]) as [w'| |] eqn:E;
    [|vm_compute in E; discriminate..].
  exists w'. split; [done|].
  refine (proj1 (config_survives (H := range_sorted) demo_env demo_templ _
    (one_conf "c0") w' "c0" (FReg "x") _ _ _ E)); [| |by split].
  - repeat constructor; by intros id c [= <-].
  - repeat constructor; simpl; naive_solver.
Defined.

Lemma restart_loses_config_witness :
  ∃ w', run (H := range_sorted) demo_env demo_templ (one_conf "c0")
          [IEvent demo_docker no_faults "die" "c0"; IEvent demo_docker no_faults "start" "c0";
           IScan demo_senv no_faults] = Ok w' ∧
        files w' !! filebeat_GetConfPath "c0" = None.
Proof.
  destruct (run (H := range_sorted) demo_env demo_templ (one_conf "c0")
          [IEvent demo_docker no_faults "die" "c0"; IEvent demo_docker no_faults "start" "c0";
           IScan demo_senv no_faults]) as [w'| |] eqn:E; [|vm_compute in E; discriminate..].
  exists w'. split; [done|].
  apply (restart_loses_config (H := range_sorted) demo_env demo_templ demo_docker no_faults demo_senv
    (default ∅ (getRegsitryState demo_senv)) (one_conf "c0") w' "c0" (FReg "x"));
    [by vm_compute|exact E|done|apply demo_removable].
Defined.
