(* ===== verification/Supervisor.v ===== *)
(** * The collector process and the start of the pilot

    pilot/filebeat_piloter.go and pilot/fluentd_piloter.go: [Start] with the goroutine that
    waits for the process and starts it again, [Stop] and [Reload]; pilot/pilot.go: [New],
    [reload], [doReload] and the sequence of [watch].

    The goroutines of the piloter share the global variable that holds the command. A
    goroutine runs from one access of it to the next; the processes of the node end at any
    time. What the system answers to the start of a process is an input. *)

From S2P Require Import Prelude GoStrings GoPath Clients LogTree LogConfig Pilot Filebeat.

(** ** The process *)

Inductive kind := KFilebeat | KFluentd.

#[global] Instance kind_eq_dec : EqDecision kind.
Proof. solve_decision. Defined.

(** A command that was made: the process, or nil when it could not be started. *)
Definition Cmd : Type := option nat.

(** Where the goroutine that [Start] leaves behind stands: before its first access of the
    variable, waiting for a process, before the variable is set to nil, before [Start]. *)
Inductive Goroutine := GReady | GWait (pid : nat) | GExited | GRestart.

Record Sup := mkSup {
  cmd : option Cmd;                (** the global variable *)
  running : gset nat;              (** collectors that run *)
  goroutines : list Goroutine;
  watchers : nat                   (** goroutines in [watch] of the filebeat piloter *)
}.

Definition no_sup : Sup := mkSup None ∅ [] 0.

Definition ERR_ALREADY_STARTED : string := "already started".

Section process.
Context (k : kind).

(** [spawn] is the answer to the start of the process: an error or its id. The variable is
    set, and the goroutines are started, in either case. *)
Definition Start (spawn : string + nat) (s : Sup) : Sup * outcome unit :=
  match cmd s with
  | Some None => (s, Panic)
  | Some (Some _) => (s, Err ERR_ALREADY_STARTED)
  | None =>
      let c := match spawn with inl _ => None | inr pid => Some pid end in
      (mkSup (Some c) (match c with Some pid => {[pid]} ∪ running s | None => running s end)
         (goroutines s ++ [GReady]) (match k with KFilebeat => S (watchers s) | KFluentd => watchers s end),
       match spawn with inl e => Err e | inr _ => Ok () end)
  end.

Definition set_goroutine (i : nat) (g : Goroutine) (s : Sup) : Sup :=
  mkSup (cmd s) (running s) (<[i := g]> (goroutines s)) (watchers s).

(** One turn of a goroutine. Filebeat's logs the process id first; the methods of a nil
    command or process panic; [Wait] on a command that was not started returns at once. *)
Definition turn (i : nat) (spawn : string + nat) (s : Sup) : outcome Sup :=
  match goroutines s !! i with
  | None => Ok s
  | Some GReady =>
      match cmd s with
      | None => Panic
      | Some None => if decide (k = KFilebeat) then Panic else Ok (set_goroutine i GExited s)
      | Some (Some pid) => Ok (set_goroutine i (GWait pid) s)
      end
  | Some (GWait pid) => Ok (if decide (pid ∈ running s) then s else set_goroutine i GExited s)
  | Some GExited =>
      Ok (mkSup None (running s) (<[i := GRestart]> (goroutines s)) (watchers s))
  | Some GRestart =>
      let s := mkSup (cmd s) (running s) (take i (goroutines s) ++ drop (S i) (goroutines s)) (watchers s) in
      match Start spawn s with
      | (_, Panic) => Panic
      | (s, _) => Ok s
      end
  end.

(** [Stop] of the filebeat piloter: one of the watchers receives; [None] while there is
    none. The fluentd piloter does nothing. *)
Definition Stop (s : Sup) : option Sup :=
  match k with
  | KFluentd => Some s
  | KFilebeat =>
      match watchers s with
      | O => None
      | S n => Some (mkSup (cmd s) (running s) (goroutines s) n)
      end
  end.

(** Turns of goroutines, ends of processes and calls of [Stop], in any order. *)
Inductive sup_step : Sup → Sup → Prop :=
| turn_step i spawn s s' : turn i spawn s = Ok s' → sup_step s s'
| exit_step pid s : pid ∈ running s →
    sup_step s (mkSup (cmd s) (running s ∖ {[pid]}) (goroutines s) (watchers s))
| stop_step s s' : Stop s = Some s' → sup_step s s'.

Definition reachable (s : Sup) : Prop := ∃ spawn, rtc sup_step (Start spawn no_sup).1 s.

(** The turns of the goroutine that is there, all with the same answer to a start. *)
Fixpoint turns (n : nat) (spawn : string + nat) (s : Sup) : outcome Sup :=
  match n with
  | O => Ok s
  | S n => let! s := turn 0 spawn s in turns n spawn s
  end.

(** ** One collector, always supervised *)

Definition process_of (c : Cmd) : gset nat := match c with Some pid => {[pid]} | None => ∅ end.

Definition owned (g : Goroutine) (s : Sup) : Prop :=
  match g with
  | GReady => ∃ c, cmd s = Some c ∧ running s ⊆ process_of c
  | GWait pid => cmd s = Some (Some pid) ∧ running s ⊆ {[pid]}
  | GExited => (∃ c, cmd s = Some c) ∧ running s = ∅
  | GRestart => cmd s = None ∧ running s = ∅
  end.

Definition supervised (s : Sup) : Prop := ∃ g, goroutines s = [g] ∧ owned g s.

Lemma owned_Start spawn s :
  cmd s = None → goroutines s = [] → running s = ∅ → supervised (Start spawn s).1.
Proof.
  intros Hc Hg Hr. unfold Start. rewrite Hc, Hg, Hr. exists GReady. split; [done|].
  destruct spawn as [e|pid]; cbn [fst owned cmd running]; eexists; (split; [done|cbn [process_of]; set_solver]).
Qed.

Lemma turn_supervised i spawn s s' : supervised s → turn i spawn s = Ok s' → supervised s'.
Proof.
  intros (g & Hg & Ho) E. unfold turn in E. rewrite Hg in E.
  destruct i as [|i]; simpl in E; [|injection E as <-; by exists g].
  destruct g as [|pid| |]; cbn [owned] in Ho.
  - destruct Ho as (c & Hc & Hr). rewrite Hc in E. destruct c as [pid|].
    + simplify_eq. exists (GWait pid). unfold set_goroutine. rewrite Hg. done.
    + case_decide; simplify_eq. exists GExited. unfold set_goroutine. rewrite Hg.
      split; [done|]. cbn [owned cmd running]. split; [by exists None|set_solver].
  - destruct Ho as [Hc Hr]. simplify_eq. case_decide as Hd; [by exists (GWait pid)|].
    exists GExited. unfold set_goroutine. rewrite Hg. split; [done|]. cbn [owned cmd running].
    split; [eauto|set_solver].
  - simplify_eq. exists GRestart. destruct Ho as [_ Hr]. by repeat split.
  - destruct Ho as [Hc Hr]. cbn [take drop app] in E.
    pose proof (owned_Start spawn (mkSup (cmd s) (running s) [] (watchers s)) Hc eq_refl Hr) as Hs.
    destruct (Start spawn _) as [s2 []]; by simplify_eq.
Qed.

Lemma exit_supervised pid s :
  supervised s → supervised (mkSup (cmd s) (running s ∖ {[pid]}) (goroutines s) (watchers s)).
Proof.
  intros (g & Hg & Ho). exists g. split; [done|].
  destruct g as [|p| |]; cbn [owned cmd running] in *; [destruct Ho as (c & ? & ?); exists c|..];
    naive_solver set_solver.
Qed.

Lemma step_supervised s s' : sup_step s s' → supervised s → supervised s'.
Proof.
  intros Hstep Hs. destruct Hstep as [i sp s s' E|pid s Hp|s s' E].
  - by eapply turn_supervised.
  - by apply exit_supervised.
  - destruct Hs as (g & Hg & Ho). unfold Stop in E. destruct k; [|by simplify_eq; exists g].
    destruct (watchers s); simplify_eq. exists g. split; [done|]. by destruct g.
Qed.

Lemma reachable_supervised s : reachable s → supervised s.
Proof.
  intros (spawn & Hr). pose proof (owned_Start spawn no_sup eq_refl eq_refl eq_refl) as H0.
  induction Hr as [|x y z Hxy _ IH]; [done|]. apply IH. by eapply step_supervised.
Qed.

(** The goroutine cannot go on: it would log the id of a process that was not started. *)
Definition start_failed (s : Sup) : Prop :=
  k = KFilebeat ∧ goroutines s = [GReady] ∧ cmd s = Some None.

Lemma turn_panics spawn s : supervised s → turn 0 spawn s = Panic ↔ start_failed s.
Proof.
  intros (g & Hg & Ho). unfold turn, start_failed. rewrite Hg. cbn [lookup list_lookup].
  destruct g as [|pid| |]; cbn [owned] in Ho; [..|].
  - destruct Ho as (c & -> & _). destruct c; [naive_solver|]. case_decide; naive_solver.
  - case_decide; naive_solver.
  - naive_solver.
  - destruct Ho as [Hc Hr]. cbn [take drop app]. unfold Start. cbn [cmd]. rewrite Hc.
    destruct spawn; naive_solver.
Qed.

(** A goroutine whose process has ended starts the next one within four turns. *)
Lemma supervised_restarts pid s :
  supervised s → running s = ∅ → ¬ start_failed s →
  ∃ n s', n ≤ 4 ∧ turns n (inr pid) s = Ok s' ∧ running s' = {[pid]} ∧ cmd s' = Some (Some pid) ∧
    watchers s' = match k with KFilebeat => S (watchers s) | KFluentd => watchers s end.
Proof.
  destruct s as [c r gs w]. intros (g & Hg & Ho) Hr Hnf. cbn [goroutines running cmd watchers] in *. subst gs r.
  assert (∀ p : nat, p ∉ (∅ : gset nat)) as Hne by set_solver.
  assert (({[pid]} ∪ ∅ : gset nat) = {[pid]}) as Hu by set_solver.
  destruct g as [|p| |]; cbn [owned cmd running] in Ho.
  - destruct Ho as (c' & -> & _). destruct c' as [p|].
    + exists 4. eexists. split; [lia|]. cbn -[decide]. rewrite decide_False by done.
      cbn. rewrite Hu. split; [done|]. by destruct k.
    + exists 3. eexists. split; [lia|]. cbn -[decide].
      rewrite decide_False by (intros ->; by apply Hnf). cbn. rewrite Hu. split; [done|]. by destruct k.
  - destruct Ho as [-> _]. exists 3. eexists. split; [lia|]. cbn -[decide]. rewrite decide_False by done.
    cbn. rewrite Hu. split; [done|]. by destruct k.
  - exists 2. eexists. split; [lia|]. cbn. rewrite Hu. split; [done|]. by destruct k.
  - destruct Ho as [-> _]. exists 1. eexists. split; [lia|]. cbn. rewrite Hu. split; [done|]. by destruct k.
Qed.

Lemma supervised_one s : supervised s → size (running s) ≤ 1.
Proof.
  intros (g & _ & Ho).
  assert (∃ c, running s ⊆ process_of c) as [[pid|] Hr].
  { destruct g as [|p| |]; cbn [owned] in Ho.
    - destruct Ho as (c & _ & Hr). by exists c.
    - exists (Some p). apply Ho.
    - exists None. destruct Ho as [_ ->]. done.
    - exists None. destruct Ho as [_ ->]. done. }
  - cbn [process_of] in Hr. apply subseteq_size in Hr. by rewrite size_singleton in Hr.
  - cbn [process_of] in Hr. apply subseteq_size in Hr. rewrite size_empty in Hr. lia.
Qed.

(** C7. The collector is supervised for ever: in every state the goroutines, the ends of
    processes and calls of [Stop] can lead to after the first [Start], at most one collector
    runs and exactly one goroutine is in charge of it; that goroutine panics, which ends the
    pilot, exactly when filebeat could not be started; and otherwise, once no collector
    runs, it has started the next one within four of its turns, with one more watcher in
    the case of filebeat, since the earlier one goes on. *)
Theorem supervision s :
  reachable s →
  size (running s) ≤ 1 ∧ (∃ g, goroutines s = [g]) ∧
  (∀ spawn, turn 0 spawn s = Panic ↔ start_failed s) ∧
  ∀ pid, running s = ∅ → ¬ start_failed s →
    ∃ n s', n ≤ 4 ∧ turns n (inr pid) s = Ok s' ∧ running s' = {[pid]} ∧ cmd s' = Some (Some pid) ∧
      watchers s' = match k with KFilebeat => S (watchers s) | KFluentd => watchers s end.
Proof.
  intros Hs%reachable_supervised. split; [by apply supervised_one|]. split; [destruct Hs as (g & ? & _); by exists g|].
  split; [intros spawn; by apply turn_panics|]. intros pid. by apply supervised_restarts.
Qed.

End process.

(** Filebeat is started as process 7 and ends. *)
Lemma supervision_witness :
  let s := mkSup (Some (Some 7)) ∅ [GReady] 1 in
  reachable KFilebeat s ∧ ∃ n s', n ≤ 4 ∧ turns KFilebeat n (inr 8) s = Ok s' ∧ running s' = {[8]} ∧ watchers s' = 2.
Proof.
  intros s. assert (reachable KFilebeat s) as Hr.
  { exists (inr 7). apply (rtc_once (R := sup_step KFilebeat)).
    refine (eq_rect _ (sup_step KFilebeat _) (exit_step KFilebeat 7 _ _) _ _); [by_decide|]. vm_compute. reflexivity. }
  split; [exact Hr|].
  destruct (supervision KFilebeat s Hr) as (_ & _ & _ & H).
  destruct (H 8) as (n & s' & Hn & E & H1 & _ & H2); [reflexivity|intros (_ & _ & [=])|].
  by exists n, s'.
Defined.

(** ** Reloading *)

(** ** The two piloters *)

Definition filebeat_Start := Start KFilebeat.
Definition fluentd_Start := Start KFluentd.
Definition filebeat_Stop := Stop KFilebeat.
Definition fluentd_Stop := Stop KFluentd.

(** The command lines; a number of workers that is none is replaced. *)
Definition filebeat_command : list string := ["/usr/bin/filebeat"; "-c"; "/config/filebeat/filebeat.yml"].
Definition fluentd_command (getenv : string → string) : list string :=
  let worker := getenv "FLUENTD_WORKER" in
  let worker := if decide (worker = "" ∨ ParseInt64 worker = None) then "1" else worker in
  ["/usr/bin/fluentd"; "-c"; "/etc/fluentd/fluentd.conf"; "-p"; "/etc/fluentd/plugins"; "--workers"; worker].

(** The last argument of fluentd is always a number. *)
Lemma fluentd_command_workers getenv :
  ∃ worker, last (fluentd_command getenv) = Some worker ∧ is_Some (ParseInt64 worker) ∧
    (is_Some (ParseInt64 (getenv "FLUENTD_WORKER")) → worker = getenv "FLUENTD_WORKER").
Proof.
  eexists. split; [reflexivity|]. case_decide as Hw.
  - split; [by eexists|]. intros [z Hz]. destruct Hw as [Hw|Hw]; rewrite Hw in Hz; done.
  - split; [|done]. destruct (ParseInt64 _); [by eexists|tauto].
Qed.

(** [Reload] of the filebeat piloter does nothing. *)
Definition filebeat_Reload : outcome unit := Ok ().


Inductive reload_act := AShell (command : string) | AHup (pid : nat).

(** [Reload] of the fluentd piloter, [before] and [at_signal] being the variable when it
    is called and when the signal is sent; [sh] is what a command prints the first and the
    second time. The filebeat piloter does nothing. *)
Definition shell (out : string) : string := TrimSpace out.

Definition fluentd_Reload (sh : bool → string → string) (before at_signal : option Cmd) : outcome (list reload_act) :=
  match before with
  | None => Err "fluentd have not started"
  | Some None => Panic
  | Some (Some pid) =>
      let command := "pgrep -P " +:+ Itoa (Z.of_nat pid) in
      let childId := shell (sh false command) in
      match at_signal with
      | Some (Some now) =>
          let afterChildId := shell (sh true command) in
          Ok ([AShell command; AHup now; AShell command] ++
              if decide (childId = afterChildId) then [AShell ("kill -9 " +:+ childId)] else [])
      | _ => Panic
      end
  end.

(** [reload], which took the lock at [now] and whose [Reload] takes [took] nanoseconds:
    when it starts, and when it has ended, which is kept. Sleeping for a negative time is
    not sleeping. *)
Definition reload_interval : Z := 30 * 10 ^ 9.

Definition reload (now took lastReload : Z) : Z * Z :=
  let start := (now + Z.max 0 (i64 (reload_interval - i64 (now - lastReload))))%Z in (start, (start + took)%Z).

(** [doReload] for the requests it receives. *)
Fixpoint doReload (lastReload : Z) (requests : list (Z * Z)) : list (Z * Z) :=
  match requests with
  | [] => []
  | (now, took) :: requests =>
      let r := reload now took lastReload in r :: doReload r.2 requests
  end.

(** Requests are received one after another: the goroutine waits only between reloads. *)
Fixpoint received_after (lastReload : Z) (requests : list (Z * Z)) : Prop :=
  match requests with
  | [] => True
  | (now, took) :: requests =>
      (lastReload <= now ∧ now - lastReload < 2 ^ 62 ∧ 0 <= took)%Z ∧
      received_after (reload now took lastReload).2 requests
  end.

Lemma reload_waits now took lastReload :
  (lastReload <= now)%Z → (now - lastReload < 2 ^ 62)%Z →
  (reload now took lastReload).1 = Z.max now (lastReload + reload_interval).
Proof.
  intros H1 H2. unfold reload, reload_interval. cbn [fst].
  rewrite (i64_small (now - lastReload)) by (unfold in_i64; lia).
  rewrite i64_small by (unfold in_i64; lia). lia.
Qed.

(** Reloads are at least thirty seconds apart, however requests come in. *)
Theorem doReload_spaced lastReload requests i s1 e1 s2 e2 :
  received_after lastReload requests →
  doReload lastReload requests !! i = Some (s1, e1) → doReload lastReload requests !! S i = Some (s2, e2) →
  (s1 <= e1 ∧ e1 + reload_interval <= s2)%Z.
Proof.
  revert lastReload i. induction requests as [|[now took] rs IH]; intros lastReload i Hr E1 E2; [done|].
  destruct Hr as [(Hle & Hlt & Htook) Hr]. cbn [doReload] in E1, E2. destruct i as [|i].
  - cbn [lookup list_lookup] in E1. apply (inj Some) in E1. rewrite lookup_cons_ne_0 in E2 by done. cbn [pred] in E2.
    destruct rs as [|[now2 took2] rs]; [done|]. destruct Hr as [(Hle2 & Hlt2 & _) _].
    cbn [doReload lookup list_lookup] in E2. apply (inj Some) in E2.
    pose proof (reload_waits now2 took2 _ Hle2 Hlt2) as Hw. rewrite E2, E1 in Hw. cbn [fst snd] in Hw.
    unfold reload in E1. simplify_eq. lia.
  - by eapply IH.
Qed.

(** ** Starting the pilot *)

(** [New]: [parsed] and [client] are the errors of the template and of the Docker client. *)
Definition New (parsed client : option string) (conf : Config) (baseDir : string) (getenv : string → string)
    (fstat : string → stat_result) (fread : string → string + string) : outcome (PilotEnv * Piloter) :=
  match parsed with
  | Some e => Err e
  | None =>
      let getenv := if decide (getenv "DOCKER_API_VERSION" = "")
                    then λ n, if decide (n = "DOCKER_API_VERSION") then "1.23" else getenv n else getenv in
      match client with
      | Some e => Err e
      | None =>
          let! piloter := NewPiloter (Clients.PilotType conf) in
          let logPrefix := if decide (PilotLogPrefix conf = "") then ["cv"] else Split (PilotLogPrefix conf) "," in
          let createSymlink := bool_decide (getenv "PILOT_CREATE_SYMLINK" = "true") in
          Ok (mkPilotEnv baseDir logPrefix createSymlink (Clients.PilotType conf) getenv fstat fread, piloter)
      end
  end.

Section watch.
Context `{GoRange} (env : PilotEnv) (templ : Template).
#[local] Existing Instance FilebeatPiloter.

(** [watch] with the filebeat piloter: old configurations are removed, the collector is
    started, and then events, the pass over all containers and scans come in, until the
    stream of events ends. *)
Definition watch (flt : Faults) (spawn : string + nat) (inputs : list input) (w : World) (s : Sup)
    : outcome (World * Sup) :=
  match cleanConfigs flt w with
  | (_, Err e) => Err e
  | (_, Panic) => Panic
  | (w, Ok _) =>
      let serve s := let! w := run env templ (set_waiting true w) inputs in Ok (w, s) in
      match Start KFilebeat spawn s with
      | (_, Panic) => Panic
      | (s, Err e) => if decide (e ≠ ERR_ALREADY_STARTED) then Err e else serve s
      | (s, Ok _) => serve s
      end
  end.

Definition docker_of (i : input) : option Docker :=
  match i with IEvent docker _ _ _ | ISync docker _ => Some docker | _ => None end.

Definition faults_of (i : input) : option Faults :=
  match i with IEvent _ flt _ _ | ISync _ flt => Some flt | _ => None end.

(** A container that the daemon described while the inputs came in. *)
Definition described (inputs : list input) (c : ContainerJSON) : Prop :=
  ∃ i docker x, i ∈ inputs ∧ docker_of i = Some docker ∧ ContainerInspect docker x = inr c.

(** No write of a configuration fails. *)
Definition writes_ok (flt : Faults) : Prop := ∀ p, write_fault flt p = None.

(** Every configuration was rendered for a container among [Q]: the file holds the beginning
    of the text, and all of it when [whole]. *)
Definition rendered (whole : Prop) (Q : ContainerJSON → Prop) (w : World) : Prop :=
  ∀ id content, comp_ok (id +:+ ".yml") → files w !! GetConfPath id = Some (FReg content) →
    ∃ c text n, Q c ∧ ID c = id ∧ configured env templ c text ∧
      content = str_take n text ∧ (whole → content = text).

Lemma rendered_sub whole Q w w' :
  (∀ p f, files w' !! p = Some f → files w !! p = Some f) → rendered whole Q w → rendered whole Q w'.
Proof. intros Hf Hr id text Hok E. by apply (Hr id text Hok), Hf. Qed.

Lemma rendered_same whole Q w w' : files w' = files w → rendered whole Q w → rendered whole Q w'.
Proof. intros E. apply rendered_sub. by rewrite E. Qed.

Lemma newContainer_rendered (whole : Prop) Q docker flt c w :
  (whole → writes_ok flt) → Q c →
  rendered whole Q w → rendered whole Q (newContainer env templ docker flt c w).1.
Proof.
  intros Hok0 Hc Hr. destruct (newContainer env templ docker flt c w) as [w' r] eqn:E.
  apply newContainer_cases in E as [[(Hs & _) _]|(text & content & Hconf & Hf & _ & _ & Hres)].
  { by apply (rendered_same _ _ w). }
  intros id text' Hok. simpl. rewrite Hf. destruct (decide (ID c = id)) as [<-|Hne].
  - rewrite lookup_insert_eq. intros [= <-]. exists c, text.
    destruct Hres as [(_ & -> & _)|(err & n & _ & Hw & ->)].
    + exists (String.length text). split_and!; try done. by rewrite str_take_all.
    + exists n. split_and!; try done. intros Hwh. by rewrite (Hok0 Hwh) in Hw.
  - rewrite lookup_insert_ne by (by intros ?%(inj filebeat_GetConfPath)). by apply Hr.
Qed.

Lemma processEvent_rendered (whole : Prop) (Q : ContainerJSON → Prop) docker flt action id w :
  (whole → writes_ok flt) → (∀ x c, ContainerInspect docker x = inr c → Q c) →
  rendered whole Q w → rendered whole Q (processEvent env templ docker flt action id w).1.
Proof.
  intros Hok HQ Hr. unfold processEvent. case_decide.
  - destruct (exists_conf flt id w); [done|]. destruct (ContainerInspect docker id) as [|c] eqn:Ei; [done|].
    apply newContainer_rendered; [done|by eapply HQ|done].
  - case_decide; [|done]. apply (rendered_same _ _ w); [|done].
    unfold delContainer, OnDestroyEvent, feed. simpl. destruct (removeVolumeSymlink_same env flt id w) as (Hf & _).
    by case_match.
Qed.

Lemma process_list_rendered (whole : Prop) (Q : ContainerJSON → Prop) docker flt cs w :
  (whole → writes_ok flt) → (∀ x c, ContainerInspect docker x = inr c → Q c) →
  rendered whole Q w → rendered whole Q (process_list env templ docker flt cs w).1.
Proof.
  intros Hok HQ. revert w. induction cs as [|[cid state] cs IH]; intros w Hr; simpl; [done|].
  case_decide; [by apply IH|]. destruct (exists_conf flt cid w); [by apply IH|].
  destruct (ContainerInspect docker cid) as [|c] eqn:Ei; [by apply IH|].
  pose proof (newContainer_rendered whole Q docker flt c w Hok (HQ _ _ Ei) Hr) as Hn.
  destruct (newContainer env templ docker flt c w) as [w' []]; simpl in Hn; [by apply IH..|done].
Qed.

Lemma scan_removes senv flt w w' p f :
  scan env senv flt w = Ok w' → files w' !! p = Some f → files w !! p = Some f.
Proof.
  unfold scan. destruct (getRegsitryState senv) as [states|]; [|intros; by simplify_eq].
  intros E. eapply (ofold_inv (λ w', files w' !! p = Some f → files w !! p = Some f)); [|done|exact E].
  intros s c s' _ Hs Hstep Hp. apply Hs. destruct (decide (p = filebeat_GetConfPath c)) as [->|Hne].
  - apply scan_step_cases in Hstep as [(_ & ->)|[(_ & _ & _ & ->)|(-> & _)]]; [done| |done].
    cbn [set_watch set_files files] in Hp. by rewrite lookup_delete_eq in Hp.
  - rewrite <-Hp. symmetry. by eapply scan_step_others.
Qed.

Lemma run_input_rendered (whole : Prop) (Q : ContainerJSON → Prop) i w w' :
  (whole → ∀ flt, faults_of i = Some flt → writes_ok flt) →
  (∀ docker x c, docker_of i = Some docker → ContainerInspect docker x = inr c → Q c) →
  rendered whole Q w → run_input env templ w i = Ok w' → rendered whole Q w'.
Proof.
  intros Hok HQ Hr E. destruct i as [docker flt action id|docker flt|senv flt|]; simpl in *.
  - pose proof (processEvent_rendered whole Q docker flt action id w (λ h, Hok h flt eq_refl) (λ x c, HQ docker x c eq_refl) Hr) as Hp.
    destruct (processEvent _ _ _ _ _ _ _) as [w1 []]; simpl in *; [| |done]; by simplify_eq.
  - unfold processAllContainers in E. destruct (ContainerList docker) as [|cs]; simpl in E; [by simplify_eq|].
    pose proof (process_list_rendered whole Q docker flt cs w (λ h, Hok h flt eq_refl) (λ x c, HQ docker x c eq_refl) Hr) as Hp.
    destruct (process_list _ _ _ _ _ _) as [w1 []]; simpl in *; simplify_eq;
      (eapply rendered_same; [apply processSymlink_same|exact Hp]).
  - eapply rendered_sub; [|exact Hr]. intros p f. by apply (scan_removes senv flt).
  - simplify_eq. by apply (rendered_same _ _ w).
Qed.

End watch.

(** C8. A pilot that starts leaves nothing of the last one in service: whatever the
    directory held, and whatever events, passes, scans and failures follow, every
    configuration of a container that exists afterwards was rendered from the labels of
    that container as Docker described it during this run: the file holds the rendered
    text, or the beginning of it when writing the file failed half-way (such a file is not
    written again as long as it exists), and the whole text when no write of the run fails.
    The start goes through when no system call fails; when the collector cannot be started
    it fails with that error. *)
Theorem watch_renders `{GoRange} env templ flt spawn inputs w w' s' :
  (watch env templ flt spawn inputs w no_sup = Ok (w', s') →
    reachable KFilebeat s' ∧
    rendered env templ (∀ i f, i ∈ inputs → faults_of i = Some f → writes_ok f) (described inputs) w') ∧
  (flt = no_faults →
    let w0 := set_waiting true (cleanConfigs (H0 := FilebeatPiloter) flt w).1 in
    watch env templ flt spawn inputs w no_sup =
    match spawn with
    | inl e => if decide (e ≠ ERR_ALREADY_STARTED) then Err e
               else let! w1 := run env templ w0 inputs in Ok (w1, mkSup (Some None) ∅ [GReady] 1)
    | inr pid => let! w1 := run env templ w0 inputs in Ok (w1, mkSup (Some (Some pid)) {[pid]} [GReady] 1)
    end).
Proof.
  unfold watch. destruct (cleanConfigs flt w) as [w0 r] eqn:Ec.
  apply (cleanConfigs_spec (H0 := FilebeatPiloter)) in Ec as (_ & Hclean & Hnp & Hok). split.
  - destruct r as [[]|e|]; [|done..]. intros E.
    assert (∃ s1, Start KFilebeat spawn no_sup = (s1, (Start KFilebeat spawn no_sup).2) ∧
      obind (run env templ (set_waiting true w0) inputs) (λ w1, Ok (w1, s1)) = Ok (w', s')) as (s1 & E1 & E2).
    { destruct spawn as [e|pid]; cbn in E |- *; [case_decide; [done|]|]; by eauto. }
    apply obind_ok_inv in E2 as (w1 & Erun & [= <- <-]). split.
    + exists spawn. rewrite E1. apply rtc_refl.
    + eapply (ofold_inv (rendered env templ (∀ i f, i ∈ inputs → faults_of i = Some f → writes_ok f) (described inputs))); [| |exact Erun].
      * intros wa i wb Hi Hr Ei. eapply run_input_rendered; [|..|exact Hr|exact Ei]; [by intros Hall f; apply Hall|].
        intros docker x c Hd Hx. by exists i, docker, x.
      * intros id text Hid Ef. cbn [set_waiting files] in Ef.
        specialize (Hclean eq_refl (id +:+ ".yml") Hid).
        pose proof (eq_trans (eq_sym Hclean) Ef) as E0. by destruct (files w !! _) as [[]|] in E0.
  - intros ->. rewrite (Hok eq_refl).
    destruct spawn as [e|pid]; cbn; [done|]. by rewrite union_empty_r_L.
Qed.

Lemma watch_renders_witness :
  ∃ w' s', watch (H := range_sorted) demo_env demo_templ no_faults (inr 7)
      [IEvent demo_docker no_faults "start" "c0"] (one_conf "c9") no_sup = Ok (w', s') ∧
    files w' !! filebeat_GetConfPath "c9" = None ∧
    ∃ c, ID c = "c0" ∧ configured (H := range_sorted) (H0 := FilebeatPiloter) demo_env demo_templ c "c0:a,b".
Proof.
  destruct (watch (H := range_sorted) demo_env demo_templ no_faults (inr 7)
      [IEvent demo_docker no_faults "start" "c0"] (one_conf "c9") no_sup) as [[w' s']| |] eqn:E;
    [|vm_compute in E; discriminate..].
  exists w', s'. split; [reflexivity|].
  pose proof (watch_renders (H := range_sorted) demo_env demo_templ no_faults (inr 7)
    [IEvent demo_docker no_faults "start" "c0"] (one_conf "c9") w' s') as [Hr _].
  destruct (Hr E) as [_ Hren]. vm_compute in E. injection E as <- <-. split; [reflexivity|].
  destruct (Hren "c0" "c0:a,b") as (c & text & n & _ & Hc & Ht & _ & Hw); [by_decide|reflexivity|].
  exists c. split; [exact Hc|]. rewrite Hw; [exact Ht|].
  intros i f Hi Hf. apply list_elem_of_singleton in Hi as ->. injection Hf as <-. intros p. reflexivity.
Defined.
