(* ===== verification/StdCopy.v ===== *)
(** * The multiplexed docker log stream

    container_log/StuCopy.go: [stdWriter.Write] and [StdCopy], with [logMessage] of
    container_log/ConnectionManage.go and [LineConfound] of utils/Common.go.

    [StdCopy] keeps a growing buffer and reads whatever the source returns. The model
    keeps the valid part of the buffer and its size; the source is a list of read
    events, so that it may split and group bytes in any way an [io.Reader] may. The
    reference [demux] parses the bytes of the stream directly. *)

From S2P Require Import Prelude GoStrings GoIo.

(** ** Big-endian 32-bit integers *)

Definition PutUint32 (z : Z) : bytes :=
  [byte_of (z / 2 ^ 24); byte_of (z / 2 ^ 16); byte_of (z / 2 ^ 8); byte_of z].

Definition Uint32 (b : bytes) : Z :=
  match b with
  | [b0; b1; b2; b3] =>
      (byte_val b0 * 2 ^ 24 + byte_val b1 * 2 ^ 16 + byte_val b2 * 2 ^ 8 + byte_val b3)%Z
  | _ => 0
  end.

(** ** Writing a frame *)

Definition stdWriterPrefixLen : Z := 8.
Definition startingBufLen : Z := 32 * 1024 + stdWriterPrefixLen + 1.

Definition Stdin : Z := 0.
Definition Stdout : Z := 1.
Definition Stderr : Z := 2.
Definition Systemerr : Z := 3.

Definition frame (prefix : ascii) (p : bytes) : bytes :=
  [prefix; byte_of 0; byte_of 0; byte_of 0] ++ PutUint32 (u32 (blen p)) ++ p.

(** [None] for the writer is a nil receiver or a nil underlying writer, [None] for the
    buffer a nil slice. The last component is what reaches the underlying writer. *)
Definition stdWriter_Write (w : option Writer) (prefix : ascii) (p : option bytes)
    : Z * option string * option bytes :=
  match w with
  | None => (0%Z, Some "Writer not instantiated", None)
  | Some w =>
      match p with
      | None => (0%Z, None, None)
      | Some p =>
          let buf := frame prefix p in
          let '(n, err) := w buf in
          (Z.max 0 (n - stdWriterPrefixLen), err, Some buf)
      end
  end.

(** A writer with the prefix of a stream; [t] is one byte. *)
Record stdWriter := mkStdWriter { sw_Writer : option Writer; sw_prefix : ascii }.
Definition NewStdWriter (w : option Writer) (t : Z) : stdWriter := mkStdWriter w (byte_of t).

(** ** Reading *)

Inductive fill_result :=
| Full (buf : bytes) (src : list read_event)
| Short
| Failed (e : string).

(** [for nr < need { ... src.Read(buf[nr:]) ... }] with [bufLen = len(buf)]. *)
Fixpoint fill (fuel : nat) (need bufLen : Z) (buf : bytes) (src : list read_event) : fill_result :=
  if (blen buf <? need)%Z then
    match fuel with
    | O => Short
    | S fuel' =>
        match Read (Z.to_nat (bufLen - blen buf)) src with
        | (b, EOF, src') =>
            if (blen (buf ++ b) <? need)%Z then Short else Full (buf ++ b) src'
        | (_, RErr e, _) => Failed e
        | (b, NoErr, src') => fill fuel' need bufLen (buf ++ b) src'
        end
    end
  else Full buf src.

(** ** Copying *)

(** The bytes written, the error, and the frames given to [outFun] and [dstout]. *)
Record copy_result := mkCopy { written : Z; copy_err : option string; frames : list bytes }.

Definition frame_header (buf : bytes) : Z * Z :=
  (default 0%Z (byte_val <$> (buf !! 0)), Uint32 (take 4 (drop 4 buf))).

Fixpoint copy_loop (fuel : nat) (dst : Writer) (bufLen : Z) (buf : bytes) (src : list read_event)
    (wr : Z) (out : list bytes) : copy_result :=
  match fuel with
  | O => mkCopy wr None out
  | S fuel' =>
      match fill (S (src_size src)) stdWriterPrefixLen bufLen buf src with
      | Short => mkCopy wr None out
      | Failed e => mkCopy 0 (Some e) out
      | Full buf src =>
          let '(stream, frameSize) := frame_header buf in
          if (Systemerr <? stream)%Z
          then mkCopy 0 (Some ("Unrecognized input header: " +:+ Itoa stream)) out
          else
            let need := (frameSize + stdWriterPrefixLen)%Z in
            let bufLen := if (bufLen <? need)%Z then (need + 1)%Z else bufLen in
            match fill (S (src_size src)) need bufLen buf src with
            | Short => mkCopy wr None out
            | Failed e => mkCopy 0 (Some e) out
            | Full buf src =>
                let l := take (Z.to_nat frameSize) (drop 8 buf) in
                if (stream =? Systemerr)%Z
                then mkCopy wr (Some ("error from daemon in stream: " +:+ string_of_list_ascii l)) out
                else
                  let out := out ++ [l] in
                  match dst l with
                  | (_, Some ew) => mkCopy 0 (Some ew) out
                  | (nw, None) =>
                      if negb (nw =? frameSize)%Z then mkCopy 0 (Some "short write") out
                      else copy_loop fuel' dst bufLen (drop (Z.to_nat need) buf) src
                             (i64 (wr + nw)) out
                  end
            end
      end
  end.

(** One round of the loop consumes at least a header. *)
Definition StdCopy (dst : Writer) (src : list read_event) : copy_result :=
  copy_loop (S (src_size src)) dst startingBufLen [] src 0 [].

(** ** The reference: parsing the bytes of the stream *)

Definition at_end (fin : option string) (wr : Z) (out : list bytes) : copy_result :=
  match fin with
  | None => mkCopy wr None out
  | Some e => mkCopy 0 (Some e) out
  end.

Fixpoint demux (fuel : nat) (dst : Writer) (d : bytes) (fin : option string)
    (wr : Z) (out : list bytes) : copy_result :=
  match fuel with
  | O => at_end fin wr out
  | S fuel' =>
      if (blen d <? 8)%Z then at_end fin wr out else
      let '(stream, size) := frame_header d in
      if (Systemerr <? stream)%Z
      then mkCopy 0 (Some ("Unrecognized input header: " +:+ Itoa stream)) out
      else if (blen d <? size + 8)%Z then at_end fin wr out
      else
        let l := take (Z.to_nat size) (drop 8 d) in
        if (stream =? Systemerr)%Z
        then mkCopy wr (Some ("error from daemon in stream: " +:+ string_of_list_ascii l)) out
        else
          match dst l with
          | (_, Some ew) => mkCopy 0 (Some ew) (out ++ [l])
          | (nw, None) =>
              if negb (nw =? size)%Z then mkCopy 0 (Some "short write") (out ++ [l])
              else demux fuel' dst (drop (Z.to_nat (size + 8)) d) fin (i64 (wr + nw)) (out ++ [l])
          end
  end.

(** ** [StdCopy] is the reference, however the source splits its bytes *)

(** What [fill] does: it reaches [need] bytes; or the source ends before; or it fails, and
    then the last bytes, which came with the error, do not count. *)
Lemma fill_spec fuel need bufLen buf src :
  src_size src < fuel → (need ≤ bufLen)%Z → (blen buf ≤ bufLen)%Z →
  match fill fuel need bufLen buf src with
  | Short => (stream_of src).2 = None ∧ (blen (buf ++ (stream_of src).1) < need)%Z
  | Failed e => ∃ d lost, stream_of src = (d ++ lost, Some e) ∧ lost `suffix_of` with_err src ∧
      (blen (buf ++ d) < need)%Z
  | Full buf' src' =>
      buf' ++ (stream_of src').1 = buf ++ (stream_of src).1 ∧ (stream_of src').2 = (stream_of src).2 ∧
      with_err src' `suffix_of` with_err src ∧ (need <= blen buf' <= bufLen)%Z
  end.
Proof.
  revert buf src. induction fuel as [|fuel IH]; intros buf src Hfuel Hneed Hbuf; [lia|].
  cbn [fill]. destruct (Z.ltb_spec (blen buf) need) as [Hlt|Hge]; [|by split_and!; [..|lia|lia]].
  assert (∃ room, room = Z.to_nat (bufLen - blen buf) ∧ 1 ≤ room ∧
            Z.of_nat room = (bufLen - blen buf)%Z) as (room & <- & Hroom & Hroomz).
  { clear IH. eexists. split; [done|]. lia. }
  assert (∀ b src', length b ≤ room → src_size src' < src_size src →
    stream_of src = (b ++ (stream_of src').1, (stream_of src').2) → with_err src' `suffix_of` with_err src →
    match fill fuel need bufLen (buf ++ b) src' with
    | Short => (stream_of src).2 = None ∧ (blen (buf ++ (stream_of src).1) < need)%Z
    | Failed e => ∃ d lost, stream_of src = (d ++ lost, Some e) ∧ lost `suffix_of` with_err src ∧
        (blen (buf ++ d) < need)%Z
    | Full buf' src' =>
        buf' ++ (stream_of src').1 = buf ++ (stream_of src).1 ∧ (stream_of src').2 = (stream_of src).2 ∧
        with_err src' `suffix_of` with_err src ∧ (need <= blen buf' <= bufLen)%Z
    end) as Hgo.
  { intros b src' Hb Hsz Hst Hwe. specialize (IH (buf ++ b) src' ltac:(lia) Hneed).
    specialize (IH ltac:(rewrite blen_app; unfold blen in *; lia)). rewrite Hst. cbn [fst snd].
    destruct (fill fuel need bufLen (buf ++ b) src') as [buf2 src2| |e].
    - destruct IH as (E1 & E2 & E3 & E4). rewrite E1, <-app_assoc. split_and!; try done; [by etrans|lia..].
    - destruct IH as [E1 E2]. rewrite <-app_assoc in E2. by split.
    - destruct IH as (d & lost & E1 & E2 & E3). exists (b ++ d), lost. rewrite E1. cbn [fst snd].
      rewrite <-!app_assoc in *. split_and!; [done|by etrans|done]. }
  clear IH. destruct src as [|[b|b|b e] src]; cbn [Read].
  - rewrite app_nil_r, (proj2 (Z.ltb_lt _ _) Hlt). cbn [stream_of fst snd]. by rewrite app_nil_r.
  - case_decide as Hfit.
    + apply Hgo; [done|simpl; lia| |done]. cbn [stream_of]. by destruct (stream_of src).
    + apply Hgo; [rewrite length_take; lia|cbn [src_size]; rewrite length_drop; lia| |done].
      cbn [stream_of]. destruct (stream_of src). cbn [fst snd]. by rewrite app_assoc, take_drop.
  - case_decide as Hfit.
    + destruct (Z.ltb_spec (blen (buf ++ b)) need); [done|]. cbn [stream_of fst snd with_err].
      rewrite app_nil_r. split_and!; try done. rewrite blen_app. unfold blen in *. lia.
    + apply Hgo; [rewrite length_take; lia|cbn [src_size]; rewrite length_drop; lia| |done].
      cbn [stream_of fst snd]. by rewrite take_drop.
  - case_decide as Hfit.
    + exists [], b. rewrite app_nil_r. by split_and!.
    + apply Hgo; [rewrite length_take; lia|cbn [src_size]; rewrite length_drop; lia| |].
      * cbn [stream_of fst snd]. by rewrite take_drop.
      * cbn [with_err]. exists (take room b). by rewrite take_drop.
Qed.

Lemma Uint32_nonneg b : (0 <= Uint32 b)%Z.
Proof.
  destruct b as [|b0 [|b1 [|b2 [|b3 [|]]]]]; simpl; try lia.
  pose proof (byte_val_range b0). pose proof (byte_val_range b1).
  pose proof (byte_val_range b2). pose proof (byte_val_range b3). lia.
Qed.

(** The header is in the first eight bytes. *)
Lemma frame_header_app buf d : (8 <= blen buf)%Z → frame_header (buf ++ d) = frame_header buf.
Proof.
  unfold blen, frame_header. intros H. do 8 (destruct buf as [|? buf]; [simpl in H; lia|]). done.
Qed.

(** One round of the reference: too few bytes, or a frame [hd] with the rest behind it. *)
Lemma demux_short fuel dst d fin wr out :
  (blen d < 8)%Z → demux fuel dst d fin wr out = at_end fin wr out.
Proof. intros Hd. destruct fuel; [done|]. cbn [demux]. by rewrite (proj2 (Z.ltb_lt _ _) Hd). Qed.

Lemma demux_header fuel dst d fin wr out stream size :
  (8 <= blen d)%Z → length d < fuel → frame_header d = (stream, size) →
  ∃ fuel', fuel = S fuel' ∧ demux fuel dst d fin wr out =
    if (Systemerr <? stream)%Z
    then mkCopy 0 (Some ("Unrecognized input header: " +:+ Itoa stream)) out
    else if (blen d <? size + 8)%Z then at_end fin wr out
    else
      let l := take (Z.to_nat size) (drop 8 d) in
      if (stream =? Systemerr)%Z
      then mkCopy wr (Some ("error from daemon in stream: " +:+ string_of_list_ascii l)) out
      else match dst l with
        | (_, Some ew) => mkCopy 0 (Some ew) (out ++ [l])
        | (nw, None) =>
            if negb (nw =? size)%Z then mkCopy 0 (Some "short write") (out ++ [l])
            else demux fuel' dst (drop (Z.to_nat (size + 8)) d) fin (i64 (wr + nw)) (out ++ [l])
        end.
Proof.
  intros Hd Hf Eh. destruct fuel as [|fuel]; [lia|]. exists fuel. split; [done|]. cbn [demux].
  by rewrite (proj2 (Z.ltb_ge _ _)), Eh by lia.
Qed.

(** [res] is what parsing [data] gives, or parsing it without some of the bytes [we] at its end. *)
Definition parsed (dst : Writer) (fin : option string) (we data : bytes) (wr : Z) (out : list bytes)
    (res : copy_result) : Prop :=
  ∃ d lost, data = d ++ lost ∧ lost `suffix_of` we ∧
    ∀ fuel, length d < fuel → res = demux fuel dst d fin wr out.

Lemma parsed_all dst fin we data wr out res :
  (∀ fuel, length data < fuel → res = demux fuel dst data fin wr out) → parsed dst fin we data wr out res.
Proof. intros Hres. exists data, []. rewrite app_nil_r. split_and!; [done|apply suffix_nil|done]. Qed.

(** A frame in front: its header says how long it is. *)
Lemma parsed_frame dst fin we hd rest wr out stream size res :
  frame_header hd = (stream, size) → blen hd = (size + 8)%Z → (0 <= size)%Z → (Systemerr <? stream)%Z = false →
  let l := drop 8 hd in
  (if (stream =? Systemerr)%Z
   then res = mkCopy wr (Some ("error from daemon in stream: " +:+ string_of_list_ascii l)) out
   else match dst l with
     | (_, Some ew) => res = mkCopy 0 (Some ew) (out ++ [l])
     | (nw, None) =>
         if negb (nw =? size)%Z then res = mkCopy 0 (Some "short write") (out ++ [l])
         else parsed dst fin we rest (i64 (wr + nw)) (out ++ [l]) res
     end) →
  parsed dst fin we (hd ++ rest) wr out res.
Proof.
  intros Eh Hlen Hs Hsys l Hres.
  assert (∀ d fuel, length (hd ++ d) < fuel → ∃ fuel', fuel = S fuel' ∧
    demux fuel dst (hd ++ d) fin wr out =
      if (stream =? Systemerr)%Z
      then mkCopy wr (Some ("error from daemon in stream: " +:+ string_of_list_ascii l)) out
      else match dst l with
        | (_, Some ew) => mkCopy 0 (Some ew) (out ++ [l])
        | (nw, None) =>
            if negb (nw =? size)%Z then mkCopy 0 (Some "short write") (out ++ [l])
            else demux fuel' dst d fin (i64 (wr + nw)) (out ++ [l])
        end) as Hdem.
  { intros d fuel Hf. destruct (demux_header fuel dst (hd ++ d) fin wr out stream size) as (fuel' & -> & ->);
      [rewrite blen_app; unfold blen in *; lia|done|rewrite frame_header_app by lia; done|].
    exists fuel'. split; [done|]. rewrite Hsys, (proj2 (Z.ltb_ge _ _)) by (rewrite blen_app; unfold blen in *; lia).
    cbv zeta. rewrite drop_app_le by (unfold blen in *; lia). fold l.
    assert (take (Z.to_nat size) (l ++ d) = l) as ->.
    { apply take_app_length'. unfold l, blen in *. rewrite length_drop. lia. }
    rewrite (drop_app_length' hd) by (unfold blen in *; lia). done. }
  destruct (stream =? Systemerr)%Z.
  { apply parsed_all. intros fuel Hf. by destruct (Hdem _ _ Hf) as (? & _ & ->). }
  destruct (dst l) as [nw [ew|]]; [|destruct (negb (nw =? size)%Z)];
    [apply parsed_all; intros fuel Hf; by destruct (Hdem _ _ Hf) as (? & _ & ->)..|].
  destruct Hres as (d & lost & -> & E2 & E3). exists (hd ++ d), lost. rewrite app_assoc. split_and!; [done..|].
  intros fuel Hf. destruct (Hdem d fuel Hf) as (fuel' & -> & ->). apply E3. rewrite length_app in Hf.
  unfold blen in *. lia.
Qed.

(** The loop parses what it has in its buffer and what the source gives, but for some of the
    bytes that come with an error. *)
Lemma copy_loop_parsed dst fuel : ∀ bufLen buf src wr out,
  (startingBufLen <= bufLen)%Z → (blen buf <= bufLen)%Z → length (buf ++ (stream_of src).1) < fuel →
  parsed dst (stream_of src).2 (with_err src) (buf ++ (stream_of src).1) wr out
    (copy_loop fuel dst bufLen buf src wr out).
Proof.
  induction fuel as [|fuel IH]; intros bufLen buf src wr out Hbl Hbuf Hf; [lia|].
  cbn [copy_loop]. unfold startingBufLen, stdWriterPrefixLen in *.
  pose proof (fill_spec (S (src_size src)) 8 bufLen buf src ltac:(lia) ltac:(lia) Hbuf) as Hfill.
  destruct (fill _ 8 bufLen buf src) as [buf1 src1| |e].
  2:{ destruct Hfill as [Hfin Hlt]. apply parsed_all. intros fuel2 _. by rewrite demux_short, Hfin. }
  2:{ destruct Hfill as (d & lost & Hst & Hl & Hlt). rewrite Hst. cbn [fst snd]. exists (buf ++ d), lost.
      rewrite app_assoc. split_and!; [done..|]. intros fuel2 _. by rewrite demux_short. }
  destruct Hfill as (Hd & <- & Hw1 & Hb1). rewrite <-Hd in Hf |- *. clear Hd.
  destruct (frame_header buf1) as [stream size] eqn:Eh.
  assert (0 <= size)%Z as Hsize by (injection Eh as _ <-; apply Uint32_nonneg).
  assert (∀ d fuel2, length (buf1 ++ d) < fuel2 → (8 <= blen (buf1 ++ d))%Z ∧
    frame_header (buf1 ++ d) = (stream, size)) as Hhd.
  { intros d fuel2 _. rewrite frame_header_app by lia. split; [rewrite blen_app; unfold blen in *; lia|done]. }
  destruct (Systemerr <? stream)%Z eqn:Esys.
  { apply parsed_all. intros fuel2 Hf2. destruct (Hhd _ _ Hf2) as [H8 Eh2].
    destruct (demux_header fuel2 dst _ (stream_of src1).2 wr out _ _ H8 Hf2 Eh2) as (? & _ & ->). by rewrite Esys. }
  set (bufLen2 := if (bufLen <? size + 8)%Z then (size + 8 + 1)%Z else bufLen).
  assert (bufLen <= bufLen2 ∧ size + 8 <= bufLen2)%Z as [Hb2 Hn2].
  { unfold bufLen2. destruct (Z.ltb_spec bufLen (size + 8)); lia. }
  assert (∀ d, (blen (buf1 ++ d) < size + 8)%Z → ∀ fuel2, length (buf1 ++ d) < fuel2 →
    demux fuel2 dst (buf1 ++ d) (stream_of src1).2 wr out = at_end (stream_of src1).2 wr out) as Hshort.
  { intros d Hlt fuel2 Hf2. destruct (Hhd _ _ Hf2) as [H8 Eh2].
    destruct (demux_header fuel2 dst _ (stream_of src1).2 wr out _ _ H8 Hf2 Eh2) as (? & _ & ->).
    by rewrite Esys, (proj2 (Z.ltb_lt _ _) Hlt). }
  pose proof (fill_spec (S (src_size src1)) (size + 8) bufLen2 buf1 src1 ltac:(lia) Hn2 ltac:(lia)) as Hfill.
  destruct (fill _ (size + 8) bufLen2 buf1 src1) as [buf2 src2| |e].
  2:{ destruct Hfill as [Hfin Hlt]. apply parsed_all. intros fuel2 Hf2. by rewrite Hshort, Hfin. }
  2:{ destruct Hfill as (d & lost & Hst & Hl & Hlt). rewrite Hst in Hshort |- *. cbn [fst snd] in *.
      exists (buf1 ++ d), lost. rewrite app_assoc. split_and!; [done|by etrans|]. intros fuel2 Hf2. by rewrite Hshort. }
  destruct Hfill as (Hd2 & <- & Hw2 & Hb3). clear Hshort Hhd.
  assert (Z.to_nat (size + 8) ≤ length buf2) as Hle by (unfold blen in *; lia).
  assert (frame_header buf2 = (stream, size)) as Eh2.
  { rewrite <-(frame_header_app buf2 (stream_of src2).1), Hd2, frame_header_app by lia. done. }
  rewrite <-Hd2 in Hf |- *. clear Hd2. set (hd := take (Z.to_nat (size + 8)) buf2).
  assert (buf2 = hd ++ drop (Z.to_nat (size + 8)) buf2) as Hb by (unfold hd; by rewrite take_drop).
  assert (length hd = Z.to_nat (size + 8)) as Hhl by (unfold hd; rewrite length_take; lia).
  assert (take (Z.to_nat size) (drop 8 buf2) = drop 8 hd) as ->.
  { rewrite Hb at 1. rewrite drop_app_le by lia. apply take_app_length'. rewrite length_drop. lia. }
  rewrite Hb at 1. rewrite <-app_assoc.
  apply (parsed_frame _ _ _ hd _ _ _ stream size); [|unfold blen; lia|done|done|].
  { rewrite Hb, frame_header_app in Eh2 by (unfold blen; lia). done. }
  destruct (stream =? Systemerr)%Z; [done|]. destruct (dst (drop 8 hd)) as [nw [ew|]]; [done|].
  destruct (negb (nw =? size)%Z); [done|].
  destruct (IH bufLen2 (drop (Z.to_nat (size + 8)) buf2) src2 (i64 (wr + nw)) (out ++ [drop 8 hd]))
    as (d & lost & E1 & E2 & E3); [lia|unfold blen in *; rewrite length_drop; lia|rewrite !length_app, length_drop in *; lia|].
  exists d, lost. split_and!; [done| |done]. by do 2 (etrans; [|done]).
Qed.

Lemma StdCopy_stream dst src :
  ∃ d lost, (stream_of src).1 = d ++ lost ∧ lost `suffix_of` with_err src ∧
    StdCopy dst src = demux (S (length d)) dst d (stream_of src).2 0 [].
Proof.
  unfold StdCopy. pose proof (stream_size src).
  destruct (copy_loop_parsed dst (S (src_size src)) startingBufLen [] src 0 []) as (d & lost & E1 & E2 & E3);
    [done|unfold startingBufLen, stdWriterPrefixLen, blen; simpl; lia|simpl; lia|].
  exists d, lost. split_and!; [done..|]. apply E3. lia.
Qed.

(** A source that gives no bytes together with its error. *)
Lemma StdCopy_clean dst src :
  with_err src = [] →
  StdCopy dst src = demux (S (length (stream_of src).1)) dst (stream_of src).1 (stream_of src).2 0 [].
Proof.
  intros Hw. destruct (StdCopy_stream dst src) as (d & lost & E1 & E2 & ->). rewrite Hw in E2.
  apply suffix_nil_inv in E2 as ->. by rewrite E1, app_nil_r.
Qed.

(** C5: [StdCopy] parses the byte stream, however the source cuts it into reads (empty
    reads, several frames per read, frames larger than the buffer, [io.EOF] together with
    data): it delivers the frames and returns the count and the error of parsing the bytes
    directly; in particular it always returns. Bytes that a read returns together with an
    error other than [io.EOF] are the exception: it returns at once, and does not look at
    some or all of them. Without such bytes, two sources that give the same bytes and end
    the same way have the same result. *)
Theorem StdCopy_refines_demux dst src :
  (∃ d lost, (stream_of src).1 = d ++ lost ∧ lost `suffix_of` with_err src ∧
     StdCopy dst src = demux (S (length d)) dst d (stream_of src).2 0 []) ∧
  (with_err src = [] →
     StdCopy dst src =
       demux (S (length (stream_of src).1)) dst (stream_of src).1 (stream_of src).2 0 [] ∧
     ∀ src', with_err src' = [] → stream_of src' = stream_of src → StdCopy dst src' = StdCopy dst src).
Proof.
  split; [apply StdCopy_stream|]. intros Hw. split; [by apply StdCopy_clean|].
  intros src' Hw' E. by rewrite !StdCopy_clean, E by done.
Qed.

(** ** Round trip of the multiplexing *)

Lemma Uint32_Put z : in_u32 z → Uint32 (PutUint32 z) = z.
Proof.
  unfold in_u32, Uint32, PutUint32. intros Hz. rewrite !byte_val_of.
  pose proof (Z.div_mod z 256 ltac:(lia)) as H0.
  pose proof (Z.div_mod (z / 256) 256 ltac:(lia)) as H1.
  pose proof (Z.div_mod (z / 256 / 256) 256 ltac:(lia)) as H2.
  rewrite !Z.div_div in * by lia.
  assert (z / (256 * 256 * 256) < 256)%Z by (apply Z.div_lt_upper_bound; lia).
  assert (0 <= z / (256 * 256 * 256))%Z by (apply Z.div_pos; lia).
  change (2 ^ 24)%Z with (256 * 256 * 256)%Z. change (2 ^ 16)%Z with (256 * 256)%Z.
  change (2 ^ 8)%Z with 256%Z.
  rewrite (Z.mod_small (z / (256 * 256 * 256)) 256) by lia. lia.
Qed.

Lemma length_frame t p : length (frame t p) = 8 + length p.
Proof. done. Qed.

Lemma frame_header_frame t p rest :
  in_u32 (blen p) → frame_header (frame t p ++ rest) = (byte_val t, blen p).
Proof.
  intros Hp. unfold frame_header, frame. simpl. f_equal.
  change ([byte_of (u32 (blen p) / 16777216); byte_of (u32 (blen p) / 65536);
           byte_of (u32 (blen p) / 256); byte_of (u32 (blen p))]) with (PutUint32 (u32 (blen p))).
  rewrite u32_small by done. by apply Uint32_Put.
Qed.

(** Accepts everything, as [ioutil.Discard]. *)
Definition Discard : Writer := λ l, (blen l, None).

(** A frame a log producer writes: stdin, stdout or stderr, with a 32-bit size. *)
Definition good_frame (f : ascii * bytes) : Prop :=
  (byte_val f.1 < Systemerr)%Z ∧ in_u32 (blen f.2).

Definition mux (fs : list (ascii * bytes)) : bytes := concat ((λ f, frame f.1 f.2) <$> fs).

Definition total (fs : list (ascii * bytes)) : Z := foldl (λ n f, i64 (n + blen f.2)) 0%Z fs.

(** Fewer bytes than a header announces: the end of a connection cut short. *)
Definition incomplete (tail : bytes) : Prop :=
  (blen tail < 8)%Z ∨
  ((frame_header tail).1 <= Systemerr ∧ blen tail < (frame_header tail).2 + 8)%Z.

Lemma demux_frame fuel t p rest fin wr out :
  good_frame (t, p) →
  demux (S fuel) Discard (frame t p ++ rest) fin wr out =
  demux fuel Discard rest fin (i64 (wr + blen p)) (out ++ [p]).
Proof.
  intros [Ht Hp]. simpl in Ht, Hp. cbn [demux].
  assert (blen (frame t p ++ rest) = 8 + blen p + blen rest)%Z as Hlen.
  { rewrite blen_app. unfold blen. rewrite length_frame. lia. }
  destruct (Z.ltb_spec (blen (frame t p ++ rest)) 8); [unfold blen in *; lia|].
  rewrite frame_header_frame by done.
  rewrite (proj2 (Z.ltb_ge _ _)) by lia.
  destruct (Z.ltb_spec (blen (frame t p ++ rest)) (blen p + 8)); [unfold blen in *; lia|].
  rewrite (proj2 (Z.eqb_neq _ _)) by lia.
  assert (take (Z.to_nat (blen p)) (drop 8 (frame t p ++ rest)) = p) as ->.
  { unfold blen. rewrite Nat2Z.id. change (drop 8 (frame t p ++ rest)) with (p ++ rest).
    apply take_app_length. }
  unfold Discard at 1. rewrite Z.eqb_refl. cbn [negb]. f_equal.
  unfold blen. rewrite Z2Nat.inj_add, Nat2Z.id by lia.
  apply (drop_app_length' (frame t p)). rewrite length_frame. lia.
Qed.

Lemma demux_incomplete fuel dst d fin wr out :
  incomplete d → demux fuel dst d fin wr out = at_end fin wr out.
Proof.
  intros Hd. destruct fuel as [|fuel]; [done|]. cbn [demux].
  destruct (Z.ltb_spec (blen d) 8) as [|Hge]; [done|]. destruct Hd as [?|[Hs Hl]]; [lia|].
  destruct (frame_header d) as [stream size]. simpl in Hs, Hl.
  rewrite (proj2 (Z.ltb_ge _ _)) by lia. by rewrite (proj2 (Z.ltb_lt _ _)) by lia.
Qed.

Lemma demux_mux fs : ∀ fuel tail fin wr out,
  Forall good_frame fs → incomplete tail → length fs < fuel →
  demux fuel Discard (mux fs ++ tail) fin wr out =
  at_end fin (foldl (λ n f, i64 (n + blen f.2)) wr fs) (out ++ fs.*2).
Proof.
  induction fs as [|[t p] fs IH]; intros fuel tail fin wr out Hf Ht Hl.
  - simpl. rewrite app_nil_r. by apply demux_incomplete.
  - destruct fuel as [|fuel]; simpl in Hl; [lia|]. apply Forall_cons in Hf as [Hg Hf].
    change (mux ((t, p) :: fs) ++ tail) with ((frame t p ++ mux fs) ++ tail).
    rewrite <-app_assoc. rewrite demux_frame by done.
    rewrite IH by (done || lia). by rewrite <-app_assoc.
Qed.

Lemma mux_length fs : length fs ≤ length (mux fs).
Proof.
  induction fs as [|[t p] fs IH]; [done|].
  change (mux ((t, p) :: fs)) with (frame t p ++ mux fs). rewrite length_app, length_frame. simpl. lia.
Qed.

(** C6: what the writers multiplex, [StdCopy] takes apart: if the source delivers (in
    any pieces) the frames written for stdin, stdout and stderr, the frames come out
    one by one, in order and with their exact contents, the count is their total size
    and there is no error. A frame cut short at the end is dropped silently. *)
Theorem StdCopy_mux fs tail src :
  Forall good_frame fs → incomplete tail → stream_of src = (mux fs ++ tail, None) →
  StdCopy Discard src = mkCopy (total fs) None fs.*2.
Proof.
  intros Hf Ht Hs. rewrite StdCopy_clean, Hs by (apply with_err_eof; by rewrite Hs). cbn [fst snd].
  rewrite demux_mux; [done..|]. pose proof (mux_length fs). rewrite length_app. lia.
Qed.

(** Two frames, the second of which comes with a failure: it is not delivered. *)
Definition demo_failing : list read_event :=
  [RChunk (frame (byte_of Stdout) (str_elems "ab")); RFail (frame (byte_of Stdout) (str_elems "c")) "reset"].

Lemma StdCopy_refines_demux_witness :
  StdCopy Discard demo_failing = mkCopy 0 (Some "reset") [str_elems "ab"] ∧
  (∃ d lost, (stream_of demo_failing).1 = d ++ lost ∧ lost `suffix_of` with_err demo_failing ∧
     StdCopy Discard demo_failing = demux (S (length d)) Discard d (Some "reset") 0 []) ∧
  StdCopy Discard (take 1 demo_failing) = demux 11 Discard (frame (byte_of Stdout) (str_elems "ab")) None 0 [].
Proof.
  split; [vm_compute; reflexivity|]. split.
  - exact (proj1 (StdCopy_refines_demux Discard demo_failing)).
  - exact (proj1 (proj2 (StdCopy_refines_demux Discard (take 1 demo_failing)) eq_refl)).
Defined.

(** The multiplexing writer reports how many bytes of the payload were written:
    the underlying count less the header, never negative; a full write of the frame
    reports the payload's length, and the bytes written are the frame. *)
Lemma stdWriter_Write_count w prefix p :
  (w (frame prefix p) = (blen (frame prefix p), None) →
     stdWriter_Write (Some w) prefix (Some p) = (blen p, None, Some (frame prefix p))) ∧
  (∀ n e b, stdWriter_Write (Some w) prefix (Some p) = (n, e, b) → (0 <= n)%Z) ∧
  stdWriter_Write (Some w) prefix None = (0%Z, None, None) ∧
  stdWriter_Write None prefix (Some p) = (0%Z, Some "Writer not instantiated", None).
Proof.
  unfold stdWriter_Write. split_and!; [|..|done|done].
  - intros ->. f_equal. f_equal. unfold blen, stdWriterPrefixLen. rewrite length_frame. lia.
  - intros n e b. destruct (w (frame prefix p)) as [n0 e0]. intros. simplify_eq. lia.
Qed.

(** ** Log messages *)

(** [rand.Intn(zzLen - 1)] and [rand.Intn(lens - 2)], the draws of round [i]. *)
Definition zz : string := "#^()abc=defg123898TUVWXYZ*<>_".

Record Draws := mkDraws { draw_s : nat → nat; draw_is : nat → nat }.

Definition draws_ok (lens : nat) (r : Draws) : Prop :=
  ∀ i, draw_s r i < String.length zz - 1 ∧ (lens > 2 → draw_is r i < lens - 2).

(** [bytes.LastIndexByte(line, '\r')]. *)
Fixpoint LastIndexByte (line : bytes) (c : ascii) : option nat :=
  match line with
  | [] => None
  | a :: line' =>
      match LastIndexByte line' c with
      | Some i => Some (S i)
      | None => if decide (a = c) then Some 0 else None
      end
  end.

Definition carriage_return : ascii := ascii_of_nat 13.

(** [append(line[:is+1], append([]byte{zz[s]}, line[is+1:]...)...)], panicking when
    a slice bound is out of range. *)
Definition confound_step (r : Draws) (i : nat) (line : bytes) : outcome bytes :=
  let idx := draw_is r i in
  match str_elems zz !! draw_s r i with
  | None => Panic
  | Some z =>
      if decide (idx + 1 ≤ length line)
      then Ok (take (idx + 1) line ++ [z] ++ drop (idx + 1) line) else Panic
  end.

Definition LineConfound (LineMaxSize : Z) (r : Draws) (line : bytes) (rsb : bool) : outcome bytes :=
  let line :=
    if rsb then
      match LastIndexByte line carriage_return with
      | Some rIndex => if decide (0 < rIndex) then drop (rIndex + 1) line else line
      | None => line
      end
    else line in
  let lens := length line in
  if (LineMaxSize <? Z.of_nat lens)%Z
  then ofold (λ line i, confound_step r i line) line (seq 0 (lens / 600))
  else Ok line.

Definition LOG_MESSAGE : bytes := str_elems "1000".
Definition space : ascii := " "%char.

Definition logMessage (LineMaxSize : Z) (r : Draws) (message : bytes) : outcome bytes :=
  let body := match message with
              | c :: (_ :: _) as rest => if decide (c = space) then rest else message
              | _ => message
              end in
  let! l := LineConfound LineMaxSize r body false in
  Ok (LOG_MESSAGE ++ l).

Lemma confound_rounds r lens line0 n start line :
  draws_ok lens r → lens > 2 → line0 `sublist_of` line → head line0 = head line →
  lens ≤ length line →
  ∃ line', ofold (λ line i, confound_step r i line) line (seq start n) = Ok line' ∧
    line0 `sublist_of` line' ∧ head line0 = head line' ∧ length line' = length line + n.
Proof.
  intros Hr Hl. revert start line. induction n as [|n IH]; intros start line Hsub Hhd Hlen; simpl.
  { exists line. split_and!; done || lia. }
  destruct (Hr start) as [Hs Hi]. specialize (Hi Hl). unfold confound_step at 1.
  destruct (str_elems zz !! draw_s r start) as [z|] eqn:Ez.
  2:{ apply lookup_ge_None in Ez. change (length (str_elems zz)) with (String.length zz) in Ez. lia. }
  rewrite decide_True by lia. simpl.
  set (k := draw_is r start + 1) in *.
  destruct (IH (S start) (take k line ++ z :: drop k line)) as (line' & Hf & H1 & H2 & H3).
  - etrans; [exact Hsub|]. rewrite (take_drop_split k line) at 1. apply sublist_insert_middle.
  - rewrite Hhd. destruct line as [|a line]; simpl in *; [lia|].
    unfold k. by rewrite Nat.add_1_r.
  - rewrite length_app. simpl. rewrite length_take, length_drop. lia.
  - exists line'. split_and!; try done. rewrite H3, length_app. simpl.
    rewrite length_take, length_drop. lia.
Qed.

(** A log message is the log tag followed by the frame (less one leading blank,
    when the frame is longer than that) into which only extra bytes are inserted:
    one per 600 bytes of a line over the size limit, none otherwise. No byte is lost,
    moved or overwritten, the first byte stays first, and the slicing never panics. *)
Theorem logMessage_spec LineMaxSize r message :
  let body := if decide (1 < length message ∧ head message = Some space)
              then tail message else message in
  draws_ok (length body) r →
  ∃ l, logMessage LineMaxSize r message = Ok (LOG_MESSAGE ++ l) ∧
    body `sublist_of` l ∧ head body = head l ∧
    length l = length body + if (LineMaxSize <? Z.of_nat (length body))%Z
                             then length body / 600 else 0.
Proof.
  intros body Hr.
  assert (logMessage LineMaxSize r message =
            let! l := LineConfound LineMaxSize r body false in Ok (LOG_MESSAGE ++ l)) as ->.
  { unfold logMessage, body. destruct message as [|c [|c2 m]]; [by rewrite decide_False by (simpl; intros []; lia)..|].
    destruct (decide (c = space)) as [->|Hc].
    - rewrite decide_True; [done|]. simpl. split; [lia|done].
    - rewrite decide_False; [done|]. simpl. intros [_ [= ->]]. done. }
  clearbody body. unfold LineConfound. destruct (LineMaxSize <? Z.of_nat (length body))%Z.
  2:{ exists body. split_and!; done || lia. }
  destruct (decide (2 < length body)) as [H2|H2].
  - destruct (confound_rounds r (length body) body (length body / 600) 0 body) as (l & -> & ?);
      [done..|]. by exists l.
  - assert (length body / 600 = 0) as -> by (apply Nat.div_small; lia). exists body. simpl.
    split_and!; done || lia.
Qed.

(** ** Witnesses *)

Lemma StdCopy_mux_witness :
  StdCopy Discard [RChunk (take 3 (frame (ascii_of_nat 1) (str_elems "hi")));
                   RChunk []; RLast (drop 3 (frame (ascii_of_nat 1) (str_elems "hi")) ++ str_elems "cut")]
  = mkCopy 2 None [str_elems "hi"].
Proof.
  apply (StdCopy_mux [(ascii_of_nat 1, str_elems "hi")] (str_elems "cut")).
  - repeat constructor; vm_compute; intuition discriminate.
  - left. reflexivity.
  - reflexivity.
Defined.

Lemma logMessage_spec_witness :
  ∃ l, logMessage 2 (mkDraws (λ _, 0) (λ _, 0)) (str_elems " abc") = Ok (LOG_MESSAGE ++ l) ∧
       str_elems "abc" `sublist_of` l.
Proof.
  destruct (logMessage_spec 2 (mkDraws (λ _, 0) (λ _, 0)) (str_elems " abc")) as (l & Hl & Hs & _).
  - intros i. vm_compute. lia.
  - exists l. split; [exact Hl|]. exact Hs.
Defined.
