(* ===== verification/Connection.v ===== *)
(** * Log connections: batching messages to a websocket

    container_log/ConnectionManage.go: [write], [writeMid], [flush], [onClose],
    [destroy] and the two goroutines of [watch].

    The first part runs the operations one after another, the channel send handing the
    message to the writer goroutine. The second part is a step relation for the
    interleaving of a flush with the writer goroutine, both of which take the mutex. *)

From S2P Require Import Prelude GoStrings.

(** ** State and operations *)

Record Conn := mkConn {
  msgCache : gmap string bytes;
  sendingFlag : bool;
  timeAfter : bool;        (** a pending timer that will call [flush(true)] *)
  closed : bool;
  monitorClosed : bool;
  registered : bool;       (** still in [connectHub] *)
  sent : list bytes        (** received by the writer goroutine, in order *)
}.

Definition new_conn : Conn := mkConn ∅ false false false false true [].

(** The first four bytes of a message are its kind. *)
Definition kind (m : bytes) : string := string_of_list_ascii (take 4 m).
Definition payload (m : bytes) : bytes := drop 4 m.

Definition writeMid (message : bytes) (c : Conn) : Conn :=
  if closed c then c
  else mkConn (msgCache c) (sendingFlag c) (timeAfter c) (closed c) (monitorClosed c)
         (registered c) (sent c ++ [message]).

(** [message[0:4]] panics on a shorter message. *)
Definition write (message : bytes) (c : Conn) : outcome Conn :=
  if decide (length message < 4) then Panic else
  let cacheKey := kind message in
  let cache := match msgCache c !! cacheKey with
               | Some cached => <[cacheKey := cached ++ payload message]> (msgCache c)
               | None => <[cacheKey := message]> (msgCache c)
               end in
  Ok (mkConn cache true (if sendingFlag c then timeAfter c else true)
        (closed c) (monitorClosed c) (registered c) (sent c)).

Definition flush `{GoRange} (c : Conn) : Conn :=
  if closed c
  then mkConn (msgCache c) false (timeAfter c) (closed c) (monitorClosed c) (registered c) (sent c)
  else mkConn ∅ false (timeAfter c) (closed c) (monitorClosed c) (registered c)
         (sent c ++ (go_range (msgCache c)).*2).

Definition timer_fires `{GoRange} (c : Conn) : Conn :=
  if timeAfter c
  then flush (mkConn (msgCache c) (sendingFlag c) false (closed c) (monitorClosed c)
                (registered c) (sent c))
  else c.

(** [LogMonitor.Close], [cancel] and [destroy(c.Id)]. *)
Definition onClose (c : Conn) : Conn :=
  if closed c then c
  else mkConn (msgCache c) (sendingFlag c) (timeAfter c) true true false (sent c).

Inductive op :=
| OWrite (m : bytes)
| OMid (m : bytes)
| OTimer
| OFlush
| OClose.

#[global] Instance op_eq_dec : EqDecision op.
Proof. solve_decision. Defined.

Definition apply_op `{GoRange} (c : Conn) (o : op) : outcome Conn :=
  match o with
  | OWrite m => write m c
  | OMid m => Ok (writeMid m c)
  | OTimer => Ok (timer_fires c)
  | OFlush => Ok (flush c)        (* the tail's own flush, while nothing else runs *)
  | OClose => Ok (onClose c)
  end.

(** ** No message is lost, duplicated or reordered within its kind *)

Definition payloads (k : string) (ms : list bytes) : bytes :=
  concat (payload <$> filter (λ m, kind m = k) ms).

Definition written_by (k : string) (o : op) : bytes :=
  match o with
  | OWrite m => if decide (kind m = k) then payload m else []
  | _ => []
  end.

Definition cached (k : string) (c : Conn) : bytes :=
  match msgCache c !! k with Some m => payload m | None => [] end.

(** The cache files each entry under its kind, and while the connection is open a
    non-empty cache has a timer that will flush it. *)
Definition conn_inv (c : Conn) : Prop :=
  (∀ k m, msgCache c !! k = Some m → kind m = k ∧ 4 ≤ length m) ∧
  (closed c = false → msgCache c ≠ ∅ → sendingFlag c = true) ∧
  (sendingFlag c = true → timeAfter c = true).

Lemma payloads_app k l1 l2 : payloads k (l1 ++ l2) = payloads k l1 ++ payloads k l2.
Proof. unfold payloads. by rewrite filter_app, fmap_app, concat_app. Qed.

Lemma payloads_nil k l : (∀ m, m ∈ l → kind m ≠ k) → payloads k l = [].
Proof.
  unfold payloads. induction l as [|m l IH]; intros Hl; [done|].
  rewrite filter_cons_False by (apply Hl; constructor). apply IH. intros m' Hm'. apply Hl. by constructor.
Qed.

Lemma kind_app m p : 4 ≤ length m → kind (m ++ p) = kind m.
Proof. intros Hm. unfold kind. by rewrite take_app_le. Qed.

Section conservation.
Context `{GoRange}.

(** Flushing sends, of each kind, what was cached of it. *)
Lemma payloads_cache k c :
  conn_inv c → payloads k (go_range (msgCache c)).*2 = cached k c.
Proof.
  intros (Hkind & _). unfold cached.
  pose proof (NoDup_go_range_keys (msgCache c)) as Hnd.
  pose proof (elem_of_go_range (msgCache c)) as Hin. revert Hnd Hin.
  generalize (go_range (msgCache c)) as l. intros l Hnd Hin.
  destruct (msgCache c !! k) as [m|] eqn:Ek.
  - apply Hin in Ek. apply list_elem_of_split in Ek as (l1 & l2 & ->).
    rewrite fmap_app, fmap_cons in Hnd. rewrite fmap_app, fmap_cons. apply NoDup_app in Hnd as (_ & Hno & Hnd2).
    apply NoDup_cons in Hnd2 as [Hno2 _]. simpl in Hno, Hno2.
    assert (∀ k' m', (k', m') ∈ l1 ++ (k, m) :: l2 → kind m' = k') as Hk.
    { intros k' m' Hm%Hin. by apply Hkind in Hm as [? _]. }
    rewrite payloads_app, payloads_nil, app_nil_l.
    2:{ intros m' ([k' m''] & -> & Hm)%list_elem_of_fmap. simpl.
        rewrite (Hk k') by (apply elem_of_app; by left). intros ->.
        apply (Hno k); [apply list_elem_of_fmap; by exists (k, m'')|constructor]. }
    assert (kind m = k) as Hm by (apply (Hk k); apply elem_of_app; right; constructor).
    change ((k, m).2 :: l2.*2) with ([m] ++ l2.*2). rewrite payloads_app, (payloads_nil k l2.*2), app_nil_r.
    2:{ intros m' ([k' m''] & -> & Hm')%list_elem_of_fmap. simpl.
        rewrite (Hk k') by (apply elem_of_app; right; by constructor). intros ->.
        apply Hno2. apply list_elem_of_fmap. by exists (k, m''). }
    unfold payloads. rewrite filter_cons_True by done. simpl. by rewrite app_nil_r.
  - apply payloads_nil. intros m ([k' m'] & -> & Hm%Hin)%list_elem_of_fmap. simpl. intros <-.
    apply Hkind in Hm as Hm'. destruct Hm' as [E _]. congruence.
Qed.

Lemma write_inv m c c' : conn_inv c → write m c = Ok c' → conn_inv c'.
Proof.
  intros (Hk & Hs & Ht) E. unfold write in E. case_decide; [done|]. injection E as <-.
  split_and!; simpl; [|done|].
  - intros k m'. destruct (msgCache c !! kind m) as [m0|] eqn:E0.
    + apply Hk in E0 as [E0 Hl]. intros [[<- <-]|[_ ?]]%lookup_insert_Some; [|by apply Hk].
      rewrite kind_app, length_app by done. split; [done|lia].
    + intros [[<- <-]|[_ ?]]%lookup_insert_Some; [|by apply Hk]. split; [done|lia].
  - intros _. destruct (sendingFlag c) eqn:Ef; auto.
Qed.

Lemma flush_inv c : conn_inv c → conn_inv (flush c).
Proof.
  intros (Hk & Hs & Ht). unfold flush. destruct (closed c) eqn:Ec; by split_and!.
Qed.

Lemma apply_op_inv c o c' : conn_inv c → apply_op c o = Ok c' → conn_inv c'.
Proof.
  intros Hinv E. destruct o as [m|m| | |]; simpl in E; [by eapply write_inv|..]; obind_inv.
  - unfold writeMid. destruct (closed c) eqn:Ec; [done|]. destruct Hinv as (Hk & Hs & Ht).
    split_and!; simpl; auto.
  - unfold timer_fires. destruct (timeAfter c) eqn:Et; [|done].
    destruct Hinv as (Hk & Hs & Ht). unfold flush. simpl.
    destruct (closed c) eqn:Ec; by split_and!.
  - by apply flush_inv.
  - unfold onClose. destruct (closed c) eqn:Ec; [done|]. destruct Hinv as (Hk & Hs & Ht). by split_and!.
Qed.

(** One operation moves payload of kind [k] from the writers towards the socket. *)
Lemma apply_op_conserves k c o c' :
  conn_inv c → (∀ m, o = OMid m → kind m ≠ k) → apply_op c o = Ok c' →
  payloads k (sent c') ++ cached k c' = payloads k (sent c) ++ cached k c ++ written_by k o.
Proof.
  intros Hinv Hmid E. destruct o as [m|m| | |]; simpl in E |- *; rewrite ?app_nil_r.
  - unfold write in E. case_decide; [done|]. injection E as <-. unfold cached. simpl. f_equal.
    destruct (decide (kind m = k)) as [<-|Hk].
    + destruct (msgCache c !! kind m) as [m0|] eqn:E0; rewrite lookup_insert_eq; [|done].
      destruct Hinv as (Hki & _). apply Hki in E0 as [_ Hl].
      unfold payload. by rewrite drop_app_le.
    + rewrite app_nil_r. destruct (msgCache c !! kind m); by rewrite lookup_insert_ne.
  - obind_inv. unfold writeMid. destruct (closed c); [done|]. simpl. unfold cached. simpl. f_equal.
    rewrite payloads_app, (payloads_nil k [m]), app_nil_r; [done|].
    intros m' ->%list_elem_of_singleton. by eapply Hmid.
  - obind_inv. unfold timer_fires. destruct (timeAfter c); [|done]. unfold flush. simpl.
    destruct (closed c); [done|]. simpl. unfold cached at 1. simpl. rewrite lookup_empty, app_nil_r.
    by rewrite payloads_app, payloads_cache.
  - obind_inv. unfold flush. destruct (closed c); [done|]. simpl.
    unfold cached at 1. simpl. rewrite lookup_empty, app_nil_r. by rewrite payloads_app, payloads_cache.
  - obind_inv. unfold onClose. by destruct (closed c).
Qed.

End conservation.

Lemma conn_inv_new : conn_inv new_conn.
Proof. by split_and!. Qed.

(** C14: for every sequence of writes, flushes, timer expiries and a close, and every
    order in which the cache is flushed, the payload of a kind that was handed to the
    websocket followed by what is still cached of it is exactly what was written of
    it, in order (for a kind not also sent by [writeMid], which overtakes the cache);
    and while the connection is open a non-empty cache has a pending timer. *)
Theorem connection_conserves `{GoRange} (ops : list op) c k :
  ofold apply_op new_conn ops = Ok c →
  (∀ m, OMid m ∈ ops → kind m ≠ k) →
  payloads k (sent c) ++ cached k c = concat (written_by k <$> ops) ∧
  (closed c = false → msgCache c ≠ ∅ → timeAfter c = true).
Proof.
  intros E Hmid.
  assert (∀ c0 c, conn_inv c0 → ofold apply_op c0 ops = Ok c →
    payloads k (sent c) ++ cached k c =
      (payloads k (sent c0) ++ cached k c0) ++ concat (written_by k <$> ops) ∧ conn_inv c) as Hgen.
  { clear E. induction ops as [|o ops IH]; intros c0 c1 Hinv E; simpl in E.
    { obind_inv. by rewrite app_nil_r. }
    apply obind_ok_inv in E as (c2 & E1 & E2).
    destruct (IH (λ m Hm, Hmid m (list_elem_of_further _ _ _ Hm)) c2 c1) as [-> Hinv1];
      [by eapply apply_op_inv|done|].
    split; [|done]. rewrite (apply_op_conserves k c0 o c2); [|done| |done].
    - simpl. by rewrite <-!app_assoc.
    - intros m ->. apply Hmid. constructor. }
  destruct (Hgen new_conn c conn_inv_new E) as [-> (_ & Hs & Ht)]. split; [done|]. auto.
Qed.

(** ** A flush and the writer goroutine *)

(** The timer goroutine in [flush(true)]. *)
Inductive flusher := FWantLock (ms : list bytes) | FSending (ms : list bytes) | FDone.

(** The writer goroutine of [watch]: waiting in [select], inside [WriteMessage], waiting
    for the mutex in [onClose], returned. *)
Inductive writer := WSelect | WWriting (m : bytes) | WWantClose | WReturned.

Inductive owner := OFlusher | ONobody.

Record Sched := mkSched {
  fl : flusher;
  wr : writer;
  mutex : owner;
  is_closed : bool;    (** [closed], and the context cancelled *)
  delivered : list bytes
}.

Inductive sched_step : Sched → Sched → Prop :=
| step_lock ms w d :
    sched_step (mkSched (FWantLock ms) w ONobody false d) (mkSched (FSending ms) w OFlusher false d)
| step_lock_closed ms w d :
    sched_step (mkSched (FWantLock ms) w ONobody true d) (mkSched FDone w ONobody true d)
| step_send m ms c d :
    sched_step (mkSched (FSending (m :: ms)) WSelect OFlusher c d)
               (mkSched (FSending ms) (WWriting m) OFlusher c d)
| step_unlock w c d :
    sched_step (mkSched (FSending []) w OFlusher c d) (mkSched FDone w ONobody c d)
| step_write_ok f m o c d :
    sched_step (mkSched f (WWriting m) o c d) (mkSched f WSelect o c (d ++ [m]))
| step_write_err f m o c d :
    sched_step (mkSched f (WWriting m) o c d) (mkSched f WWantClose o c d)
| step_close f c d :
    sched_step (mkSched f WWantClose ONobody c d) (mkSched f WSelect ONobody true d)
| step_return f o d :
    sched_step (mkSched f WSelect o true d) (mkSched f WReturned o true d).

Definition flush_starts (ms : list bytes) : Sched := mkSched (FWantLock ms) WSelect ONobody false [].

Definition stuck (s : Sched) : Prop := ∀ s', ¬ sched_step s s'.

(** The flusher owns the mutex exactly while it sends, and then the connection is open
    and the writer goroutine has not returned. *)
Definition sched_inv (s : Sched) : Prop :=
  match fl s with
  | FSending _ => mutex s = OFlusher ∧ is_closed s = false ∧ wr s ≠ WReturned
  | _ => mutex s = ONobody ∧ (is_closed s = false → wr s ≠ WReturned)
  end.

Lemma sched_inv_step s s' : sched_inv s → sched_step s s' → sched_inv s'.
Proof.
  intros Hinv Hstep. destruct Hstep; unfold sched_inv in *; simpl in *; try naive_solver;
    destruct f; naive_solver.
Qed.

Lemma sched_inv_reach ms s : rtc sched_step (flush_starts ms) s → sched_inv s.
Proof.
  assert (∀ s0 s, rtc sched_step s0 s → sched_inv s0 → sched_inv s) as Hgen.
  { intros s0 s1 Hr. induction Hr as [|x y z Hs Hr IH]; [done|]. intros Hx.
    apply IH. by eapply sched_inv_step. }
  intros Hr. eapply Hgen; [exact Hr|]. done.
Qed.

(** C34: the flush and the writer goroutine block each other for good in exactly one
    way: a message of a batch fails to be written while the flush, holding the mutex,
    still has messages to send; the writer then waits for the mutex in [onClose] and the
    flush for the writer. Every batch of two or more messages can reach that state, and
    no other reachable state is stuck before the flush has finished. *)
Theorem flush_deadlock ms :
  (∀ m1 m2 rest, ms = m1 :: m2 :: rest →
     ∃ s, rtc sched_step (flush_starts ms) s ∧ stuck s ∧ fl s = FSending (m2 :: rest)) ∧
  (∀ s, rtc sched_step (flush_starts ms) s → stuck s → fl s ≠ FDone →
     wr s = WWantClose ∧ ∃ m rest, fl s = FSending (m :: rest)).
Proof.
  split.
  - intros m1 m2 rest ->. exists (mkSched (FSending (m2 :: rest)) WWantClose OFlusher false []).
    split_and!; [|by intros s' Hs; inversion Hs|done].
    eapply rtc_l; [apply step_lock|]. eapply rtc_l; [apply step_send|].
    eapply rtc_l; [apply step_write_err|]. apply rtc_refl.
  - intros s Hr Hst Hne. apply sched_inv_reach in Hr as Hinv. destruct s as [f w o c d].
    unfold sched_inv in Hinv. simpl in *. destruct f as [ms'|ms'|]; [| |done].
    + destruct Hinv as [-> _]. destruct c; [destruct (Hst _ (step_lock_closed ms' w d))|].
      destruct (Hst _ (step_lock ms' w d)).
    + destruct Hinv as (-> & -> & Hw). destruct ms' as [|m ms'].
      { destruct (Hst _ (step_unlock w false d)). }
      destruct w as [|m'| |]; [|..|by eauto|done].
      * destruct (Hst _ (step_send m ms' false d)).
      * destruct (Hst _ (step_write_ok (FSending (m :: ms')) m' OFlusher false d)).
Qed.

(** ** Witnesses *)

Lemma connection_conserves_witness :
  ∃ c, ofold (apply_op (H := range_sorted)) new_conn
         [OWrite (str_elems "1000ab"); OWrite (str_elems "1100x"); OTimer; OWrite (str_elems "1000c")]
       = Ok c ∧ payloads "1000" (sent c) ++ cached "1000" c = str_elems "abc".
Proof.
  eexists. split; [vm_compute; reflexivity|].
  apply (connection_conserves (H := range_sorted)
    [OWrite (str_elems "1000ab"); OWrite (str_elems "1100x"); OTimer; OWrite (str_elems "1000c")]).
  - vm_compute. reflexivity.
  - intros m Hm. repeat (apply elem_of_cons in Hm as [Hm|Hm]; [discriminate Hm|]).
    by apply elem_of_nil in Hm.
Defined.
