(* ===== verification/Quota.v ===== *)
(** * Project quotas of directories

    quota/ProjectQuota.go: [Control] with [SetDirQuota], [GetDirQuota], [ReleaseDir],
    [GetNodeSpaceInfo], [GetImageDiskQuotaInfo], [setProjectID], [getProjectID],
    [setProjectQuota], [hasQuotaSupport], [findNextProjectID], [updateMinProjID],
    [getRealPath], [FindRealPath], [GetXFSMount] and the second half of [NewControl].

    The state holds the memory of the controller ([quotas], the next project id) and
    what the kernel keeps: the directories with their project ids and the limits of the
    projects. System calls that fail do so by an oracle, which also says what the kernel
    makes of a limit it is given (XFS rounds it up to whole blocks of the file system)
    and what a failing [os.RemoveAll] could not remove. *)

From S2P Require Import Prelude GoStrings GoPath.

(** ** State *)

Record Control := mkControl {
  backingFsBlockDev : string;
  prefixPath : string;
  relBasePath : string;
  basePath : string
}.

Inductive qnode := QDir (projid : Z) | QFile.

#[global] Instance qnode_eq_dec : EqDecision qnode.
Proof. solve_decision. Defined.

Record QState := mkQState {
  quotas : gmap string Z;
  nextProjectID : Z;
  nodes : gmap string qnode;
  limits : gmap Z Z        (** hard limit of a project, in blocks of 512 bytes *)
}.

Definition set_quotas (m : gmap string Z) (s : QState) : QState :=
  mkQState m (nextProjectID s) (nodes s) (limits s).
Definition set_next (n : Z) (s : QState) : QState :=
  mkQState (quotas s) n (nodes s) (limits s).
Definition set_nodes (m : gmap string qnode) (s : QState) : QState :=
  mkQState (quotas s) (nextProjectID s) m (limits s).
Definition set_limits (m : gmap Z Z) (s : QState) : QState :=
  mkQState (quotas s) (nextProjectID s) (nodes s) m.

(** The kernel: which calls fail ([os.RemoveAll] with the entries that stay, as it
    removes what it can), the project id a new directory inherits, the blocks a project
    uses, the limit it keeps for a limit it is given, and what it reports of a project
    no limit was set for (XFS has no record of it, or one without limit). *)
Record Kernel := mkKernel {
  k_stat_err : string → bool;
  k_mkdir_err : string → bool;
  k_open_err : string → bool;
  k_getx_err : string → bool;
  k_setx_err : string → bool;
  k_setlim_err : Z → bool;
  k_getlim_err : Z → bool;
  k_remove_err : string → option (string * (string → bool));
  k_inherit : string → Z;
  k_bcount : Z → Z;
  k_round : Z → Z;
  k_unset : Z → option Z
}.

Record QuotaInfo := mkQuotaInfo { Path : string; QuotaSize : Z; UsedSpace : Z }.

(** ** Paths *)

Definition getRealPath (c : Control) (targetPath : string) : string :=
  ReplaceOnce (PathJoin ["/"; targetPath]) (basePath c) (relBasePath c).

(** ** System calls *)

Definition openDir (k : Kernel) (s : QState) (p : string) : bool :=
  match nodes s !! p with
  | Some (QDir _) => negb (k_open_err k p)
  | _ => false
  end.

Definition setProjectID (k : Kernel) (targetPath : string) (projectID : Z) (s : QState)
    : outcome QState :=
  if negb (openDir k s targetPath) then Err ("failed to open dir: " +:+ targetPath)
  else if k_getx_err k targetPath then Err ("failed to get projid for " +:+ targetPath)
  else if k_setx_err k targetPath then Err ("failed to set projid for " +:+ targetPath)
  else Ok (set_nodes (<[targetPath := QDir (u32 projectID)]> (nodes s)) s).

Definition getProjectID (k : Kernel) (s : QState) (targetPath : string) : outcome Z :=
  if negb (openDir k s targetPath) then Err ("failed to open dir: " +:+ targetPath)
  else if k_getx_err k targetPath then Err ("failed to get projid for " +:+ targetPath)
  else match nodes s !! targetPath with
       | Some (QDir projid) => Ok projid
       | _ => Err ("failed to open dir: " +:+ targetPath)
       end.

Definition setProjectQuota (k : Kernel) (dev : string) (projectID size : Z) (s : QState)
    : outcome QState :=
  if k_setlim_err k projectID
  then Err ("failed to set quota limit for projid " +:+ Itoa projectID +:+ " on " +:+ dev)
  else Ok (set_limits (<[projectID := k_round k (size / 512)]> (limits s)) s).

(** [os.MkdirAll]: the missing directories of the path appear, unless something on the
    way is not a directory or the call fails (the code ignores the failure). *)
Definition mkdir_step (k : Kernel) (acc : option (gmap string qnode)) (p : string)
    : option (gmap string qnode) :=
  m ← acc;
  match m !! p with
  | Some (QDir _) => Some m
  | Some QFile => None
  | None => Some (<[p := QDir (k_inherit k p)]> m)
  end.

Fixpoint ancestors (acc ws : list string) : list string :=
  match ws with
  | [] => []
  | w :: ws' => abs_path (acc ++ [w]) :: ancestors (acc ++ [w]) ws'
  end.

Definition MkdirAll (k : Kernel) (p : string) (s : QState) : QState :=
  if k_mkdir_err k p then s
  else match foldl (mkdir_step k) (Some (nodes s)) (ancestors [] (path_words p)) with
       | Some m => set_nodes m s
       | None => s
       end.

(** ** Operations *)

Definition SetDirQuota (c : Control) (k : Kernel) (targetPath : string) (size : Z) (s : QState)
    : QState * outcome unit :=
  let p := getRealPath c targetPath in
  let found := quotas s !! p in
  let stat_ok := negb (k_stat_err k p) && bool_decide (is_Some (nodes s !! p)) in
  let stat_missing := negb (k_stat_err k p) && bool_decide (nodes s !! p = None) in
  let is_file := bool_decide (nodes s !! p = Some QFile) in
  let s := if stat_missing then MkdirAll k p s else s in
  if stat_ok && is_file then (s, Err (targetPath +:+ " is not dir")) else
  match found with
  | Some projectID =>
      match setProjectQuota k (backingFsBlockDev c) projectID size s with
      | Ok s' => (s', Ok ())
      | Err e => (s, Err e)
      | Panic => (s, Panic)
      end
  | None =>
      let projectID := nextProjectID s in
      match setProjectID k p projectID s with
      | Err e => (s, Err e)
      | Panic => (s, Panic)
      | Ok s =>
          let s := set_next (u32 (nextProjectID s + 1)) s in
          let s := set_quotas (<[p := projectID]> (quotas s)) s in
          match setProjectQuota k (backingFsBlockDev c) projectID size s with
          | Ok s' => (s', Ok ())
          | Err e => (s, Err e)
          | Panic => (s, Panic)
          end
      end
  end.

Definition quota_not_found (targetPath : string) : string :=
  "quota not found for path: " +:+ targetPath.

Definition GetDirQuota (c : Control) (k : Kernel) (s : QState) (targetPath : string)
    : outcome QuotaInfo :=
  let p := getRealPath c targetPath in
  match quotas s !! p with
  | None => Err (quota_not_found targetPath)
  | Some projectID =>
      if negb (k_stat_err k p) && bool_decide (nodes s !! p = None)
      then Err (quota_not_found targetPath)
      else
        match limits s !! projectID ∪ k_unset k projectID with
        | Some hard =>
            if k_getlim_err k projectID
            then Err ("Failed to get quota limit for projid " +:+ Itoa projectID)
            else Ok (mkQuotaInfo targetPath (u64 (hard * 512)) (u64 (k_bcount k projectID * 512)))
        | None => Err ("Failed to get quota limit for projid " +:+ Itoa projectID)
        end
  end.

(** The paths at or below [p]. *)
Definition below (p q : string) : Prop := path_words p `prefix_of` path_words q.

#[global] Instance below_dec p q : Decision (below p q).
Proof. unfold below. apply _. Defined.

Definition ReleaseDir (c : Control) (k : Kernel) (targetPath : string) (s : QState)
    : QState * outcome unit :=
  let p := getRealPath c targetPath in
  match quotas s !! p with
  | None => (s, Err (quota_not_found targetPath))
  | Some _ =>
      if decide (Dir targetPath ≠ basePath c)
      then (s, Err ("can not release path: " +:+ targetPath))
      else match k_remove_err k p with
           | Some (e, stays) =>
               (set_nodes (filter (λ kv, ¬ below p kv.1 ∨ stays kv.1 = true) (nodes s)) s, Err e)
           | None => (set_nodes (filter (λ kv, ¬ below p kv.1) (nodes s)) s, Ok ())
           end
  end.

(** [syscall.Statfs] gives blocks, available blocks and the block size. *)
Record Statfs_t := mkStatfs { Blocks : Z; Bavail : Z; Bsize : Z }.

Definition GetNodeSpaceInfo (c : Control) (statfs : string → string + Statfs_t)
    (targetPath : string) : outcome QuotaInfo :=
  match statfs (getRealPath c targetPath) with
  | inl err => Err ("Error getting filesystem stats:" +:+ err)
  | inr st =>
      let available := u64 (Bavail st * Bsize st) in
      let total := u64 (Blocks st * Bsize st) in
      Ok (mkQuotaInfo targetPath total (u64 (total - available)))
  end.

Definition updateMinProjID (minProjectID : Z) (s : QState) : QState :=
  if (nextProjectID s <=? minProjectID)%Z then set_next (u32 (minProjectID + 1)) s else s.

(** The entries of a directory, sorted by name. *)
Definition ReadDir `{GoRange} (s : QState) (dir : string) : list (string * bool) :=
  (λ n, (n, match nodes s !! PathJoin [dir; n] with Some (QDir _) => true | _ => false end)) <$>
  merge_sort String.le
    (omap (λ p, if decide (Dir p = dir ∧ p ≠ dir) then Some (Base p) else None) (go_range (nodes s)).*1).

Definition checkProjID (k : Kernel) (p : string) (s : QState) : outcome (QState * Z) :=
  let! projid := getProjectID k s p in
  let s := if (0 <? projid)%Z then set_quotas (<[p := projid]> (quotas s)) s else s in
  let s := if (nextProjectID s <=? projid)%Z then set_next (u32 (projid + 1)) s else s in
  Ok (s, projid).

Definition scan_sub (k : Kernel) (dir : string) (s : QState) (e : string * bool) : outcome QState :=
  if e.2 then let! r := checkProjID k (PathJoin [dir; e.1]) s in Ok r.1 else Ok s.

Definition scan_top `{GoRange} (k : Kernel) (readdir_err : string → bool) (home : string) (baseID : Z)
    (s : QState) (e : string * bool) : outcome QState :=
  if negb e.2 then Ok s else
  let p := PathJoin [home; e.1] in
  let! (s, projid) := checkProjID k p s in
  if (0 <? projid)%Z && negb (projid =? baseID)%Z then Ok s
  else if readdir_err p then Err ("read directory failed: " +:+ p)
  else ofold (scan_sub k p) s (ReadDir s p).

Definition findNextProjectID `{GoRange} (k : Kernel) (readdir_err : string → bool)
    (home : string) (baseID : Z) (s : QState) : outcome QState :=
  if readdir_err home then Err ("read directory failed: " +:+ home)
  else ofold (scan_top k readdir_err home baseID) s (ReadDir s home).

(** [hasQuotaSupport]: the error number and the flags of [Q_XGETQSTAT]. *)
Definition EPERM : Z := 1.
Definition ENOENT : Z := 2.
Definition EFAULT : Z := 14.
Definition ENOTBLK : Z := 15.
Definition FS_QUOTA_PDQ_ACCT : Z := 16.
Definition FS_QUOTA_PDQ_ENFD : Z := 32.

Definition hasQuotaSupport (errno qs_flags : Z) : outcome bool :=
  if (errno =? 0)%Z && (0 <? Z.land qs_flags FS_QUOTA_PDQ_ENFD)%Z &&
     (0 <? Z.land qs_flags FS_QUOTA_PDQ_ACCT)%Z then Ok true
  else if decide (errno ∈ [EFAULT; ENOENT; ENOTBLK; EPERM]) then Err "errno" else Ok false.

(** [NewControl] once the base path is resolved to [rel]: the device node is made, the
    support checked, the ids prepared and the directories scanned. *)
Definition NewControl_init `{GoRange} (k : Kernel) (readdir_err : string → bool)
    (makeBackingFsDev : string → outcome string) (qstat : string → Z * Z)
    (pfx base rel : string) (s : QState) : outcome (Control * QState) :=
  let! dev := makeBackingFsDev rel in
  let! supported := hasQuotaSupport (qstat dev).1 (qstat dev).2 in
  if negb supported then Err "Not supported" else
  let! baseProjectID := getProjectID k s rel in
  let minProjectID := u32 (baseProjectID + 10000) in
  let! s := setProjectQuota k dev minProjectID 0 s in
  let s := updateMinProjID minProjectID s in
  let s := set_quotas ∅ s in
  let! s := findNextProjectID k readdir_err rel baseProjectID s in
  Ok (mkControl dev pfx rel base, s).

(** ** Invariant: the ids in use lie below the next one *)

Definition ids_below (s : QState) : Prop :=
  ∀ p id, quotas s !! p = Some id → (0 < id < nextProjectID s)%Z.

(** No two paths share a project. *)
Definition ids_distinct (s : QState) : Prop :=
  ∀ p q id, quotas s !! p = Some id → quotas s !! q = Some id → p = q.

Lemma MkdirAll_same k p s :
  quotas (MkdirAll k p s) = quotas s ∧ nextProjectID (MkdirAll k p s) = nextProjectID s ∧
  limits (MkdirAll k p s) = limits s.
Proof. unfold MkdirAll. repeat (case_match; try done). Qed.

Lemma MkdirAll_keeps k p s q n :
  nodes s !! q = Some n → nodes (MkdirAll k p s) !! q = Some n.
Proof.
  unfold MkdirAll. case_match; [done|]. case_match eqn:E; [|done]. simpl. revert E.
  generalize (ancestors [] (path_words p)) as l. generalize (nodes s) as m0.
  intros m0 l. revert m0. induction l as [|a l IH]; intros m0 E Hq; simpl in E; [by simplify_eq|].
  destruct (m0 !! a) as [[]|] eqn:Ea; simpl in E.
  - by eapply IH.
  - assert (foldl (mkdir_step k) None l = None) as Hn.
    { clear. induction l as [|b l IHl]; [done|exact IHl]. }
    congruence.
  - eapply IH; [exact E|]. rewrite lookup_insert_ne; [done|]. intros ->. congruence.
Qed.

(** The cases of [SetDirQuota], with the state after the directory was prepared. *)
Lemma SetDirQuota_cases c k t size s s' r :
  SetDirQuota c k t size s = (s', r) →
  let p := getRealPath c t in
  ∃ s1, quotas s1 = quotas s ∧ nextProjectID s1 = nextProjectID s ∧ limits s1 = limits s ∧
    (∀ q n, nodes s !! q = Some n → nodes s1 !! q = Some n) ∧
    ((s' = s1 ∧ is_err r = true) ∨
     (∃ id, quotas s !! p = Some id ∧ r = Ok () ∧
        s' = set_limits (<[id := k_round k (size / 512)]> (limits s1)) s1) ∨
     (quotas s !! p = None ∧ ∃ old, nodes s1 !! p = Some (QDir old) ∧
        let id := nextProjectID s in
        let s2 := set_quotas (<[p := id]> (quotas s))
                    (set_next (u32 (id + 1)) (set_nodes (<[p := QDir (u32 id)]> (nodes s1)) s1)) in
        (r = Ok () ∧ s' = set_limits (<[id := k_round k (size / 512)]> (limits s1)) s2) ∨
        (is_err r = true ∧ s' = s2))).
Proof.
  intros E p. unfold SetDirQuota in E. fold p in E.
  set (s1 := if _ && bool_decide (nodes s !! p = None) then MkdirAll k p s else s) in E.
  exists s1. assert (quotas s1 = quotas s ∧ nextProjectID s1 = nextProjectID s ∧ limits s1 = limits s)
    as (Hq & Hn & Hl).
  { clear E. unfold s1. destruct (negb _ && _); [apply MkdirAll_same|done]. }
  assert (∀ q n, nodes s !! q = Some n → nodes s1 !! q = Some n) as Hk.
  { clear E. intros q n Hqn. unfold s1. destruct (negb _ && _); [by apply MkdirAll_keeps|done]. }
  clearbody s1. split_and!; [done..|].
  destruct (_ && bool_decide (nodes s !! p = Some QFile)); [simplify_eq; by left|].
  destruct (quotas s !! p) as [id|] eqn:Ep.
  - unfold setProjectQuota in E. destruct (k_setlim_err k id); simplify_eq; [by left|].
    right. left. exists id. by split_and!.
  - unfold setProjectID, setProjectQuota, openDir in E. rewrite Hn in E.
    destruct (nodes s1 !! p) as [[old|]|] eqn:En; simpl in E; [|simplify_eq; by left..].
    destruct (k_open_err k p); simpl in E; [simplify_eq; by left|].
    destruct (k_getx_err k p); [simplify_eq; by left|].
    destruct (k_setx_err k p); [simplify_eq; by left|].
    right. right. split; [done|]. exists old. split; [done|]. simpl in E. rewrite Hn, Hq in E.
    destruct (k_setlim_err k (nextProjectID s)); simplify_eq; [by right|by left].
Qed.


(** ** What a successful call leaves *)

(** What the kernel reports of a limit of [size] bytes when its file system has blocks
    of [b] times 512 bytes: the next multiple of the block. *)
Definition rounds_up (k : Kernel) (b : Z) : Prop :=
  (0 < b)%Z ∧ ∀ x, (0 <= x)%Z → k_round k x = ((x + b - 1) / b * b)%Z.

Lemma rounds_up_bounds k b size :
  rounds_up k b → (0 <= size)%Z → (size + b * 512 <= 2 ^ 64)%Z →
  let q := u64 (k_round k (size / 512) * 512) in
  (q mod (b * 512) = 0)%Z ∧ (size / 512 * 512 <= q < size / 512 * 512 + b * 512)%Z ∧
  (size mod (b * 512) = 0 → q = size)%Z.
Proof.
  intros [Hb Hr] Hsize Hfit q. set (x := (size / 512)%Z).
  assert (0 <= x)%Z as Hx by (apply Z.div_pos; lia).
  pose proof (Z.mul_div_le size 512 ltac:(lia)) as Hdown. fold x in Hdown.
  set (d := ((x + b - 1) / b)%Z).
  assert (x <= d * b < x + b)%Z as Hd.
  { pose proof (Z.div_mod (x + b - 1) b ltac:(lia)). pose proof (Z.mod_pos_bound (x + b - 1) b Hb).
    fold d in H. lia. }
  assert (q = d * b * 512)%Z as Eq.
  { unfold q. fold x. rewrite Hr by done. fold d. apply u64_small. unfold in_u64. lia. }
  rewrite Eq. split_and!; [|lia|lia|].
  - rewrite <-Z.mul_assoc. apply Z.mod_mul. lia.
  - intros Hm. apply Z.mod_divide in Hm as [n ->]; [|lia].
    assert (x = n * b)%Z as Ex by (unfold x; rewrite Z.mul_assoc, Z.div_mul; lia).
    assert (d = n)%Z as ->; [|lia]. unfold d. rewrite Ex.
    replace (n * b + b - 1)%Z with (n * b + (b - 1))%Z by lia.
    rewrite Z.div_add_l, (Z.div_small (b - 1)) by lia. lia.
Qed.

(** C12: once [SetDirQuota] succeeded on an existing directory, [GetDirQuota] reports
    the limit the kernel keeps for the size in blocks of 512 bytes. On a file system
    that rounds limits up to whole blocks that is the least multiple of the block not
    below the size rounded down to 512 bytes, and the size itself when it is a multiple
    of the block (both as long as the next multiple fits 64 bits). As long as the ids in
    use lie below the next one and no two paths share a project, every other existing
    directory is reported as before. (The query of the limits itself must not fail.) *)
Theorem SetDirQuota_GetDirQuota c k t size s s' :
  SetDirQuota c k t size s = (s', Ok ()) → in_u64 size →
  (∀ id, k_getlim_err k id = false) → ids_below s → ids_distinct s →
  (nodes s' !! getRealPath c t ≠ None →
   ∃ id, quotas s' !! getRealPath c t = Some id ∧
     GetDirQuota c k s' t =
       Ok (mkQuotaInfo t (u64 (k_round k (size / 512) * 512)) (u64 (k_bcount k id * 512)))) ∧
  (∀ b, rounds_up k b → (size + b * 512 <= 2 ^ 64)%Z →
     let q := u64 (k_round k (size / 512) * 512) in
     (q mod (b * 512) = 0)%Z ∧ (size / 512 * 512 <= q < size / 512 * 512 + b * 512)%Z ∧
     (size mod (b * 512) = 0 → q = size)%Z) ∧
  (∀ t', getRealPath c t' ≠ getRealPath c t → nodes s !! getRealPath c t' ≠ None →
     GetDirQuota c k s' t' = GetDirQuota c k s t').
Proof.
  intros E Hsize Hlim Hb Hd. apply SetDirQuota_cases in E as (s1 & Hq & _ & Hl & Hk & Hcases).
  set (p := getRealPath c t) in *.
  assert (∃ id, quotas s' !! p = Some id ∧ limits s' = <[id := k_round k (size / 512)]> (limits s) ∧
    (∀ q, q ≠ p → quotas s' !! q = quotas s !! q) ∧ (∀ q id', q ≠ p → quotas s !! q = Some id' → id' ≠ id) ∧
    (∀ q n, q ≠ p → nodes s !! q = Some n → nodes s' !! q = Some n))
    as (id & Hid & Hlims & Hothers & Hne & Hnodes).
  { destruct Hcases as [[_ ?]|[(id & Hp & _ & ->)|(Hnone & old & _ & [[_ ->]|[? _]])]]; try done; simpl.
    - exists id. rewrite Hq, Hl. split_and!; try done.
      + intros q id' Hqp Hqq ->. by destruct Hqp; eapply Hd.
      + intros q n _. apply Hk.
    - exists (nextProjectID s). rewrite lookup_insert_eq, Hl. split_and!; try done.
      + intros q Hqp. by rewrite lookup_insert_ne.
      + intros q id' _ Hqq. apply Hb in Hqq. lia.
      + intros q n Hqp Hqn. rewrite lookup_insert_ne by done. by apply Hk. }
  split; [|split].
  - intros Hnode. exists id. split; [done|]. unfold GetDirQuota. fold p. rewrite Hid, Hlims.
    rewrite bool_decide_false, andb_false_r by done. rewrite lookup_insert_eq.
    destruct (k_unset k id); simpl; by rewrite Hlim.
  - intros b Hr Hfit. apply rounds_up_bounds; [done|apply Hsize|done].
  - intros t' Hne' Hex. unfold GetDirQuota. rewrite (Hothers _ Hne').
    destruct (quotas s !! getRealPath c t') as [id'|] eqn:E'; [|done].
    destruct (nodes s !! getRealPath c t') as [n|] eqn:En; [|done].
    rewrite (Hnodes _ _ Hne' En). rewrite Hlims, lookup_insert_ne; [done|].
    intros ->. by eapply Hne.
Qed.

Lemma mkdir_fold_new k l m m' q n :
  foldl (mkdir_step k) (Some m) l = Some m' → m' !! q = Some n →
  m !! q = Some n ∨ n = QDir (k_inherit k q).
Proof.
  revert m. induction l as [|a l IH]; intros m E Hq; simpl in E; [simplify_eq; by left|].
  destruct (m !! a) as [[]|] eqn:Ea; simpl in E.
  - by eapply IH.
  - assert (foldl (mkdir_step k) None l = None) as Hn.
    { clear. induction l as [|b l IHl]; [done|exact IHl]. }
    congruence.
  - destruct (IH _ E Hq) as [Hin|?]; [|by right].
    apply lookup_insert_Some in Hin as [[<- <-]|[_ ?]]; [by right|by left].
Qed.

(** Releasing a directory forgets its files but not its project: when the
    directory is set up again, the call only updates the limit of the old project and
    the recreated directory carries the project id it inherits from its parent, so the
    limit that [GetDirQuota] goes on to report is not in force for it. *)
Theorem release_then_set_unenforced c k t size s s1 s2 id :
  quotas s !! getRealPath c t = Some id → k_stat_err k (getRealPath c t) = false →
  ReleaseDir c k t s = (s1, Ok ()) → SetDirQuota c k t size s1 = (s2, Ok ()) →
  quotas s2 !! getRealPath c t = Some id ∧ limits s2 !! id = Some (k_round k (size / 512)) ∧
  ∀ projid, nodes s2 !! getRealPath c t = Some (QDir projid) → projid = k_inherit k (getRealPath c t).
Proof.
  intros Hid Hstat Hrel Hset. unfold ReleaseDir in Hrel. rewrite Hid in Hrel.
  case_decide; [done|]. destruct (k_remove_err k _) as [[]|]; [done|]. injection Hrel as <-.
  unfold SetDirQuota in Hset. simpl in Hset. set (p := getRealPath c t) in *.
  assert (filter (λ kv : string * qnode, ¬ below p kv.1) (nodes s) !! p = None) as Hgone.
  { apply map_lookup_filter_None. right. intros n _ Hn. apply Hn. unfold below. reflexivity. }
  rewrite Hstat, Hgone, Hid in Hset. simpl in Hset.
  set (s1 := set_nodes _ s) in *. destruct (MkdirAll_same k p s1) as (Hq & _ & Hl).
  unfold setProjectQuota in Hset. destruct (k_setlim_err k id); [done|]. injection Hset as <-.
  simpl. rewrite Hq. split_and!; [done|by rewrite lookup_insert_eq|].
  intros projid Hnode. unfold MkdirAll in Hnode. change (nodes s1) with
    (filter (λ kv : string * qnode, ¬ below p kv.1) (nodes s)) in Hnode.
  destruct (k_mkdir_err k p); [simpl in Hnode; congruence|].
  destruct (foldl _ _ _) as [m|] eqn:Em; [|simpl in Hnode; congruence].
  simpl in Hnode. destruct (mkdir_fold_new _ _ _ _ _ _ Em Hnode) as [?|[= ->]]; [congruence|done].
Qed.

(** ** Releasing *)

Lemma getRealPath_below c bs ns :
  Forall comp_ok (bs ++ ns) → bs ≠ [] → ns ≠ [] → basePath c = abs_path bs →
  getRealPath c (abs_path (bs ++ ns)) = relBasePath c +:+ "/" +:+ Join ns "/".
Proof.
  intros Hf Hb Hn Hbase. unfold getRealPath. rewrite PathJoin_root, clean_words_abs_path by done.
  rewrite Hbase. assert (abs_path (bs ++ ns) = abs_path bs +:+ "/" +:+ Join ns "/") as ->.
  { unfold abs_path. rewrite Join_app by done. by rewrite str_app_assoc. }
  apply ReplaceOnce_prefix.
Qed.

Lemma filter_lookup_keep {A} (P : string * A → Prop) `{∀ x, Decision (P x)} (m : gmap string A) q :
  (∀ n, P (q, n)) → filter P m !! q = m !! q.
Proof.
  intros HP. destruct (m !! q) eqn:En; [|by apply map_lookup_filter_None; left].
  by apply map_lookup_filter_Some.
Qed.

(** C36: [ReleaseDir] never touches the limits or the table of projects and removes only
    what lies at or below the real path of its argument: all of it when it succeeds, and
    what [os.RemoveAll] could remove before it failed. A path without a project, and one
    whose [filepath.Dir] is not the text of the base directory, is refused and nothing
    changes; the check reads the argument as it is given, so that [<base>/..] passes it
    ([release_parent_of_base] below). For a clean direct child [<base>/<name>] the real
    path is [<resolved base>/<name>]. *)
Theorem ReleaseDir_scope c k t s s' r :
  ReleaseDir c k t s = (s', r) →
  quotas s' = quotas s ∧ limits s' = limits s ∧ nextProjectID s' = nextProjectID s ∧
  (∀ q, ¬ below (getRealPath c t) q → nodes s' !! q = nodes s !! q) ∧
  (r = Ok () → Dir t = basePath c ∧ ∀ q, below (getRealPath c t) q → nodes s' !! q = None) ∧
  (∀ q n, nodes s' !! q = Some n → nodes s !! q = Some n) ∧
  (quotas s !! getRealPath c t = None ∨ Dir t ≠ basePath c → s' = s ∧ is_err r = true) ∧
  (quotas s !! getRealPath c t ≠ None → Dir t = basePath c →
     r = Ok () ↔ k_remove_err k (getRealPath c t) = None) ∧
  (∀ bs name, Forall comp_ok (bs ++ [name]) → bs ≠ [] → basePath c = abs_path bs →
     t = abs_path (bs ++ [name]) → getRealPath c t = relBasePath c +:+ "/" +:+ name).
Proof.
  intros E.
  assert (∀ bs name, Forall comp_ok (bs ++ [name]) → bs ≠ [] → basePath c = abs_path bs →
     t = abs_path (bs ++ [name]) → getRealPath c t = relBasePath c +:+ "/" +:+ name) as Hreal.
  { intros bs name Hf Hb Hbase ->. by rewrite getRealPath_below. }
  unfold ReleaseDir in E.
  destruct (quotas s !! getRealPath c t); [|simplify_eq; by split_and!].
  case_decide as Hd; [simplify_eq; by split_and!|].
  destruct (k_remove_err k _) as [[e stays]|]; simplify_eq; simpl; split_and!; try done.
  - intros q Hq. apply filter_lookup_keep. by left.
  - by intros q n [? _]%map_lookup_filter_Some.
  - by intros [?|?].
  - intros q Hq. by apply filter_lookup_keep.
  - intros _. split; [done|]. intros q Hq. apply map_lookup_filter_None. right. intros n _ Hn. by apply Hn.
  - by intros q n [? _]%map_lookup_filter_Some.
  - by intros [?|?].
Qed.

(** The parent check compares the unresolved text: [<base>/..] passes it although it
    names the parent of the base directory. Once a quota was set for that path, releasing
    it deletes everything below the parent. *)
Theorem release_parent_of_base k dev pfx base name size s :
  comp_ok base → comp_ok name →
  let c := mkControl dev pfx (abs_path [base; name]) (abs_path [base; name]) in
  let t := abs_path [base; name] +:+ "/.." in
  (∀ p, k_stat_err k p = false ∧ k_open_err k p = false ∧ k_getx_err k p = false ∧
        k_setx_err k p = false ∧ k_remove_err k p = None) →
  (∀ id, k_setlim_err k id = false) →
  quotas s = ∅ → nodes s !! abs_path [base] = Some (QDir 0) →
  ∃ s1 s2, SetDirQuota c k t size s = (s1, Ok ()) ∧ ReleaseDir c k t s1 = (s2, Ok ()) ∧
    ∀ q, below (abs_path [base]) q → nodes s2 !! q = None.
Proof.
  intros Hb Hn c t Hk Hlim Hq Hnode.
  assert (Forall comp_ok [base; name]) as Hf by (rewrite !Forall_cons; by split_and!).
  destruct (Hk (abs_path [base])) as (Hst & Ho & Hg & Hx & Hr).
  assert (getRealPath c t = abs_path [base]) as Hreal.
  { unfold getRealPath, t. rewrite PathJoin_root.
    assert (clean_words true (abs_path [base; name] +:+ "/..") = [base]) as ->.
    { by apply (clean_words_parent [base] name). }
    apply ReplaceOnce_shorter. unfold c. simpl basePath. unfold abs_path. simpl Join.
    rewrite !str_length_app. simpl. lia. }
  assert (Dir t = basePath c) as Hdir.
  { unfold t. simpl basePath. by apply (Dir_dotdot [base; name]). }
  assert (SetDirQuota c k t size s =
    (set_limits (<[nextProjectID s := k_round k (size / 512)]> (limits s))
      (set_quotas (<[abs_path [base] := nextProjectID s]> ∅)
        (set_next (u32 (nextProjectID s + 1))
          (set_nodes (<[abs_path [base] := QDir (u32 (nextProjectID s))]> (nodes s)) s))), Ok ())) as Hset.
  { unfold SetDirQuota. rewrite Hreal, Hst, Hq, lookup_empty, Hnode. simpl.
    unfold setProjectID, openDir. rewrite Hnode, Ho, Hg, Hx. simpl.
    unfold setProjectQuota. rewrite Hlim, Hq. done. }
  eexists _, _. split; [exact Hset|]. split.
  - unfold ReleaseDir. rewrite Hreal. simpl. rewrite lookup_insert_eq.
    rewrite decide_False by (intros Hne; by apply Hne). rewrite Hr. done.
  - intros q Hbelow. simpl. apply map_lookup_filter_None. right. intros n _ Hn'. by apply Hn'.
Qed.

(** ** Scanning for the ids in use *)

(** Every directory's id leaves room for a successor. *)
Definition ids_room (s : QState) : Prop :=
  ∀ p i, nodes s !! p = Some (QDir i) → (0 <= i < 2 ^ 32 - 1)%Z.

(** What the scan keeps and only ever extends. *)
Definition scan_le (s s' : QState) : Prop :=
  nodes s' = nodes s ∧ limits s' = limits s ∧ (nextProjectID s <= nextProjectID s')%Z ∧
  (ids_below s → ids_below s').

#[global] Instance scan_le_preorder : PreOrder scan_le.
Proof.
  split.
  - intros s. split_and!; done || lia.
  - intros s1 s2 s3 (Hn1 & Hl1 & Hle1 & Hb1) (Hn2 & Hl2 & Hle2 & Hb2).
    split_and!; [congruence..|lia|auto].
Qed.

Lemma checkProjID_spec k p s s' projid :
  ids_room s → checkProjID k p s = Ok (s', projid) →
  scan_le s s' ∧ nodes s !! p = Some (QDir projid) ∧ (projid < nextProjectID s')%Z ∧
  ((0 < projid)%Z → quotas s' !! p = Some projid).
Proof.
  intros Hroom E. unfold checkProjID in E. apply obind_ok_inv in E as (i & Hi & E).
  assert (nodes s !! p = Some (QDir i)) as Hnode.
  { unfold getProjectID in Hi. destruct (negb _); [done|]. destruct (k_getx_err k p); [done|].
    destruct (nodes s !! p) as [[]|]; by simplify_eq. }
  pose proof (Hroom _ _ Hnode) as Hi2. injection E as <- <-.
  assert (u32 (i + 1) = i + 1)%Z as Hu by (apply u32_small; unfold in_u32; lia).
  set (s1 := if (0 <? i)%Z then set_quotas (<[p := i]> (quotas s)) s else s).
  assert (nextProjectID s1 = nextProjectID s ∧ nodes s1 = nodes s ∧ limits s1 = limits s)
    as (Hn1 & Hd1 & Hl1) by (unfold s1; by destruct (0 <? i)%Z).
  assert (quotas s1 = quotas s ∧ i = 0%Z ∨ (0 < i)%Z ∧ quotas s1 = <[p := i]> (quotas s)) as Hq1.
  { unfold s1. destruct (Z.ltb_spec 0 i); [by right|left; split; [done|lia]]. }
  clearbody s1. set (s2 := if (nextProjectID s1 <=? i)%Z then _ else _).
  assert (quotas s2 = quotas s1 ∧ nodes s2 = nodes s1 ∧ limits s2 = limits s1 ∧
    (nextProjectID s1 <= nextProjectID s2)%Z ∧ (i < nextProjectID s2)%Z) as (Hq2 & Hd2 & Hl2 & Hle & Hlt).
  { unfold s2. destruct (Z.leb_spec (nextProjectID s1) i); simpl; rewrite ?Hu; split_and!; done || lia. }
  clearbody s2. split; [split_and!; [congruence..|lia|]|].
  - intros Hb q id. rewrite Hq2. destruct Hq1 as [[-> _]|[Hpos ->]]; [intros Hid%Hb; lia|].
    intros [[<- <-]|[_ Hid%Hb]]%lookup_insert_Some; lia.
  - split_and!; [done..|]. intros Hpos. rewrite Hq2. destruct Hq1 as [[_ ?]|[_ ->]]; [lia|].
    by rewrite lookup_insert_eq.
Qed.

Lemma scan_sub_le k dir s e s' : ids_room s → scan_sub k dir s e = Ok s' → scan_le s s'.
Proof.
  intros Hroom E. unfold scan_sub in E. destruct e.2; [|by obind_inv].
  apply obind_ok_inv in E as ([s1 i] & E1 & [= <-]). by apply checkProjID_spec in E1 as [? _].
Qed.

Lemma scan_le_room s s' : scan_le s s' → ids_room s → ids_room s'.
Proof. intros (Hn & _) Hr p i. rewrite Hn. apply Hr. Qed.

Lemma scan_fold_le {A} (f : QState → A → outcome QState) l s s' :
  (∀ s a s', ids_room s → f s a = Ok s' → scan_le s s') →
  ids_room s → ofold f s l = Ok s' → scan_le s s'.
Proof.
  intros Hf Hroom E. apply (ofold_inv (λ x, scan_le s x) f s l s'); [|done|exact E].
  intros s1 a s2 _ Hle Hs. etrans; [exact Hle|]. eapply Hf; [by eapply scan_le_room|exact Hs].
Qed.

Lemma scan_top_spec `{GoRange} k re home baseID s e s' :
  ids_room s → scan_top k re home baseID s e = Ok s' →
  scan_le s s' ∧ (e.2 = true → ∃ i, nodes s !! PathJoin [home; e.1] = Some (QDir i) ∧
                                   (i < nextProjectID s')%Z).
Proof.
  intros Hroom E. unfold scan_top in E. destruct e.2; simpl in E; [|by obind_inv].
  apply obind_ok_inv in E as ([s1 i] & E1 & E). apply checkProjID_spec in E1 as (Hle & Hn & Hi & _); [|done].
  assert (scan_le s1 s') as Hle2.
  { destruct (_ && _); [by obind_inv|]. destruct (re _); [done|].
    eapply scan_fold_le; [|by eapply scan_le_room|exact E]. intros; by eapply scan_sub_le. }
  split; [by etrans|]. intros _. exists i. split; [done|]. destruct Hle2 as (_ & _ & ? & _). lia.
Qed.

Lemma scan_tops `{GoRange} k re home baseID l : ∀ s s',
  ids_room s → ofold (scan_top k re home baseID) s l = Ok s' →
  scan_le s s' ∧ ∀ n, (n, true) ∈ l → ∃ i, nodes s !! PathJoin [home; n] = Some (QDir i) ∧
                                           (i < nextProjectID s')%Z.
Proof.
  induction l as [|e l IH]; intros s s' Hroom E; simpl in E.
  { obind_inv. split; [done|]. by intros n ?%elem_of_nil. }
  apply obind_ok_inv in E as (s1 & E1 & E2). apply scan_top_spec in E1 as [Hle1 He]; [|done].
  destruct (IH s1 s') as [Hle2 Hl]; [by eapply scan_le_room|done|].
  split; [by etrans|]. intros n [<-|Hn]%elem_of_cons.
  - destruct He as (i & Hi & Hlt); [done|]. exists i. split; [done|].
    destruct Hle2 as (_ & _ & ? & _). lia.
  - destruct (Hl n Hn) as (i & Hi & Hlt). exists i. destruct Hle1 as (Heq & _). by rewrite <-Heq.
Qed.

(** C37: when no directory has the project id 2^32-1 (its successor wraps to 0, see
    [findNextProjectID_wraps]) and the ids recorded before are positive and below the
    next id, a scan at start-up that succeeds leaves every id it records positive and
    below the next id, never lowers the next id, changes nothing on disk, and the next
    id is above the project id of every directory directly below the base directory. *)
Theorem findNextProjectID_spec `{GoRange} k readdir_err home baseID s s' :
  ids_room s → ids_below s → findNextProjectID k readdir_err home baseID s = Ok s' →
  ids_below s' ∧ (nextProjectID s <= nextProjectID s')%Z ∧
  nodes s' = nodes s ∧ limits s' = limits s ∧
  ∀ n, (n, true) ∈ ReadDir s home → ∃ i, nodes s !! PathJoin [home; n] = Some (QDir i) ∧
                                        (i < nextProjectID s')%Z.
Proof.
  intros Hroom Hb E. unfold findNextProjectID in E. destruct (readdir_err home); [done|].
  destruct (scan_tops _ _ _ _ _ _ _ Hroom E) as [(? & ? & ? & Hbelow) Hl]. split_and!; auto.
Qed.

(** The 32-bit counter: behind a directory with the last project id the scan goes on
    with 0, so that the next directory to get a quota is given project 0. *)
Lemma findNextProjectID_wraps :
  ∃ s', findNextProjectID (H := range_sorted)
    (mkKernel (λ _, false) (λ _, false) (λ _, false) (λ _, false) (λ _, false) (λ _, false) (λ _, false)
       (λ _, None) (λ _, 0%Z) (λ _, 0%Z) id (λ _, None)) (λ _, false) "/d" 0
    (mkQState ∅ 10001 {["/d" := QDir 0; "/d/a" := QDir (2 ^ 32 - 1)]} ∅) = Ok s' ∧
  nextProjectID s' = 0%Z.
Proof. eexists. split; vm_compute; reflexivity. Qed.

(** ** Resolving the base path *)

Inductive lstat_result := LIsLink (target : string + string) | LNoLink | LStatErr (e : string).

(** The loop of [FindRealPath]; [i == len(paths)] never holds inside it. *)
Fixpoint find_real (lstat : string → lstat_result) (stat : string → option string)
    (pfx currentDir : string) (paths : list string) : string * option string :=
  match paths with
  | [] => (currentDir, None)
  | w :: paths' =>
      let currentDir := PathJoin [currentDir; w] in
      match lstat currentDir with
      | LStatErr e => ("", Some e)
      | LNoLink => find_real lstat stat pfx currentDir paths'
      | LIsLink (inl e) => ("", Some e)
      | LIsLink (inr relPath) =>
          let rel := if negb (HasPrefix relPath "/") then PathJoin [Dir currentDir; relPath]
                     else PathJoin ["/"; pfx; relPath] in
          match stat rel with
          | None => find_real lstat stat pfx rel paths'
          | Some e => (rel, Some e)
          end
      end
  end.

Definition FindRealPath (lstat : string → lstat_result) (stat : string → option string)
    (pfx spath : string) : string * option string :=
  let pfx := if negb (bool_decide (pfx = "")) && negb (HasPrefix pfx "/") then "/" +:+ pfx else pfx in
  find_real lstat stat pfx (PathJoin ["/"; pfx]) (FieldsByte spath slash).

Lemma find_real_plain lstat stat pfx ws cs :
  Forall comp_ok (cs ++ ws) → cs ≠ [] →
  (∀ pre post, ws = pre ++ post → pre ≠ [] → lstat (abs_path (cs ++ pre)) = LNoLink) →
  find_real lstat stat pfx (abs_path cs) ws = (abs_path (cs ++ ws), None).
Proof.
  revert cs. induction ws as [|w ws IH]; intros cs Hf Hne Hl; cbn [find_real].
  { by rewrite app_nil_r. }
  pose proof Hf as [Hcs Hw]%Forall_app. apply Forall_cons in Hw as [Hw Hws].
  rewrite PathJoin_abs by done. rewrite (Hl [w] ws) by done.
  rewrite (app_assoc cs [w] ws : cs ++ w :: ws = _) in Hf |- *.
  apply IH; [done|by destruct cs|]. intros pre post -> Hpre. rewrite <-app_assoc.
  by apply (Hl (w :: pre) post).
Qed.

(** [FindRealPath] of a path without symbolic links is the path below the prefix;
    when a component is an absolute link to an existing directory, the walk goes on from
    the link's target below the prefix; a missing component is an error. *)
Theorem FindRealPath_spec lstat stat ps cs :
  Forall comp_ok (ps ++ cs) → ps ≠ [] →
  ((∀ pre post, cs = pre ++ post → pre ≠ [] → lstat (abs_path (ps ++ pre)) = LNoLink) →
     FindRealPath lstat stat (abs_path ps) (abs_path cs) = (abs_path (ps ++ cs), None)) ∧
  (∀ w rest ts, cs = w :: rest → Forall comp_ok ts → ts ≠ [] →
     lstat (abs_path (ps ++ [w])) = LIsLink (inr (abs_path ts)) →
     stat (abs_path (ps ++ ts)) = None →
     (∀ pre post, rest = pre ++ post → pre ≠ [] → lstat (abs_path ((ps ++ ts) ++ pre)) = LNoLink) →
     FindRealPath lstat stat (abs_path ps) (abs_path cs) = (abs_path ((ps ++ ts) ++ rest), None)) ∧
  (∀ w rest e, cs = w :: rest → lstat (abs_path (ps ++ [w])) = LStatErr e →
     FindRealPath lstat stat (abs_path ps) (abs_path cs) = ("", Some e)).
Proof.
  intros Hf Hne. pose proof Hf as [Hps Hcs]%Forall_app.
  assert (FindRealPath lstat stat (abs_path ps) (abs_path cs) =
          find_real lstat stat (abs_path ps) (abs_path ps) cs) as ->.
  { unfold FindRealPath. rewrite HasPrefix_abs_path, andb_false_r.
    rewrite PathJoin_root, clean_words_abs_path by done. f_equal. by apply path_words_abs. }
  split_and!.
  - intros Hl. by apply find_real_plain.
  - intros w rest ts -> Hts Htne Hlink Hstat Hl. cbn [find_real].
    apply Forall_cons in Hcs as [Hw Hrest].
    rewrite PathJoin_abs, Hlink by done. rewrite HasPrefix_abs_path. simpl negb. cbn iota.
    rewrite PathJoin_root2 by done. rewrite Hstat. apply find_real_plain.
    + rewrite !Forall_app. by split_and!.
    + by destruct ps.
    + done.
  - intros w rest e -> Herr. cbn [find_real]. apply Forall_cons in Hcs as [Hw _].
    by rewrite PathJoin_abs, Herr by done.
Qed.

(** ** Choosing a partition *)

Record MaxSpacePartition := mkPart {
  PDevice : string;
  PMountpoint : string;
  PFstype : string;
  POpts : string;
  PTotal : Z;
  PDirLength : Z
}.

(** A partition as [disk.Partitions] lists it. *)
Record PartitionStat := mkPartStat {
  part_device : string; part_mountpoint : string; part_fstype : string; part_opts : string }.

(** What [os.Stat] and [disk.Usage] say of a mount point. *)
Record MountInfo := mkMountInfo { stat_is_dir : string → option bool; usage_total : string → option Z }.

Definition xfs_candidate (prefixPath : string) (mi : MountInfo) (part : PartitionStat)
    : option MaxSpacePartition :=
  let use :=
    match usage_total mi (part_mountpoint part) with
    | None => None
    | Some total =>
        Some (mkPart (part_device part) (part_mountpoint part) (part_fstype part) (part_opts part)
                total (Z.of_nat (length (Split (part_mountpoint part) slash))))
    end in
  if negb (bool_decide (part_fstype part = "xfs")) then None
  else if bool_decide (prefixPath = "") then use
  else if negb (HasPrefix (part_mountpoint part) (PathJoin ["/"; prefixPath])) then None
  else match stat_is_dir mi (part_mountpoint part) with
       | Some false => None
       | _ => use
       end.

Definition pick (maxPart p : MaxSpacePartition) : MaxSpacePartition :=
  if (PTotal maxPart <=? PTotal p)%Z && (0 <? PTotal p)%Z then
    if decide (PDevice p = PDevice maxPart) then
      if (PDirLength p <? PDirLength maxPart)%Z then p else maxPart
    else p
  else maxPart.

Definition no_part : MaxSpacePartition := mkPart "" "" "" "" 0 100.

Definition GetXFSMount (prefixPath : string) (mi : MountInfo) (parts : option (list PartitionStat))
    : outcome MaxSpacePartition :=
  match parts with
  | None => Err "disk.Partitions"
  | Some parts => Ok (foldl pick no_part (omap (xfs_candidate prefixPath mi) parts))
  end.

(** The chosen partition after the candidates [l]: one of them (or none yet), of the
    largest size, and the highest mount point among those of its device. *)
Definition best (l : list MaxSpacePartition) (m : MaxSpacePartition) : Prop :=
  (m = no_part ∨ m ∈ l ∧ (0 < PTotal m)%Z) ∧
  ∀ p, p ∈ l → (0 < PTotal p)%Z →
    (PTotal p <= PTotal m)%Z ∧ (PDevice p = PDevice m → (PDirLength m <= PDirLength p)%Z).

Lemma pick_best l p m :
  (∀ q, q ∈ l → (0 < PTotal q)%Z → PDevice q = PDevice p ↔ PTotal q = PTotal p) →
  PDevice p ≠ "" → best l m → best (l ++ [p]) (pick m p).
Proof.
  intros Hdev Hname [Hsrc Hmax]. unfold pick.
  destruct (Z.leb_spec (PTotal m) (PTotal p)) as [Hge|Hlt]; simpl.
  2:{ split; [set_solver|]. intros q [Hq|Hq%list_elem_of_singleton]%elem_of_app Hpos; [auto|]. subst q.
      split; [lia|]. intros Hd. destruct Hsrc as [->|[Hin Hmp]]; [done|].
      assert (PTotal m = PTotal p) by (apply Hdev; done). lia. }
  destruct (Z.ltb_spec 0 (PTotal p)) as [Hpos|Hz].
  2:{ split; [set_solver|]. intros q [Hq|Hq%list_elem_of_singleton]%elem_of_app Hq0; [auto|]. subst. lia. }
  assert (m = no_part ∨ m ≠ no_part ∧ m ∈ l ∧ (0 < PTotal m)%Z) as Hm.
  { destruct (Hsrc) as [->|?]; [by left|]. right. split; [|done]. intros ->. simpl in *. lia. }
  case_decide as Hd.
  - destruct Hm as [->|(_ & Hin & Hmp)]; [done|]. assert (PTotal m = PTotal p) by (by apply Hdev).
    destruct (Z.ltb_spec (PDirLength p) (PDirLength m)); split; try set_solver.
    + intros q [Hq|Hq%list_elem_of_singleton]%elem_of_app Hq0; [|subst; lia].
      destruct (Hmax q Hq Hq0) as [? Hdl]. split; [lia|]. intros Hqd.
      assert (PDirLength m <= PDirLength q)%Z by (apply Hdl; congruence). lia.
    + intros q [Hq|Hq%list_elem_of_singleton]%elem_of_app Hq0; [auto|]. subst. lia.
  - split; [set_solver|]. intros q [Hq|Hq%list_elem_of_singleton]%elem_of_app Hq0; [|subst; lia].
    destruct (Hmax q Hq Hq0) as [Hle _]. split; [lia|]. intros Hqd%Hdev; [|done..].
    destruct Hm as [->|(_ & Hin & Hmp)]; [simpl in *; lia|].
    destruct Hd. symmetry. apply Hdev; [done..|lia].
Qed.

(** Among the xfs partitions below the prefix, [GetXFSMount] chooses one with the
    largest total size and, among those of its device, the one mounted highest in the
    tree; it returns no partition only when no candidate has a positive size. (Devices
    have names; partitions report the same size exactly when they are on one device.) *)
Theorem GetXFSMount_max prefixPath mi parts m :
  let l := omap (xfs_candidate prefixPath mi) parts in
  (∀ p q, p ∈ l → q ∈ l → (0 < PTotal p)%Z → PDevice p = PDevice q ↔ PTotal p = PTotal q) →
  (∀ p, p ∈ l → PDevice p ≠ "") →
  GetXFSMount prefixPath mi (Some parts) = Ok m →
  best l m ∧ (m = no_part → ∀ p, p ∈ l → (PTotal p <= 0)%Z).
Proof.
  intros l Hdev Hname [= <-]. fold l. clearbody l.
  assert (best l (foldl pick no_part l)) as Hbest.
  { assert (∀ todo seen m, l = seen ++ todo → best seen m → best l (foldl pick m todo)) as Hgen.
    { induction todo as [|p todo IH]; intros seen m El Hb; simpl.
      { rewrite app_nil_r in El. by subst. }
      apply (IH (seen ++ [p])); [by rewrite <-app_assoc|]. apply pick_best; [| |done].
      - intros q Hq Hpos. apply Hdev; [rewrite El; set_solver..|done].
      - apply Hname. rewrite El. set_solver. }
    apply (Hgen l [] no_part); [done|]. split; [by left|]. intros p Hp. by apply elem_of_nil in Hp. }
  split; [done|]. intros E p Hp. rewrite E in Hbest. destruct Hbest as [_ Hmax].
  destruct (Z.lt_ge_cases 0 (PTotal p)) as [Hpos|]; [|lia].
  destruct (Hmax p Hp Hpos) as [Hle _]. simpl in Hle. lia.
Qed.

(** [GetImageDiskQuotaInfo]: the upper directory of the image's graph driver. *)
Definition GetImageDiskQuotaInfo (c : Control) (lstat : string → lstat_result)
    (stat : string → option string) (statfs : string → string + Statfs_t)
    (inspect : string → option (gmap string string)) (imageName : string) : outcome QuotaInfo :=
  match inspect imageName with
  | None => Err "image not found"
  | Some data =>
      let targetPath := mget data "UpperDir" in
      if decide (targetPath = "") then Err "targetPath not fount" else
      match FindRealPath lstat stat (prefixPath c) targetPath with
      | (_, Some e) => Err e
      | (relPath, None) =>
          match statfs relPath with
          | inl err => Err ("Error getting filesystem stats:" +:+ err)
          | inr st =>
              let available := u64 (Bavail st * Bsize st) in
              let total := u64 (Blocks st * Bsize st) in
              Ok (mkQuotaInfo relPath total (u64 (total - available)))
          end
      end
  end.

(** The space of a node: when the file system reports no more available than total
    blocks and the sizes fit 64 bits, the used space is the difference and never exceeds
    the total. *)
Theorem GetNodeSpaceInfo_bounds c statfs t st :
  statfs (getRealPath c t) = inr st →
  (0 <= Bavail st <= Blocks st)%Z → (0 < Bsize st)%Z → (Blocks st * Bsize st < 2 ^ 64)%Z →
  GetNodeSpaceInfo c statfs t =
    Ok (mkQuotaInfo t (Blocks st * Bsize st) ((Blocks st - Bavail st) * Bsize st)) ∧
  (0 <= (Blocks st - Bavail st) * Bsize st <= Blocks st * Bsize st)%Z.
Proof.
  intros Hst Ha Hb Hfit. unfold GetNodeSpaceInfo. rewrite Hst.
  assert (0 <= Bavail st * Bsize st <= Blocks st * Bsize st)%Z by nia.
  rewrite (u64_small (Bavail st * Bsize st)) by (unfold in_u64; lia).
  rewrite (u64_small (Blocks st * Bsize st)) by (unfold in_u64; lia).
  rewrite u64_small by (unfold in_u64; lia).
  split; [|nia]. do 2 f_equal. lia.
Qed.

(** ** Witnesses *)

Definition demo_kernel : Kernel :=
  mkKernel (λ _, false) (λ _, false) (λ _, false) (λ _, false) (λ _, false) (λ _, false) (λ _, false)
    (λ _, None) (λ _, 0%Z) (λ _, 3%Z) (λ x, (x + 7) / 8 * 8)%Z (λ _, None).

Definition demo_control : Control := mkControl "/d/backingFsBlockDev2" "" "/mnt/disk" "/data".

Definition demo_qstate : QState :=
  mkQState {["/mnt/disk/a" := 10001%Z]} 10002 {["/mnt/disk" := QDir 0; "/mnt/disk/a" := QDir 10001]}
    {[10001%Z := 8%Z]}.

Definition demo_set : QState := (SetDirQuota demo_control demo_kernel "/data/b" 5000 demo_qstate).1.

Lemma demo_ids : ids_below demo_qstate ∧ ids_distinct demo_qstate.
Proof.
  split.
  - intros p id. unfold demo_qstate. simpl. intros [<- <-]%lookup_singleton_Some. lia.
  - intros p q id. unfold demo_qstate. simpl.
    intros [<- _]%lookup_singleton_Some [<- _]%lookup_singleton_Some. done.
Qed.


Lemma SetDirQuota_GetDirQuota_witness :
  ∃ used, GetDirQuota demo_control demo_kernel demo_set "/data/b" = Ok (mkQuotaInfo "/data/b" 8192 used).
Proof.
  destruct (SetDirQuota_GetDirQuota demo_control demo_kernel "/data/b" 5000 demo_qstate demo_set)
    as [Hget _].
  - vm_compute. reflexivity.
  - split; [lia|reflexivity].
  - reflexivity.
  - apply demo_ids.
  - apply demo_ids.
  - destruct Hget as (id & _ & Hget); [vm_compute; discriminate|]. eexists. exact Hget.
Defined.

Definition demo_released : QState := (ReleaseDir demo_control demo_kernel "/data/a" demo_qstate).1.
Definition demo_again : QState := (SetDirQuota demo_control demo_kernel "/data/a" 1024 demo_released).1.

Lemma release_then_set_unenforced_witness :
  nodes demo_again !! "/mnt/disk/a" = Some (QDir 0) ∧ limits demo_again !! 10001%Z = Some 8%Z.
Proof.
  destruct (release_then_set_unenforced demo_control demo_kernel "/data/a" 1024 demo_qstate
    demo_released demo_again 10001) as (_ & Hlim & _); [vm_compute; reflexivity..|].
  split; [vm_compute; reflexivity|exact Hlim].
Defined.

Lemma ReleaseDir_scope_witness :
  nodes demo_released !! "/mnt/disk" = Some (QDir 0) ∧ nodes demo_released !! "/mnt/disk/a" = None.
Proof.
  destruct (ReleaseDir_scope demo_control demo_kernel "/data/a" demo_qstate demo_released (Ok ()))
    as (_ & _ & _ & Hkeep & Hgone & _); [vm_compute; reflexivity|].
  split.
  - rewrite Hkeep; [vm_compute; reflexivity|]. by_decide.
  - apply Hgone; [done|]. by_decide.
Defined.

Lemma release_parent_of_base_witness :
  ∃ s1 s2, SetDirQuota (mkControl "d" "" "/srv/cloud" "/srv/cloud") demo_kernel "/srv/cloud/.." 0
             (mkQState ∅ 1 {["/srv" := QDir 0; "/srv/other" := QFile]} ∅) = (s1, Ok ()) ∧
    ReleaseDir (mkControl "d" "" "/srv/cloud" "/srv/cloud") demo_kernel "/srv/cloud/.." s1 = (s2, Ok ()) ∧
    nodes s2 !! "/srv/other" = None.
Proof.
  destruct (release_parent_of_base demo_kernel "d" "" "srv" "cloud" 0
    (mkQState ∅ 1 {["/srv" := QDir 0; "/srv/other" := QFile]} ∅)) as (s1 & s2 & H1 & H2 & H3).
  - by_decide.
  - by_decide.
  - intros p; by repeat split.
  - done.
  - done.
  - vm_compute. reflexivity.
  - exists s1, s2. split; [exact H1|]. split; [exact H2|]. apply H3. by_decide.
Defined.

Lemma findNextProjectID_spec_witness :
  ∃ s', findNextProjectID (H := range_sorted) demo_kernel (λ _, false) "/mnt/disk" 0
          (set_next 5 (set_quotas ∅ demo_qstate)) = Ok s' ∧ ids_below s'.
Proof.
  eexists. split; [vm_compute; reflexivity|].
  eapply (findNextProjectID_spec (H := range_sorted) demo_kernel (λ _, false) "/mnt/disk" 0
    (set_next 5 (set_quotas ∅ demo_qstate))); [| |vm_compute; reflexivity].
  - intros p i. unfold demo_qstate. simpl.
    intros [[_ [= <-]]|[_ [_ [= <-]]%lookup_singleton_Some]]%lookup_insert_Some; lia.
  - intros p id. simpl. by rewrite lookup_empty.
Defined.

Lemma FindRealPath_spec_witness :
  FindRealPath (λ p, if decide (p = "/host/data") then LIsLink (inr "/mnt/disk") else LNoLink)
    (λ _, None) "/host" "/data/x" = ("/host/mnt/disk/x", None).
Proof.
  destruct (FindRealPath_spec
    (λ p, if decide (p = "/host/data") then LIsLink (inr "/mnt/disk") else LNoLink)
    (λ _, None) ["host"] ["data"; "x"] ltac:(by_decide) ltac:(done)) as (_ & Hlink & _).
  apply (Hlink "data" ["x"] ["mnt"; "disk"]).
  - done.
  - by_decide.
  - done.
  - reflexivity.
  - done.
  - intros [|y [|]] post E Hne; [done| |done]. injection E as <- _. reflexivity.
Defined.

Definition demo_parts : list PartitionStat :=
  [mkPartStat "/dev/a" "/a/sub" "xfs" "rw"; mkPartStat "/dev/a" "/a" "xfs" "rw";
   mkPartStat "/dev/c" "/c" "ext4" "rw"].
Definition demo_mounts : MountInfo := mkMountInfo (λ _, Some true) (λ _, Some 9%Z).

Lemma GetXFSMount_max_witness :
  ∃ m, GetXFSMount "" demo_mounts (Some demo_parts) = Ok m ∧ PMountpoint m = "/a" ∧
       best (omap (xfs_candidate "" demo_mounts) demo_parts) m.
Proof.
  eexists. split; [vm_compute; reflexivity|]. split; [reflexivity|].
  refine (proj1 (GetXFSMount_max "" demo_mounts demo_parts _ _ _ _)); [| |vm_compute; reflexivity].
  - intros p q Hp Hq _. vm_compute in Hp, Hq.
    repeat (apply elem_of_cons in Hp as [->|Hp]; [|]); try (by apply elem_of_nil in Hp);
      repeat (apply elem_of_cons in Hq as [->|Hq]; [|]); try (by apply elem_of_nil in Hq); done.
  - intros p Hp. vm_compute in Hp.
    repeat (apply elem_of_cons in Hp as [->|Hp]; [|]); try (by apply elem_of_nil in Hp); done.
Defined.

Lemma GetNodeSpaceInfo_bounds_witness :
  GetNodeSpaceInfo demo_control (λ _, inr (mkStatfs 100 40 4096)) "/data" =
    Ok (mkQuotaInfo "/data" 409600 245760).
Proof.
  refine (proj1 (GetNodeSpaceInfo_bounds demo_control (λ _, inr (mkStatfs 100 40 4096)) "/data"
    (mkStatfs 100 40 4096) eq_refl _ _ _)); simpl; lia.
Defined.
