(* ===== verification/QuotaInit.v ===== *)
(** * Starting the quota controller

    The head of quota/ProjectQuota.go's [NewControl] (the base path is found, or made on the
    largest XFS partition and linked), [makeBackingFsDev], and [InitQuotaController] of
    utils/Common.go. The rest of [NewControl] is [Quota.NewControl_init], which it is
    composed with here; the partition is chosen by [Quota.GetXFSMount]. *)

From S2P Require Import Prelude GoStrings GoPath Quota Clients.

(** ** The file system *)

(** What [os.Lstat] and [os.Stat] answer. *)
Record Fs := mkFs { fs_lstat : string → lstat_result; fs_stat : string → option string }.

(** [os.MkdirAll] of a directory: what did not exist on the way to it does now. *)
Definition made (dir : string) (fs : Fs) : Fs :=
  let on_way p := bool_decide (p ∈ ancestors [] (path_words dir)) in
  mkFs (λ p, if on_way p then match fs_lstat fs p with LStatErr _ => LNoLink | r => r end else fs_lstat fs p)
       (λ p, if on_way p then None else fs_stat fs p).

(** [os.Symlink(target, name)]. *)
Definition linked (target name : string) (fs : Fs) : Fs :=
  mkFs (λ p, if decide (p = name) then LIsLink (inr target) else fs_lstat fs p) (fs_stat fs).

(** The errors of the system calls, and [os.IsNotExist] of an error. *)
Record BootSys := mkBoot {
  bs_mkdir : string → option string;
  bs_symlink : string → string → option string;
  IsNotExist : string → bool;
  bs_mount : MountInfo;
  bs_parts : option (list PartitionStat)
}.

(** ** [makeBackingFsDev] *)

Inductive mknod_result := MkOk | MkUnsupported | MkErr (e : string).

Definition makeBackingFsDev (stat : string → option string) (mknod : string → mknod_result) (home : string)
    : outcome string :=
  match stat home with
  | Some e => Err e
  | None =>
      let backingFsBlockDev := PathJoin [home; "backingFsBlockDev2"] in
      match mknod backingFsBlockDev with
      | MkOk => Ok backingFsBlockDev
      | MkUnsupported => Err "Not suppored"
      | MkErr e => Err e
      end
  end.

(** ** [NewControl] *)

Definition disk_path (part : MaxSpacePartition) : string := PathJoin [PMountpoint part; "cloud-disk"].

(** The target and the name of the link. *)
Definition link_of (prefixPath basePath : string) (part : MaxSpacePartition) : string * string :=
  if decide (prefixPath = "") then (disk_path part, basePath)
  else (TrimPrefix (disk_path part) (PathJoin ["/"; prefixPath]), PathJoin ["/"; prefixPath; basePath]).

Section boot.
Context (sys : BootSys).

(** The base path on a partition: the directory is made unless it is there (a failure is
    only logged), linked, and resolved again. *)
Definition place (prefixPath basePath : string) (part : MaxSpacePartition) (fs : Fs) : outcome string * Fs :=
  let disk := disk_path part in
  let fs := match fs_stat fs disk with
            | None => fs
            | Some _ => match bs_mkdir sys disk with None => made disk fs | Some _ => fs end
            end in
  let '(target, name) := link_of prefixPath basePath part in
  match bs_symlink sys target name with
  | Some e => (Err e, fs)
  | None =>
      let fs := linked target name fs in
      match FindRealPath (fs_lstat fs) (fs_stat fs) prefixPath basePath with
      | (_, Some e) => (Err e, fs)
      | (relBasePath, None) => (Ok relBasePath, fs)
      end
  end.

(** The resolved base path; [None] when a nil controller is returned without an error,
    which happens when no partition is found. *)
Definition resolve (prefixPath basePath : string) (fs : Fs) : outcome (option string) * Fs :=
  match FindRealPath (fs_lstat fs) (fs_stat fs) prefixPath basePath with
  | (relBasePath, None) => (Ok (Some relBasePath), fs)
  | (_, Some err) =>
      if negb (IsNotExist sys err) then (Err err, fs)
      else
        let dir := PathJoin ["/"; prefixPath; Dir basePath] in
        match bs_mkdir sys dir with
        | Some e => (Err e, fs)
        | None =>
            let fs := made dir fs in
            match GetXFSMount prefixPath (bs_mount sys) (bs_parts sys) with
            | Ok part =>
                if decide (PMountpoint part ≠ "") then
                  let '(r, fs) := place prefixPath basePath part fs in
                  (let! rel := r in Ok (Some rel), fs)
                else (Ok None, fs)
            | Err e => (Err e, fs)
            | Panic => (Panic, fs)
            end
        end
  end.

Context `{GoRange}.
Context (k : Kernel) (readdir_err : string → bool) (mknod : string → mknod_result) (qstat : string → Z * Z).

(** The controller, possibly nil, and the state of the quotas. *)
Definition NewControl (prefixPath basePath : string) (fs : Fs) (s : QState) : outcome (option Control * QState) :=
  match resolve prefixPath basePath fs with
  | (Ok None, _) => Ok (None, s)
  | (Ok (Some relBasePath), fs) =>
      let! r := NewControl_init k readdir_err (makeBackingFsDev (fs_stat fs) mknod) qstat
                  prefixPath basePath relBasePath s in
      Ok (Some r.1, r.2)
  | (Err e, _) => Err e
  | (Panic, _) => Panic
  end.

(** The controller of the program with its state, or nil after an error. *)
Definition InitQuotaController (conf : Config) (baseDir : string) (fs : Fs) (s : QState)
    : outcome (option (Control * QState)) :=
  match NewControl baseDir (HostTempDataPath conf) fs s with
  | Ok (Some c, s) => Ok (Some (c, s))
  | Ok (None, _) | Err _ => Ok None
  | Panic => Panic
  end.

End boot.

(** ** Lemmas *)

Lemma elem_of_ancestors p acc ws :
  p ∈ ancestors acc ws ↔ ∃ n, 0 < n ≤ length ws ∧ p = abs_path (acc ++ take n ws).
Proof.
  revert acc. induction ws as [|w ws IH]; intros acc; cbn [ancestors].
  { split; [by intros ?%not_elem_of_nil|intros (n & ? & _); simpl in *; lia]. }
  rewrite elem_of_cons, IH. split.
  - intros [->|(n & Hn & ->)].
    + exists 1. split; [simpl; lia|]. by rewrite firstn_cons, take_0.
    + exists (S n). split; [simpl; lia|]. by rewrite firstn_cons, <-app_assoc.
  - intros (n & Hn & ->). destruct n as [|n]; [lia|]. rewrite firstn_cons. destruct n as [|n].
    + left. by rewrite take_0.
    + right. exists (S n). split; [simpl in *; lia|]. by rewrite <-app_assoc.
Qed.

(** The way to a directory leads over its prefixes. *)
Lemma on_way_prefix cs n :
  Forall comp_ok cs → 0 < n ≤ length cs → abs_path (take n cs) ∈ ancestors [] (path_words (abs_path cs)).
Proof. intros Hcs Hn. rewrite path_words_abs by done. apply elem_of_ancestors. by exists n. Qed.

(** Directories that are no links are walked through. *)
Lemma find_real_walk lstat stat pfx cs ws rest :
  Forall comp_ok (cs ++ ws) → cs ≠ [] →
  (∀ n, 0 < n ≤ length ws → lstat (abs_path (cs ++ take n ws)) = LNoLink) →
  find_real lstat stat pfx (abs_path cs) (ws ++ rest) = find_real lstat stat pfx (abs_path (cs ++ ws)) rest.
Proof.
  revert cs. induction ws as [|w ws IH]; intros cs Hf Hne Hl; [by rewrite app_nil_r|].
  cbn [app find_real]. pose proof Hf as [Hcs [Hw Hws]%Forall_cons]%Forall_app.
  pose proof (Hl 1 ltac:(simpl; lia)) as H1. rewrite firstn_cons, take_0 in H1.
  rewrite PathJoin_abs, H1 by done.
  rewrite (app_assoc cs [w] ws : cs ++ w :: ws = _) in Hf |- *.
  apply IH; [done|by destruct cs|]. intros n Hn. rewrite <-app_assoc. apply (Hl (S n)). simpl. lia.
Qed.

(** A path whose last component is an absolute link leads to the target of the link. *)
Lemma FindRealPath_link lstat stat ps pre w ts :
  Forall comp_ok (ps ++ pre ++ [w]) → Forall comp_ok ts → ps ≠ [] → ts ≠ [] →
  (∀ n, 0 < n ≤ length pre → lstat (abs_path (ps ++ take n pre)) = LNoLink) →
  lstat (abs_path (ps ++ pre ++ [w])) = LIsLink (inr (abs_path ts)) →
  stat (abs_path (ps ++ ts)) = None →
  FindRealPath lstat stat (abs_path ps) (abs_path (pre ++ [w])) = (abs_path (ps ++ ts), None).
Proof.
  intros Hf Hts Hps Htne Hwalk Hlink Hstat. pose proof Hf as [Hfp Hfc]%Forall_app.
  unfold FindRealPath. rewrite HasPrefix_abs_path, andb_false_r.
  rewrite PathJoin_root, clean_words_abs_path by done.
  change (FieldsByte (abs_path (pre ++ [w])) slash) with (path_words (abs_path (pre ++ [w]))).
  rewrite path_words_abs by done. apply Forall_app in Hfc as [Hpre [Hw _]%Forall_cons].
  rewrite find_real_walk; [|by apply Forall_app|done|done]. cbn [find_real].
  rewrite PathJoin_abs; [|by apply Forall_app|by destruct ps|done].
  rewrite <-app_assoc, Hlink, HasPrefix_abs_path. cbn [negb]. by rewrite PathJoin_root2, Hstat.
Qed.

Lemma abs_path_app a b : a ≠ [] → b ≠ [] → abs_path (a ++ b) = abs_path a +:+ abs_path b.
Proof. intros Ha Hb. unfold abs_path. rewrite Join_app by done. by rewrite !str_app_assoc. Qed.

Lemma made_walk dir fs p :
  fs_lstat fs p = LNoLink → fs_lstat (made dir fs) p = LNoLink.
Proof. intros E. unfold made. cbn [fs_lstat]. rewrite E. by destruct (bool_decide _). Qed.

Lemma made_way dir fs p :
  p ∈ ancestors [] (path_words dir) → (∀ t, fs_lstat fs p ≠ LIsLink t) →
  fs_lstat (made dir fs) p = LNoLink ∧ fs_stat (made dir fs) p = None.
Proof.
  intros Hp Hl. unfold made. cbn [fs_lstat fs_stat]. rewrite bool_decide_true by done.
  split; [|done]. destruct (fs_lstat fs p); [by destruct (Hl target)|done|done].
Qed.

(** The directory on the partition is linked and found again. *)
Lemma place_links sys ps pre w ms part fs :
  let disk := abs_path (ps ++ ms ++ ["cloud-disk"]) in let name := abs_path (ps ++ pre ++ [w]) in
  let target := abs_path (ms ++ ["cloud-disk"]) in
  Forall comp_ok (ps ++ pre ++ [w]) → Forall comp_ok ms → ps ≠ [] →
  (∀ n, 0 < n ≤ length pre → fs_lstat fs (abs_path (ps ++ take n pre)) = LNoLink) →
  PMountpoint part = abs_path (ps ++ ms) → bs_mkdir sys disk = None → bs_symlink sys target name = None →
  ∃ fs', place sys (abs_path ps) (abs_path (pre ++ [w])) part fs = (Ok disk, fs') ∧
    fs_stat fs' disk = None ∧ fs_lstat fs' name = LIsLink (inr target).
Proof.
  intros disk name target Hf Hms Hps Hwalk Hmnt Hmk Hsym. pose proof Hf as [Hfp Hfc]%Forall_app.
  assert (comp_ok "cloud-disk") as Hcd by by_decide.
  assert (Forall comp_ok (ms ++ ["cloud-disk"])) as Hfm by (by apply Forall_app; split; [|apply Forall_singleton]).
  assert (disk_path part = disk) as Hdisk.
  { unfold disk_path. rewrite Hmnt, PathJoin_abs; [by rewrite <-app_assoc|by apply Forall_app|by destruct ps|done]. }
  assert (link_of (abs_path ps) (abs_path (pre ++ [w])) part = (target, name)) as Hlink.
  { unfold link_of. rewrite decide_False by done. rewrite Hdisk, PathJoin_root, clean_words_abs_path by done.
    unfold disk. rewrite (abs_path_app ps) by (done || by destruct ms).
    rewrite TrimPrefix_app. f_equal. apply PathJoin_root2; [done..|by destruct pre]. }
  unfold place. rewrite Hdisk, Hlink, Hmk, Hsym.
  set (fs2 := match fs_stat fs disk with None => fs | Some _ => made disk fs end).
  assert (fs_stat fs2 disk = None ∧
    ∀ n, 0 < n ≤ length pre → fs_lstat fs2 (abs_path (ps ++ take n pre)) = LNoLink) as [Hst Hw2].
  { unfold fs2. destruct (fs_stat fs disk) eqn:Es; [|done]. split.
    - unfold made. cbn [fs_stat]. rewrite bool_decide_true; [done|]. unfold disk.
      rewrite <-(firstn_all (ps ++ ms ++ ["cloud-disk"])) at 1. apply on_way_prefix; [by apply Forall_app|].
      split; [|done]. destruct ps; [done|simpl; lia].
    - intros n Hn. by apply made_walk, Hwalk. }
  clearbody fs2. exists (linked target name fs2).
  rewrite (FindRealPath_link _ _ ps pre w (ms ++ ["cloud-disk"])); [|done|done|done|by destruct ms|..].
  - split; [done|]. split; [done|]. cbn [linked fs_lstat]. by rewrite decide_True.
  - intros n Hn. cbn [linked fs_lstat]. rewrite decide_False; [by apply Hw2|].
    intros E%abs_path_inj; [|by apply Forall_app; split; [|apply Forall_take; by apply Forall_app in Hfc as [? _]]|done].
    apply (f_equal length) in E. rewrite !length_app, length_take in E. simpl in E. lia.
  - cbn [linked fs_lstat]. by rewrite decide_True.
  - done.
Qed.

(** ** Where the quotas live *)

(** C35. With a prefix for the root of the host, a base path of at least two components that
    does not exist yet, no links on the way to its parent, a chosen partition that is
    mounted below the prefix at a component boundary, and no system call that fails: the
    base directory is made on that partition. The controller works below the directory
    cloud-disk of the mount point, which the base path then leads to through the link that
    was made, and the rest of the start is that of an existing directory. (A partition at
    /host-data also has the prefix /host; the link made for it does not lead to it, see
    [place_broken].) *)
Theorem NewControl_places `{GoRange} sys k readdir_err mknod qstat ps pre w ms part fs s e x :
  let pfx := abs_path ps in let base := abs_path (pre ++ [w]) in
  let disk := abs_path (ps ++ ms ++ ["cloud-disk"]) in
  let dir := abs_path (ps ++ pre) in
  Forall comp_ok (ps ++ pre ++ [w]) → Forall comp_ok ms → ps ≠ [] → pre ≠ [] →
  FindRealPath (fs_lstat fs) (fs_stat fs) pfx base = (x, Some e) → IsNotExist sys e = true →
  (∀ n t, 0 < n ≤ length pre → fs_lstat fs (abs_path (ps ++ take n pre)) ≠ LIsLink t) →
  bs_mkdir sys dir = None → bs_mkdir sys disk = None →
  GetXFSMount pfx (bs_mount sys) (bs_parts sys) = Ok part → PMountpoint part = abs_path (ps ++ ms) →
  bs_symlink sys (abs_path (ms ++ ["cloud-disk"])) (abs_path (ps ++ pre ++ [w])) = None →
  ∃ fs', resolve sys pfx base fs = (Ok (Some disk), fs') ∧ fs_stat fs' disk = None ∧
    fs_lstat fs' (abs_path (ps ++ pre ++ [w])) = LIsLink (inr (abs_path (ms ++ ["cloud-disk"]))) ∧
    NewControl sys k readdir_err mknod qstat pfx base fs s =
      (let! r := NewControl_init k readdir_err (makeBackingFsDev (fs_stat fs') mknod) qstat pfx base disk s in
       Ok (Some r.1, r.2)).
Proof.
  intros pfx base disk dir Hf Hms Hps Hpre Hfind Hnot Hnolink Hmk1 Hmk2 Hxfs Hmnt Hsym.
  pose proof Hf as [Hfp [Hfpre _]%Forall_app]%Forall_app.
  assert (PathJoin ["/"; pfx; Dir base] = dir) as Hdir.
  { unfold base. rewrite Dir_abs_snoc by (by apply Forall_app in Hf as [_ ?]). by apply PathJoin_root2. }
  destruct (place_links sys ps pre w ms part (made dir fs)) as (fs' & Hplace & Hst & Hln); [done..| |done|done|done|].
  { intros n Hn. apply made_way; [|intros t; by apply Hnolink]. unfold dir.
    replace (ps ++ take n pre) with (take (length ps + n) (ps ++ pre)) by (rewrite take_app_add; done).
    apply on_way_prefix; [by apply Forall_app|]. rewrite length_app. destruct ps; simpl in *; [done|lia]. }
  assert (resolve sys pfx base fs = (Ok (Some disk), fs')) as Hres.
  { unfold resolve. rewrite Hfind, Hnot. cbn [negb]. rewrite Hdir, Hmk1, Hxfs.
    rewrite decide_True by (by rewrite Hmnt). unfold pfx, base. by rewrite Hplace. }
  exists fs'. split; [done|]. split; [done|]. split; [done|]. unfold NewControl. by rewrite Hres.
Qed.

(** An empty node with one xfs partition. *)
Definition new_fs : Fs := mkFs (λ _, LStatErr "no such file") (λ _, Some "no such file").

Definition new_boot : BootSys :=
  mkBoot (λ _, None) (λ _ _, None) (String.eqb "no such file") (mkMountInfo (λ _, Some true) (λ _, Some 9%Z))
    (Some [mkPartStat "/dev/b" "/host/mnt" "xfs" "rw"]).

Lemma NewControl_places_witness :
  ∃ fs', resolve new_boot "/host" "/data/cloud" new_fs = (Ok (Some "/host/mnt/cloud-disk"), fs') ∧
    fs_lstat fs' "/host/data/cloud" = LIsLink (inr "/mnt/cloud-disk").
Proof.
  destruct (NewControl_places (H := range_sorted) new_boot demo_kernel (λ _, false) (λ _, MkOk) (λ _, (0, 0)%Z)
    ["host"] ["data"] "cloud" ["mnt"] (mkPart "/dev/b" "/host/mnt" "xfs" "rw" 9 3) new_fs demo_qstate
    "no such file" "") as (fs' & Hr & _ & Hl & _).
  - by_decide.
  - by_decide.
  - done.
  - done.
  - reflexivity.
  - reflexivity.
  - done.
  - reflexivity.
  - reflexivity.
  - reflexivity.
  - reflexivity.
  - reflexivity.
  - exists fs'. split; [exact Hr|exact Hl].
Defined.

(** A partition beside the prefix: the link is made, but does not lead to the directory. *)
Lemma place_broken :
  let part := mkPart "/dev/b" "/host-data" "xfs" "rw" 9 2 in
  HasPrefix (PMountpoint part) "/host" = true ∧ disk_path part = "/host-data/cloud-disk" ∧
  link_of "/host" "/data/cloud" part = ("-data/cloud-disk", "/host/data/cloud").
Proof. vm_compute. done. Qed.
