(* ===== verification/Token.v ===== *)
(** * Access tokens

    container_log/AESAuth.go: PKCS#7 padding, [GeneratorToken], [Auth],
    [GeneratorJWTToken] and [AuthJWTToken], with [isExpiration] of
    container_log/LogParam.go. AES itself, base64 and JSON are parameters with their
    documented inverse laws; the CBC mode, the padding and the panics that [recover]
    turns into errors are modelled. *)

From S2P Require Import Prelude GoStrings.

Record LogParam := mkLogParam {
  LPHost : string;
  ContainerId : string;
  Operator : string;
  Tail : string;
  TrackNo : string;
  PodLabel : string;
  PodName : string;
  MinioObjName : string;
  ExpirationTime : Z
}.

Definition zeroLogParam : LogParam := mkLogParam "" "" "" "" "" "" "" "" 0.

Definition isExpiration (now : Z) (p : LogParam) : bool := negb (now <? ExpirationTime p)%Z.

Definition isContainerLog (p : LogParam) : bool := bool_decide (PodLabel p = "").

(** ** Padding *)

Definition BlockSize : nat := 16.

Definition PaddingPKCS7 (data : bytes) (blockSize : nat) : bytes :=
  let padding := blockSize - length data mod blockSize in
  data ++ replicate padding (byte_of (Z.of_nat padding)).

Definition UnPaddingPKCS7 (data : bytes) : outcome bytes :=
  match last data with
  | None => Panic
  | Some b =>
      let padding := Z.to_nat (byte_val b) in
      if decide (length data < padding) then Ok data
      else Ok (take (length data - padding) data)
  end.

(** ** The cipher in CBC mode *)

(** [aes.NewCipher]: the keys it accepts, and the two directions of the block cipher. *)
Class AES := {
  key_ok : string → bool;
  Encrypt : string → bytes → bytes;
  Decrypt : string → bytes → bytes;
  Encrypt_length k b : length (Encrypt k b) = BlockSize;
  Decrypt_Encrypt k b : key_ok k = true → length b = BlockSize → Decrypt k (Encrypt k b) = b
}.

(** [base64.StdEncoding]. *)
Class Base64 := {
  EncodeToString : bytes → string;
  DecodeString : string → option bytes;
  Decode_Encode b : DecodeString (EncodeToString b) = Some b
}.

(** [json.Marshal] and [json.Unmarshal] into a [LogParam]; what cannot be parsed leaves
    the fields at their zero values. *)
Class JSON := {
  json_ok : LogParam → Prop;
  Marshal : LogParam → bytes;
  Unmarshal : bytes → LogParam;
  Unmarshal_Marshal p : json_ok p → Unmarshal (Marshal p) = p
}.

Definition byte_xor (a b : ascii) : ascii :=
  match a, b with
  | Ascii a0 a1 a2 a3 a4 a5 a6 a7, Ascii b0 b1 b2 b3 b4 b5 b6 b7 =>
      Ascii (xorb a0 b0) (xorb a1 b1) (xorb a2 b2) (xorb a3 b3)
            (xorb a4 b4) (xorb a5 b5) (xorb a6 b6) (xorb a7 b7)
  end.

Definition xor_block : bytes → bytes → bytes := zip_with byte_xor.

Section cbc.
Context `{AES} (key : string).

Fixpoint cbc_encrypt (n : nat) (prev data : bytes) : bytes :=
  match n with
  | O => []
  | S n' =>
      let c := Encrypt key (xor_block (take BlockSize data) prev) in
      c ++ cbc_encrypt n' c (drop BlockSize data)
  end.

Fixpoint cbc_decrypt (n : nat) (prev data : bytes) : bytes :=
  match n with
  | O => []
  | S n' =>
      let c := take BlockSize data in
      xor_block (Decrypt key c) prev ++ cbc_decrypt n' c (drop BlockSize data)
  end.

(** [CryptBlocks] panics unless the data are full blocks. *)
Definition CryptBlocks (crypt : nat → bytes → bytes → bytes) (iv data : bytes) : outcome bytes :=
  if decide (length data mod BlockSize = 0)
  then Ok (crypt (length data / BlockSize) iv data) else Panic.

End cbc.

(** ** Tokens *)

Section tokens.
Context `{AES, Base64, JSON} (SecretKey : string).

(** A rejected key leaves a nil cipher, whose use panics. *)
Definition GeneratorJWTToken (iv : bytes) (param : bytes) : outcome string :=
  if negb (key_ok SecretKey) then Panic else
  let! chiperText := CryptBlocks (cbc_encrypt SecretKey) iv (PaddingPKCS7 param BlockSize) in
  Ok (EncodeToString (iv ++ chiperText)).

Definition GeneratorToken (iv : bytes) (logParam : LogParam) : outcome string :=
  GeneratorJWTToken iv (Marshal logParam).

(** The part the two checks share; [t[:16]] panics on a shorter token. *)
Definition open_token (token : string) : outcome bytes :=
  match DecodeString token with
  | None => Err "illegal base64 data"
  | Some t =>
      if negb (key_ok SecretKey) then Err "crypto/aes: invalid key size" else
      if decide (length t < BlockSize) then Panic else
      let! plainText := CryptBlocks (cbc_decrypt SecretKey) (take BlockSize t) (drop BlockSize t) in
      UnPaddingPKCS7 plainText
  end.

(** [defer func() { if err := recover() ... }]. *)
Definition recovered {A} (m : outcome A) : outcome A :=
  match m with Panic => Err "invalin token" | _ => m end.

Definition AuthJWTToken (token : string) : outcome bytes := recovered (open_token token).

Definition Auth (now : Z) (token : string) : outcome LogParam :=
  recovered (let! plainText := open_token token in
             let res := Unmarshal plainText in
             if isExpiration now res then Err "token expried" else Ok res).

End tokens.

(** ** Lemmas *)

Lemma UnPadding_Padding data : UnPaddingPKCS7 (PaddingPKCS7 data BlockSize) = Ok data.
Proof.
  unfold UnPaddingPKCS7, PaddingPKCS7, BlockSize.
  pose proof (Nat.mod_upper_bound (length data) 16 ltac:(lia)) as Hm.
  set (p := 16 - length data mod 16). assert (1 ≤ p ≤ 16) as Hp by (unfold p; lia). clearbody p.
  assert (last (data ++ replicate p (byte_of (Z.of_nat p))) = Some (byte_of (Z.of_nat p))) as ->.
  { rewrite last_app. destruct p as [|p]; [lia|]. rewrite replicate_S_end, last_snoc. done. }
  rewrite byte_val_of, Z.mod_small by lia. rewrite Nat2Z.id, length_app, length_replicate.
  rewrite decide_False by lia. f_equal. rewrite Nat.add_sub. apply take_app_length.
Qed.

Lemma Padding_blocks data : length (PaddingPKCS7 data BlockSize) mod BlockSize = 0.
Proof.
  unfold PaddingPKCS7, BlockSize. rewrite length_app, length_replicate.
  pose proof (Nat.mod_upper_bound (length data) 16 ltac:(lia)).
  pose proof (Nat.div_mod_eq (length data) 16) as E.
  replace (length data + (16 - length data mod 16)) with ((length data / 16 + 1) * 16) by lia.
  apply Nat.Div0.mod_mul.
Qed.

Lemma byte_xor_cancel a b : byte_xor (byte_xor a b) b = a.
Proof.
  destruct a, b. simpl. f_equal; by rewrite xorb_assoc_reverse, xorb_nilpotent, xorb_false_r.
Qed.

Lemma xor_block_cancel a b : length a = length b → xor_block (xor_block a b) b = a.
Proof.
  revert b. induction a as [|x a IH]; intros [|y b] Hl; simplify_eq/=; [done|].
  unfold xor_block in *. simpl. by rewrite byte_xor_cancel, IH.
Qed.

Section cbc_lemmas.
Context `{AES} (key : string) (Hkey : key_ok key = true).

Lemma cbc_roundtrip n : ∀ prev data,
  length data = n * BlockSize → length prev = BlockSize →
  cbc_decrypt key n prev (cbc_encrypt key n prev data) = data.
Proof.
  induction n as [|n IH]; intros prev data Hd Hp; cbn [cbc_encrypt cbc_decrypt].
  { by apply length_zero_iff_nil in Hd. }
  set (c := Encrypt key _). assert (length c = BlockSize) as Hc by apply Encrypt_length.
  rewrite take_app_length', drop_app_length' by done.
  rewrite IH; [|rewrite length_drop, Hd, Nat.mul_succ_l; lia|done].
  unfold c. assert (length (take BlockSize data) = BlockSize) as Ht.
  { rewrite length_take, Hd, Nat.mul_succ_l. lia. }
  rewrite Decrypt_Encrypt; [|done|unfold xor_block; rewrite length_zip_with; lia].
  rewrite xor_block_cancel by lia. by rewrite take_drop.
Qed.

Lemma cbc_encrypt_length n : ∀ prev data, length (cbc_encrypt key n prev data) = n * BlockSize.
Proof.
  induction n as [|n IH]; intros prev data; simpl; [done|]. by rewrite length_app, IH, Encrypt_length.
Qed.

End cbc_lemmas.

Lemma open_generated `{AES, Base64} key iv param token :
  length iv = BlockSize → GeneratorJWTToken key iv param = Ok token → open_token key token = Ok param.
Proof.
  intros Hiv E. unfold GeneratorJWTToken in E. destruct (key_ok key) eqn:Hk; [|done]. simpl in E.
  unfold CryptBlocks in E. rewrite decide_True in E by apply Padding_blocks. injection E as <-.
  unfold open_token. rewrite Decode_Encode, Hk. simpl.
  rewrite decide_False by (rewrite length_app; lia).
  rewrite take_app_length', drop_app_length' by done.
  set (data := PaddingPKCS7 param BlockSize). set (n := length data / BlockSize).
  assert (length data = n * BlockSize) as Hn.
  { pose proof (Padding_blocks param) as Hz. fold data in Hz.
    pose proof (Nat.div_mod_eq (length data) BlockSize) as Hdm. fold n in Hdm. rewrite Hz in Hdm. lia. }
  unfold CryptBlocks. rewrite cbc_encrypt_length.
  rewrite decide_True by apply Nat.Div0.mod_mul. rewrite Nat.div_mul by done. simpl.
  rewrite cbc_roundtrip by done. apply UnPadding_Padding.
Qed.

Lemma Generator_total `{AES, Base64} key iv param :
  key_ok key = true → ∃ token, GeneratorJWTToken key iv param = Ok token.
Proof.
  intros Hk. unfold GeneratorJWTToken, CryptBlocks. rewrite Hk. simpl.
  rewrite decide_True by apply Padding_blocks. eauto.
Qed.

(** C13: a token generated with an accepted key and a 16-byte initialisation vector is
    accepted, and gives back exactly the bytes it was made from, whatever their length. *)
Theorem jwt_roundtrip `{AES, Base64} key iv param :
  key_ok key = true → length iv = BlockSize →
  ∃ token, GeneratorJWTToken key iv param = Ok token ∧ AuthJWTToken key token = Ok param.
Proof.
  intros Hk Hiv. destruct (Generator_total key iv param Hk) as [token E]. exists token.
  split; [done|]. unfold AuthJWTToken. by rewrite (open_generated key iv param token).
Qed.

(** C32: the check of a log token never panics and never accepts an expired token,
    whatever the token is; and the token generated for parameters is accepted exactly
    while they have not expired, giving the same parameters back. *)
Theorem token_expiry `{AES, Base64, JSON} key now :
  (∀ token, Auth key now token ≠ Panic ∧ AuthJWTToken key token ≠ Panic) ∧
  (∀ token p, Auth key now token = Ok p → (now < ExpirationTime p)%Z) ∧
  (∀ iv p, key_ok key = true → length iv = BlockSize → json_ok p →
     ∃ token, GeneratorToken key iv p = Ok token ∧
       Auth key now token = if (now <? ExpirationTime p)%Z then Ok p else Err "token expried").
Proof.
  split_and!.
  - intros token. split; unfold Auth, AuthJWTToken; by destruct (open_token key token) as [t| |];
      simpl; repeat case_match.
  - intros token p E. unfold Auth in E. destruct (open_token key token) as [t| |]; simpl in E; [|done..].
    unfold isExpiration in E. destruct (Z.ltb_spec now (ExpirationTime (Unmarshal t))); by simplify_eq/=.
  - intros iv p Hk Hiv Hp. destruct (Generator_total key iv (Marshal p) Hk) as [token E]. exists token.
    split; [done|]. unfold Auth. rewrite (open_generated key iv (Marshal p) token) by done. simpl.
    rewrite Unmarshal_Marshal by done. unfold isExpiration. by destruct (now <? ExpirationTime p)%Z.
Qed.

(** ** An instance and witnesses *)

(** A block cipher for tests: the block xor-ed with a fixed byte, cut or filled to size. *)
Definition fit (b : bytes) : bytes := take BlockSize (b ++ replicate BlockSize zero).

Lemma fit_length b : length (fit b) = BlockSize.
Proof. unfold fit. rewrite length_take, length_app, length_replicate. lia. Qed.

Lemma fit_id b : length b = BlockSize → fit b = b.
Proof. intros Hb. unfold fit. by rewrite take_app_length'. Qed.

Definition mask (b : bytes) : bytes := (λ x, byte_xor x one) <$> b.

Program Definition toy_aes : AES := {|
  key_ok := λ k, bool_decide (String.length k = 16);
  Encrypt := λ _ b, fit (mask b);
  Decrypt := λ _ b, mask b
|}.
Next Obligation. intros. apply fit_length. Qed.
Next Obligation.
  intros k b _ Hb. simpl. rewrite fit_id by (unfold mask; by rewrite length_fmap).
  unfold mask. rewrite <-list_fmap_compose. rewrite <-(list_fmap_id b) at 2.
  apply list_fmap_ext. intros i x _. apply byte_xor_cancel.
Qed.

Program Definition plain_base64 : Base64 := {|
  EncodeToString := string_of_list_ascii;
  DecodeString := λ s, Some (list_ascii_of_string s)
|}.
Next Obligation. intros b. simpl. f_equal. apply Stdlib.Strings.String.list_ascii_of_string_of_list_ascii. Qed.

Lemma jwt_roundtrip_witness :
  ∃ token, GeneratorJWTToken (H := toy_aes) (H0 := plain_base64) "0123456789abcdef"
             (replicate 16 zero) (str_elems "hello") = Ok token ∧
           AuthJWTToken (H := toy_aes) (H0 := plain_base64) "0123456789abcdef" token
             = Ok (str_elems "hello").
Proof.
  apply (jwt_roundtrip (H := toy_aes) (H0 := plain_base64)); reflexivity.
Defined.

Definition demo_param : LogParam := mkLogParam "localhost" "a2e31b25d36e" "log" "50000" "" "" "" "" 100.

Program Definition one_param_json : JSON := {|
  json_ok := λ p, p = demo_param;
  Marshal := λ _, str_elems "{}";
  Unmarshal := λ b, if decide (b = str_elems "{}") then demo_param else zeroLogParam
|}.
Next Obligation. intros p ->. reflexivity. Qed.

Lemma token_expiry_witness :
  ∃ token, GeneratorToken (H := toy_aes) (H0 := plain_base64) (H1 := one_param_json)
             "0123456789abcdef" (replicate 16 zero) demo_param = Ok token ∧
           Auth (H := toy_aes) (H0 := plain_base64) (H1 := one_param_json)
             "0123456789abcdef" 99 token = Ok demo_param.
Proof.
  destruct (token_expiry (H := toy_aes) (H0 := plain_base64) (H1 := one_param_json)
    "0123456789abcdef" 99) as (_ & _ & Hgen).
  destruct (Hgen (replicate 16 zero) demo_param) as (token & E & A); [reflexivity..|].
  exists token. split; [exact E|]. rewrite A. reflexivity.
Defined.
