(* ===== verification/JwtToken.v ===== *)
(** * Signed tokens

    container_log/JwtAuth.go: [Auth] and [GeneratorToken], the tokens of an earlier form,
    which only the tests still use. The package jwt is a class [JWT] with the part of its
    documentation that the code relies on. *)

From S2P Require Import Prelude GoStrings Token.

(** The claims: the parameter and the second at which it expires, if there is one. *)
Record Claims := mkClaims { cl_param : LogParam; cl_expires : option Z }.

(** [NewWithClaims(HS256, c).SignedString(key)] and [ParseWithClaims] at a time, in
    nanoseconds. A token that was signed is parsed with the same key, as valid until it
    expires and with an error afterwards; whatever is parsed without an error has not
    expired. *)
Class JWT := {
  SignedString : string → Claims → string + string;
  ParseWithClaims : string → Z → string → string + Claims * bool;
  Parse_Signed key now c t : SignedString key c = inr t →
    match cl_expires c with Some e => (now < e * 10 ^ 9)%Z | None => True end → ParseWithClaims key now t = inr (c, true);
  Parse_alive key now t c v : ParseWithClaims key now t = inr (c, v) →
    match cl_expires c with Some e => (now < e * 10 ^ 9)%Z | None => True end
}.

Section jwt.
Context `{JWT} (SecretKey : string).

(** [None] is a nil parameter with a nil error. *)
Definition jwt_Auth (now : Z) (token : string) : outcome (option LogParam) :=
  match ParseWithClaims SecretKey now token with
  | inl err => Err err
  | inr (claims, valid) => if valid then Ok (Some (cl_param claims)) else Ok None
  end.

(** [time.Now().Add(time.Second * time.Duration(live))], cut to seconds by [NewNumericDate]. *)
Definition jwt_expiry (now live : Z) : Z := ((now + i64 (live * 10 ^ 9)) / 10 ^ 9)%Z.

Definition jwt_GeneratorToken (now : Z) (logParam : LogParam) (live : Z) : outcome string :=
  match SignedString SecretKey (mkClaims logParam (Some (jwt_expiry now live))) with
  | inl err => Err err
  | inr t => Ok t
  end.

(** A token is accepted with its parameter for its time to live, less the part of a second
    that is cut off, and not a moment longer. *)
Theorem jwt_token_lives now now' param live token :
  (0 <= live < 2 ^ 32)%Z → jwt_GeneratorToken now param live = Ok token →
  ((now' < (now + live * 10 ^ 9) / 10 ^ 9 * 10 ^ 9)%Z → jwt_Auth now' token = Ok (Some param)) ∧
  ((now' <= now + live * 10 ^ 9 - 10 ^ 9)%Z → jwt_Auth now' token = Ok (Some param)) ∧
  (∀ key c v, ParseWithClaims key now' token = inr (c, v) → cl_expires c = Some (jwt_expiry now live) →
     (now' < now + live * 10 ^ 9)%Z).
Proof.
  intros Hl. unfold jwt_GeneratorToken. destruct (SignedString _ _) as [|t] eqn:Es; [done|]. intros [= ->].
  assert (jwt_expiry now live = (now + live * 10 ^ 9) / 10 ^ 9)%Z as He.
  { unfold jwt_expiry. by rewrite i64_small by (unfold in_i64; lia). }
  assert ((now' < (now + live * 10 ^ 9) / 10 ^ 9 * 10 ^ 9)%Z → jwt_Auth now' token = Ok (Some param)) as Hok.
  { intros Hn. unfold jwt_Auth. rewrite (Parse_Signed SecretKey now' _ token Es); [done|]. simpl. by rewrite He. }
  split; [done|]. split.
  - intros Hn. apply Hok. pose proof (Z.mod_pos_bound (now + live * 10 ^ 9) (10 ^ 9)).
    pose proof (Z.div_mod (now + live * 10 ^ 9) (10 ^ 9)). lia.
  - intros key c v Hp Hc. apply Parse_alive in Hp. rewrite Hc, He in Hp.
    pose proof (Z.div_mod (now + live * 10 ^ 9) (10 ^ 9)). pose proof (Z.mod_pos_bound (now + live * 10 ^ 9) (10 ^ 9)). lia.
Qed.

End jwt.

(** ** An instance *)

#[global] Instance LogParam_eq_dec : EqDecision LogParam.
Proof. solve_decision. Defined.

(** A package that signs one parameter. *)
Definition one_claim : Claims := mkClaims (mkLogParam "" "c1" "log" "" "" "" "" "" 0) (Some 60%Z).

#[local] Program Instance one_jwt : JWT := {|
  SignedString _ c := if decide (cl_param c = cl_param one_claim ∧ cl_expires c = cl_expires one_claim) then inr "t" else inl "other";
  ParseWithClaims _ now t := if decide (t = "t" ∧ (now < 60 * 10 ^ 9)%Z) then inr (one_claim, true) else inl "expired"
|}.
Next Obligation. intros key now [p e] t. simpl. case_decide as Hc; [|done]. destruct Hc as [-> ->]. intros [= <-] Hn. by rewrite decide_True. Qed.
Next Obligation. intros key now t c v. simpl. case_decide as Hc; [|done]. intros [= <- <-]. apply Hc. Qed.

Example jwt_token_lives_example : jwt_Auth "k" (59 * 10 ^ 9) "t" = Ok (Some (cl_param one_claim)).
Proof. by apply (jwt_token_lives "k" (10 ^ 9) (59 * 10 ^ 9) (cl_param one_claim) 59 "t"). Qed.
