(* ===== verification/QuotaService.v ===== *)
(** * The quota service

    Service/QuotaService.go: the handlers of the quota requests with [callback]; the routes
    of server/WebServer.go that lead to them; [GetQuotaControl] of utils/Common.go.

    A request carries its own token. A token for the host "localhost" makes the node act
    ([Quota]); any other valid token makes it mint a token for "localhost" ([Token]) and
    pass the request on to the node named in the body, through the clients of [Clients].
    A handler takes the quota state of the node to the answer written, the requests sent,
    the goroutines started and the new state.

    [retry.Do] of avast/retry-go, JSON and the network are parameters. *)

From S2P Require Import Prelude GoStrings GoPath Quota Token Clients.

(** ** Data *)

Record AuthParam := mkAuthParam { Host : string; APExpirationTime : Z }.

Definition AuthParam_isExpiration (now : Z) (p : AuthParam) : bool :=
  if (now <? APExpirationTime p)%Z then false else true.

Record QuotaParam := mkQuotaParam {
  QAuthParam : AuthParam;
  QToken : string;
  ImageName : string;
  TargetPath : string;
  QQuota : Z;
  CallBackUrl : string;
  Async : Z
}.

Definition with_auth (a : AuthParam) (p : QuotaParam) : QuotaParam :=
  mkQuotaParam a (QToken p) (ImageName p) (TargetPath p) (QQuota p) (CallBackUrl p) (Async p).
Definition with_token (t : string) (p : QuotaParam) : QuotaParam :=
  mkQuotaParam (QAuthParam p) t (ImageName p) (TargetPath p) (QQuota p) (CallBackUrl p) (Async p).

(** The data of an answer. *)
Inductive ResData := DNil | DParam (p : QuotaParam) | DInfo (i : QuotaInfo).

(** [encoding/json] on these types: decoding what was encoded gives it back, when the
    strings are valid UTF-8 and the numbers in range ([auth_ok], [param_ok]). Decoding a
    request fills what it can; its error is only logged. *)
Class QuotaJSON := {
  auth_ok : AuthParam → Prop;
  MarshalAuth : AuthParam → bytes;
  UnmarshalAuth : bytes → string + AuthParam;
  Unmarshal_MarshalAuth a : auth_ok a → UnmarshalAuth (MarshalAuth a) = inr a;
  auth_ok_localhost t : in_i64 t → auth_ok (mkAuthParam "localhost" t);
  param_ok : QuotaParam → Prop;
  MarshalParam : QuotaParam → bytes;
  DecodeParam : bytes → QuotaParam;
  Decode_MarshalParam p : param_ok p → DecodeParam (MarshalParam p) = p;
  MarshalRes : BaseResult ResData → bytes
}.

(** [retry.Do(f, retry.Attempts(n))] calls [f] until it succeeds, at most [n] times, and
    returns an error when it never did. *)
Class Retry := {
  retry_Do {S : Type} : nat → (S → option string * S) → S → option string * S;
  retry_ok {S} n f (s s' : S) : 0 < n → f s = (None, s') → retry_Do n f s = (None, s');
  retry_again {S} n f (s s' : S) e : f s = (Some e, s') → 0 < n →
    (retry_Do (Datatypes.S n) f s).2 = (retry_Do n f s').2 ∧
    (is_Some (retry_Do (Datatypes.S n) f s).1 ↔ is_Some (retry_Do n f s').1);
  retry_last {S} f (s s' : S) e : f s = (Some e, s') → ∃ m, retry_Do 1 f s = (Some m, s')
}.

(** What a node has: its configuration, the controller of [GetQuotaControl] and the local
    Docker client (both possibly nil), its kernel and file system. *)
Record Node := mkNode {
  nd_conf : Config;
  quotaController : option Control;
  nd_kernel : Kernel;
  nd_lstat : string → lstat_result;
  nd_stat : string → option string;
  nd_statfs : string → string + Statfs_t;
  localDockerClient : option (string → option (gmap string string))
}.

Definition GetQuotaControl (n : Node) : outcome Control :=
  match quotaController n with
  | None => Err "Quota not support"
  | Some c => Ok c
  end.

(** Goroutines a handler starts. *)
Inductive job :=
| GoCallback (url : string) (status : Z) (res : bytes)
| GoRelease (host : string) (param : QuotaParam).

Record Request := mkRequest { rq_via : Transport; rq_url : string; rq_body : bytes }.

(** A handler at work: the answer, the requests sent, the goroutines, the quota state. *)
Record HState := mkH {
  h_rw : ResponseWriter;
  h_posts : list Request;
  h_go : list job;
  h_quota : QState
}.

Definition set_rw (f : ResponseWriter → ResponseWriter) (h : HState) : HState :=
  mkH (f (h_rw h)) (h_posts h) (h_go h) (h_quota h).
Definition go (j : job) (h : HState) : HState :=
  mkH (h_rw h) (h_posts h) (h_go h ++ [j]) (h_quota h).
Definition set_quota (s : QState) (h : HState) : HState :=
  mkH (h_rw h) (h_posts h) (h_go h) s.
Definition startH (s : QState) : HState := mkH newRW [] [] s.

Definition API_SETQUOTA := "/api/setDirQuota".
Definition API_GETDIRQUOTAINFO := "/api/getDirQuotaInfo".
Definition API_GETNODESPACEINFO := "/api/getNodeSpaceInfo".
Definition API_RELEASEDIR := "/api/releaseDir".
Definition API_GETIMAGEQUOTAINFO := "/api/getImageQuotaInfo".

(** The requests [callback] makes. *)
Definition callback (url : string) (status : Z) (res : bytes) : list (string * bytes) :=
  if decide (url ≠ "") then [(url, res)] else [].

(** ** Handlers *)

Section handlers.
Context `{AES, Base64, QuotaJSON, Retry}.
(** [url.Parse] and [regexp.Compile]. *)
Context (Parse : string → option string) (Compile : string → option (string → bool)).

(** The network: the answer to the n-th request, or an error. *)
Context (post : nat → Request → string + bytes).
(** The node, the clock in milliseconds and the random initialisation vector. *)
Context (n : Node) (now : Z) (iv : bytes).

Definition reject_first (e : string) (h : HState) : HState :=
  set_rw (λ w, RW_Write (str_elems e) (WriteHeader StatusUnauthorized w)) h.
Definition reject_late (e : string) (h : HState) : HState :=
  set_rw (λ w, WriteHeader StatusUnauthorized (RW_Write (str_elems e) w)) h.

Definition success (msg : string) (d : ResData) (h : HState) : HState :=
  set_rw (λ w, (SUCCESS_RES MarshalRes msg d w).2) h.
Definition fail (msg : string) (d : ResData) (h : HState) : HState :=
  set_rw (λ w, (FAIL_RES MarshalRes msg d w).2) h.

(** [AuthJWTToken] and [json.Unmarshal] of its result. *)
Definition check_token (token : string) : outcome AuthParam :=
  let! res := AuthJWTToken (SecretKey (nd_conf n)) token in
  match UnmarshalAuth res with
  | inl e => Err e
  | inr hostParam => Ok hostParam
  end.

(** The closure given to [retry.Do]. *)
Definition post_once (host url : string) (jsonString : bytes) (param : QuotaParam) (h : HState)
    : option string * HState :=
  let rq := mkRequest (GetHttpClient (nd_conf n) Parse Compile host) url jsonString in
  let h' := mkH (h_rw h) (h_posts h ++ [rq]) (h_go h) (h_quota h) in
  match post (length (h_posts h)) rq with
  | inl err2 => (Some err2, h')
  | inr r =>
      let h' := if (Async param =? 0)%Z then set_rw (RW_Write r) h' else h' in
      (None, go (GoCallback (CallBackUrl param) 1 r) h')
  end.

(** A token for the next node; the error of [GeneratorJWTToken] is never set, and where it
    is looked at, a nil error would be dereferenced. *)
Definition mint (a : AuthParam) : outcome string :=
  match GeneratorJWTToken (SecretKey (nd_conf n)) iv (MarshalAuth a) with
  | Ok t => Ok t
  | _ => Panic
  end.

(** [resBody = utils.FAIL_RES(...); go callback(...)], with the status before or after. *)
Definition failed_first (e : string) (param : QuotaParam) (h : HState) : HState :=
  let h := set_rw (WriteHeader StatusBadRequest) h in
  let resBody := (FAIL_RES MarshalRes e DNil (h_rw h)).1 in
  go (GoCallback (CallBackUrl param) 0 resBody) (fail e DNil h).
Definition failed_late (e : string) (param : QuotaParam) (h : HState) : HState :=
  let resBody := (FAIL_RES MarshalRes e DNil (h_rw h)).1 in
  go (GoCallback (CallBackUrl param) 0 resBody) (set_rw (WriteHeader StatusBadRequest) (fail e DNil h)).

Definition GetImageDiskQuotaInfoHandler (body : bytes) (s : QState) : outcome HState :=
  let param := DecodeParam body in
  let h := startH s in
  match check_token (QToken param) with
  | Panic => Panic
  | Err e => Ok (reject_first e h)
  | Ok hostParam =>
      if decide (Host hostParam = "localhost") then
        match GetQuotaControl n with
        | Ok quotaControl =>
            match localDockerClient n with
            | None => Ok (fail "client not init" (DParam param) h)
            | Some inspect =>
                match GetImageDiskQuotaInfo quotaControl (nd_lstat n) (nd_stat n) (nd_statfs n)
                        inspect (ImageName param) with
                | Ok quotaInfo => Ok (success "success" (DInfo quotaInfo) h)
                | Err e => Ok (fail e DNil h)
                | Panic => Panic
                end
            end
        | Err e => Ok (fail e (DParam param) h)
        | Panic => Panic
        end
      else
        let host := Host (QAuthParam param) in
        let param := with_auth (mkAuthParam "localhost" (i64 (now + 1000 * 2))) param in
        let! t := mint (QAuthParam param) in
        let param := with_token t param in
        let jsonString := MarshalParam param in
        let url := GetURLByHost (nd_conf n) host +:+ API_GETIMAGEQUOTAINFO in
        let '(requestError, h) := retry_Do 3 (post_once host url jsonString param) h in
        match requestError with
        | None => Ok h
        | Some e => Ok (failed_first e param h)
        end
  end.

Definition GetNodeSpaceInfoHandler (body : bytes) (s : QState) : outcome HState :=
  let param := DecodeParam body in
  let h := startH s in
  match check_token (QToken param) with
  | Panic => Panic
  | Err e => Ok (reject_late e h)
  | Ok hostParam =>
      if decide (Host hostParam = "localhost") then
        match GetQuotaControl n with
        | Ok quotaControl =>
            match GetNodeSpaceInfo quotaControl (nd_statfs n) (TargetPath param) with
            | Ok quotaInfo => Ok (success "success" (DInfo quotaInfo) h)
            | Err e => Ok (fail e DNil h)
            | Panic => Panic
            end
        | Err e => Ok (fail e (DParam param) h)
        | Panic => Panic
        end
      else
        let host := Host (QAuthParam param) in
        let param := with_auth (mkAuthParam "localhost" 0) param in
        let! t := mint (QAuthParam param) in
        let param := with_token t param in
        let jsonString := MarshalParam param in
        let url := GetURLByHost (nd_conf n) host +:+ API_GETNODESPACEINFO in
        let '(requestError, h) := retry_Do 3 (post_once host url jsonString param) h in
        match requestError with
        | None => Ok h
        | Some e => Ok (failed_late e param h)
        end
  end.

Definition doReleaseFunc (host : string) (param : QuotaParam) (h : HState) : HState :=
  let jsonString := MarshalParam param in
  let url := GetURLByHost (nd_conf n) host +:+ API_RELEASEDIR in
  let '(requestError, h) := retry_Do 3 (post_once host url jsonString param) h in
  match requestError with
  | None => h
  | Some e =>
      let resBody := (FAIL_RES MarshalRes e DNil (h_rw h)).1 in
      let h := fail e DNil h in
      let h := if (Async param =? 0)%Z then set_rw (WriteHeader StatusBadRequest) h else h in
      go (GoCallback (CallBackUrl param) 0 resBody) h
  end.

Definition ReleaseDirHandler (body : bytes) (s : QState) : outcome HState :=
  let param := DecodeParam body in
  let h := startH s in
  match check_token (QToken param) with
  | Panic => Panic
  | Err e => Ok (reject_late e h)
  | Ok hostParam =>
      if decide (Host hostParam = "localhost") then
        match GetQuotaControl n with
        | Ok quotaControl =>
            let '(s', r) := ReleaseDir quotaControl (nd_kernel n) (TargetPath param) s in
            let h := set_quota s' h in
            match r with
            | Ok _ => Ok (success "success" (DParam param) h)
            | Err e => Ok (fail e DNil h)
            | Panic => Panic
            end
        | Err e => Ok (fail e (DParam param) h)
        | Panic => Panic
        end
      else
        let host := Host (QAuthParam param) in
        let param := with_auth (mkAuthParam "localhost" 0) param in
        let! t := mint (QAuthParam param) in
        let param := with_token t param in
        if (0 <? Async param)%Z
        then Ok (success "request success" (DParam param) (go (GoRelease host param) h))
        else Ok (doReleaseFunc host param h)
  end.

Definition SetDirQuotaHandler (body : bytes) (s : QState) : outcome HState :=
  let param := DecodeParam body in
  let h := startH s in
  match check_token (QToken param) with
  | Panic => Panic
  | Err e => Ok (reject_late e h)
  | Ok hostParam =>
      if decide (Host hostParam = "localhost") then
        match GetQuotaControl n with
        | Ok quotaControl =>
            let '(s', r) :=
              SetDirQuota quotaControl (nd_kernel n) (TargetPath param) (QQuota param) s in
            let h := set_quota s' h in
            match r with
            | Ok _ => Ok (success "success" (DParam param) h)
            | Err e => Ok (fail e (DParam param) h)
            | Panic => Panic
            end
        | Err e => Ok (fail e (DParam param) h)
        | Panic => Panic
        end
      else
        let host := Host (QAuthParam param) in
        let param := with_auth (mkAuthParam "localhost" 0) param in
        let! t := mint (QAuthParam param) in
        let param := with_token t param in
        let jsonString := MarshalParam param in
        let url := GetURLByHost (nd_conf n) host +:+ API_SETQUOTA in
        let '(requestError, h) := retry_Do 3 (post_once host url jsonString param) h in
        match requestError with
        | None => Ok h
        | Some e => Ok (failed_late e param h)
        end
  end.

Definition GetDirQuotaInfoHandler (body : bytes) (s : QState) : outcome HState :=
  let param := DecodeParam body in
  let h := startH s in
  match check_token (QToken param) with
  | Panic => Panic
  | Err e => Ok (reject_first e h)
  | Ok hostParam =>
      if decide (Host hostParam = "localhost") then
        match GetQuotaControl n with
        | Ok quotaControl =>
            match GetDirQuota quotaControl (nd_kernel n) s (TargetPath param) with
            | Ok quotaInfo => Ok (success "success" (DInfo quotaInfo) h)
            | Err e => Ok (fail e DNil h)
            | Panic => Panic
            end
        | Err e => Ok (fail e (DParam param) h)
        | Panic => Panic
        end
      else
        let host := Host (QAuthParam param) in
        let param := with_auth (mkAuthParam "localhost" (i64 (now + 1000 * 2))) param in
        let! t := mint (QAuthParam param) in
        let param := with_token t param in
        let jsonString := MarshalParam param in
        let url := GetURLByHost (nd_conf n) host +:+ API_GETDIRQUOTAINFO in
        let '(requestError, h) := retry_Do 3 (post_once host url jsonString param) h in
        match requestError with
        | None => Ok h
        | Some e => Ok (failed_first e param h)
        end
  end.

(** A goroutine that runs later: what it sends, and what it writes to the
    [ResponseWriter] of the handler. The handler has returned by then, and net/http does
    not say what becomes of such a write (the answer is complete; the goroutine, which has
    no [recover], may panic), so it is kept apart from the answer. *)
Definition run_job (j : job) (h : HState) : HState * ResponseWriter :=
  match j with
  | GoCallback url status res => (h, newRW)
  | GoRelease host param =>
      let h' := doReleaseFunc host param (mkH newRW (h_posts h) (h_go h) (h_quota h)) in
      (mkH (h_rw h) (h_posts h') (h_go h') (h_quota h'), h_rw h')
  end.

(** The routes; [None]: no handler of this file. *)
Definition serve (route : string) : option (bytes → QState → outcome HState) :=
  if decide (route = API_SETQUOTA) then Some SetDirQuotaHandler
  else if decide (route = API_GETNODESPACEINFO) then Some GetNodeSpaceInfoHandler
  else if decide (route = API_GETDIRQUOTAINFO) then Some GetDirQuotaInfoHandler
  else if decide (route = API_RELEASEDIR) then Some ReleaseDirHandler
  else if decide (route = API_GETIMAGEQUOTAINFO) then Some GetImageDiskQuotaInfoHandler
  else None.

End handlers.

(** ** Lemmas *)

Section lemmas.
Context `{AES, Base64, QuotaJSON, Retry}.
Context (Parse : string → option string) (Compile : string → option (string → bool)).
Context (post : nat → Request → string + bytes) (n : Node) (now : Z) (iv : bytes).

Abbreviation once := (post_once Parse Compile post n).

(** Three attempts that fail leave the state of the third. *)
Lemma retry_three {S} (f : S → option string * S) s s1 s2 s3 e1 e2 e3 :
  f s = (Some e1, s1) → f s1 = (Some e2, s2) → f s2 = (Some e3, s3) →
  ∃ m, retry_Do 3 f s = (Some m, s3).
Proof.
  intros E1 E2 E3. destruct (retry_last f s2 s3 e3 E3) as [m Em].
  destruct (retry_again 1 f s1 s2 e2 E2 ltac:(lia)) as [A1 A2].
  destruct (retry_again 2 f s s1 e1 E1 ltac:(lia)) as [B1 B2].
  rewrite Em in A1, A2. rewrite A1 in B1. simpl in B1.
  assert (is_Some (retry_Do 3 f s).1) as [m' Em'] by (apply B2, A2; by eexists).
  exists m'. destruct (retry_Do 3 f s). simpl in *. congruence.
Qed.

(** What holds after every call holds after [retry.Do]. *)
Lemma retry_inv {S} (P : S → Prop) (f : S → option string * S) k s :
  (∀ s, P s → P (f s).2) → P s → 0 < k → P (retry_Do k f s).2.
Proof.
  intros Hf. revert s. induction k as [|k IH]; intros s HP Hk; [lia|].
  pose proof (Hf s HP) as HP'. destruct (f s) as [[e|] s'] eqn:E; simpl in HP'.
  - destruct k as [|k].
    + destruct (retry_last f s s' e E) as [m ->]. done.
    + destruct (retry_again (Datatypes.S k) f s s' e E ltac:(lia)) as [-> _]. apply IH; [done|lia].
  - by rewrite (retry_ok (Datatypes.S k) f s s') by (lia || done).
Qed.

Lemma post_once_quota host url js param h : h_quota (once host url js param h).2 = h_quota h.
Proof. unfold post_once. destruct (post _ _); [done|]. by destruct (Async param =? 0)%Z. Qed.

Lemma retry_quota host url js param h :
  h_quota (retry_Do 3 (once host url js param) h).2 = h_quota h.
Proof.
  apply (retry_inv (λ h', h_quota h' = h_quota h)); [|done|lia].
  intros h' E. by rewrite post_once_quota.
Qed.

Lemma retry_quota_eq host url js param h r h' :
  retry_Do 3 (once host url js param) h = (r, h') → h_quota h' = h_quota h.
Proof. intros E. by rewrite <-(retry_quota host url js param h), E. Qed.

Lemma doRelease_quota host param h :
  h_quota (doReleaseFunc Parse Compile post n host param h) = h_quota h.
Proof.
  unfold doReleaseFunc. destruct (retry_Do 3 _ h) as [[e|] h'] eqn:E;
    apply retry_quota_eq in E; [|done]. by destruct (Async param =? 0)%Z.
Qed.

(** A token that opens shows that the key is accepted, so minting one succeeds. *)
Lemma check_token_key token a : check_token n token = Ok a → key_ok (SecretKey (nd_conf n)) = true.
Proof.
  unfold check_token, AuthJWTToken, open_token. destruct (DecodeString token); [|done].
  by destruct (key_ok _).
Qed.

Lemma check_token_no_panic token : check_token n token ≠ Panic.
Proof.
  unfold check_token, AuthJWTToken, recovered.
  destruct (open_token _ token) as [b|e|]; simpl; try done. by destruct (UnmarshalAuth b).
Qed.

Lemma mint_opens a :
  key_ok (SecretKey (nd_conf n)) = true →
  ∃ t, mint n iv a = Ok t ∧
    (length iv = BlockSize → auth_ok a → ∀ n', SecretKey (nd_conf n') = SecretKey (nd_conf n) →
       check_token n' t = Ok a).
Proof.
  intros Hk. destruct (Generator_total _ iv (MarshalAuth a) Hk) as [t E].
  exists t. unfold mint. rewrite E. split; [done|]. intros Hiv Ha n' Hn.
  unfold check_token, AuthJWTToken. rewrite Hn, (open_generated _ iv _ t Hiv E). simpl.
  by rewrite Unmarshal_MarshalAuth.
Qed.

End lemmas.

(** ** Who may change quotas *)

Section theorems.
Context `{AES, Base64, QuotaJSON, Retry}.
Context (Parse : string → option string) (Compile : string → option (string → bool)).

(** The branch that passes a request on leaves the quotas alone and does not panic. *)
Lemma forward_ok post n iv host url (a : AuthParam) s
    (js : string → bytes) (p : string → QuotaParam) (fin : string → string → HState → HState) :
  (∀ t e h, h_quota (fin t e h) = h_quota h) →
  key_ok (SecretKey (nd_conf n)) = true →
  ∃ h, (let! t := mint n iv a in
        let '(requestError, h) :=
          retry_Do 3 (post_once Parse Compile post n host url (js t) (p t)) (startH s) in
        match requestError with None => Ok h | Some e => Ok (fin t e h) end) = Ok h ∧ h_quota h = s.
Proof.
  intros Hfin Hk. destruct (mint_opens n iv a Hk) as (t & -> & _). cbn [obind].
  destruct (retry_Do 3 _ _) as [[e|] h] eqn:E; apply retry_quota_eq in E.
  - exists (fin t e h). split; [done|]. by rewrite Hfin.
  - by exists h.
Qed.

(** The quota state after a request that was let in. *)
Definition effect (n : Node) (route : string) (p : QuotaParam) (s : QState) : QState :=
  match quotaController n with
  | None => s
  | Some c =>
      if decide (route = API_SETQUOTA) then (SetDirQuota c (nd_kernel n) (TargetPath p) (QQuota p) s).1
      else if decide (route = API_RELEASEDIR) then (ReleaseDir c (nd_kernel n) (TargetPath p) s).1
      else s
  end.

(** A token that lets a request act on the node itself. *)
Definition local_token (n : Node) (token : string) : Prop :=
  ∃ a, check_token n token = Ok a ∧ Host a = "localhost".

#[local] Instance local_token_dec n token : Decision (local_token n token).
Proof.
  unfold local_token. destruct (check_token n token) as [a| |].
  - destruct (decide (Host a = "localhost")); [left; by exists a|right; intros (? & ? & ?); congruence].
  - right. by intros (? & ? & ?).
  - right. by intros (? & ? & ?).
Defined.

Lemma SetDirQuota_no_panic c k t size s : (SetDirQuota c k t size s).2 ≠ Panic.
Proof.
  destruct (SetDirQuota c k t size s) as [s' r] eqn:E.
  apply SetDirQuota_cases in E as (s1 & _ & _ & _ & _ & Hc). intros Hr. simpl in Hr. subst r.
  destruct Hc as [[_ ?]|[(id & _ & ? & _)|(_ & old & _ & Hc)]]; [done..|].
  by destruct Hc as [[? _]|[? _]].
Qed.

Lemma ReleaseDir_no_panic c k t s : (ReleaseDir c k t s).2 ≠ Panic.
Proof. unfold ReleaseDir. repeat (case_match || case_decide; try done). Qed.

Lemma GetDirQuota_no_panic c k s t : GetDirQuota c k s t ≠ Panic.
Proof. unfold GetDirQuota. repeat (case_match || case_decide; try done). Qed.

Lemma GetImage_no_panic c ls st sf ins name : GetImageDiskQuotaInfo c ls st sf ins name ≠ Panic.
Proof. unfold GetImageDiskQuotaInfo. repeat (case_match || case_decide; try done). Qed.

Lemma serve_effect post n now iv route handler body s :
  serve Parse Compile post n now iv route = Some handler →
  ∃ h, handler body s = Ok h ∧
    (local_token n (QToken (DecodeParam body)) →
       h_quota h = effect n route (DecodeParam body) s ∧ h_posts h = [] ∧ h_go h = []) ∧
    (¬ local_token n (QToken (DecodeParam body)) → h_quota h = s).
Proof.
  intros Hs. set (p := DecodeParam body).
  assert (∀ a, check_token n (QToken p) = Ok a → Host a ≠ "localhost" → ¬ local_token n (QToken p)) as Hno.
  { intros a E Ha (a' & E' & Ha'). congruence. }
  assert (∀ e, check_token n (QToken p) = Err e → ¬ local_token n (QToken p)) as Herr.
  { intros e E (a' & E' & Ha'). congruence. }
  unfold serve in Hs. unfold effect, GetQuotaControl. repeat case_decide; simplify_eq.
  all: unfold SetDirQuotaHandler, GetNodeSpaceInfoHandler, GetDirQuotaInfoHandler,
    ReleaseDirHandler, GetImageDiskQuotaInfoHandler, GetQuotaControl; fold p;
    pose proof (check_token_no_panic n (QToken p)) as Hnp;
    destruct (check_token n (QToken p)) as [a|e|] eqn:Ec; 
    [|eexists; split; [reflexivity|split; [intros Hl; by destruct (Herr e eq_refl)|done]]|done].
  all: assert (key_ok (SecretKey (nd_conf n)) = true) as Hk by (by eapply check_token_key).
  all: destruct (decide (Host a = "localhost")) as [Ha|Ha];
    [assert (local_token n (QToken p)) by (by exists a)|specialize (Hno a eq_refl Ha)].
  all: try (destruct (quotaController n) as [c|]; [|by eexists]).
  all: try (match goal with
    | |- ∃ h, (let! t := mint _ _ ?a in let '(_, _) := retry_Do 3 (post_once _ _ _ _ ?host ?url _ _) _ in _) = _ ∧ _ =>
      edestruct (forward_ok post n iv host url a s) as (h & E & Hq);
       [..|exists h; split; [exact E|by split]] end).
  all: try done.
  - pose proof (SetDirQuota_no_panic c (nd_kernel n) (TargetPath p) (QQuota p) s).
    destruct (SetDirQuota c _ _ _ s) as [s' []]; [by eexists..|done].
  - unfold GetNodeSpaceInfo. destruct (nd_statfs n _); by eexists.
  - pose proof (GetDirQuota_no_panic c (nd_kernel n) s (TargetPath p)).
    destruct (GetDirQuota c _ s _); [by eexists..|done].
  - pose proof (ReleaseDir_no_panic c (nd_kernel n) (TargetPath p) s).
    destruct (ReleaseDir c _ _ s) as [s' []]; [by eexists..|done].
  - destruct (mint_opens n iv (mkAuthParam "localhost" 0) Hk) as (t & E & _).
    cbn [QAuthParam with_auth]. rewrite E. cbn [obind].
    destruct (0 <? _)%Z; eexists; (split; [done|]); split; [done..| |].
    + done.
    + intros _. by rewrite doRelease_quota.
  - pose proof (GetImage_no_panic c (nd_lstat n) (nd_stat n) (nd_statfs n)).
    destruct (localDockerClient n) as [ins|]; [|by eexists].
    destruct (GetImageDiskQuotaInfo c _ _ _ ins _) eqn:?; [by eexists..|exfalso; naive_solver].
Qed.

(** C15. The handler of each of the five routes of the quota service returns, without a
    panic, whatever the body of the request and whatever the network answers; and it
    changes the quota state of the node only when the token of the request opens, with
    the node's own secret, to parameters for the host "localhost": then the change is
    exactly that of [SetDirQuota] or [ReleaseDir] on the path of the request, by the route
    asked for. The goroutines that a request leaves behind change no quotas (the one of a
    release may still use the writer of its handler, see [release_late_write]). *)
Theorem quota_change_authorised post n now iv route handler body s :
  serve Parse Compile post n now iv route = Some handler →
  ∃ h, handler body s = Ok h ∧
    (h_quota h ≠ s →
       local_token n (QToken (DecodeParam body)) ∧
       ∃ c, quotaController n = Some c ∧
         ((route = API_SETQUOTA ∧ h_quota h =
             (SetDirQuota c (nd_kernel n) (TargetPath (DecodeParam body)) (QQuota (DecodeParam body)) s).1) ∨
          (route = API_RELEASEDIR ∧ h_quota h =
             (ReleaseDir c (nd_kernel n) (TargetPath (DecodeParam body)) s).1))) ∧
    (∀ j h', h_quota (run_job Parse Compile post n j h').1 = h_quota h').
Proof.
  intros Hs. destruct (serve_effect post n now iv route handler body s Hs) as (h & E & Hl & Hn).
  exists h. split; [done|]. split.
  - intros Hne. destruct (decide (local_token n (QToken (DecodeParam body)))) as [Ht|Ht]; [|by destruct Hne; auto].
    split; [done|]. destruct (Hl Ht) as (Hq & _ & _). rewrite Hq in *. unfold effect in *.
    destruct (quotaController n) as [c|]; [|done]. exists c. split; [done|].
    repeat case_decide; auto. done.
  - intros [|] h'; [done|]. cbn [run_job fst h_quota]. by rewrite doRelease_quota.
Qed.

(** ** Passing a request on *)

(** A node that answers every request with [handler]. *)
Definition answers (handler : bytes → QState → outcome HState) (s : QState) (k : nat) (rq : Request)
    : string + bytes :=
  match handler (rq_body rq) s with
  | Ok h => inr (rw_body (h_rw h))
  | _ => inl "EOF"
  end.

(** The parameters a node puts into the request it passes on. *)
Definition passed_auth (now : Z) (route : string) : AuthParam :=
  mkAuthParam "localhost"
    (if decide (route = API_GETDIRQUOTAINFO ∨ route = API_GETIMAGEQUOTAINFO)
     then i64 (now + 1000 * 2) else 0).

Lemma post_once_first post n host url js p s r :
  post 0 (mkRequest (GetHttpClient (nd_conf n) Parse Compile host) url js) = inr r →
  post_once Parse Compile post n host url js p (startH s) =
  (None, mkH (if (Async p =? 0)%Z then RW_Write r newRW else newRW)
             [mkRequest (GetHttpClient (nd_conf n) Parse Compile host) url js]
             [GoCallback (CallBackUrl p) 1 r] s).
Proof.
  intros Hp. unfold post_once. cbn [startH h_posts length app]. rewrite Hp.
  by destruct (Async p =? 0)%Z.
Qed.

(** A request passed on at the first attempt. *)
Lemma forward_first post n iv host url a s js p fin t rq r :
  mint n iv a = Ok t →
  rq = mkRequest (GetHttpClient (nd_conf n) Parse Compile host) url (js t) →
  post 0 rq = inr r →
  (let! t := mint n iv a in
   let '(requestError, h) :=
     retry_Do 3 (post_once Parse Compile post n host url (js t) (p t)) (startH s) in
   match requestError with None => Ok h | Some e => Ok (fin t e h) end) =
  Ok (mkH (if (Async (p t) =? 0)%Z then RW_Write r newRW else newRW) [rq]
          [GoCallback (CallBackUrl (p t)) 1 r] s).
Proof.
  intros -> -> Hp. cbn [obind]. by erewrite retry_ok; [|lia|by apply post_once_first].
Qed.

(** A request that is passed on, at any route: the request sent, and the answer. *)
Lemma serve_forward post n now iv route handler body s a t r :
  let p := DecodeParam body in
  let p' := with_token t (with_auth (passed_auth now route) p) in
  let rq := mkRequest (GetHttpClient (nd_conf n) Parse Compile (Host (QAuthParam p)))
              (GetURLByHost (nd_conf n) (Host (QAuthParam p)) +:+ route) (MarshalParam p') in
  serve Parse Compile post n now iv route = Some handler →
  check_token n (QToken p) = Ok a → Host a ≠ "localhost" → ((Async p <= 0)%Z ∨ route ≠ API_RELEASEDIR) →
  mint n iv (passed_auth now route) = Ok t → post 0 rq = inr r →
  handler body s = Ok (mkH (if (Async p =? 0)%Z then RW_Write r newRW else newRW) [rq]
                        [GoCallback (CallBackUrl p) 1 r] s).
Proof.
  intros p p' rq Hs Hc Ha Hasync Ht Hp. unfold serve in Hs.
  repeat case_decide; simplify_eq; unfold SetDirQuotaHandler, GetNodeSpaceInfoHandler,
    GetDirQuotaInfoHandler, ReleaseDirHandler, GetImageDiskQuotaInfoHandler; fold p;
    rewrite Hc, decide_False by done.
  4:{ unfold doReleaseFunc. cbn [QAuthParam with_auth]. change (mkAuthParam "localhost" 0) with (passed_auth now API_RELEASEDIR).
      rewrite Ht. cbn [obind]. rewrite (proj2 (Z.ltb_ge 0 _)) by (by destruct Hasync).
      by erewrite retry_ok; [|lia|by apply post_once_first]. }
  all: apply (forward_first post n iv (Host (QAuthParam p)) _ _ s
    (λ t, MarshalParam (with_token t (with_auth _ p))) (λ t, with_token t (with_auth _ p)) _ t rq r Ht eq_refl Hp).
Qed.

(** A request with a valid token for another host reaches that host: the first node
    sends one request, to the address in the body and with a fresh token, which the
    second node (with the same secret) accepts as its own: it carries out the operation
    asked for and passes nothing on. The first node's quotas do not change, its client
    receives the second node's answer when the request is synchronous, and the callback is
    started with that answer. *)
Theorem quota_forward_end_to_end nA nB now iv route handlerA handlerB postB body sA sB a :
  let p := DecodeParam body in
  serve Parse Compile (answers handlerB sB) nA now iv route = Some handlerA →
  serve Parse Compile postB nB now iv route = Some handlerB →
  SecretKey (nd_conf nB) = SecretKey (nd_conf nA) → length iv = BlockSize →
  check_token nA (QToken p) = Ok a → Host a ≠ "localhost" → (Async p <= 0)%Z →
  (∀ t, param_ok (with_token t (with_auth (passed_auth now route) p))) →
  ∃ rq hA hB, handlerA body sA = Ok hA ∧ handlerB (rq_body rq) sB = Ok hB ∧
    h_posts hA = [rq] ∧
    rq_url rq = GetURLByHost (nd_conf nA) (Host (QAuthParam p)) +:+ route ∧
    h_quota hA = sA ∧ h_quota hB = effect nB route p sB ∧ h_posts hB = [] ∧
    (Async p = 0%Z → rw_body (h_rw hA) = rw_body (h_rw hB)) ∧
    h_go hA = [GoCallback (CallBackUrl p) 1 (rw_body (h_rw hB))].
Proof.
  intros p HA HB Hkey Hiv Hc Ha Hasync Hok.
  destruct (mint_opens nA iv (passed_auth now route)) as (t & Ht & Hopen); [by eapply check_token_key|].
  assert (check_token nB t = Ok (passed_auth now route)) as HtB.
  { apply Hopen; [done| |done]. apply auth_ok_localhost. case_decide; [apply i64_range|done]. }
  set (p' := with_token t (with_auth (passed_auth now route) p)).
  destruct (serve_effect postB nB now iv route handlerB (MarshalParam p') sB HB) as (hB & EB & Hloc & _).
  rewrite (Decode_MarshalParam p' (Hok t)) in Hloc.
  destruct Hloc as (Hq & Hposts & _); [by exists (passed_auth now route)|].
  eexists _, _, hB. split.
  { apply (serve_forward _ nA now iv route handlerA body sA a t (rw_body (h_rw hB)) HA Hc Ha (or_introl Hasync) Ht).
    unfold answers. cbn [rq_body]. fold p p'. by rewrite EB. }
  cbn [rq_body rq_url h_posts h_quota h_rw h_go]. fold p p'. split_and!; try done.
  - exact EB.
  - intros ->. done.
Qed.

(** ** Errors *)

(** Whether a handler of this route sends its error status before the body. *)
Definition status_first (route : string) : bool :=
  bool_decide (route = API_GETDIRQUOTAINFO ∨ route = API_GETIMAGEQUOTAINFO).

(** Three attempts that fail. *)
Lemma retry_dead post n host url js p h :
  (∀ k rq, ∃ e, post k rq = inl e) →
  let rq := mkRequest (GetHttpClient (nd_conf n) Parse Compile host) url js in
  ∃ m, retry_Do 3 (post_once Parse Compile post n host url js p) h =
       (Some m, mkH (h_rw h) (h_posts h ++ [rq; rq; rq]) (h_go h) (h_quota h)).
Proof.
  intros Hdead rq.
  assert (∀ w ps g s, ∃ e, post_once Parse Compile post n host url js p (mkH w ps g s) =
                           (Some e, mkH w (ps ++ [rq]) g s)) as Hstep.
  { intros w ps g s0. unfold post_once. cbn [h_posts h_rw h_go h_quota]. fold rq.
    destruct (Hdead (length ps) rq) as [e ->]. by exists e. }
  destruct h as [w ps g s]. destruct (Hstep w ps g s) as [e1 E1].
  destruct (Hstep w (ps ++ [rq]) g s) as [e2 E2]. destruct (Hstep w ((ps ++ [rq]) ++ [rq]) g s) as [e3 E3].
  rewrite <-!(assoc app) in E3. eapply retry_three; [exact E1|exact E2|]. by rewrite <-(assoc app).
Qed.

(** The goroutine of an asynchronous release for another host: it does not touch the
    writer of its handler, which has returned, when the request is answered; but when no
    attempt is, it writes the failure there before it starts the callback. *)
Theorem release_late_write post n host p h :
  (0 < Async p)%Z →
  let rq := mkRequest (GetHttpClient (nd_conf n) Parse Compile host)
              (GetURLByHost (nd_conf n) host +:+ API_RELEASEDIR) (MarshalParam p) in
  (∀ r, post (length (h_posts h)) rq = inr r →
     run_job Parse Compile post n (GoRelease host p) h =
       (mkH (h_rw h) (h_posts h ++ [rq]) (h_go h ++ [GoCallback (CallBackUrl p) 1 r]) (h_quota h), newRW)) ∧
  ((∀ k rq, ∃ e, post k rq = inl e) →
     ∃ m, let res := MarshalRes (mkBaseResult FAIL_CODE 0 m DNil) in
     ∃ late, run_job Parse Compile post n (GoRelease host p) h =
       (mkH (h_rw h) (h_posts h ++ [rq; rq; rq]) (h_go h ++ [GoCallback (CallBackUrl p) 0 res]) (h_quota h), late) ∧
       rw_body late = res).
Proof.
  intros Hasync rq. assert ((Async p =? 0)%Z = false) as Hz by (apply Z.eqb_neq; lia). split.
  - intros r Hr. cbn [run_job]. unfold doReleaseFunc.
    erewrite (retry_ok 3 _ (mkH newRW _ _ _)); [|lia|unfold post_once; cbn [h_posts]; fold rq; rewrite Hr, Hz; done].
    done.
  - intros Hdead. cbn [run_job]. unfold doReleaseFunc.
    edestruct (retry_dead post n host) as [m ->]; [done|]. exists m. eexists. cbn [Async]. rewrite Hz. by split.
Qed.

(** Errors: a request whose token does not open is answered with the error and touches
    nothing; a request that cannot be delivered is sent three times, then answered with a
    failure, and the callback is started with status 0 and that answer. Only the two
    handlers that set the status before the body send it (401 and 400); from the other
    three the client receives status 200 with the error. *)
Theorem quota_error_status post n now iv route handler body s :
  let p := DecodeParam body in
  serve Parse Compile post n now iv route = Some handler →
  (∀ e, check_token n (QToken p) = Err e → ∃ h, handler body s = Ok h ∧
     rw_body (h_rw h) = str_elems e ∧ h_posts h = [] ∧ h_go h = [] ∧ h_quota h = s ∧
     rw_status (h_rw h) = if status_first route then StatusUnauthorized else StatusOK) ∧
  (∀ a, check_token n (QToken p) = Ok a → Host a ≠ "localhost" → (Async p <= 0)%Z →
     (∀ k rq, ∃ e, post k rq = inl e) → ∃ h rq m, handler body s = Ok h ∧
     let res := MarshalRes (mkBaseResult FAIL_CODE 0 m DNil) in
     rw_body (h_rw h) = res ∧ h_posts h = [rq; rq; rq] ∧ h_quota h = s ∧
     h_go h = [GoCallback (CallBackUrl p) 0 res] ∧
     rw_status (h_rw h) = if status_first route then StatusBadRequest else StatusOK).
Proof.
  intros p Hs. unfold serve in Hs. split.
  - intros e He. repeat case_decide; simplify_eq; unfold SetDirQuotaHandler,
      GetNodeSpaceInfoHandler, GetDirQuotaInfoHandler, ReleaseDirHandler,
      GetImageDiskQuotaInfoHandler; fold p; rewrite He; by eexists.
  - intros a Hc Ha Hasync Hdead.
    repeat case_decide; simplify_eq; unfold SetDirQuotaHandler, GetNodeSpaceInfoHandler,
      GetDirQuotaInfoHandler, ReleaseDirHandler, GetImageDiskQuotaInfoHandler, doReleaseFunc;
      fold p; rewrite Hc, decide_False by done; cbn [QAuthParam with_auth];
      (edestruct (mint_opens n iv) as (t & -> & _); [by eapply check_token_key|]);
      cbn [obind]; rewrite ?(proj2 (Z.ltb_ge 0 (Async p))) by done; 
      rewrite ?(proj2 (Z.ltb_ge 0 (Async (with_token t _)))) by done;
      (edestruct (retry_dead post n) as [m ->]; [done|]);
      eexists _, _, m; (split; [reflexivity|]); try done.
    cbn [Async with_token with_auth]. by destruct (Async p =? 0)%Z.
Qed.

(** An asynchronous release for another host is answered before the request is sent, and
    the answer holds the token just minted for that request: a token which every node
    with the same secret accepts for itself, at all times, since the expiry of these
    tokens is never examined (it is in the past already). *)
Theorem release_async_token post n now iv body s a :
  let p := DecodeParam body in
  check_token n (QToken p) = Ok a → Host a ≠ "localhost" → (0 < Async p)%Z →
  length iv = BlockSize →
  ∃ t h, ReleaseDirHandler Parse Compile post n iv body s = Ok h ∧
    let p' := with_token t (with_auth (mkAuthParam "localhost" 0) p) in
    rw_body (h_rw h) = MarshalRes (mkBaseResult SUCCESS_CODE 0 "request success" (DParam p')) ∧
    h_go h = [GoRelease (Host (QAuthParam p)) p'] ∧ h_posts h = [] ∧
    (∀ n', SecretKey (nd_conf n') = SecretKey (nd_conf n) → local_token n' t) ∧
    ((0 <= now)%Z → AuthParam_isExpiration now (QAuthParam p') = true).
Proof.
  intros p Hc Ha Hasync Hiv.
  destruct (mint_opens n iv (mkAuthParam "localhost" 0)) as (t & Ht & Hopen); [by eapply check_token_key|].
  exists t. unfold ReleaseDirHandler. fold p. rewrite Hc, decide_False by done.
  cbn [QAuthParam with_auth]. rewrite Ht. cbn [obind].
  rewrite (proj2 (Z.ltb_lt 0 _)) by done. eexists. split; [reflexivity|].
  split; [done|]. split; [done|]. split; [done|]. split.
  - intros n' Hn'. exists (mkAuthParam "localhost" 0). split; [|done].
    by apply Hopen; [|apply auth_ok_localhost|].
  - intros Hnow. unfold AuthParam_isExpiration. cbn. destruct (Z.ltb_spec now 0); [lia|done].
Qed.

End theorems.

(** ** An instance and witnesses *)

(** A serialisation by the bits of a number. *)
Fixpoint pos_bits (p : positive) : bytes :=
  match p with
  | xH => []
  | xO p => "0"%char :: pos_bits p
  | xI p => "1"%char :: pos_bits p
  end.

Fixpoint bits_pos (b : bytes) : positive :=
  match b with
  | [] => xH
  | c :: b => if decide (c = "0"%char) then xO (bits_pos b) else xI (bits_pos b)
  end.

Lemma bits_pos_bits p : bits_pos (pos_bits p) = p.
Proof. induction p as [p IH|p IH|]; simpl; [by rewrite IH..|done]. Qed.

Definition enc `{Countable A} (a : A) : bytes := pos_bits (encode a).
Definition dec `{Countable A} (b : bytes) : option A := decode (bits_pos b).

Lemma dec_enc `{Countable A} (a : A) : dec (enc a) = Some a.
Proof. unfold dec, enc. by rewrite bits_pos_bits, decode_encode. Qed.

Definition param_tuple (p : QuotaParam) : string * Z * string * string * string * Z * string * Z :=
  (Host (QAuthParam p), APExpirationTime (QAuthParam p), QToken p, ImageName p, TargetPath p,
   QQuota p, CallBackUrl p, Async p).

Program Definition bits_json : QuotaJSON := {|
  auth_ok := λ _, True;
  MarshalAuth := λ a, enc (Host a, APExpirationTime a);
  UnmarshalAuth := λ b, match (dec b : option (string * Z)) with Some (h, t) => inr (mkAuthParam h t) | None => inl "invalid" end;
  param_ok := λ _, True;
  MarshalParam := λ p, enc (param_tuple p);
  DecodeParam := λ b,
    match (dec b : option (string * Z * string * string * string * Z * string * Z)) with
    | Some (h, x, t, i, tp, q, u, a) => mkQuotaParam (mkAuthParam h x) t i tp q u a
    | None => mkQuotaParam (mkAuthParam "" 0) "" "" "" 0 "" 0
    end;
  MarshalRes := λ r, enc (Code r, Msg r)
|}.
Next Obligation. intros [h t] _. cbn beta. by rewrite dec_enc. Qed.
Next Obligation. done. Qed.
Next Obligation. intros [[h x] t i tp q u a] _. cbn beta. by rewrite dec_enc. Qed.

Fixpoint retry_run {S} (n : nat) (f : S → option string * S) (s : S) : option string * S :=
  match n with
  | O => (Some "no attempt", s)
  | Datatypes.S n' =>
      match f s with
      | (None, s') => (None, s')
      | (Some e, s') => match n' with O => (Some e, s') | _ => retry_run n' f s' end
      end
  end.

Program Definition plain_retry : Retry := {| retry_Do := λ S, @retry_run S |}.
Next Obligation. intros S [|n] f s s' Hn E; [lia|]. simpl. by rewrite E. Qed.
Next Obligation. intros S [|n] f s s' e E Hn; [lia|]. cbn [retry_run]. by rewrite E. Qed.
Next Obligation. intros S f s s' e E. simpl. rewrite E. by exists e. Qed.

#[local] Existing Instance toy_aes.
#[local] Existing Instance plain_base64.
#[local] Existing Instance bits_json.
#[local] Existing Instance plain_retry.

Definition quiet_kernel : Kernel :=
  mkKernel (λ _, false) (λ _, false) (λ _, false) (λ _, false) (λ _, false) (λ _, false)
    (λ _, false) (λ _, None) (λ _, 0%Z) (λ _, 0%Z) id (λ _, None).

Definition demo_node : Node :=
  mkNode demo_config (Some (mkControl "/dev/q" "" "/data" "/data")) quiet_kernel
    (λ _, LNoLink) (λ _, None) (λ _, inl "") None.

Definition demo_iv : bytes := replicate 16 "a"%char.

Definition demo_token (host : string) : string :=
  match mint demo_node demo_iv (mkAuthParam host 0) with Ok t => t | _ => "" end.

Definition demo_request (token_host : string) (async : Z) : bytes :=
  MarshalParam (mkQuotaParam (mkAuthParam "10.0.0.7" 0) (demo_token token_host) "" "/data/d" 1024 "" async).

Definition demo_state : QState := mkQState ∅ 10001 {["/data" := QDir 0]} ∅.
Definition silent (k : nat) (rq : Request) : string + bytes := inl "refused".

(** A change made with a token for the node itself. *)
Lemma quota_change_authorised_witness :
  ∃ h, SetDirQuotaHandler Some (λ _, None) silent demo_node demo_iv (demo_request "localhost" 0) demo_state
       = Ok h ∧
    (h_quota h ≠ demo_state →
       local_token demo_node (QToken (DecodeParam (demo_request "localhost" 0))) ∧
       ∃ c, quotaController demo_node = Some c ∧
         ((API_SETQUOTA = API_SETQUOTA ∧ h_quota h =
             (SetDirQuota c (nd_kernel demo_node) (TargetPath (DecodeParam (demo_request "localhost" 0)))
                (QQuota (DecodeParam (demo_request "localhost" 0))) demo_state).1) ∨
          (API_SETQUOTA = API_RELEASEDIR ∧ h_quota h =
             (ReleaseDir c (nd_kernel demo_node) (TargetPath (DecodeParam (demo_request "localhost" 0)))
                demo_state).1))) ∧
    (∀ j h', h_quota (run_job Some (λ _, None) silent demo_node j h').1 = h_quota h').
Proof.
  exact (quota_change_authorised Some (λ _, None) silent demo_node 0 demo_iv API_SETQUOTA
           (SetDirQuotaHandler Some (λ _, None) silent demo_node demo_iv)
           (demo_request "localhost" 0) demo_state eq_refl).
Defined.

(** That request does change the state. *)
Lemma quota_change_nonempty :
  match SetDirQuotaHandler Some (λ _, None) silent demo_node demo_iv (demo_request "localhost" 0) demo_state with
  | Ok h => quotas (h_quota h) !! "/data/d" = Some 10001%Z
  | _ => False
  end.
Proof. vm_compute. reflexivity. Qed.

(** A request for another node, passed on to it and carried out there. *)
Definition demo_handler (post : nat → Request → string + bytes) : bytes → QState → outcome HState :=
  SetDirQuotaHandler Some (λ _, None) post demo_node demo_iv.

Lemma quota_forward_end_to_end_witness :
  let handlerA := demo_handler (answers (demo_handler silent) demo_state) in
  ∃ rq hA hB, handlerA (demo_request "10.0.0.7" 0) demo_state = Ok hA ∧
    demo_handler silent (rq_body rq) demo_state = Ok hB ∧ h_posts hA = [rq] ∧
    rq_url rq = "http://10.0.0.7:888/api/setDirQuota" ∧
    h_quota hA = demo_state ∧
    h_quota hB = effect demo_node API_SETQUOTA (DecodeParam (demo_request "10.0.0.7" 0)) demo_state ∧
    h_posts hB = [] ∧
    (Async (DecodeParam (demo_request "10.0.0.7" 0)) = 0%Z → rw_body (h_rw hA) = rw_body (h_rw hB)) ∧
    h_go hA = [GoCallback (CallBackUrl (DecodeParam (demo_request "10.0.0.7" 0))) 1 (rw_body (h_rw hB))].
Proof.
  intros handlerA.
  refine (quota_forward_end_to_end Some (λ _, None) demo_node demo_node 0 demo_iv API_SETQUOTA
    handlerA (demo_handler silent) silent (demo_request "10.0.0.7" 0) demo_state demo_state
    (mkAuthParam "10.0.0.7" 0) eq_refl eq_refl eq_refl eq_refl _ _ _ _).
  - vm_compute. reflexivity.
  - discriminate.
  - vm_compute. discriminate.
  - intros t. exact I.
Defined.

(** A request with a broken token, at a route of either kind. *)
Lemma quota_error_status_witness :
  (∃ h, demo_handler silent [] demo_state = Ok h ∧ rw_body (h_rw h) = str_elems "invalin token" ∧
     h_posts h = [] ∧ h_go h = [] ∧ h_quota h = demo_state ∧ rw_status (h_rw h) = 200%Z) ∧
  (∃ h, GetDirQuotaInfoHandler Some (λ _, None) silent demo_node 0 demo_iv [] demo_state = Ok h ∧
     rw_body (h_rw h) = str_elems "invalin token" ∧
     h_posts h = [] ∧ h_go h = [] ∧ h_quota h = demo_state ∧ rw_status (h_rw h) = 401%Z).
Proof.
  split.
  - exact (proj1 (quota_error_status Some (λ _, None) silent demo_node 0 demo_iv API_SETQUOTA
             (demo_handler silent) [] demo_state eq_refl) "invalin token" eq_refl).
  - exact (proj1 (quota_error_status Some (λ _, None) silent demo_node 0 demo_iv API_GETDIRQUOTAINFO
             (GetDirQuotaInfoHandler Some (λ _, None) silent demo_node 0 demo_iv) [] demo_state eq_refl)
             "invalin token" eq_refl).
Defined.

Lemma release_async_token_witness :
  ∃ t h, ReleaseDirHandler Some (λ _, None) silent demo_node demo_iv (demo_request "10.0.0.7" 1) demo_state
         = Ok h ∧
    let p' := with_token t (with_auth (mkAuthParam "localhost" 0) (DecodeParam (demo_request "10.0.0.7" 1))) in
    rw_body (h_rw h) = MarshalRes (mkBaseResult SUCCESS_CODE 0 "request success" (DParam p')) ∧
    h_go h = [GoRelease (Host (QAuthParam (DecodeParam (demo_request "10.0.0.7" 1)))) p'] ∧
    h_posts h = [] ∧
    (∀ n', SecretKey (nd_conf n') = SecretKey (nd_conf demo_node) → local_token n' t) ∧
    ((0 <= 5)%Z → AuthParam_isExpiration 5 (QAuthParam p') = true).
Proof.
  refine (release_async_token Some (λ _, None) silent demo_node 5 demo_iv (demo_request "10.0.0.7" 1)
    demo_state (mkAuthParam "10.0.0.7" 0) _ _ _ eq_refl).
  - vm_compute. reflexivity.
  - discriminate.
  - vm_compute. reflexivity.
Defined.
