(* ===== verification/PodLog.v ===== *)
(** * The log sources of a connection

    container_log/DockerLog.go: the state of a pod ([GetPodProcess], [GetPodErrorInfo],
    [NotError]), [isContainer], [GetDockerClient], [NewDockerLog], the polling and tailing
    of [DockerLog.Start], the loops of [containerGpuInfo] and [containerResourceInfo] with
    the statistics they compute; container_log/MinioLog.go and LogMonitor.go.

    Polling sees one answer of the Kubernetes API per round; the rounds to run are the
    fuel. Tailing composes [StdCopy] with the operations of [Connection], interleaved with
    those of the other goroutines of the connection. Floating-point numbers are those of
    [Float64]. *)

From S2P Require Import Prelude GoStrings Float64 GoIo Clients Token StdCopy Connection.

(** ** The state of a pod *)

Record Terminated := mkTerminated { ExitCode : Z; TReason : string; TMessage : string }.
Record Waiting := mkWaiting { WReason : string; WMessage : string }.

Record ContainerStatus := mkContainerStatus {
  CSContainerID : string;
  CSWaiting : option Waiting;
  CSRunning : bool;
  CSTerminated : option Terminated
}.

Record PodStatus := mkPodStatus {
  InitContainerStatuses : list ContainerStatus;
  ContainerStatuses : list ContainerStatus;
  Phase : string;
  HostIP : string;
  PReason : string
}.

Definition is_some {A} (o : option A) : bool := match o with Some _ => true | None => false end.

Definition count_started (process : Z) (v : ContainerStatus) : Z :=
  if CSRunning v || is_some (CSTerminated v) then (process + 1)%Z else process.

Definition GetPodProcess (status : PodStatus) : Z :=
  foldl count_started (foldl count_started 0%Z (InitContainerStatuses status))
    (ContainerStatuses status).

Definition NotError (s : string) : bool := HasPrefix s "PodInit" || HasPrefix s "ContainerCreating".

(** The reason and the error of one container, [what] being "init" or "container". *)
Definition container_error (what : string) (v : ContainerStatus) : option (string * string) :=
  let terminated := t ← CSTerminated v;
    if negb (ExitCode t =? 0)%Z then Some (TReason t, what +:+ " error " +:+ TMessage t) else None in
  let waiting := w ← CSWaiting v;
    if bool_decide (WReason w ≠ "") && negb (NotError (WReason w))
    then Some (WReason w, what +:+ " error " +:+ WMessage w) else None in
  match terminated with Some r => Some r | None => waiting end.

Fixpoint first_error (what : string) (vs : list ContainerStatus) : option (string * string) :=
  match vs with
  | [] => None
  | v :: vs' => match container_error what v with Some r => Some r | None => first_error what vs' end
  end.

Definition GetPodErrorInfo (status : PodStatus) : option (string * string) :=
  match first_error "init" (InitContainerStatuses status) with
  | Some r => Some r
  | None => first_error "container" (ContainerStatuses status)
  end.

(** ** Messages *)

Definition LOG_STAT_MESSAGE : bytes := str_elems "0000".
Definition RESOURCE_MESSAGE : bytes := str_elems "1100".
Definition GPU_MESSAGE : bytes := str_elems "1110".

Definition logStatMessage (message : bytes) : bytes := LOG_STAT_MESSAGE ++ message.
Definition resourceMessage (message : bytes) : bytes := RESOURCE_MESSAGE ++ message.
Definition gpuMessage (message : bytes) : bytes := GPU_MESSAGE ++ message.

Definition CR : string := String carriage_return "".
Definition NL : string := String (ascii_of_nat 10) "".

Definition stat (s : string) : bytes := logStatMessage (str_elems s).

(** ** Waiting for a pod *)

Definition isContainer (p : LogParam) : bool :=
  bool_decide (ContainerId p ≠ "") && bool_decide (PodLabel p = "") && bool_decide (PodName p = "").

(** The field and the label selector of the list request. *)
Definition listOption (p : LogParam) : string * string :=
  (if decide (PodName p ≠ "") then "metadata.name=" +:+ PodName p else "",
   if decide (PodLabel p ≠ "") then "app=" +:+ PodLabel p else "").

(** How a round of the loop goes on: the function returns, the loop is left with a
    container, or it sleeps and goes on. *)
Inductive Verdict :=
| VReturn
| VBreak (containerId dockerHost : string)
| VNext (started : bool) (seconds : Z).

Definition process_message (status : PodStatus) : bytes :=
  let count := (Z.of_nat (length (InitContainerStatuses status)) +
                Z.of_nat (length (ContainerStatuses status)))%Z in
  let process := GetPodProcess status in
  if (process =? count)%Z
  then stat (CR +:+ "task init:" +:+ Itoa process +:+ "/" +:+ Itoa count +:+ NL)
  else stat (CR +:+ "task init:" +:+ Itoa process +:+ "/" +:+ Itoa count).

(** One round: the messages written and the verdict. [pods] is the answer of the list
    request, [None] for an error. *)
Definition poll_round (conf : Config) (started : bool) (pods : option (list PodStatus))
    : list bytes * Verdict :=
  match pods with
  | None | Some [] =>
      if started then ([stat (NL +:+ "LOG_END")], VReturn)
      else ([stat (CR +:+ "Wait for task create...")], VNext started 10)
  | Some (pod :: _) =>
      match GetPodErrorInfo pod with
      | Some (reason, err) => ([stat (CR +:+ "task run fail:" +:+ reason +:+ err)], VNext true 30)
      | None =>
          let pending := if decide (Phase pod = "Pending") then [process_message pod] else [] in
          match ContainerStatuses pod with
          | c :: _ =>
              if decide (Phase pod = "Running" ∨ Phase pod = "Succeeded")
              then (pending ++ [process_message pod],
                    VBreak (TrimPrefix (CSContainerID c) "docker://")
                           (HostIP pod +:+ ":" +:+ Itoa (DockerServerPort conf)))
              else if decide (Phase pod = "Failed" ∨ Phase pod = "Unknown")
              then (pending ++ [stat ("task run fail:" +:+ PReason pod +:+ NL)], VReturn)
              else (pending, VNext true 5)
          | [] =>
              if decide (Phase pod = "Failed" ∨ Phase pod = "Unknown")
              then (pending ++ [stat ("task run fail:" +:+ PReason pod +:+ NL)], VReturn)
              else (pending, VNext true 5)
          end
      end
  end.

Inductive PollEnd := PReturned | PFound (containerId dockerHost : string) | PWaiting (started : bool).

(** What the loop sees in a round: whether the source was closed, and the pods. *)
Record Seen := mkSeen { s_closed : bool; s_pods : option (list PodStatus) }.

Fixpoint poll (conf : Config) (started : bool) (seen : list Seen) : list bytes * PollEnd :=
  match seen with
  | [] => ([], PWaiting started)
  | o :: seen' =>
      if s_closed o then ([], PReturned) else
      match poll_round conf started (s_pods o) with
      | (ms, VReturn) => (ms, PReturned)
      | (ms, VBreak c h) => (ms, PFound c h)
      | (ms, VNext started' _) => let '(ms', e) := poll conf started' seen' in (ms ++ ms', e)
      end
  end.

(** ** Clients and sources *)

(** A client is what [NewDockerClient] returns: the host and the proxy. *)
Definition DockerClient : Type := string * Transport.

Section docker_log.
Context (conf : Config) (NewClientFor : string → outcome (option DockerClient)).

(** The cache of clients and the client. *)
Definition GetDockerClient (cache : gmap string DockerClient) (dockerHost : string)
    : outcome (gmap string DockerClient * option DockerClient) :=
  match cache !! dockerHost with
  | Some c => Ok (cache, Some c)
  | None =>
      let! c := NewClientFor dockerHost in
      match c with
      | Some c => Ok (<[dockerHost := c]> cache, Some c)
      | None => Ok (cache, None)
      end
  end.

Record DockerLog := mkDockerLog { dl_host : string; dl_client : option DockerClient; dl_closed : bool }.
Record MinioLog := mkMinioLog { minioObjectName : string; bucketName : string; ml_closed : bool }.
Inductive LogMonitor := MDocker (d : DockerLog) | MMinio (m : MinioLog).

Definition NewDockerLog (cache : gmap string DockerClient) (dockerHost : string)
    : outcome (gmap string DockerClient * LogMonitor) :=
  let! (cache, c) := GetDockerClient cache dockerHost in
  Ok (cache, MDocker (mkDockerLog dockerHost c false)).

Definition NewMinioLog (objectName bucket : string) : LogMonitor :=
  MMinio (mkMinioLog objectName bucket false).

Definition NewLogMonitor (bucket_env : string) (cache : gmap string DockerClient) (p : LogParam)
    : outcome (gmap string DockerClient * LogMonitor) :=
  if decide (MinioObjName p = "") then
    if decide (LPHost p = "") then NewDockerLog cache ""
    else NewDockerLog cache (LPHost p +:+ ":" +:+ Itoa (DockerServerPort conf))
  else Ok (cache, NewMinioLog (MinioObjName p) bucket_env).

Definition MonitorClose (m : LogMonitor) : LogMonitor :=
  match m with
  | MDocker d => MDocker (mkDockerLog (dl_host d) (dl_client d) true)
  | MMinio m => MMinio (mkMinioLog (minioObjectName m) (bucketName m) true)
  end.

(** ** Tailing *)

(** What the operations of the tail are on the connection: a message per frame, the error
    of [StdCopy], the flush, and the end. A panic of [LineConfound] is recovered there. *)
Definition frame_message (draws : nat → Draws) (i : nat) (frame : bytes) : bytes :=
  match logMessage (LineMaxSize conf) (draws i) frame with Ok m => m | _ => LOG_MESSAGE end.

Definition tail_ops (draws : nat → Draws) (src : list read_event) : list op :=
  let r := StdCopy Discard src in
  (OWrite <$> imap (frame_message draws) (frames r)) ++
  match copy_err r with Some e => [OMid (stat e)] | None => [] end ++
  [OFlush; OMid (stat (NL +:+ "LOG_END"))].

Inductive StartRun :=
| RWaiting (mids : list bytes)                       (** still polling *)
| RReturned (mids : list bytes) (err : option string)
| RTailed (mids : list bytes) (client : DockerClient) (containerId tail : string) (ops : list op).

(** [logs] is [ContainerLogs] of a client: an error or the stream. A method of a nil client
    panics. *)
Definition DockerLog_Start (logs : DockerClient → string → string → string + list read_event)
    (draws : nat → Draws) (cache : gmap string DockerClient) (d : DockerLog) (p : LogParam)
    (seen : list Seen) : outcome (gmap string DockerClient * DockerLog * StartRun) :=
  let '(mids, found) :=
    if negb (isContainer p) then poll conf false seen
    else ([], PFound (ContainerId p) (LPHost p +:+ ":" +:+ Itoa (DockerServerPort conf))) in
  match found with
  | PWaiting _ => Ok (cache, d, RWaiting mids)
  | PReturned => Ok (cache, d, RReturned mids None)
  | PFound containerId dockerHost =>
      let! (cache, d) :=
        match dl_client d with
        | Some _ => Ok (cache, d)
        | None =>
            let! (cache, c) := GetDockerClient cache dockerHost in
            Ok (cache, mkDockerLog dockerHost c (dl_closed d))
        end in
      let tail := if decide (Tail p ≠ "") then Tail p else "10000" in
      match dl_client d with
      | None => Panic
      | Some client =>
          match logs client containerId tail with
          | inl err => Ok (cache, d, RReturned mids (Some err))
          | inr src => Ok (cache, d, RTailed mids client containerId tail (tail_ops draws src))
          end
      end
  end.

End docker_log.

(** ** Minio *)

(** A line as JSON: an error, a value that is not an object, an object without the key,
    with a text under it, or with something else under it. *)
Inductive JsonLine := JErr (e : string) | JOther | JNoLog | JLog (s : string) | JLogOther.

Section minio.
Context (parse : bytes → JsonLine).

(** The messages handed to the writer, and the error returned; a failed type assertion
    panics. [stop i] says whether the source is closed after line [i]. *)
Fixpoint minio_lines (stop : nat → bool) (i : nat) (ls : list bytes) (fin : option string)
    : list bytes * outcome unit :=
  match ls with
  | [] => match fin with
          | Some e => ([str_elems (e +:+ NL)], Err e)
          | None => ([], Err "EOF")
          end
  | line :: ls' =>
      let next := λ ms, if stop i then (ms, Ok ())
                        else let '(ms', r) := minio_lines stop (S i) ls' fin in (ms ++ ms', r) in
      match parse line with
      | JErr e => ([str_elems (e +:+ NL)], Err e)
      | JOther => ([], Panic)
      | JLogOther => ([], Panic)
      | JNoLog => next []
      | JLog s => next [str_elems s]
      end
  end.

(** [GetObject] gives an error or the bytes of the object and how they end. *)
Definition MinioLog_Start (stop : nat → bool) (object : string + bytes * option string)
    : list bytes * outcome unit :=
  match object with
  | inl e => ([str_elems (e +:+ NL)], Err e)
  | inr (d, fin) => minio_lines stop 0 (split_lines [] d).1 fin
  end.

End minio.

(** ** Statistics *)

Record CPUStats := mkCPU { TotalUsage : Z; SystemUsage : Z; OnlineCPUs : Z; PercpuLen : Z }.

Definition calculateCPUPercentUnix (cpus : spec_float) (previousCPU previousSystem : Z) (v : CPUStats)
    : spec_float :=
  let cpuDelta := fsub (f64 (TotalUsage v)) (f64 previousCPU) in
  let systemDelta := fsub (f64 (SystemUsage v)) (f64 previousSystem) in
  let onlineCPUs := f64 (OnlineCPUs v) in
  let onlineCPUs := if SFeqb onlineCPUs (f64 0) then f64 (PercpuLen v) else onlineCPUs in
  let cpuPercent :=
    if SFltb (f64 0) systemDelta && SFltb (f64 0) cpuDelta
    then fmul (fmul (fdiv cpuDelta systemDelta) onlineCPUs) (f64 100) else f64 0 in
  if SFltb (f64 0) cpus then fdiv cpuPercent cpus else cpuPercent.

Record BlkioEntry := mkBlkio { Op : string; Value : Z }.

Definition blockio_step (acc : Z * Z) (e : BlkioEntry) : Z * Z :=
  match str_elems (Op e) with
  | [] => acc
  | c :: _ =>
      if decide (c ∈ ["r"%char; "R"%char]) then (u64 (acc.1 + Value e), acc.2)
      else if decide (c ∈ ["w"%char; "W"%char]) then (acc.1, u64 (acc.2 + Value e))
      else acc
  end.

Definition calculateBlockIO (entries : list BlkioEntry) : Z * Z := foldl blockio_step (0, 0)%Z entries.

Definition calculateNetwork `{GoRange} (network : gmap string (Z * Z)) : spec_float * spec_float :=
  foldl (λ acc kv, (fadd acc.1 (f64 kv.2.1), fadd acc.2 (f64 kv.2.2))) (f64 0, f64 0)
    (go_range network).

Record MemoryStats := mkMem { Usage : Z; MStats : gmap string Z; Limit : Z; PrivateWorkingSet : Z }.

(** The number that is converted to a float. *)
Definition mem_used (m : MemoryStats) : Z :=
  let v2 := default 0%Z (MStats m !! "inactive_file") in
  let used2 := if (v2 <? Usage m)%Z then u64 (Usage m - v2) else Usage m in
  match MStats m !! "total_inactive_file" with
  | Some v => if (v <? Usage m)%Z then u64 (Usage m - v) else used2
  | None => used2
  end.

Definition calculateMemUsageUnixNoCache (m : MemoryStats) : spec_float := f64 (mem_used m).

Definition calculateMemPercentUnixNoCache (limit usedNoCache : spec_float) : spec_float :=
  if negb (SFeqb limit (f64 0)) then fmul (fdiv usedNoCache limit) (f64 100) else f64 0.

(** [interval] is [v.Read.Sub(v.PreRead).Nanoseconds()]. *)
Definition calculateCPUPercentWindows (interval NumProcs total preTotal : Z) : spec_float :=
  let possIntervals := u64 (u64 interval / 100 * NumProcs) in
  let intervalsUsed := u64 (total - preTotal) in
  if (0 <? possIntervals)%Z then fmul (fdiv (f64 intervalsUsed) (f64 possIntervals)) (f64 100)
  else f64 0.

Record StatsJSON := mkStats {
  SName : string; SID : string;
  CPUStatsOf : CPUStats; PreCPUStats : CPUStats;
  BlkioStats : list BlkioEntry; MemoryStatsOf : MemoryStats;
  PidsCurrentOf : Z; Networks : gmap string (Z * Z);
  ReadSizeBytes : Z; WriteSizeBytes : Z; Interval : Z; NumProcs : Z
}.

Record StatsEntry := mkEntry {
  EName : string; EID : string;
  CPUPercentage : spec_float;
  Memory : spec_float; MemoryPercentage : spec_float; MemoryLimit : spec_float;
  NetworkRx : spec_float; NetworkTx : spec_float;
  BlockRead : spec_float; BlockWrite : spec_float;
  PidsCurrent : Z
}.

(** The entry of one decoded value. *)
Definition stats_entry `{GoRange} (cpus : spec_float) (OSType : string) (v : StatsJSON) : StatsEntry :=
  let '(netRx, netTx) := calculateNetwork (Networks v) in
  if decide (OSType ≠ "windows") then
    let '(blkRead, blkWrite) := calculateBlockIO (BlkioStats v) in
    let mem := calculateMemUsageUnixNoCache (MemoryStatsOf v) in
    let memLimit := f64 (Limit (MemoryStatsOf v)) in
    mkEntry (SName v) (SID v)
      (calculateCPUPercentUnix cpus (TotalUsage (PreCPUStats v)) (SystemUsage (PreCPUStats v)) (CPUStatsOf v))
      mem (calculateMemPercentUnixNoCache memLimit mem) memLimit netRx netTx
      (f64 blkRead) (f64 blkWrite) (PidsCurrentOf v)
  else
    mkEntry (SName v) (SID v)
      (calculateCPUPercentWindows (Interval v) (NumProcs v) (TotalUsage (CPUStatsOf v))
         (TotalUsage (PreCPUStats v)))
      (f64 (PrivateWorkingSet (MemoryStatsOf v))) (f64 0) (f64 0) netRx netTx
      (f64 (ReadSizeBytes v)) (f64 (WriteSizeBytes v)) 0.

(** The result of [dec.Decode]; past the last one the body has ended. *)
Inductive decoded := DValue (v : StatsJSON) | DError.

(** The loop over the statistics: [ctx_done i] is [<-ctx.Done()] in round [i]. The entries
    handed on, and what is returned; [None] while it has not returned after [fuel] rounds.
    The [break] on [io.EOF] leaves the [select], not the loop. *)
Fixpoint resource_loop `{GoRange} (cpus : spec_float) (OSType : string) (ctx_done : nat → bool)
    (fuel i : nat) (events : list decoded) : list StatsEntry * option bool :=
  match fuel with
  | O => ([], None)
  | S fuel' =>
      if ctx_done i then ([], Some false)
      else
        match events with
        | [] => resource_loop cpus OSType ctx_done fuel' (S i) []
        | DError :: events' => resource_loop cpus OSType ctx_done fuel' (S i) events'
        | DValue v :: events' =>
            let '(es, r) := resource_loop cpus OSType ctx_done fuel' (S i) events' in
            (stats_entry cpus OSType v :: es, r)
        end
  end.

(** [quota_period]: the CPU quota and period, when the inspection succeeds. [stats]: an
    error, or the type of the system and the events. *)
Definition containerResourceInfo `{GoRange} (quota_period : option (Z * Z))
    (stats : string + string * list decoded) (ctx_done : nat → bool) (fuel : nat)
    : list StatsEntry * option bool :=
  let cpus := match quota_period with
              | Some (q, p) => if (0 <? q)%Z && (0 <? p)%Z then fdiv (f64 q) (f64 p) else f64 0
              | None => f64 0
              end in
  match stats with
  | inl _ => ([], Some false)
  | inr (OSType, events) => resource_loop cpus OSType ctx_done fuel 0 events
  end.

(** The websocket to the device service of the node. *)
Inductive dial := DialRefused (status : option Z) | DialOk (messages : list bytes).
Definition StatusNoContent : Z := 204.

(** The messages passed to the handler, and whether to try again. *)
Definition containerGpuInfo (d : dial) : list bytes * bool :=
  match d with
  | DialRefused (Some s) => ([], negb (s =? StatusNoContent)%Z)
  | DialRefused None => ([], true)
  | DialOk ms => (gpuMessage <$> ms, true)
  end.

(** The goroutine around it: one element of [rounds] per turn, with whether the source is
    closed before it. *)
Fixpoint gpu_rounds (rounds : list (bool * dial)) : list bytes :=
  match rounds with
  | [] => []
  | (closed, d) :: rounds' =>
      if closed then []
      else let '(ms, again) := containerGpuInfo d in
           if again then ms ++ gpu_rounds rounds' else ms
  end.

(** ** Which pod is tailed *)

(** The rounds go on where those before stopped waiting. *)
Lemma poll_app conf started pre post ms b :
  poll conf started pre = (ms, PWaiting b) →
  poll conf started (pre ++ post) = (ms ++ (poll conf b post).1, (poll conf b post).2).
Proof.
  revert started ms. induction pre as [|o pre IH]; intros started ms E; cbn [poll app] in *.
  { injection E as <- <-. by destruct (poll conf started post). }
  destruct (s_closed o); [done|].
  destruct (poll_round conf started (s_pods o)) as [m [| |b' t]]; [done..|].
  destruct (poll conf b' pre) as [ms' e] eqn:E'. injection E as <- ->.
  rewrite (IH b' ms' E'). by rewrite app_assoc.
Qed.

(** A pod whose logs can be shown: no container failed, it runs or has succeeded, and it
    has a container. *)
Definition ready (pod : PodStatus) (c : ContainerStatus) : Prop :=
  GetPodErrorInfo pod = None ∧ (Phase pod = "Running" ∨ Phase pod = "Succeeded") ∧
  head (ContainerStatuses pod) = Some c.

Lemma poll_round_break conf started pods ms c h :
  poll_round conf started pods = (ms, VBreak c h) ↔
  ∃ pod rest st, pods = Some (pod :: rest) ∧ ready pod st ∧ ms = [process_message pod] ∧
    c = TrimPrefix (CSContainerID st) "docker://" ∧
    h = HostIP pod +:+ ":" +:+ Itoa (DockerServerPort conf).
Proof.
  unfold poll_round, ready. split.
  - destruct pods as [[|pod rest]|]; [by destruct started| |by destruct started].
    destruct (GetPodErrorInfo pod) as [[]|] eqn:Ee; [done|].
    destruct (ContainerStatuses pod) as [|st sts] eqn:Es; [by repeat case_decide|].
    case_decide as Hp; [|by repeat case_decide].
    intros [= <- <- <-]. exists pod, rest, st. rewrite Es. split_and!; try done.
    rewrite decide_False; [done|]. destruct Hp as [-> | ->]; done.
  - intros (pod & rest & st & -> & (He & Hp & Hst) & -> & -> & ->). rewrite He.
    destruct (ContainerStatuses pod) as [|st' sts]; simplify_eq/=.
    rewrite (decide_True _ _ Hp), decide_False; [done|]. destruct Hp as [-> | ->]; done.
Qed.

(** A pod with a failed container. *)
Definition failing (o : Seen) : Prop :=
  s_closed o = false ∧ ∃ pod rest, s_pods o = Some (pod :: rest) ∧ GetPodErrorInfo pod ≠ None.

(** C18. Polling for a pod: the container that is tailed is the first one of the first pod
    listed, in the first round in which that pod is running or has succeeded with no failed
    container and at least one container, provided no earlier round ended the wait; a pod
    that was seen and is gone ends the connection with LOG_END. As long as the pod listed
    has a failed container the wait goes on, one failure message per round, whatever the
    phase of the pod: also for a pod in phase Failed, whose logs are never shown. *)
Theorem poll_spec conf pre o post ms b :
  poll conf false pre = (ms, PWaiting b) →
  (∀ pod rest st, s_closed o = false → s_pods o = Some (pod :: rest) → ready pod st →
     poll conf false (pre ++ o :: post) =
       (ms ++ [process_message pod],
        PFound (TrimPrefix (CSContainerID st) "docker://")
               (HostIP pod +:+ ":" +:+ Itoa (DockerServerPort conf)))) ∧
  (∀ ms' c h, poll conf false (pre ++ [o]) = (ms', PFound c h) →
     ∃ pod rest st, s_pods o = Some (pod :: rest) ∧ ready pod st ∧
       c = TrimPrefix (CSContainerID st) "docker://") ∧
  (b = true → s_closed o = false → (s_pods o = None ∨ s_pods o = Some []) →
     poll conf false (pre ++ o :: post) = (ms ++ [stat (NL +:+ "LOG_END")], PReturned)) ∧
  (∀ seen, Forall failing seen → ∃ ms', poll conf false (pre ++ seen) =
       (ms ++ ms', PWaiting (bool_decide (seen ≠ []) || b)) ∧ length ms' = length seen).
Proof.
  intros Hpre. split; [|split; [|split]].
  - intros pod rest st Hc Hp Hr. rewrite (poll_app _ _ _ _ _ _ Hpre). cbn [poll]. rewrite Hc.
    assert (poll_round conf b (s_pods o) = ([process_message pod], VBreak
      (TrimPrefix (CSContainerID st) "docker://")
      (HostIP pod +:+ ":" +:+ Itoa (DockerServerPort conf)))) as ->; [|done].
    apply poll_round_break. by exists pod, rest, st.
  - intros ms' c h. rewrite (poll_app _ _ _ _ _ _ Hpre). cbn [poll].
    destruct (s_closed o); [done|]. destruct (poll_round conf b (s_pods o)) as [m [|c' h'|]] eqn:E; [done| |done].
    apply poll_round_break in E as (pod & rest & st & -> & Hr & -> & -> & _).
    intros [= <- <- <-]. by exists pod, rest, st.
  - intros -> Hc Hp. rewrite (poll_app _ _ _ _ _ _ Hpre). cbn [poll]. rewrite Hc.
    by destruct Hp as [-> | ->].
  - intros seen Hs.
    assert (∀ b, ∃ ms', poll conf b seen = (ms', PWaiting (bool_decide (seen ≠ []) || b)) ∧
              length ms' = length seen) as Hgen.
    { clear b Hpre. induction Hs as [|o' seen Hf Hs IH]; intros b; [by exists []|].
      destruct Hf as (Hc & pod & rest & Hp & He). cbn [poll]. rewrite Hc, Hp. cbn [poll_round].
      destruct (GetPodErrorInfo pod) as [[r e]|]; [|done].
      destruct (IH true) as (ms' & -> & Hl). eexists. rewrite orb_true_r. split; [done|]. simpl. lia. }
    destruct (Hgen b) as (ms' & E & Hl). exists ms'. by rewrite (poll_app _ _ _ _ _ _ Hpre), E.
Qed.

(** ** The end of the log comes last *)

(** The merges of two sequences of operations. *)
Inductive interleave {A} : list A → list A → list A → Prop :=
| inter_nil : interleave [] [] []
| inter_left x l1 l2 l : interleave l1 l2 l → interleave (x :: l1) l2 (x :: l)
| inter_right x l1 l2 l : interleave l1 l2 l → interleave l1 (x :: l2) (x :: l).

Section ending.
Context `{GoRange} (k : string).

(** An operation of an open connection that does not send kind [k] past the cache. *)
Definition calm (o : op) : Prop :=
  match o with
  | OWrite m => 4 ≤ length m
  | OMid m => kind m ≠ k
  | OTimer | OFlush => True
  | OClose => False
  end.

(** One that does not write kind [k] either. *)
Definition aside (o : op) : Prop := calm o ∧ written_by k o = [].

Lemma calm_step c o :
  conn_inv c → closed c = false → calm o →
  ∃ c1 x, apply_op c o = Ok c1 ∧ conn_inv c1 ∧ closed c1 = false ∧ sent c1 = sent c ++ x ∧
    payloads k x ++ cached k c1 = cached k c ++ written_by k o.
Proof.
  intros Hinv Hc Ho.
  assert (∃ c1 x, apply_op c o = Ok c1 ∧ closed c1 = false ∧ sent c1 = sent c ++ x)
    as (c1 & x & E & Hc1 & Hx).
  { destruct o as [m|m| | |]; simpl in Ho |- *; try done.
    - unfold write. rewrite decide_False by lia. eexists _, []. split; [done|]. by rewrite app_nil_r.
    - unfold writeMid. rewrite Hc. by eexists _, [m].
    - unfold timer_fires, flush. simpl. destruct (timeAfter c); [|exists c, []; by rewrite app_nil_r].
      rewrite Hc. by eexists _, _.
    - unfold flush. rewrite Hc. by eexists _, _. }
  exists c1, x. assert (∀ m, o = OMid m → kind m ≠ k) as Hmid by (by intros m ->).
  pose proof (apply_op_conserves k c o c1 Hinv Hmid E) as Hcons.
  rewrite Hx, payloads_app, <-app_assoc in Hcons. apply app_inv_head in Hcons.
  split_and!; try done. by eapply apply_op_inv.
Qed.

(** Nothing of kind [k] is cached: it stays so. *)
Lemma aside_step c o :
  conn_inv c → closed c = false → cached k c = [] → aside o →
  ∃ c1 x, apply_op c o = Ok c1 ∧ conn_inv c1 ∧ closed c1 = false ∧ sent c1 = sent c ++ x ∧
    payloads k x = [] ∧ cached k c1 = [].
Proof.
  intros Hinv Hc Hk [Ho Hw]. destruct (calm_step c o Hinv Hc Ho) as (c1 & x & E & Hi & Hc1 & Hx & Hp).
  rewrite Hk, Hw in Hp. apply app_eq_nil in Hp as [??]. by exists c1, x.
Qed.

Lemma run_aside ops c :
  conn_inv c → closed c = false → cached k c = [] → Forall aside ops →
  ∃ c1 x, ofold apply_op c ops = Ok c1 ∧ sent c1 = sent c ++ x ∧ payloads k x = [].
Proof.
  intros Hinv Hc Hk Hops. revert c Hinv Hc Hk. induction Hops as [|o ops Ho Hops IH]; intros c Hinv Hc Hk.
  { exists c, []. by rewrite app_nil_r. }
  destruct (aside_step c o Hinv Hc Hk Ho) as (c1 & x & E & Hi & Hc1 & Hx & Hp & Hk1).
  destruct (IH c1 Hi Hc1 Hk1) as (c2 & y & E2 & Hy & Hpy). exists c2, (x ++ y).
  simpl. rewrite E. simpl. split; [done|]. rewrite Hy, Hx, <-app_assoc. split; [done|].
  by rewrite payloads_app, Hp.
Qed.

Lemma interleave_nil_l (l2 l : list op) : interleave [] l2 l → l = l2.
Proof.
  revert l2. induction l as [|x l IH]; intros l2 Hi; inversion Hi; subst; [done|].
  f_equal. by apply IH.
Qed.

(** The last message [e] remains to be sent, the cache holds nothing of kind [k]. *)
Lemma run_last e others ops c :
  conn_inv c → closed c = false → cached k c = [] → kind e ≠ k → Forall aside others →
  interleave [OMid e] others ops →
  ∃ c1 s1 s2, ofold apply_op c ops = Ok c1 ∧ sent c1 = s1 ++ e :: s2 ∧
    payloads k s1 = payloads k (sent c) ∧ payloads k s2 = [].
Proof.
  intros Hinv Hc Hk He Ho Hi. remember [OMid e] as l1 eqn:El. revert c Hinv Hc Hk Ho El.
  induction Hi as [|x l1 l2 l Hi IH|x l1 l2 l Hi IH]; intros c Hinv Hc Hk Ho El; [done|..].
  - injection El as -> ->. apply interleave_nil_l in Hi as ->.
    destruct (calm_step c (OMid e) Hinv Hc He) as (c1 & x & E & Hi1 & Hc1 & Hx & Hp).
    simpl in E, Hp. rewrite Hk in Hp. apply app_eq_nil in Hp as [_ Hk1].
    destruct (run_aside l2 c1 Hi1 Hc1 Hk1 Ho) as (c2 & y & E2 & Hy & Hpy).
    exists c2, (sent c), y. simpl in *. injection E as <-. simpl. split; [done|]. split; [|done].
    rewrite Hy. unfold writeMid. rewrite Hc. simpl. by rewrite <-app_assoc.
  - apply Forall_cons in Ho as [Hox Ho].
    destruct (aside_step c x Hinv Hc Hk Hox) as (c1 & y & E & Hi1 & Hc1 & Hx & Hp & Hk1).
    destruct (IH c1 Hi1 Hc1 Hk1 Ho El) as (c2 & s1 & s2 & E2 & Hs & Hp1 & Hp2).
    exists c2, s1, s2. simpl. rewrite E. simpl. split; [done|]. split; [done|]. split; [|done].
    by rewrite Hp1, Hx, payloads_app, Hp, app_nil_r.
Qed.

(** Writes and other messages, then a flush and the last message. *)
Lemma run_tail ms e others ops c :
  conn_inv c → closed c = false → kind e ≠ k → Forall calm ms → Forall aside others →
  interleave (ms ++ [OFlush; OMid e]) others ops →
  ∃ c1 s1 s2, ofold apply_op c ops = Ok c1 ∧ sent c1 = s1 ++ e :: s2 ∧
    payloads k s1 = payloads k (sent c) ++ cached k c ++ concat (written_by k <$> ms) ∧
    payloads k s2 = [].
Proof.
  intros Hinv Hc He Hms Ho Hi. remember (ms ++ [OFlush; OMid e]) as l1 eqn:El.
  revert ms c Hinv Hc Hms Ho El.
  induction Hi as [|x l1 l2 l Hi IH|x l1 l2 l Hi IH]; intros ms c Hinv Hc Hms Ho El.
  - by destruct ms.
  - destruct ms as [|o ms]; simpl in El; injection El as -> ->.
    + destruct (run_last e l2 l (flush c)) as (c2 & s1 & s2 & E2 & Hs & Hp1 & Hp2); try done.
      * by apply flush_inv.
      * unfold flush. by rewrite Hc.
      * unfold flush, cached. rewrite Hc. simpl. by rewrite lookup_empty.
      * exists c2, s1, s2. split; [done|]. split; [done|]. split; [|done]. rewrite Hp1, app_nil_r.
        unfold flush. rewrite Hc. simpl. by rewrite payloads_app, payloads_cache.
    + apply Forall_cons in Hms as [Hox Hms].
      destruct (calm_step c o Hinv Hc Hox) as (c1 & y & E & Hi1 & Hc1 & Hx & Hp).
      destruct (IH ms c1 Hi1 Hc1 Hms Ho eq_refl) as (c2 & s1 & s2 & E2 & Hs & Hp1 & Hp2).
      exists c2, s1, s2. cbn [ofold]. rewrite E. split; [done|]. split; [done|]. split; [|done].
      rewrite Hp1, Hx, payloads_app. simpl. rewrite <-!app_assoc. f_equal.
      by rewrite !(app_assoc _ (cached k c1)), Hp, <-app_assoc.
  - apply Forall_cons in Ho as [[Hox Hw] Ho].
    destruct (calm_step c x Hinv Hc Hox) as (c1 & y & E & Hi1 & Hc1 & Hx & Hp).
    destruct (IH ms c1 Hi1 Hc1 Hms Ho El) as (c2 & s1 & s2 & E2 & Hs & Hp1 & Hp2).
    exists c2, s1, s2. cbn [ofold]. rewrite E. split; [done|]. split; [done|]. split; [|done].
    rewrite Hp1, Hx, payloads_app, <-!app_assoc. f_equal. rewrite app_assoc, Hp, Hw. by rewrite app_nil_r.
Qed.

End ending.

(** What the other goroutines of a connection do: device and resource messages, timers. *)
Definition other_op (o : op) : Prop :=
  o = OTimer ∨ ∃ m, o = OWrite (gpuMessage m) ∨ o = OWrite (resourceMessage m).

Definition log_kind : string := "1000".

Lemma other_aside o : other_op o → aside log_kind o.
Proof. intros [-> | (m & [-> | ->])]; split; simpl; try done; lia. Qed.

Lemma frame_message_kind conf draws i f :
  ∃ body, frame_message conf draws i f = LOG_MESSAGE ++ body.
Proof.
  unfold frame_message, logMessage. destruct (LineConfound _ _ _ _); simpl; [by eexists|..]; by exists [].
Qed.

(** The frame less one leading blank. *)
Definition unblank (f : bytes) : bytes :=
  match f with
  | c :: (_ :: _) as rest => if decide (c = space) then rest else f
  | _ => f
  end.

Lemma frame_message_short conf draws i f :
  (blen f <= LineMaxSize conf)%Z → frame_message conf draws i f = LOG_MESSAGE ++ unblank f.
Proof.
  intros Hf. unfold frame_message, logMessage. fold (unblank f). unfold LineConfound.
  rewrite (proj2 (Z.ltb_ge _ _)); [done|]. unfold blen in *. unfold unblank.
  destruct f as [|a [|b f]]; try done. case_decide; simpl in *; lia.
Qed.

Lemma payload_log b : payload (LOG_MESSAGE ++ b) = b.
Proof. done. Qed.

Definition log_messages (conf : Config) (draws : nat → Draws) (src : list read_event) : list bytes :=
  imap (frame_message conf draws) (frames (StdCopy Discard src)).

Lemma log_messages_written conf draws src :
  concat (written_by log_kind <$> (OWrite <$> log_messages conf draws src)) =
  concat (payload <$> log_messages conf draws src).
Proof.
  f_equal. rewrite <-list_fmap_compose. apply list_fmap_ext. intros i m Hm.
  unfold log_messages in Hm. rewrite list_lookup_imap in Hm.
  destruct (frames _ !! i) as [f|]; simplify_eq/=.
  destruct (frame_message_kind conf draws i f) as [b ->]. done.
Qed.

Lemma imap_short conf draws fs j :
  Forall (λ f, (blen f <= LineMaxSize conf)%Z) fs →
  payload <$> imap (λ i, frame_message conf draws (j + i)) fs = unblank <$> fs.
Proof.
  intros Hf. revert j. induction Hf as [|f fs Hl Hf IH]; intros j; [done|].
  rewrite imap_cons. cbn [fmap list_fmap]. rewrite frame_message_short by done. f_equal.
  rewrite <-(IH (S j)). f_equal. apply imap_ext. intros i x _. simpl. f_equal. lia.
Qed.

Lemma StdCopy_frames fs tail src :
  Forall good_frame fs → incomplete tail → stream_of src = (mux fs ++ tail, None) →
  frames (StdCopy Discard src) = fs.*2.
Proof.
  intros Hf Ht Hs. rewrite StdCopy_clean, Hs by (apply with_err_eof; by rewrite Hs). cbn [fst snd].
  rewrite demux_mux; [done..|]. pose proof (mux_length fs). rewrite length_app. lia.
Qed.

(** C17. The end of a log comes last. The tail's own flush takes no lock; suppose that nothing
    else touches the connection while it runs (the other operations take the mutex, and so
    are one after another in any case). Then, however the device and resource messages and
    the timers of the other goroutines fall between the operations of the tail, on a
    connection that nobody closes, no operation panics, and LOG_END reaches the client after
    all of the log and before nothing of it: the log payload sent before it is exactly the
    payload of the messages made from the frames of the stream, in order. For a stream of
    well-formed frames that ends without error, of lines within the size limit, however cut
    into reads, that payload is the frames themselves, each less one leading blank. *)
Theorem tail_delivers `{GoRange} conf draws src others ops c :
  conn_inv c → closed c = false → payloads log_kind (sent c) = [] → cached log_kind c = [] →
  Forall other_op others → interleave (tail_ops conf draws src) others ops →
  ∃ c1 s1 s2, ofold apply_op c ops = Ok c1 ∧
    sent c1 = s1 ++ stat (NL +:+ "LOG_END") :: s2 ∧
    payloads log_kind s1 = concat (payload <$> log_messages conf draws src) ∧
    payloads log_kind s2 = [] ∧
    (∀ fs tail, Forall good_frame fs → incomplete tail → stream_of src = (mux fs ++ tail, None) →
       Forall (λ f, (blen f.2 <= LineMaxSize conf)%Z) fs →
       payloads log_kind s1 = concat (unblank <$> fs.*2)).
Proof.
  intros Hinv Hc Hs0 Hk0 Ho Hi. unfold tail_ops in Hi. rewrite app_assoc in Hi.
  fold (log_messages conf draws src) in Hi. set (err := match copy_err _ with Some e => _ | None => _ end) in Hi.
  assert (Forall (calm log_kind) err ∧ concat (written_by log_kind <$> err) = []) as [Herr Hw].
  { unfold err. destruct (copy_err _); [|by split; [constructor|]]. split; [|done]. by repeat constructor. }
  edestruct (run_tail log_kind) as (c1 & s1 & s2 & E & Hs & Hp & Hp2); [exact Hinv|exact Hc|..|exact Hi|].
  - done.
  - apply Forall_app. split; [|exact Herr]. apply Forall_fmap, Forall_lookup. intros i m Hm. simpl.
    unfold log_messages in Hm. rewrite list_lookup_imap in Hm.
    destruct (frames _ !! i) as [f|]; simplify_eq/=.
    destruct (frame_message_kind conf draws i f) as [b ->]. simpl. lia.
  - eapply Forall_impl; [exact Ho|]. apply other_aside.
  - rewrite Hs0, Hk0, !app_nil_l, fmap_app, concat_app, Hw, app_nil_r, log_messages_written in Hp.
    exists c1, s1, s2. split_and!; try done.
    intros fs tail Hf Ht Hst Hlen. rewrite Hp. unfold log_messages.
    rewrite (StdCopy_frames fs tail) by done. f_equal.
    rewrite <-(imap_short conf draws fs.*2 0); [done|]. by apply Forall_fmap.
Qed.

(** ** The loop over the statistics *)

Definition values (events : list decoded) : list StatsJSON :=
  omap (λ e, match e with DValue v => Some v | DError => None end) events.

Lemma resource_loop_open `{GoRange} cpus os ctx_done fuel i events :
  (∀ j, j < i + fuel → ctx_done j = false) → length events ≤ fuel →
  resource_loop cpus os ctx_done fuel i events = (stats_entry cpus os <$> values events, None).
Proof.
  revert i events. induction fuel as [|fuel IH]; intros i events Hc Hl.
  { destruct events; simpl in *; [done|lia]. }
  cbn [resource_loop]. rewrite Hc by lia.
  assert (∀ j, j < S i + fuel → ctx_done j = false) as Hc' by (intros; apply Hc; lia).
  destruct events as [|[v|] events]; simpl in Hl.
  - by rewrite IH by (simpl; lia || done).
  - by rewrite IH by (done || lia).
  - by rewrite IH by (done || lia).
Qed.

(** The statistics of a container are handed on one entry per value decoded, in order;
    but the end of the stream (the container has stopped) does not end the loop: it goes
    round without pause until the connection is closed. *)
Theorem resource_loop_spins `{GoRange} quota_period os events ctx_done :
  (∀ i, ctx_done i = false) →
  ∀ fuel, length events ≤ fuel →
  ∃ es, containerResourceInfo quota_period (inr (os, events)) ctx_done fuel = (es, None) ∧
    length es = length (values events) ∧
    EName <$> es = SName <$> values events.
Proof.
  intros Hc fuel Hl. unfold containerResourceInfo. eexists. rewrite resource_loop_open by auto.
  split; [reflexivity|]. rewrite length_fmap. split; [done|]. rewrite <-list_fmap_compose.
  apply list_fmap_ext. intros i v _. unfold stats_entry, compose.
  destruct (calculateNetwork (Networks v)), (calculateBlockIO (BlkioStats v)). by case_decide.
Qed.

(** ** Block input and output, memory *)

Definition starts_with (cs : list ascii) (e : BlkioEntry) : bool :=
  match str_elems (Op e) with c :: _ => bool_decide (c ∈ cs) | [] => false end.

Definition sum_of (cs : list ascii) (es : list BlkioEntry) : Z :=
  foldr (λ e n, if starts_with cs e then (Value e + n)%Z else n) 0%Z es.

Lemma sum_of_perm cs es es' : es ≡ₚ es' → sum_of cs es = sum_of cs es'.
Proof.
  unfold sum_of. induction 1 as [|e es es' Hp IH|e e' es|? ? ? ? IH1 ? IH2]; simpl; [done|by rewrite IH| |].
  - destruct (starts_with cs e), (starts_with cs e'); lia.
  - by rewrite IH1.
Qed.

Lemma u64_add_l a b : u64 (u64 a + b) = u64 (a + b).
Proof. unfold u64. by rewrite Zplus_mod_idemp_l. Qed.

Lemma blockio_fold es a b :
  foldl blockio_step (u64 a, u64 b) es =
  (u64 (a + sum_of ["r"%char; "R"%char] es), u64 (b + sum_of ["w"%char; "W"%char] es)).
Proof.
  revert a b. induction es as [|e es IH]; intros a b.
  { unfold sum_of. simpl. by rewrite !Z.add_0_r. }
  cbn [foldl sum_of foldr]. fold (sum_of ["r"%char; "R"%char] es) (sum_of ["w"%char; "W"%char] es).
  unfold blockio_step at 2, starts_with. destruct (str_elems (Op e)) as [|c s]; [by rewrite IH|].
  rewrite !bool_decide_decide. destruct (decide (c ∈ ["r"%char; "R"%char])) as [Hr|Hr].
  - rewrite decide_False. 2:{ intros Hw. set_unfold in Hr. set_unfold in Hw. naive_solver. }
    cbn [fst snd]. rewrite u64_add_l, IH. do 2 f_equal. lia.
  - destruct (decide (c ∈ ["w"%char; "W"%char])); cbn [fst snd]; [|by rewrite IH].
    rewrite u64_add_l, IH. do 2 f_equal. lia.
Qed.

(** The block counters are the sums, modulo 2^64, of the values of the entries whose
    operation starts with r or R, and with w or W, in whatever order the entries come; and the
    memory in use, for values that fit 64 bits, never exceeds the usage reported, never
    wraps below zero, and is the usage less the inactive file cache of the control group
    in use, when that is smaller. *)
Theorem stats_spec es m :
  calculateBlockIO es = (u64 (sum_of ["r"%char; "R"%char] es), u64 (sum_of ["w"%char; "W"%char] es)) ∧
  (∀ es', es ≡ₚ es' → calculateBlockIO es' = calculateBlockIO es) ∧
  (in_u64 (Usage m) → (∀ k v, MStats m !! k = Some v → in_u64 v) →
     (0 <= mem_used m <= Usage m)%Z ∧
     (∀ v, MStats m !! "total_inactive_file" = Some v → (v < Usage m)%Z →
        mem_used m = (Usage m - v)%Z) ∧
     (∀ v, MStats m !! "total_inactive_file" = None → MStats m !! "inactive_file" = Some v →
        (v < Usage m)%Z → mem_used m = (Usage m - v)%Z)).
Proof.
  assert (∀ es, calculateBlockIO es =
    (u64 (sum_of ["r"%char; "R"%char] es), u64 (sum_of ["w"%char; "W"%char] es))) as Hb.
  { intros es0. unfold calculateBlockIO. change (0, 0)%Z with (u64 0, u64 0). by rewrite blockio_fold. }
  split; [apply Hb|]. split.
  { intros es' Hp. by rewrite !Hb, !(sum_of_perm _ es es'). }
  intros Hu Hv.
  assert (∀ v, in_u64 v → (v < Usage m)%Z → u64 (Usage m - v) = (Usage m - v)%Z) as Hsub.
  { intros v Hr Hlt. apply u64_small. unfold in_u64 in *. lia. }
  assert (in_u64 (default 0%Z (MStats m !! "inactive_file"))) as Hi.
  { destruct (MStats m !! "inactive_file") eqn:E; simpl; [by eapply Hv|done]. }
  unfold mem_used. split; [|split].
  - assert (∀ v, in_u64 v → (0 <= (if (v <? Usage m)%Z then u64 (Usage m - v) else Usage m) <= Usage m)%Z) as Hr.
    { intros v Hr. destruct (Z.ltb_spec v (Usage m)); [rewrite Hsub by done|]; unfold in_u64 in *; lia. }
    destruct (MStats m !! "total_inactive_file") as [v|] eqn:E; [|by apply Hr].
    destruct (Z.ltb_spec v (Usage m)); [|by apply Hr]. rewrite Hsub by (by eapply Hv || done).
    apply Hv in E. unfold in_u64 in *. lia.
  - intros v E Hlt. rewrite E, (proj2 (Z.ltb_lt _ _) Hlt). apply Hsub; [by eapply Hv|done].
  - intros v E1 E2 Hlt. rewrite E1, E2. simpl. rewrite (proj2 (Z.ltb_lt _ _) Hlt).
    apply Hsub; [by eapply Hv|done].
Qed.

(** ** Logs from an object *)

Definition log_of (j : JsonLine) : list bytes := match j with JLog s => [str_elems s] | _ => [] end.

Lemma minio_lines_good parse stop i ls :
  (∀ j, stop j = false) → Forall (λ l, (∃ s, parse l = JLog s) ∨ parse l = JNoLog) ls →
  minio_lines parse stop i ls None = (concat ((λ l, log_of (parse l)) <$> ls), Err "EOF").
Proof.
  intros Hstop Hls. revert i. induction Hls as [|l ls Hl Hls IH]; intros i; [done|].
  cbn [minio_lines fmap list_fmap concat]. rewrite Hstop, IH. by destruct Hl as [[s ->]| ->].
Qed.

(** The logs of a finished container, read from an object of one JSON value per line:
    the texts under the key "log" of the complete lines are sent in order, and nothing
    else. What follows the last line feed is dropped without an error, also when it is a
    complete record of the log. *)
Theorem MinioLog_Start_lines parse stop ls rest :
  (∀ j, stop j = false) → Forall is_line ls → ascii_of_nat 10 ∉ rest →
  Forall (λ l, (∃ s, parse l = JLog s) ∨ parse l = JNoLog) ls →
  MinioLog_Start parse stop (inr (concat ls ++ rest, None)) =
    (concat ((λ l, log_of (parse l)) <$> ls), Err "EOF").
Proof.
  intros Hstop Hls Hr Hp. unfold MinioLog_Start. rewrite split_lines_concat by done.
  by apply minio_lines_good.
Qed.

(** ** Witnesses *)

Definition demo_pod (phase : string) (code : Z) : PodStatus :=
  mkPodStatus [] [mkContainerStatus "docker://a2e3" None false (Some (mkTerminated code "Error" "exit"))]
    phase "10.0.0.7" "".

(** Waiting, then found; and a failed pod that is never left. *)
Lemma poll_spec_witness :
  poll demo_config false [mkSeen false (Some []); mkSeen false (Some [demo_pod "Succeeded" 0])] =
     ([stat (CR +:+ "Wait for task create...")] ++ [process_message (demo_pod "Succeeded" 0)],
      PFound "a2e3" "10.0.0.7:2375") ∧
  (∃ ms', poll demo_config false ([mkSeen false (Some [])] ++ replicate 3 (mkSeen false (Some [demo_pod "Failed" 1]))) =
     ([stat (CR +:+ "Wait for task create...")] ++ ms', PWaiting true) ∧ length ms' = 3).
Proof.
  destruct (poll_spec demo_config [mkSeen false (Some [])] (mkSeen false (Some [demo_pod "Succeeded" 0])) []
    [stat (CR +:+ "Wait for task create...")] false eq_refl) as (H1 & _ & _ & H4).
  split.
  - apply (H1 (demo_pod "Succeeded" 0) [] (mkContainerStatus "docker://a2e3" None false (Some (mkTerminated 0 "Error" "exit"))));
      [reflexivity..|]. split; [reflexivity|]. split; [right; reflexivity|reflexivity].
  - apply (H4 (replicate 3 (mkSeen false (Some [demo_pod "Failed" 1])))).
    repeat constructor; eexists _, _; (split; [reflexivity|]); discriminate.
Defined.

Definition demo_frames : bytes := mux [(ascii_of_nat 1, str_elems " hello"); (ascii_of_nat 2, str_elems "bye")].
Definition demo_draws : nat → Draws := λ _, mkDraws (λ _, 0) (λ _, 0).

(** Device messages between the operations of the tail, and a timer. *)
Lemma tail_delivers_witness :
  ∃ c1 s1 s2,
    @ofold _ _ (@apply_op range_sorted) new_conn
      (OWrite (gpuMessage (str_elems "{}")) :: tail_ops demo_config demo_draws [RChunk demo_frames] ++ [OTimer])
      = Ok c1 ∧
    sent c1 = s1 ++ stat (NL +:+ "LOG_END") :: s2 ∧
    payloads log_kind s1 = concat (payload <$> log_messages demo_config demo_draws [RChunk demo_frames]) ∧
    payloads log_kind s2 = [] ∧
    (∀ fs tail, Forall good_frame fs → incomplete tail →
       stream_of [RChunk demo_frames] = (mux fs ++ tail, None) →
       Forall (λ f, (blen f.2 <= LineMaxSize demo_config)%Z) fs →
       payloads log_kind s1 = concat (unblank <$> fs.*2)).
Proof.
  apply (@tail_delivers range_sorted demo_config demo_draws [RChunk demo_frames]
           [OWrite (gpuMessage (str_elems "{}")); OTimer]); try reflexivity.
  - apply conn_inv_new.
  - apply Forall_cons. split; [right; exists (str_elems "{}"); left; reflexivity|].
    apply Forall_singleton. left. reflexivity.
  - apply inter_right. vm_compute. repeat apply inter_left. repeat constructor.
Defined.

Definition demo_stats (name : string) : StatsJSON :=
  mkStats name "id" (mkCPU 300 1000 4 0) (mkCPU 100 500 4 0) [] (mkMem 100 ∅ 200 0) 3 ∅ 0 0 0 0.

Lemma resource_loop_spins_witness :
  ∃ es, @containerResourceInfo range_sorted None (inr ("linux", [DValue (demo_stats "a"); DError; DValue (demo_stats "b")]))
          (λ _, false) 1000 = (es, None) ∧ length es = 2 ∧ EName <$> es = ["a"; "b"].
Proof.
  apply (@resource_loop_spins range_sorted None "linux" [DValue (demo_stats "a"); DError; DValue (demo_stats "b")]
           (λ _, false)); [reflexivity|]. simpl. lia.
Defined.

Lemma stats_spec_witness :
  calculateBlockIO [mkBlkio "Read" 5; mkBlkio "write" 7; mkBlkio "" 9; mkBlkio "Total" 12] = (5, 7)%Z ∧
  mem_used (mkMem 100 {["inactive_file" := 30%Z]} 200 0) = 70%Z.
Proof.
  destruct (stats_spec [mkBlkio "Read" 5; mkBlkio "write" 7; mkBlkio "" 9; mkBlkio "Total" 12]
              (mkMem 100 {["inactive_file" := 30%Z]} 200 0)) as (H1 & _ & H3).
  split; [rewrite H1; reflexivity|]. destruct H3 as (_ & _ & H4).
  - vm_compute. split; [discriminate|reflexivity].
  - cbn [MStats]. intros k v [<- <-]%lookup_singleton_Some. vm_compute. split; [discriminate|reflexivity].
  - rewrite (H4 30%Z); reflexivity.
Defined.

Lemma MinioLog_Start_lines_witness :
  MinioLog_Start (λ l, JLog (string_of_list_ascii l)) (λ _, false)
    (inr (concat [str_elems ("a" +:+ NL); str_elems ("b" +:+ NL)] ++ str_elems "c", None)) =
  ([str_elems ("a" +:+ NL); str_elems ("b" +:+ NL)], Err "EOF").
Proof.
  apply (MinioLog_Start_lines (λ l, JLog (string_of_list_ascii l)) (λ _, false)
           [str_elems ("a" +:+ NL); str_elems ("b" +:+ NL)] (str_elems "c")).
  - reflexivity.
  - repeat constructor; [exists (str_elems "a")|exists (str_elems "b")]; (split; [reflexivity|]); by_decide.
  - by_decide.
  - repeat constructor; by eexists.
Defined.
