(* ===== verification/Hub.v ===== *)
(** * The connections of a node

    container_log/ConnectionManage.go: [ConnectHub], [RegistryConnect], [destroy], the two
    goroutines of [watch], [onMessage] and [onClose] for all connections of the node, each
    of which is a [Conn] of [Connection]; Service/LogService.go's [LogHandler] leads to it.

    Connections are kept in a heap and the hub maps an id to an address, as the map of
    pointers does: [destroy] looks up the id, not the connection that calls it. *)

From S2P Require Import Prelude GoStrings Clients Connection Token PodLog.

(** ** State *)

Record Session := mkSession {
  s_id : string;
  s_conn : Conn;
  s_monitor : option LogMonitor;
  s_cancelled : bool;        (** the context *)
  s_reader : bool;           (** the goroutines of [watch] that run *)
  s_writer : bool;
  s_socket : nat;            (** calls of [Connect.Close] *)
  s_locked : bool            (** a flush holds the mutex while it waits for the writer *)
}.

Record Hub := mkHub {
  connects : gmap string nat;
  sessions : list Session;
  clients : gmap string DockerClient
}.

Definition empty_hub : Hub := mkHub ∅ [] ∅.

Definition set_session (ref : nat) (s : Session) (h : Hub) : Hub :=
  mkHub (connects h) (<[ref := s]> (sessions h)) (clients h).

Definition close_socket (s : Session) : Session :=
  mkSession (s_id s) (s_conn s) (s_monitor s) (s_cancelled s) (s_reader s) (s_writer s) (S (s_socket s)) (s_locked s).

Definition end_reader (s : Session) : Session :=
  mkSession (s_id s) (s_conn s) (s_monitor s) (s_cancelled s) false (s_writer s) (s_socket s) (s_locked s).
Definition end_writer (s : Session) : Session :=
  mkSession (s_id s) (s_conn s) (s_monitor s) (s_cancelled s) (s_reader s) false (s_socket s) (s_locked s).
Definition set_conn (c : Conn) (s : Session) : Session :=
  mkSession (s_id s) c (s_monitor s) (s_cancelled s) (s_reader s) (s_writer s) (s_socket s) (s_locked s).
Definition set_locked (b : bool) (s : Session) : Session :=
  mkSession (s_id s) (s_conn s) (s_monitor s) (s_cancelled s) (s_reader s) (s_writer s) (s_socket s) b.

(** ** Operations *)

Definition OPERATOR_LOG : string := "log".

Section hub.
Context (conf : Config) (NewClientFor : string → outcome (option DockerClient)) (bucket_env : string).

(** A panic of [NewLogMonitor] leaves the connection in the hub, without goroutines. *)
Definition RegistryConnect (id : string) (logParam : LogParam) (h : Hub) : Hub * outcome unit :=
  let ref := length (sessions h) in
  let register m b cache :=
    mkHub (<[id := ref]> (connects h)) (sessions h ++ [mkSession id new_conn m false b b 0 false]) cache in
  if decide (Operator logParam = OPERATOR_LOG) then
    match NewLogMonitor conf NewClientFor bucket_env (clients h) logParam with
    | Ok (cache, monitor) => (register (Some monitor) true cache, Ok ())
    | Err _ => (register None true (clients h), Ok ())
    | Panic => (register None false (clients h), Panic)
    end
  else (register None true (clients h), Ok ()).

Definition destroy (id : string) (h : Hub) : Hub :=
  match connects h !! id with
  | Some ref =>
      mkHub (delete id (connects h)) (alter close_socket ref (sessions h)) (clients h)
  | None => h
  end.

(** [onClose] takes the mutex first: while that is held, the caller waits and nothing
    happens. *)
Definition hub_onClose (ref : nat) (h : Hub) : Hub :=
  match sessions h !! ref with
  | None => h
  | Some s =>
      if s_locked s then h
      else if closed (s_conn s) then h
      else
        let s' := mkSession (s_id s) (onClose (s_conn s)) (MonitorClose <$> s_monitor s) true
                    (s_reader s) (s_writer s) (s_socket s) (s_locked s) in
        destroy (s_id s) (set_session ref s' h)
  end.

Definition CloseMessage : Z := 8.

(** The decoder is given a struct, not a pointer, and always fails. *)
Definition onMessage (ref : nat) (messageType : Z) (h : Hub) : Hub :=
  if (messageType =? CloseMessage)%Z then hub_onClose ref h else h.

(** [ReadMessage]: a message and its type; after an error the type is -1. *)
Definition reader_turn (ref : nat) (read : option Z) (h : Hub) : Hub :=
  match sessions h !! ref with
  | None => h
  | Some s =>
      if negb (s_reader s) then h
      else if s_cancelled s then set_session ref (end_reader s) h
      else
        match read with
        | Some messageType => onMessage ref messageType h
        | None => onMessage ref (-1) (hub_onClose ref h)
        end
  end.

(** A message taken from the channel is written by [Connection]'s operations; here, its
    write fails, or the context is done. *)
Definition writer_turn (ref : nat) (fails : bool) (h : Hub) : Hub :=
  match sessions h !! ref with
  | None => h
  | Some s =>
      if negb (s_writer s) then h
      else if fails then hub_onClose ref h
      else if s_cancelled s then set_session ref (end_writer s) h
      else h
  end.

Inductive hub_event :=
| HRegister (id : string) (p : LogParam)
| HRead (ref : nat) (read : option Z)
| HWriter (ref : nat) (fails : bool)
| HOp (ref : nat) (o : op)
| HLock (ref : nat)              (** a flush has taken the mutex and waits for the writer *)
| HUnlock (ref : nat).           (** it has sent everything *)

(** What the log source and the timers of a connection do to it; these operations wait while
    the mutex is held. *)
Definition conn_turn `{GoRange} (ref : nat) (o : op) (h : Hub) : outcome Hub :=
  match sessions h !! ref, o with
  | None, _ => Ok h
  | Some _, OClose => Ok (hub_onClose ref h)
  | Some s, _ =>
      if s_locked s then Ok h
      else let! c := apply_op (s_conn s) o in Ok (set_session ref (set_conn c s) h)
  end.

(** A flush that finds the connection closed sends nothing, and so does not wait. *)
Definition lock_turn (ref : nat) (b : bool) (h : Hub) : Hub :=
  match sessions h !! ref with
  | None => h
  | Some s => if b && closed (s_conn s) then h else set_session ref (set_locked b s) h
  end.

(** A panic of [RegistryConnect] is that of a handler, which the server recovers. *)
Definition hub_step `{GoRange} (h : Hub) (e : hub_event) : outcome Hub :=
  match e with
  | HRegister id p => Ok (RegistryConnect id p h).1
  | HRead ref read => Ok (reader_turn ref read h)
  | HWriter ref fails => Ok (writer_turn ref fails h)
  | HOp ref o => conn_turn ref o h
  | HLock ref => Ok (lock_turn ref true h)
  | HUnlock ref => Ok (lock_turn ref false h)
  end.

Definition registers (e : hub_event) : option string :=
  match e with HRegister id _ => Some id | _ => None end.

(** ** Invariant *)

(** A connection is in the hub, under its id, until it is closed; closing it has closed the
    socket once, cancelled the context and closed the log source. *)
Definition session_ok (h : Hub) (ref : nat) (s : Session) : Prop :=
  (connects h !! s_id s = Some ref ↔ closed (s_conn s) = false) ∧
  registered (s_conn s) = negb (closed (s_conn s)) ∧
  s_cancelled s = closed (s_conn s) ∧
  s_socket s = (if closed (s_conn s) then 1 else 0) ∧
  (∀ m, s_monitor s = Some m → closed (s_conn s) = true → MonitorClose m = m).

Definition hub_ok (h : Hub) : Prop :=
  (∀ ref s, sessions h !! ref = Some s → session_ok h ref s) ∧
  (∀ id ref, connects h !! id = Some ref → ∃ s, sessions h !! ref = Some s ∧ s_id s = id).

Definition ids (h : Hub) : list string := s_id <$> sessions h.

Lemma ids_set ref s s' h : sessions h !! ref = Some s → s_id s' = s_id s → ids (set_session ref s' h) = ids h.
Proof.
  intros Hs E. unfold ids, set_session. cbn [sessions]. rewrite list_fmap_insert, E.
  apply list_insert_id. by rewrite list_lookup_fmap, Hs.
Qed.

Lemma list_alter_insert {A} (f : A → A) (l : list A) i x : alter f i (<[i := x]> l) = <[i := f x]> l.
Proof. revert i. induction l as [|y l IH]; intros [|i]; [done..|]. cbn. f_equal. apply IH. Qed.

(** What an update of a connection has to keep. *)
Lemma set_session_ok ref s s' h :
  hub_ok h → sessions h !! ref = Some s → s_id s' = s_id s → session_ok h ref s' → hub_ok (set_session ref s' h).
Proof.
  intros [Hs Hc] Href Hid Hok. split.
  - intros r x. cbn [set_session sessions]. intros [(-> & <- & _)|[_ Hx]]%list_lookup_insert_Some; [exact Hok|].
    by apply Hs.
  - intros id r Hr. destruct (Hc id r Hr) as (x & Hx & Ex). cbn [set_session sessions].
    destruct (decide (ref = r)) as [->|Hne].
    + exists s'. rewrite list_lookup_insert_eq by (by eapply lookup_lt_Some). split; [done|congruence].
    + exists x. by rewrite list_lookup_insert_ne.
Qed.

Lemma MonitorClose_idem m : MonitorClose (MonitorClose m) = MonitorClose m.
Proof. by destruct m. Qed.

Lemma onClose_closed c : closed c = false →
  closed (onClose c) = true ∧ registered (onClose c) = false.
Proof. intros E. unfold onClose. by rewrite E. Qed.

(** Closing an open connection, spelled out. *)
Lemma hub_onClose_open ref s h :
  hub_ok h → sessions h !! ref = Some s → closed (s_conn s) = false → s_locked s = false →
  hub_onClose ref h = mkHub (delete (s_id s) (connects h))
    (<[ref := mkSession (s_id s) (onClose (s_conn s)) (MonitorClose <$> s_monitor s) true
                (s_reader s) (s_writer s) (S (s_socket s)) false]> (sessions h)) (clients h).
Proof.
  intros [Hs _] Href Hopen Hlock. destruct (Hs ref s Href) as ([_ Hin] & _). specialize (Hin Hopen).
  unfold hub_onClose. rewrite Href, Hlock, Hopen. unfold destroy. cbn [set_session connects sessions clients].
  rewrite Hin, list_alter_insert. unfold close_socket. cbn. by rewrite ?Hlock.
Qed.

Lemma hub_onClose_ok ref h : hub_ok h → hub_ok (hub_onClose ref h).
Proof.
  intros Hok. destruct (sessions h !! ref) as [s|] eqn:Href; [|unfold hub_onClose; by rewrite Href].
  destruct (s_locked s) eqn:Hlk; [unfold hub_onClose; by rewrite Href, Hlk|].
  destruct (closed (s_conn s)) eqn:Hcl; [unfold hub_onClose; by rewrite Href, Hlk, Hcl|].
  rewrite (hub_onClose_open ref s h) by done. destruct Hok as [Hs Hc].
  destruct (Hs ref s Href) as ([_ Hin] & _ & _ & Hsock & _). specialize (Hin Hcl). rewrite Hcl in Hsock.
  destruct (onClose_closed (s_conn s) Hcl) as [E1 E2]. split; cbn [connects sessions].
  - intros r x [(-> & <- & _)|[Hne Hx]]%list_lookup_insert_Some.
    + unfold session_ok. cbn [s_id s_conn s_monitor s_cancelled s_socket connects]. rewrite E1, E2, lookup_delete_eq.
      split_and!; [naive_solver|done|done|lia|]. intros m (m0 & _ & ->)%fmap_Some _. apply MonitorClose_idem.
    + destruct (Hs r x Hx) as (Hreg & Hrest). split; [|exact Hrest]. cbn [connects].
      destruct (decide (s_id x = s_id s)) as [E|Hid]; [|by rewrite lookup_delete_ne].
      rewrite E, lookup_delete_eq. split; [done|]. intros Ho. apply Hreg in Ho. congruence.
  - intros id r [Hid Hr]%lookup_delete_Some. destruct (Hc id r Hr) as (x & Hx & Ex).
    exists x. rewrite list_lookup_insert_ne; [done|]. intros ->. congruence.
Qed.

Lemma RegistryConnect_shape id p h :
  ∃ m b cache, (RegistryConnect id p h).1 =
    mkHub (<[id := length (sessions h)]> (connects h)) (sessions h ++ [mkSession id new_conn m false b b 0 false]) cache.
Proof. unfold RegistryConnect. case_decide; [|by eauto]. destruct (NewLogMonitor _ _ _ _ _) as [[]| |]; by eauto. Qed.

Lemma RegistryConnect_ok id p h : id ∉ ids h → hub_ok h → hub_ok (RegistryConnect id p h).1.
Proof.
  intros Hnew [Hs Hc]. destruct (RegistryConnect_shape id p h) as (m & b & cache & ->). split; cbn [connects sessions].
  - intros ref s [Hl|[Hl Hs']]%lookup_app_Some.
    + destruct (Hs ref s Hl) as (Hreg & Hrest). split; [|exact Hrest]. cbn [connects]. rewrite lookup_insert_ne; [done|].
      intros ->. apply Hnew. apply list_elem_of_fmap. exists s. split; [done|]. by eapply list_elem_of_lookup_2.
    + apply list_lookup_singleton_Some in Hs' as [Hz <-]. replace ref with (length (sessions h)) by lia.
      unfold session_ok. cbn. rewrite lookup_insert_eq. by split_and!.
  - intros x ref [[<- <-]|[_ Hx]]%lookup_insert_Some.
    + eexists. rewrite list_lookup_middle by done. done.
    + destruct (Hc x ref Hx) as (s & Hl & E). exists s. by rewrite lookup_app_l by (by eapply lookup_lt_Some).
Qed.

(** An operation other than a close keeps what the hub knows of the connection. *)
Lemma apply_op_flags `{GoRange} c o c' :
  o ≠ OClose → apply_op c o = Ok c' → closed c' = closed c ∧ registered c' = registered c.
Proof.
  intros Ho. destruct o; cbn [apply_op]; [unfold write|unfold writeMid|unfold timer_fires, flush|unfold flush|done];
    repeat case_match; intros; by simplify_eq.
Qed.

Lemma hub_step_ok `{GoRange} h e h' :
  (∀ id, registers e = Some id → id ∉ ids h) → hub_ok h → hub_step h e = Ok h' → hub_ok h'.
Proof.
  intros Hnew Hok E. destruct e as [id p|ref read|ref fails|ref o|ref|ref]; cbn [hub_step] in E.
  5-6: simplify_eq; unfold lock_turn; destruct (sessions h !! ref) as [s|] eqn:Href; [|done];
    case_match; [done|]; apply (set_session_ok ref s); [done..|]; exact (proj1 Hok ref s Href).
  - simplify_eq. by apply RegistryConnect_ok; [apply Hnew|].
  - simplify_eq. unfold reader_turn. destruct (sessions h !! ref) as [s|] eqn:Href; [|done].
    destruct (s_reader s); [|done]. cbn [negb]. destruct (s_cancelled s) eqn:Hcan.
    + apply (set_session_ok ref s); [done..|]. exact (proj1 Hok ref s Href).
    + destruct read as [mt|]; unfold onMessage; [destruct (mt =? CloseMessage)%Z; [|done]|]; by apply hub_onClose_ok.
  - simplify_eq. unfold writer_turn. destruct (sessions h !! ref) as [s|] eqn:Href; [|done].
    destruct (s_writer s); [|done]. cbn [negb]. destruct fails; [by apply hub_onClose_ok|].
    destruct (s_cancelled s) eqn:Hcan; [|done]. apply (set_session_ok ref s); [done..|]. exact (proj1 Hok ref s Href).
  - unfold conn_turn in E. destruct (sessions h !! ref) as [s|] eqn:Href; [|by simplify_eq].
    destruct (decide (o = OClose)) as [->|Hne]; [simplify_eq; by apply hub_onClose_ok|].
    assert ((if s_locked s then Ok h else obind (apply_op (s_conn s) o) (λ c, Ok (set_session ref (set_conn c s) h)))
      = Ok h') as E' by (by destruct o).
    destruct (s_locked s); [by simplify_eq|]. apply obind_ok_inv in E' as (c & Ec & [= <-]). destruct (apply_op_flags _ _ _ Hne Ec) as [E1 E2].
    apply (set_session_ok ref s); [done..|]. unfold session_ok. cbn [set_conn s_id s_conn s_cancelled s_socket s_monitor].
    rewrite E1, E2. by apply Hok.
Qed.

Lemma hub_onClose_ids ref h : ids (hub_onClose ref h) = ids h.
Proof.
  unfold hub_onClose. destruct (sessions h !! ref) as [s|] eqn:Href; [|done].
  destruct (s_locked s); [done|]. destruct (closed (s_conn s)); [done|].
  rewrite <-(ids_set ref s (mkSession (s_id s) (onClose (s_conn s)) (MonitorClose <$> s_monitor s) true
    (s_reader s) (s_writer s) (s_socket s) false) h Href eq_refl).
  unfold destroy, ids. destruct (connects _ !! _) as [r|]; [|done]. cbn [sessions].
  rewrite (list_fmap_alter _ _ id); [by apply list_alter_id|]. by apply Forall_true.
Qed.

Lemma hub_step_ids `{GoRange} h e h' :
  hub_step h e = Ok h' → ids h' = ids h ++ option_list (registers e).
Proof.
  intros E. destruct e as [id p|ref read|ref fails|ref o|ref|ref]; cbn [hub_step registers option_list] in *; rewrite ?app_nil_r.
  5-6: simplify_eq; unfold lock_turn; destruct (sessions h !! ref) as [s|] eqn:Href; [|done];
    case_match; [done|]; by apply (ids_set ref s).
  - simplify_eq. destruct (RegistryConnect_shape id p h) as (m & b & cache & ->). unfold ids. cbn [sessions].
    by rewrite fmap_app.
  - simplify_eq. unfold reader_turn, onMessage. destruct (sessions h !! ref) as [s|] eqn:Href; [|done].
    repeat case_match; try done; rewrite ?hub_onClose_ids; try done. by apply (ids_set ref s).
  - simplify_eq. unfold writer_turn. destruct (sessions h !! ref) as [s|] eqn:Href; [|done].
    repeat case_match; try done; [by apply hub_onClose_ids|by apply (ids_set ref s)].
  - unfold conn_turn in E. destruct (sessions h !! ref) as [s|] eqn:Href; [|by simplify_eq].
    destruct (decide (o = OClose)) as [->|Hne]; [simplify_eq; by apply hub_onClose_ids|].
    assert ((if s_locked s then Ok h else obind (apply_op (s_conn s) o) (λ c, Ok (set_session ref (set_conn c s) h)))
      = Ok h') as E' by (by destruct o).
    destruct (s_locked s); [by simplify_eq|]. apply obind_ok_inv in E' as (c & _ & [= <-]). by apply (ids_set ref s).
Qed.

Lemma hub_run_ok `{GoRange} es h h' :
  hub_ok h → NoDup (ids h ++ omap registers es) → ofold hub_step h es = Ok h' → hub_ok h'.
Proof.
  revert h. induction es as [|e es IH]; intros h Hok Hnd E; cbn [ofold] in E; [by simplify_eq|].
  apply obind_ok_inv in E as (h1 & E1 & E2). apply (IH h1); [| |done].
  - apply (hub_step_ok h e); [|done|done]. intros id Hid Hin. cbn [omap list_omap] in Hnd. rewrite Hid in Hnd.
    apply NoDup_app in Hnd as (_ & Hdis & _). apply (Hdis id Hin). by left.
  - rewrite (hub_step_ids h e h1 E1). cbn [omap list_omap] in Hnd. rewrite <-app_assoc. by destruct (registers e).
Qed.

(** C20. The hub holds exactly the open connections. Take accesses to the hub one at a time
    (the code does not lock it). Whatever connections come in, with ids of their own, and
    whatever is read, written, timed out and closed on them in whatever order, also while
    flushes hold the mutexes of connections: a connection is in the hub, under its id, as
    long as it is open; a closed one has been taken out, its socket closed exactly once, its
    context cancelled and its log source closed; and the hub holds nothing else. When reading
    from an open connection fails while its mutex is free, the turn of the reader closes it,
    and both of its goroutines end with their next turn. While a flush holds the mutex, a
    failing read changes nothing: the reader waits, for ever if the flush does, and the
    connection stays in the hub. *)
Theorem hub_invariant `{GoRange} es h :
  NoDup (omap registers es) → ofold hub_step empty_hub es = Ok h →
  (∀ ref s, sessions h !! ref = Some s →
     (connects h !! s_id s = Some ref ↔ closed (s_conn s) = false) ∧
     registered (s_conn s) = negb (closed (s_conn s)) ∧
     s_cancelled s = closed (s_conn s) ∧ s_socket s = (if closed (s_conn s) then 1 else 0) ∧
     (∀ m, s_monitor s = Some m → closed (s_conn s) = true → MonitorClose m = m)) ∧
  (∀ id ref, connects h !! id = Some ref → ∃ s, sessions h !! ref = Some s ∧ s_id s = id) ∧
  (∀ ref s, sessions h !! ref = Some s → s_locked s = true → s_cancelled s = false →
     reader_turn ref None h = h ∧ writer_turn ref true h = h) ∧
  (∀ ref s, sessions h !! ref = Some s → closed (s_conn s) = false → s_locked s = false → s_reader s = true →
     let h1 := reader_turn ref None h in let h2 := writer_turn ref false (reader_turn ref None h1) in
     connects h1 !! s_id s = None ∧
     ∃ s2, sessions h2 !! ref = Some s2 ∧ s_reader s2 = false ∧ s_writer s2 = false ∧ s_socket s2 = 1).
Proof.
  intros Hnd E. assert (hub_ok h) as Hok.
  { apply (hub_run_ok es empty_hub h); [by split|done|done]. }
  split; [exact (proj1 Hok)|]. split; [exact (proj2 Hok)|]. split.
  { intros ref s Href Hlk Hcan. unfold reader_turn, writer_turn, onMessage, hub_onClose. rewrite Href, Hlk, Hcan.
    by destruct (s_reader s), (s_writer s). }
  intros ref s Href Hopen Hlk Hrd.
  destruct (proj1 Hok ref s Href) as (_ & _ & Hcan & Hsock & _). rewrite Hopen in Hcan, Hsock.
  assert (reader_turn ref None h = hub_onClose ref h) as E1 by (unfold reader_turn; by rewrite Href, Hrd, Hcan).
  pose proof (lookup_lt_Some _ _ _ Href) as Hlt.
  intros h1 h2. subst h1 h2. rewrite E1, (hub_onClose_open ref s h) by done. cbn [connects]. split; [apply lookup_delete_eq|].
  set (s1 := mkSession _ _ _ _ _ _ _ _). unfold reader_turn. cbn [sessions]. rewrite list_lookup_insert_eq by done.
  cbn [s1 s_reader s_cancelled]. rewrite Hrd. cbn [negb]. unfold set_session, writer_turn. cbn [sessions connects clients].
  rewrite list_insert_insert_eq, list_lookup_insert_eq by done. subst s1. cbn [end_reader s_writer s_cancelled].
  destruct (s_writer s) eqn:Hw; cbn [negb set_session sessions]; eexists.
  - rewrite list_lookup_insert_eq by (by rewrite length_insert). cbn. by rewrite Hsock.
  - rewrite list_lookup_insert_eq by done. cbn. by rewrite Hsock.
Qed.
End hub.

Definition hub_demo_param : LogParam := mkLogParam "" "c0" "log" "" "" "" "" "logs/7" 9.

Lemma hub_invariant_witness :
  ∃ h, ofold (hub_step (H := range_sorted) demo_config (λ _, Err "") "b") empty_hub
         [HRegister "a" hub_demo_param; HRegister "b" hub_demo_param; HRead 0 None] = Ok h ∧
       connects h !! "a" = None ∧ connects h !! "b" = Some 1.
Proof.
  destruct (ofold (hub_step (H := range_sorted) demo_config (λ _, Err "") "b") empty_hub
         [HRegister "a" hub_demo_param; HRegister "b" hub_demo_param; HRead 0 None]) as [h| |] eqn:E;
    [|vm_compute in E; discriminate..].
  exists h. split; [reflexivity|].
  destruct (hub_invariant (H := range_sorted) demo_config (λ _, Err "") "b"
    [HRegister "a" hub_demo_param; HRegister "b" hub_demo_param; HRead 0 None] h) as (Hs & _); [by_decide|exact E|].
  vm_compute in E. injection E as <-. split; [reflexivity|].
  refine (proj2 (proj1 (Hs 1 _ eq_refl)) eq_refl).
Defined.
