(* ===== verification/PodFiles.v ===== *)
(** * Files of pods

    pod_file/PodFileExporter.go and Service/FileService.go: the files of a container or of
    a host directory are listed and fetched (they are followed in [FileTail]).

    A listing gives, for each file, a URL with a token that names the node and the path;
    whoever presents it to any node gets the file, through the node it names.
    Tokens are those of [Token], paths are resolved by [Quota.FindRealPath], requests go
    through the clients of [Clients]. The file system, Docker, the cluster, JSON and the
    network are parameters. *)

From S2P Require Import Prelude GoStrings GoPath GoIo IoUtils GoUtf8 GoUrl Clients Quota Token QuotaService.

(** ** Data *)

Record FileURLParam := mkFileURL { FHost : string; FPath : string; FModTime : Z }.

Record FileRes := mkFileRes { FRName : string; FRModTime : Z; URL : string; FileSize : Z }.

Record FilesReq := mkFilesReq {
  FToken : string;
  FPodName : string;
  FContainerId : string;
  FImageName : string;
  FHostPath : string;
  FContainerPath : string
}.

Definition req_with_token (t : string) (p : FilesReq) : FilesReq :=
  mkFilesReq t (FPodName p) (FContainerId p) (FImageName p) (FHostPath p) (FContainerPath p).

Inductive FData := FNil | FFiles (l : list FileRes).

(** [encoding/json] on these types. *)
Class FileJSON := {
  file_ok : FileURLParam → Prop;
  MarshalFile : FileURLParam → bytes;
  UnmarshalFile : bytes → option FileURLParam;
  Unmarshal_MarshalFile p : file_ok p → UnmarshalFile (MarshalFile p) = Some p;
  UnmarshalFile_nil : UnmarshalFile [] = None;
  file_ok_localhost p : file_ok p → file_ok (mkFileURL "localhost" (FPath p) (FModTime p));
  MarshalFiles : FilesReq → bytes;
  DecodeFiles : bytes → FilesReq;
  MarshalFRes : BaseResult FData → bytes
}.

(** An entry of a directory: its name, whether it is a directory, and the modification time
    and size unless [Info] fails. *)
Record DirEntry := mkEntry { de_name : string; de_dir : bool; de_info : option (Z * Z) }.

(** What a node sees: the file system, Docker (possibly nil) and the cluster. *)
Record FileNode := mkFileNode {
  fn_conf : Config;
  fn_base : string;                                      (** [BaseDir] *)
  fn_lstat : string → lstat_result;
  fn_stat : string → option string;
  fn_readdir : string → list DirEntry;
  fn_pods : string → option (list (list string));        (** container ids of the pods *)
  fn_image : option (string → option (gmap string string));
  fn_container : option (string → string + gmap string string);
  fn_env_ip : string;
  fn_hostname : option string;
  fn_lookup : string → option (list string)
}.

Definition API_FILES := "/api/listFiles".
Definition API_FILE := "/api/file/".
Definition StatusNotFound : Z := 404.

(** [http.Error(w, msg, status)]. *)
Definition http_Error (msg : string) (status : Z) (w : ResponseWriter) : ResponseWriter :=
  RW_Write (str_elems msg ++ [ascii_of_nat 10])
    (WriteHeader status (SetContentType "text/plain; charset=utf-8" w)).

(** ** pod_file/PodFileExporter.go: listing *)

Definition getHostIp (n : FileNode) : outcome string :=
  if decide (fn_env_ip n ≠ "") then Ok (fn_env_ip n)
  else
    match fn_hostname n with
    | None => Ok ""
    | Some hostname =>
        match fn_lookup n hostname with
        | None => Ok ""
        | Some [] => Panic
        | Some (addr :: _) => Ok addr
        end
    end.

(** The container of a pod; a pod without container statuses is indexed out of range. *)
Definition pod_container (n : FileNode) (podName containerId : string) : outcome string :=
  if decide (podName ≠ "") then
    match fn_pods n podName with
    | None | Some [] => Ok containerId
    | Some ([] :: _) => Panic
    | Some ((id :: _) :: _) => Ok (TrimPrefix id "docker://")
    end
  else Ok containerId.

Definition getContainerDiffPath (n : FileNode) (podName containerId imageName : string) : outcome string :=
  let! containerId := pod_container n podName containerId in
  let! targetPath :=
    (if decide (containerId = "") then
       match fn_image n with
       | None => Panic
       | Some inspect => Ok (match inspect imageName with
                             | Some data => default "" (data !! "UpperDir")
                             | None => ""
                             end)
       end
     else
       match fn_container n with
       | None => Panic
       | Some inspect =>
           match inspect containerId with
           | inl e => Err e
           | inr data => Ok (default "" (data !! "MergedDir"))
           end
       end) in
  if decide (targetPath = "") then Err "container path not found"
  else
    match FindRealPath (fn_lstat n) (fn_stat n) (fn_base n) targetPath with
    | (_, Some e) => Err e
    | (containerDir, None) => Ok containerDir
    end.

Section files.
Context `{AES, Base64, QuotaJSON, FileJSON}.

(** The initialisation vectors drawn for the tokens. *)
Context (ivs : nat → bytes).

(** The directory that is listed. *)
Definition listed_path (n : FileNode) (podName containerId imageName containerPath hostPath : string)
    : outcome string :=
  if decide (hostPath ≠ "") then
    match FindRealPath (fn_lstat n) (fn_stat n) (fn_base n) hostPath with
    | (_, Some _) => Err ""
    | (path, None) => Ok path
    end
  else
    let! containerRootPath := getContainerDiffPath n podName containerId imageName in
    match FindRealPath (fn_lstat n) (fn_stat n) containerRootPath containerPath with
    | (_, Some e) => Err e
    | (path, None) => Ok path
    end.

Definition file_token (n : FileNode) (i : nat) (p : FileURLParam) : outcome string :=
  GeneratorJWTToken (SecretKey (fn_conf n)) (ivs i) (MarshalFile p).

Fixpoint list_entries (n : FileNode) (host path : string) (i : nat) (entries : list DirEntry)
    : outcome (list FileRes) :=
  match entries with
  | [] => Ok []
  | v :: entries' =>
      match de_dir v, de_info v with
      | false, Some (mtime, size) =>
          let f := mkFileURL host (PathJoin [path; de_name v]) mtime in
          let! t := file_token n i f in
          let! rest := list_entries n host path (S i) entries' in
          Ok (mkFileRes (de_name v) mtime
                (API_FILE +:+ Itoa mtime +:+ "/" +:+ QueryEscape (de_name v) +:+ "?token=" +:+ QueryEscape t)
                size :: rest)
      | _, _ => list_entries n host path i entries'
      end
  end.

Definition GetPodFiles (n : FileNode) (podName containerId imageName containerPath hostPath : string)
    : outcome (list FileRes) :=
  let! path := listed_path n podName containerId imageName containerPath hostPath in
  let! host := getHostIp n in
  list_entries n host path 0 (fn_readdir n path).

(** ** Service/FileService.go *)

(** A handler at work: the answer, the request it made, the file it served. *)
(** The method and the headers of a request. *)
Record ReqView := mkReqView { rv_method : string; rv_header : list (string * string) }.

Record FState := mkF {
  f_rw : ResponseWriter;
  f_req : option Request;
  f_served : option string
}.

Definition startF : FState := mkF newRW None None.
Definition f_set_rw (f : ResponseWriter → ResponseWriter) (s : FState) : FState :=
  mkF (f (f_rw s)) (f_req s) (f_served s).

Context (Parse : string → option string) (Compile : string → option (string → bool)).
(** [http.NewRequest] accepts a URL; the answer to a request sent with the method and the
    headers of another: an error, or a status with its body; [http.ServeFile], which reads
    the request (method, headers, the path of its URL) as well as the file. *)
Context (url_ok : string → bool) (do : ReqView → Request → string + Z * bytes).
Context (ServeFile : ReqView → string → string → ResponseWriter → ResponseWriter).
Context (now : Z).

Definition f_reject (e : string) : FState → FState :=
  f_set_rw (λ w, RW_Write (str_elems e) (WriteHeader StatusUnauthorized w)).
Definition f_success (d : FData) : FState → FState :=
  f_set_rw (λ w, (SUCCESS_RES MarshalFRes "" d w).2).
Definition f_fail (e : string) : FState → FState :=
  f_set_rw (λ w, (FAIL_RES MarshalFRes e FNil w).2).

Definition files_token (n : FileNode) (token : string) : outcome AuthParam :=
  let! res := AuthJWTToken (SecretKey (fn_conf n)) token in
  match UnmarshalAuth res with
  | inl e => Err e
  | inr hostParam => Ok hostParam
  end.

(** A request that [http.NewRequest] rejects is used all the same: a nil dereference. *)
Definition PodFilesHandler (n : FileNode) (view : ReqView) (body : bytes) : outcome FState :=
  let param := DecodeFiles body in
  match files_token n (FToken param) with
  | Panic => Panic
  | Err e => Ok (f_reject e startF)
  | Ok hostParam =>
      if decide (Host hostParam = "localhost") then
        match GetPodFiles n (FPodName param) (FContainerId param) (FImageName param)
                (FContainerPath param) (FHostPath param) with
        | Ok files => Ok (f_success (FFiles files) startF)
        | Err e => Ok (f_fail e startF)
        | Panic => Panic
        end
      else
        let host := Host hostParam in
        match GeneratorJWTToken (SecretKey (fn_conf n)) (ivs 0)
                (MarshalAuth (mkAuthParam "localhost" (i64 (now + 1000 * 2)))) with
        | Ok t =>
            let url := GetURLByHost (fn_conf n) host +:+ API_FILES in
            if negb (url_ok url) then Panic
            else
              let rq := mkRequest (GetHttpClient (fn_conf n) Parse Compile host) url
                          (MarshalFiles (req_with_token t param)) in
              let s := mkF newRW (Some rq) None in
              match do view rq with
              | inr (status, r) =>
                  Ok (f_set_rw (λ w, RW_Write r (WriteHeader status (SetContentType "application/json" w))) s)
              | inl e => Ok (f_fail e s)
              end
        | _ => Panic
        end
  end.

(** [urlPath] is the path of the request, [token] its parameter; the headers copied from
    the answer are not modelled. *)
Definition PodFileHandler (n : FileNode) (view : ReqView) (urlPath token : string) (body : bytes)
    : outcome FState :=
  let path := TrimPrefix urlPath API_FILE in
  let res := match AuthJWTToken (SecretKey (fn_conf n)) token with Ok res => res | _ => [] end in
  match UnmarshalFile res with
  | None => Ok (f_set_rw (http_Error "" StatusNotFound) startF)
  | Some p =>
      if decide (FHost p = "localhost") then
        Ok (mkF (ServeFile view urlPath (FPath p) newRW) None (Some (FPath p)))
      else
        let host := FHost p in
        let p := mkFileURL "localhost" (FPath p) (FModTime p) in
        match file_token n 0 p with
        | Ok t =>
            let url := GetURLByHost (fn_conf n) host +:+ API_FILE +:+ QueryEscape path +:+
                       "?token=" +:+ QueryEscape t in
            if negb (url_ok url) then Ok (f_set_rw (http_Error "" StatusNotFound) startF)
            else
              let rq := mkRequest (GetHttpClient (fn_conf n) Parse Compile host) url body in
              let s := mkF newRW (Some rq) None in
              match do view rq with
              | inr (status, r) =>
                  let status := if (status =? 301)%Z then StatusNotFound else status in
                  Ok (f_set_rw (λ w, RW_Write r (WriteHeader status w)) s)
              | inl _ => Ok (f_set_rw (http_Error "" StatusNotFound) s)
              end
        | _ => Panic
        end
  end.

End files.

(** ** A listed file can be fetched *)

Lemma digit_char_mark d : (0 <= d < 10)%Z → "?"%char ≠ digit_char d.
Proof.
  intros Hd. assert (d ∈ [0; 1; 2; 3; 4; 5; 6; 7; 8; 9]%Z) as Hin by (rewrite !elem_of_cons; lia).
  revert Hin. clear. intros Hin.
  assert (Forall (λ d, "?"%char ≠ digit_char d) [0; 1; 2; 3; 4; 5; 6; 7; 8; 9]%Z) as Hall by by_decide.
  by apply (proj1 (Forall_forall _ _) Hall).
Qed.

(** The token of a URL that was put together with [QueryEscape]. *)
Lemma QueryGet_token u t : "?"%char ∉ str_elems u → QueryGet (u +:+ "?token=" +:+ QueryEscape t) "token" = t.
Proof.
  intros Hu. apply (QueryGet_print u [("token", t)] "token"); [done|done|].
  apply Forall_singleton. by split.
Qed.

Section fetch.
Context `{AES, Base64, QuotaJSON, FileJSON}.

Definition listable (v : DirEntry) : option (Z * Z) := if de_dir v then None else de_info v.

(** Every element of a listing is an entry of the directory with a token for its path. *)
Lemma list_entries_files ivs n host path i entries files f :
  list_entries ivs n host path i entries = Ok files → f ∈ files →
  ∃ j v mtime size t, v ∈ entries ∧ listable v = Some (mtime, size) ∧
    file_token ivs n j (mkFileURL host (PathJoin [path; de_name v]) mtime) = Ok t ∧
    f = mkFileRes (de_name v) mtime
          (API_FILE +:+ Itoa mtime +:+ "/" +:+ QueryEscape (de_name v) +:+ "?token=" +:+ QueryEscape t) size.
Proof.
  revert i files. induction entries as [|v entries IH]; intros i files E Hf; cbn [list_entries] in E.
  { simplify_eq. by apply not_elem_of_nil in Hf. }
  assert (∀ i files, list_entries ivs n host path i entries = Ok files → f ∈ files →
    ∃ j v' mtime size t, v' ∈ v :: entries ∧ listable v' = Some (mtime, size) ∧
      file_token ivs n j (mkFileURL host (PathJoin [path; de_name v']) mtime) = Ok t ∧
      f = mkFileRes (de_name v') mtime
          (API_FILE +:+ Itoa mtime +:+ "/" +:+ QueryEscape (de_name v') +:+ "?token=" +:+ QueryEscape t) size) as Hrest.
  { intros i' files' E' Hf'. destruct (IH i' files' E' Hf') as (j & v' & mt & sz & t & Hv & Hrest).
    exists j, v', mt, sz, t. split; [by apply elem_of_cons; right|done]. }
  destruct (de_dir v) eqn:Ed; [by eapply Hrest|].
  destruct (de_info v) as [[mt sz]|] eqn:Ei; [|by eapply Hrest].
  apply obind_ok_inv in E as (t & Et & E). apply obind_ok_inv in E as (rest & Er & E). simplify_eq.
  apply elem_of_cons in Hf as [->|Hf]; [|by eapply Hrest].
  exists i, v, mt, sz, t. split; [by apply elem_of_cons; left|]. unfold listable. by rewrite Ed.
Qed.

(** The token of a file opens to its parameters. *)
Lemma file_token_opens ivs n j p t :
  (∀ i, length (ivs i) = BlockSize) → file_ok p → file_token ivs n j p = Ok t →
  AuthJWTToken (SecretKey (fn_conf n)) t = Ok (MarshalFile p) ∧ key_ok (SecretKey (fn_conf n)) = true.
Proof.
  intros Hiv Hp Et. unfold file_token in Et. split.
  - unfold AuthJWTToken. by rewrite (open_generated _ (ivs j) (MarshalFile p) t).
  - unfold GeneratorJWTToken in Et. by destruct (key_ok _).
Qed.

Context (Parse : string → option string) (Compile : string → option (string → bool)).
Context (ServeFile : ReqView → string → string → ResponseWriter → ResponseWriter).

Lemma PodFileHandler_serves url_ok do ivs n view path t body p :
  AuthJWTToken (SecretKey (fn_conf n)) t = Ok (MarshalFile p) → file_ok p → FHost p = "localhost" →
  PodFileHandler ivs Parse Compile url_ok do ServeFile n view path t body =
  Ok (mkF (ServeFile view path (FPath p) newRW) None (Some (FPath p))).
Proof.
  intros Ha Hp Hh. unfold PodFileHandler. rewrite Ha, Unmarshal_MarshalFile by done. by rewrite decide_True.
Qed.

(** A token for another node makes one request to it. *)
Lemma PodFileHandler_forwards url_ok do ivs n view path t body p t' :
  AuthJWTToken (SecretKey (fn_conf n)) t = Ok (MarshalFile p) → file_ok p → FHost p ≠ "localhost" →
  file_token ivs n 0 (mkFileURL "localhost" (FPath p) (FModTime p)) = Ok t' → (∀ u, url_ok u = true) →
  let rq := mkRequest (GetHttpClient (fn_conf n) Parse Compile (FHost p))
              (GetURLByHost (fn_conf n) (FHost p) +:+ API_FILE +:+ QueryEscape (TrimPrefix path API_FILE) +:+
               "?token=" +:+ QueryEscape t') body in
  PodFileHandler ivs Parse Compile url_ok do ServeFile n view path t body =
  Ok (match do view rq with
      | inr (status, r) =>
          f_set_rw (λ w, RW_Write r (WriteHeader (if (status =? 301)%Z then StatusNotFound else status) w))
            (mkF newRW (Some rq) None)
      | inl _ => f_set_rw (http_Error "" StatusNotFound) (mkF newRW (Some rq) None)
      end).
Proof.
  intros Ha Hp Hh Ht' Hok rq. unfold PodFileHandler. rewrite Ha, Unmarshal_MarshalFile by done.
  rewrite decide_False by done. rewrite Ht', Hok. cbn [negb]. fold rq. by destruct (do view rq) as [|[]].
Qed.

(** What [http.ServeFile] documents of a request for an existing file whose contents are
    [contents]: a plain request ([plain]: GET, without a range or a condition in its
    headers) is answered with all of it, unless the path of its URL ends in
    [/index.html], which is redirected whatever the file, or has an element [..]. *)
Definition serves_files (contents : string → bytes) (plain : ReqView → Prop) : Prop :=
  (∀ view path file, plain view → HasSuffix path "/index.html" = false → ".." ∉ Split path slash →
     rw_status (ServeFile view path file newRW) = StatusOK ∧
     rw_body (ServeFile view path file newRW) = contents file) ∧
  (∀ view path file, plain view → HasSuffix path "/index.html" = true → ".." ∉ Split path slash →
     rw_status (ServeFile view path file newRW) = 301%Z).

(** C24. A file that a node lists can be fetched through any node with the same key. The
    token in its URL makes that node send one request, with the method, headers and body
    of the client, to the node that listed it; the token in that request makes that node
    hand exactly the listed file to [http.ServeFile], without a further request. When
    that answer arrives, a plain GET gives the client the whole contents of the file with
    status 200, unless the path that the second node reads ends in [/index.html]: then the
    second node redirects and the client is told 404, though the file is there. (The
    address of the listing node is not "localhost" and holds no question mark, names and
    times can be written as JSON, initialisation vectors have the length of a block, and
    [http.NewRequest] takes the URL.) *)
Theorem pod_file_fetch ivsA ivsB doA doB okA okB A B pod cid img cpath hpath host path files f view rpath body
    contents plain :
  SecretKey (fn_conf A) = SecretKey (fn_conf B) →
  (∀ i, length (ivsA i) = BlockSize) → (∀ i, length (ivsB i) = BlockSize) →
  GetPodFiles ivsB B pod cid img cpath hpath = Ok files →
  listed_path B pod cid img cpath hpath = Ok path → getHostIp B = Ok host → host ≠ "localhost" →
  "?"%char ∉ str_elems (GetURLByHost (fn_conf A) host) →
  (∀ v mtime size, v ∈ fn_readdir B path → listable v = Some (mtime, size) →
     file_ok (mkFileURL host (PathJoin [path; de_name v]) mtime)) →
  (∀ u, okA u = true) → serves_files contents plain →
  f ∈ files →
  ∃ v sA rq, v ∈ fn_readdir B path ∧ FRName f = de_name v ∧
    let file := PathJoin [path; de_name v] in
    PodFileHandler ivsA Parse Compile okA doA ServeFile A view rpath (QueryGet (URL f) "token") body = Ok sA ∧
    f_req sA = Some rq ∧ f_served sA = None ∧ rq_body rq = body ∧
    HasPrefix (rq_url rq) (GetURLByHost (fn_conf A) host +:+ API_FILE) = true ∧
    ∀ rpath', ∃ sB,
      PodFileHandler ivsB Parse Compile okB doB ServeFile B view rpath' (QueryGet (rq_url rq) "token") body = Ok sB ∧
      f_served sB = Some file ∧ f_req sB = None ∧
      (doA view rq = inr (rw_status (f_rw sB), rw_body (f_rw sB)) → plain view → ".." ∉ Split rpath' slash →
         if HasSuffix rpath' "/index.html" then rw_status (f_rw sA) = StatusNotFound
         else rw_status (f_rw sA) = StatusOK ∧ rw_body (f_rw sA) = contents file).
Proof.
  intros Hkey HivA HivB Hfiles Hpath Hhost Hne Hq Hok HokA [Hserve Hindex] Hf.
  unfold GetPodFiles in Hfiles. rewrite Hpath in Hfiles. cbn [obind] in Hfiles.
  rewrite Hhost in Hfiles. cbn [obind] in Hfiles.
  destruct (list_entries_files _ _ _ _ _ _ _ _ Hfiles Hf) as (j & v & mt & sz & t & Hv & Hl & Ht & ->).
  specialize (Hok v mt sz Hv Hl). set (p := mkFileURL host (PathJoin [path; de_name v]) mt) in *.
  destruct (file_token_opens ivsB B j p t HivB Hok Ht) as [HtB Hkok].
  rewrite <-Hkey in HtB, Hkok.
  set (p' := mkFileURL "localhost" (FPath p) (FModTime p)).
  assert (file_ok p') as Hok' by (by apply file_ok_localhost).
  destruct (Generator_total _ (ivsA 0) (MarshalFile p') Hkok) as [t' Ht'].
  destruct (file_token_opens ivsA A 0 p' t' HivA Hok' Ht') as [HtA _]. rewrite Hkey in HtA.
  assert (QueryGet (API_FILE +:+ Itoa mt +:+ "/" +:+ QueryEscape (de_name v) +:+ "?token=" +:+ QueryEscape t) "token" = t)
    as Hget.
  { rewrite <-(QueryGet_token (API_FILE +:+ Itoa mt +:+ "/" +:+ QueryEscape (de_name v)) t) at 2;
      [by rewrite !str_app_assoc|]. rewrite !str_elems_app, !not_elem_of_app.
    split_and!; [by_decide|apply Itoa_plain; [apply digit_char_mark|done]|by_decide|apply QueryEscape_plain; by_decide]. }
  cbn [URL FRName]. rewrite Hget. exists v.
  set (u := GetURLByHost (fn_conf A) host +:+ API_FILE +:+ QueryEscape (TrimPrefix rpath API_FILE) +:+
            "?token=" +:+ QueryEscape t').
  set (rq := mkRequest (GetHttpClient (fn_conf A) Parse Compile host) u body).
  assert (QueryGet u "token" = t') as Hget'.
  { unfold u.
    rewrite <-(QueryGet_token (GetURLByHost (fn_conf A) host +:+ API_FILE +:+
      QueryEscape (TrimPrefix rpath API_FILE)) t') at 2; [by rewrite !str_app_assoc|].
    rewrite !str_elems_app, !not_elem_of_app. split_and!; [done|by_decide|apply QueryEscape_plain; by_decide]. }
  pose proof (PodFileHandler_forwards okA doA ivsA A view rpath t body p t' HtB Hok Hne Ht' HokA) as HA.
  cbn [FHost p] in HA. fold u rq in HA.
  eexists _, rq. split; [done|]. split; [done|]. split; [exact HA|].
  split; [by destruct (doA view rq) as [|[]]|]. split; [by destruct (doA view rq) as [|[]]|]. split; [done|].
  split. { unfold rq, u. cbn [rq_url]. rewrite <-str_app_assoc. apply HasPrefix_app. }
  intros rpath'. eexists. split; [cbn [rq_url rq]; rewrite Hget'; by apply PodFileHandler_serves|].
  split; [done|]. split; [done|]. cbn [f_rw FPath p']. intros -> Hplain Hdd.
  destruct (HasSuffix rpath' "/index.html") eqn:Hs.
  - by rewrite (Hindex view rpath' _ Hplain Hs Hdd).
  - destruct (Hserve view rpath' (FPath p) Hplain Hs Hdd) as [-> ->]. done.
Qed.

End fetch.

(** ** Examples *)

#[local] Existing Instance toy_aes.
#[local] Existing Instance plain_base64.
#[local] Existing Instance bits_json.

Program Definition bits_file_json : FileJSON := {|
  file_ok := λ _, True;
  MarshalFile := λ p, "0"%char :: enc (FHost p, FPath p, FModTime p);
  UnmarshalFile := λ b,
    match b with
    | [] => None
    | _ :: b => match (dec b : option (string * string * Z)) with
                | Some (h, p, t) => Some (mkFileURL h p t)
                | None => None
                end
    end;
  MarshalFiles := λ p, enc (FToken p, FPodName p, FContainerId p, FImageName p, FHostPath p, FContainerPath p);
  DecodeFiles := λ b,
    match (dec b : option (string * string * string * string * string * string)) with
    | Some (t, p, c, i, h, cp) => mkFilesReq t p c i h cp
    | None => mkFilesReq "" "" "" "" "" ""
    end;
  MarshalFRes := λ r, enc (Code r, Msg r)
|}.
Next Obligation. intros [h p t] _. cbv beta iota. cbn [FHost FPath FModTime]. by rewrite (dec_enc (h, p, t)). Qed.
Next Obligation. done. Qed.
Next Obligation. done. Qed.

#[local] Existing Instance bits_file_json.

Definition demo_file_node : FileNode :=
  mkFileNode demo_config "/host" (λ _, LNoLink) (λ _, None)
    (λ p, if decide (p = "/host/out") then [mkEntry "sub" true None; mkEntry "a b.txt" false (Some (5, 3)%Z)] else [])
    (λ _, None) None None "10.0.0.9" None (λ _, None).

Definition demo_file : FileRes :=
  match GetPodFiles (λ _, demo_iv) demo_file_node "" "" "" "" "/out" with
  | Ok (f :: _) => f
  | _ => mkFileRes "" 0 "" 0
  end.

(** [http.ServeFile] on plain requests for files that hold "abc". *)
Definition demo_ServeFile (view : ReqView) (path file : string) (w : ResponseWriter) : ResponseWriter :=
  if HasSuffix path "/index.html" then WriteHeader 301 w else RW_Write (str_elems "abc") (WriteHeader StatusOK w).

Definition demo_view : ReqView := mkReqView "GET" [].

(** The network delivers the request to a node that serves it. *)
Definition demo_do (view : ReqView) (rq : Request) : string + Z * bytes :=
  inr (rw_status (demo_ServeFile view "/api/file/5/a+b.txt" "" newRW),
       rw_body (demo_ServeFile view "/api/file/5/a+b.txt" "" newRW)).

Lemma pod_file_fetch_witness :
  GetPodFiles (λ _, demo_iv) demo_file_node "" "" "" "" "/out" = Ok [demo_file] ∧
  ∃ sA, PodFileHandler (λ _, demo_iv) Some (λ _, None) (λ _, true) demo_do demo_ServeFile
      demo_file_node demo_view "/api/file/5/a b.txt" (QueryGet (URL demo_file) "token") [] = Ok sA ∧
    rw_status (f_rw sA) = 200%Z ∧ rw_body (f_rw sA) = str_elems "abc".
Proof.
  split; [vm_compute; reflexivity|].
  destruct (pod_file_fetch Some (λ _, None) demo_ServeFile (λ _, demo_iv) (λ _, demo_iv) demo_do demo_do
    (λ _, true) (λ _, true) demo_file_node demo_file_node "" "" "" "" "/out" "10.0.0.9" "/host/out"
    [demo_file] demo_file demo_view "/api/file/5/a b.txt" [] (λ _, str_elems "abc") (λ _, True))
    as (v & sA & rq & _ & Hname & HA & Hrq & _ & _ & _ & HB).
  1,2,3,5,6,10: reflexivity.
  - vm_compute. reflexivity.
  - discriminate.
  - by_decide.
  - intros. exact I.
  - split; intros view path file _ Hs _; unfold demo_ServeFile; rewrite Hs; done.
  - by left.
  - exists sA. split; [exact HA|]. destruct (HB "/api/file/5/a+b.txt") as (sB & EB & _ & _ & Hend).
    apply Hend; [|exact I|by_decide].
    vm_compute in HA. injection HA as <-. vm_compute in Hrq. injection Hrq as <-.
    vm_compute in EB. injection EB as <-. reflexivity.
Defined.
