(* ===== verification/FileTail.v ===== *)
(** * Following a file

    pod_file/PodFileExporter.go ([TailFile], [TailContainerFile]) and
    Service/FileService.go ([TailFileInterHandler], [TailFileHandler], [doRemoteTail]);
    [LogMessage] of utils/Common.go.

    The node of a container follows the file and sends messages over a websocket; another
    node finds the container of a pod and relays them. A run is given by what its rounds
    see: the bytes up to the end of the file, the inode found afterwards, whether the
    client has gone. *)

From S2P Require Import Prelude GoStrings GoPath GoIo IoUtils GoUtf8 GoUrl Clients Quota StdCopy Token PodLog PodFiles.

(** ** Messages *)

Definition LogMessage (message : bytes) : bytes := LOG_MESSAGE ++ message.

(** ** The node of the container *)

(** [ReadBytes('\n')] until an error: the lines, the last one possibly incomplete. *)
Definition lines_of (d : bytes) : list bytes :=
  let '(ls, rest) := split_lines [] d in ls ++ match rest with [] => [] | _ => [rest] end.

(** [last200Lines] keeps the last 2000 lines. *)
Definition keep_line (last : list bytes) (line : bytes) : list bytes :=
  let last := last ++ [line] in if decide (2000 < length last) then tail last else last.

Definition first_message (d : bytes) : list bytes :=
  match foldl keep_line [] (lines_of d) with
  | [] => []
  | ls => [LogMessage (concat ls)]
  end.

Inductive TailEnd := TReturned | TDone | TWaiting | TPanic | TStuck.

Section tail.
Context `{Reader R}.

(** One turn of the second loop: whether the context was done before it, what the reader
    gives up to its error, and the inode [os.Stat] finds then. *)
Record Round := mkRound { rn_done : bool; rn_src : R; rn_inode : option Z }.

(** A round that finds the file gone or replaced returns without sending what it read. *)
Fixpoint tail_rounds (inode : Z) (rounds : list Round) : list bytes * TailEnd :=
  match rounds with
  | [] => ([], TWaiting)
  | r :: rounds' =>
      if rn_done r then ([], TDone)
      else
        match read_round (S (length (rstream (rn_src r)).1)) [] (mkBufio [] NoErr (rn_src r)) with
        | None => ([], TStuck)
        | Some (app, _, _) =>
            if decide (rn_inode r = Some inode) then
              let '(ms, e) := tail_rounds inode rounds' in
              (match app with [] => [] | _ => [LogMessage app] end ++ ms, e)
            else ([], TReturned)
        end
  end.

(** The file as it was opened: its size, its inode, and what the reader gives at first. *)
Record Opened := mkOpened { op_size : Z; op_inode : Z; op_src : R }.

(** When the context is done before the file could be opened, [fileInfo] is nil. *)
Definition dotail (opened : option Opened) (rounds : list Round) : list bytes * TailEnd :=
  match opened with
  | None => ([], TPanic)
  | Some o =>
      let first := if (0 <? op_size o)%Z then first_message (rstream (op_src o)).1 else [] in
      let '(ms, e) := tail_rounds (op_inode o) rounds in (first ++ ms, e)
  end.

(** The outer loop; a turn has whether the context was done, and what [dotail] sees. *)
Fixpoint TailFile (runs : list (bool * option Opened * list Round)) : list bytes * TailEnd :=
  match runs with
  | [] => ([], TWaiting)
  | (done, opened, rounds) :: runs' =>
      if (done : bool) then ([], TDone)
      else
        let '(ms, e) := dotail opened rounds in
        match e with
        | TReturned | TDone => let '(ms', e') := TailFile runs' in (ms ++ ms', e')
        | _ => (ms, e)
        end
  end.

Definition TailContainerFile (n : FileNode) (containerId containerFilePath : string)
    (runs : string → list (bool * option Opened * list Round)) : outcome (list bytes * TailEnd) :=
  let! diffPath := getContainerDiffPath n "" containerId "" in
  match FindRealPath (fn_lstat n) (fn_stat n) diffPath containerFilePath with
  | (_, Some e) => Err e
  | (relPath, None) => Ok (TailFile (runs relPath))
  end.

End tail.

(** ** The node of the client *)

Definition INTER_TAIL_FILE := "/inter/tailFile".

(** The URL [doRemoteTail] dials, and what [TailFileInterHandler] reads from it. *)
Definition tail_url (conf : Config) (host containerId containerPath : string) : string :=
  "ws://" +:+ host +:+ ":" +:+ Itoa (ServerPort conf) +:+ INTER_TAIL_FILE +:+
  "?containerId=" +:+ QueryEscape containerId +:+ "&containerPath=" +:+ QueryEscape containerPath.

Definition inter_params (url : string) : string * string :=
  (QueryGet url "containerId", QueryGet url "containerPath").

(** The messages relayed, and whether an error was returned that is not "not content". *)
Definition doRemoteTail (d : dial) : list bytes * bool :=
  match d with
  | DialRefused (Some s) => ([], negb (s =? StatusNoContent)%Z)
  | DialRefused None => ([], true)
  | DialOk messages => (messages, true)
  end.

(** The first pod of a list: its host, and the id of its first container. *)
Definition first_container (pods : option (list (string * list string))) : outcome (string * string) :=
  match pods with
  | None | Some [] => Ok ("", "")
  | Some ((_, []) :: _) => Panic
  | Some ((host, id :: _) :: _) => Ok (host, TrimPrefix id "docker://")
  end.

Definition blank_line : string := CR +:+ "                                                                ".

(** A turn of the loop of [TailFileHandler]: whether the context was done, the pods, and
    how dialling a URL ends. The result has the messages to the client, the URLs dialled
    and whether the loop panicked. *)
Fixpoint tail_handler (conf : Config) (containerPath : string) (waitingtime : Z)
    (rounds : list (bool * option (list (string * list string)) * (string → dial)))
    : list bytes * list string * bool :=
  match rounds with
  | [] => ([], [], false)
  | (done, pods, dialled) :: rounds' =>
      if (done : bool) then ([], [], false)
      else
        match first_container pods with
        | Ok (host, containerId) =>
            if decide (containerId ≠ "") then
              let blank := if (0 <? waitingtime)%Z then [LogMessage (str_elems blank_line)] else [] in
              let u := tail_url conf host containerId containerPath in
              let '(ms, us, p) := tail_handler conf containerPath waitingtime rounds' in
              (blank ++ (doRemoteTail (dialled u)).1 ++ ms, u :: us, p)
            else
              let waitingtime := (waitingtime + 5)%Z in
              let '(ms, us, p) := tail_handler conf containerPath waitingtime rounds' in
              (LogMessage (str_elems (CR +:+ "waiting container start " +:+ Itoa waitingtime +:+ "s")) :: ms, us, p)
        | _ => ([], [], true)
        end
  end.

(** ** The handlers *)

Record TailParam := mkTailParam { TContainerPath : string; TPodLabel : string; TNamespace : string }.

(** How a websocket request ends: an answer, a failed upgrade, or the messages sent, the
    URLs dialled and whether the goroutine, and with it the process, panicked. *)
Inductive TailOpen :=
| TRefused (w : ResponseWriter)
| TNoUpgrade
| TServed (messages : list bytes) (dialled : list string) (panicked : bool).

Definition TailFileHandler `{AES, Base64} (conf : Config) (UnmarshalTail : bytes → string + TailParam)
    (rounds : TailParam → list (bool * option (list (string * list string)) * (string → dial)))
    (token : string) (upgraded : bool) : TailOpen :=
  let refuse e := TRefused (RW_Write (str_elems e) (WriteHeader StatusUnauthorized newRW)) in
  match AuthJWTToken (SecretKey conf) token with
  | Err e => refuse e
  | Panic => TNoUpgrade
  | Ok res =>
      match UnmarshalTail res with
      | inl e => refuse e
      | inr tailParam =>
          if upgraded then
            let '(ms, us, p) := tail_handler conf (TContainerPath tailParam) 0 (rounds tailParam) in TServed ms us p
          else TNoUpgrade
      end
  end.

(** The loop of [TailFileInterHandler]: a turn has whether the context was done, and what
    following the file sees. *)
Fixpoint inter_loop `{Reader R} (n : FileNode) (containerId containerPath : string)
    (turns : list (bool * (string → list (bool * option (Opened (R := R)) * list (Round (R := R))))))
    : list bytes * bool :=
  match turns with
  | [] => ([], false)
  | (done, runs) :: turns' =>
      if (done : bool) then ([], false)
      else
        match TailContainerFile n containerId containerPath runs with
        | Panic => ([], true)
        | Err _ => inter_loop n containerId containerPath turns'
        | Ok (ms, TPanic) => (ms, true)
        | Ok (ms, TReturned) | Ok (ms, TDone) =>
            let '(ms', p) := inter_loop n containerId containerPath turns' in (ms ++ ms', p)
        | Ok (ms, _) => (ms, false)
        end
  end.

(** No token is asked for. *)
Definition TailFileInterHandler `{Reader R} (n : FileNode)
    (turns : list (bool * (string → list (bool * option (Opened (R := R)) * list (Round (R := R))))))
    (url : string) (upgraded : bool) : TailOpen :=
  if upgraded then
    let '(containerId, containerPath) := inter_params url in
    let '(ms, p) := inter_loop n containerId containerPath turns in TServed ms [] p
  else TNoUpgrade.

(** The two nodes agree on the file. *)
Lemma inter_params_tail_url conf host containerId containerPath :
  "?"%char ∉ str_elems host →
  inter_params (tail_url conf host containerId containerPath) = (containerId, containerPath).
Proof.
  intros Hh. unfold inter_params.
  assert (∀ key, QueryGet (tail_url conf host containerId containerPath) key =
    query_find [("containerId", containerId); ("containerPath", containerPath)] key) as Hget.
  { intros key. rewrite <-(QueryGet_print ("ws://" +:+ host +:+ ":" +:+ Itoa (ServerPort conf) +:+ INTER_TAIL_FILE)).
    - unfold tail_url. by rewrite !str_app_assoc.
    - rewrite !str_elems_app, !not_elem_of_app. split_and!; [by_decide|done|by_decide|
        apply Itoa_plain; [apply digit_char_mark|done]|by_decide].
    - done.
    - do 2 (apply Forall_cons; split; [by split|]). by apply Forall_nil. }
  by rewrite !Hget.
Qed.

(** ** What is sent *)

Lemma tail_drop_1 {A} (l : list A) : tail l = drop 1 l.
Proof. by destruct l. Qed.

Lemma keep_lines ls : foldl keep_line [] ls = drop (length ls - 2000) ls.
Proof.
  assert (∀ k, k ≤ length ls → foldl keep_line [] (take k ls) = drop (k - 2000) (take k ls)) as Hk.
  { intros k. induction k as [|k IH]; intros Hle; [by rewrite take_0|].
    destruct (lookup_lt_is_Some_2 ls k) as [x Hx]; [lia|]. rewrite (take_S_r ls k x Hx), foldl_app, IH by lia.
    cbn [foldl]. unfold keep_line. rewrite length_app, length_drop, length_take_le by lia. cbn [length].
    destruct (decide (2000 < k - (k - 2000) + 1)) as [Hlt|Hge].
    - destruct (decide (k - 2000 < k)) as [Hd|Hd]; [|lia].
      replace (S k - 2000) with (S (k - 2000)) by lia.
      rewrite <-drop_app_le by (rewrite length_take_le; lia).
      rewrite (tail_drop_1 (drop _ _)), drop_drop. f_equal. lia.
    - replace (S k - 2000) with 0 by lia. replace (k - 2000) with 0 by lia. by rewrite !drop_0. }
  specialize (Hk (length ls)). rewrite firstn_all in Hk. by apply Hk.
Qed.

Section tail_lemmas.
Context `{Reader R}.

Definition payload_of (m : bytes) : bytes := drop (length LOG_MESSAGE) m.

Lemma payload_LogMessage p : payload_of (LogMessage p) = p.
Proof. apply drop_app_length. Qed.

(** A round that finds the same file sees the text [d], which is UTF-8. *)
Definition sees (inode : Z) (r : Round) (d : list Z) : Prop :=
  rn_done r = false ∧ rn_inode r = Some inode ∧
  Forall (λ x, valid_rune x = true) d ∧ (rstream (rn_src r)).1 = concat (EncodeRune <$> d).

(** What a round reads, decoded and encoded again. *)
Lemma round_reads src :
  bufio_big → ∃ e b, read_round (S (length (rstream src).1)) [] (mkBufio [] NoErr src) =
    Some (recode (length (rstream src).1) (rstream src).1, e, b).
Proof.
  intros Hmax. destruct (read_round_recode (S (length (rstream src).1)) [] (mkBufio [] NoErr src) Hmax) as [b ->].
  { cbn [pending bf_err bf_buf bf_src app fst]. lia. }
  cbn [pending bf_err bf_buf bf_src app fst snd]. by eexists _, _.
Qed.

Lemma tail_rounds_sees inode rounds texts :
  bufio_big → Forall2 (sees inode) rounds texts →
  ∃ ms, (∀ more, tail_rounds inode (rounds ++ more) =
                 (ms ++ (tail_rounds inode more).1, (tail_rounds inode more).2)) ∧
    Forall (λ m, ∃ p, p ≠ [] ∧ m = LogMessage p) ms ∧
    concat (payload_of <$> ms) = concat ((λ d, concat (EncodeRune <$> d)) <$> texts).
Proof.
  intros Hmax Hs. induction Hs as [|r d rounds texts (Hdone & Hino & Hval & Hstr) Hs IH].
  { exists []. split; [|done]. intros more. apply surjective_pairing. }
  destruct IH as (ms & Hms & Hne & Hcat).
  assert (∀ more, tail_rounds inode ((r :: rounds) ++ more) =
    (match concat (EncodeRune <$> d) with [] => [] | q => [LogMessage q] end ++ ms ++ (tail_rounds inode more).1,
     (tail_rounds inode more).2)) as Hstep.
  { intros more. cbn [app tail_rounds]. rewrite Hdone.
    destruct (round_reads (rn_src r) Hmax) as (e & b & ->). rewrite Hstr, recode_valid by done.
    rewrite decide_True by done. rewrite Hms. by destruct (concat (EncodeRune <$> d)). }
  rewrite fmap_cons. cbn [concat]. destruct (concat (EncodeRune <$> d)) as [|c p].
  - by exists ms.
  - exists (LogMessage (c :: p) :: ms). split; [done|]. split.
    + apply Forall_cons. split; [by exists (c :: p)|done].
    + rewrite fmap_cons. cbn [concat]. by rewrite payload_LogMessage, Hcat.
Qed.

Lemma split_lines_nonempty acc b l : l ∈ (split_lines acc b).1 → l ≠ [].
Proof.
  revert acc. induction b as [|c b IH]; intros acc; cbn [split_lines]; [by intros ?%not_elem_of_nil|].
  case_decide; [|apply IH]. pose proof (IH []) as IH0. destruct (split_lines [] b) as [ls rest].
  cbn [fst]. intros [->|Hl]%elem_of_cons; [by destruct acc|by apply IH0].
Qed.

Lemma lines_of_nonempty d l : l ∈ lines_of d → l ≠ [].
Proof.
  unfold lines_of. pose proof (split_lines_nonempty [] d l) as Hl. destruct (split_lines [] d) as [ls rest].
  intros [?|Hr]%elem_of_app; [by apply Hl|]. destruct rest; [by apply not_elem_of_nil in Hr|].
  apply list_elem_of_singleton in Hr. by subst.
Qed.

(** The first message has the last lines. *)
Lemma first_message_spec d :
  let ls := lines_of d in
  Forall (λ m, ∃ p, p ≠ [] ∧ m = LogMessage p) (first_message d) ∧
  concat (payload_of <$> first_message d) = concat (drop (length ls - 2000) ls).
Proof.
  intros ls. unfold first_message. rewrite keep_lines. fold ls.
  destruct (drop (length ls - 2000) ls) as [|l ls'] eqn:E; [done|].
  assert (l ≠ []) as Hl.
  { apply (lines_of_nonempty d). fold ls. rewrite <-(take_drop (length ls - 2000) ls), E. set_solver. }
  split.
  - apply Forall_singleton. eexists. split; [|done]. cbn [concat]. by destruct l.
  - rewrite fmap_cons. change (concat (payload_of (LogMessage (concat (l :: ls'))) :: []) = concat (l :: ls')).
    rewrite payload_LogMessage. cbn [concat]. by rewrite app_nil_r.
Qed.

(** C25. A file that is not empty when it is opened, and to which every round appends valid
    UTF-8 that ends between two characters, is followed: its last 2000 lines are sent, byte
    for byte, then everything appended to it, in messages that are never empty, however the
    bytes arrive, and the run goes on waiting. A round that finds the file replaced ends
    the run, and what it had read of the old file is not sent. (A round that ends inside a
    character or holds invalid UTF-8 is sent with U+FFFD in its place; a file can be read
    in pieces of the size of bufio's buffer.) *)
Theorem tail_follows o rounds texts :
  bufio_big → (0 < op_size o)%Z → Forall2 (sees (op_inode o)) rounds texts →
  let ls := lines_of (rstream (op_src o)).1 in
  ∃ ms, Forall (λ m, ∃ p, p ≠ [] ∧ m = LogMessage p) ms ∧
    concat (payload_of <$> ms) =
      concat (drop (length ls - 2000) ls) ++ concat ((λ d, concat (EncodeRune <$> d)) <$> texts) ∧
    dotail (Some o) rounds = (ms, TWaiting) ∧
    (∀ r more, rn_done r = false → rn_inode r ≠ Some (op_inode o) →
       dotail (Some o) (rounds ++ r :: more) = (ms, TReturned)).
Proof.
  intros Hmax Hsize Hs ls. unfold dotail. rewrite (proj2 (Z.ltb_lt _ _) Hsize).
  destruct (tail_rounds_sees (op_inode o) rounds texts Hmax Hs) as (ms & Hms & Hne & Hcat).
  destruct (first_message_spec (rstream (op_src o)).1) as [Hf Hfcat].
  exists (first_message (rstream (op_src o)).1 ++ ms). split; [by apply Forall_app|].
  split; [by rewrite fmap_app, concat_app, Hfcat, Hcat|]. split.
  - pose proof (Hms []) as E. rewrite app_nil_r in E. rewrite E. cbn [tail_rounds fst snd]. by rewrite app_nil_r.
  - intros r more Hd Hi. rewrite Hms. cbn [tail_rounds]. rewrite Hd.
    destruct (round_reads (rn_src r) Hmax) as (e & b & ->). rewrite decide_False by done.
    cbn [fst snd]. by rewrite app_nil_r.
Qed.

End tail_lemmas.

(** ** Examples *)

Definition demo_opened : Opened (R := list read_event) :=
  mkOpened 6 7 [RChunk (str_elems "a"); RChunk (str_elems ("b" +:+ NL +:+ "cd"))].

(** The two bytes of a character arrive in different reads. *)
Definition demo_rounds : list (Round (R := list read_event)) :=
  [mkRound false [RChunk (take 1 (EncodeRune 233)); RChunk (drop 1 (EncodeRune 233))] (Some 7%Z);
   mkRound false [RChunk (str_elems "x")] (Some 7%Z)].

Lemma tail_follows_witness :
  ∃ ms, concat (payload_of <$> ms) =
          str_elems ("ab" +:+ NL +:+ "cd") ++ EncodeRune 233 ++ str_elems "x" ∧
    dotail (Some demo_opened) demo_rounds = (ms, TWaiting) ∧
    dotail (Some demo_opened) (demo_rounds ++ [mkRound false [RChunk (str_elems "lost")] (Some 8%Z)]) = (ms, TReturned).
Proof.
  destruct (tail_follows demo_opened demo_rounds [[233%Z]; [120%Z]]) as (ms & _ & Hcat & Hd & Hr).
  - unfold bufio_big. vm_compute. discriminate.
  - reflexivity.
  - repeat (apply Forall2_cons_2; [repeat (split; [first [reflexivity | apply Forall_singleton; reflexivity]|]);
      vm_compute; reflexivity|]). apply Forall2_nil_2.
  - exists ms. split; [rewrite Hcat; vm_compute; reflexivity|]. split; [exact Hd|].
    apply Hr; [reflexivity|discriminate].
Defined.
