(* ===== verification/LogService.v ===== *)
(** * The log service

    Service/LogService.go: [LogHandler], [DownloadLogHandler], [UploadLogByTrackNo] with
    [saveLogCallback].

    An upload whose token names another node, or none, looks up the pod. When the pod is
    tracked by the collector the request is passed on to the node of the pod with a token
    for "localhost", and that node asks its collector; otherwise the logs are taken from
    the cluster and stored in Minio. The cluster, the object store, the collector, JSON and
    the network are parameters; tokens are those of [Token], retries those of
    [QuotaService]. *)

From S2P Require Import Prelude GoStrings Clients Token QuotaService PodLog.

(** ** Data *)

Record UploadLogParam := mkUpload {
  UToken : string;
  UMessage : string;
  UPodLabel : string;
  UContainerName : string;
  UMinioObjName : string;
  UCallBackUrl : string;
  UAsync : Z
}.

Definition upload_with_token (t : string) (p : UploadLogParam) : UploadLogParam :=
  mkUpload t (UMessage p) (UPodLabel p) (UContainerName p) (UMinioObjName p) (UCallBackUrl p) (UAsync p).

Record LocalUploadLogParam := mkLocal {
  LTrackNo : string;
  LMessage : string;
  LContainerName : string;
  LMinioObjName : string;
  LCallBackUrl : string;
  LAsync : Z
}.

Record UploadByParamRes := mkUploadRes { TrackFlag : Z; UploadCode : Z }.

Inductive UData := UNil | URes (r : UploadByParamRes).

(** [encoding/json] on these types. *)
Class UploadJSON := {
  upload_ok : UploadLogParam → Prop;
  MarshalUpload : UploadLogParam → bytes;
  DecodeUpload : bytes → UploadLogParam;
  Decode_MarshalUpload p : upload_ok p → DecodeUpload (MarshalUpload p) = p;
  MarshalLocal : LocalUploadLogParam → bytes;
  DecodeUploadRes : bytes → string + UploadByParamRes;
  MarshalURes : BaseResult UData → bytes
}.

(** A pod as the list request gives it: its name, the names of the environment variables of
    its containers, its status. *)
Record Pod := mkPod { pod_name : string; pod_envs : list (list string); pod_status : PodStatus }.

(** Goroutines. *)
Inductive ujob :=
| GoSaveLogCallback (url : string) (status : Z) (res : bytes)
| GoProxySave (logParam : LogParam) (param : UploadLogParam).

(** The handler at work: the answer, the requests to the collector and to other nodes, the
    objects stored, the goroutines started. *)
Record UState := mkU {
  u_rw : ResponseWriter;
  u_collector : list bytes;
  u_posts : list Request;
  u_puts : list (string * bytes);
  u_go : list ujob
}.

Definition startU : UState := mkU newRW [] [] [] [].
Definition u_set_rw (f : ResponseWriter → ResponseWriter) (u : UState) : UState :=
  mkU (f (u_rw u)) (u_collector u) (u_posts u) (u_puts u) (u_go u).
Definition u_start (j : ujob) (u : UState) : UState :=
  mkU (u_rw u) (u_collector u) (u_posts u) (u_puts u) (u_go u ++ [j]).
Definition u_put (obj : string) (data : bytes) (u : UState) : UState :=
  mkU (u_rw u) (u_collector u) (u_posts u) (u_puts u ++ [(obj, data)]) (u_go u).

Definition API_UPLOADLOGBYTRACKNO := "/api/uploadLogByTrackNo".

(** The requests [saveLogCallback] makes. *)
Definition saveLogCallback (url : string) (status : Z) (res : bytes) : list (string * bytes) :=
  if decide (url ≠ "") then [(url, res)] else [].

(** ** Handlers *)

Section handlers.
Context `{AES, Base64, JSON, UploadJSON, Retry}.
Context (Parse : string → option string) (Compile : string → option (string → bool)).
Context (conf : Config) (now : Z) (iv : bytes).

(** Another node's answer to the n-th request; the collector's answer to the n-th one. *)
Context (post : nat → Request → string + bytes) (collector : nat → bytes → string + bytes).
(** The first pod with a label, the logs of a pod, and the error of storing an object. *)
Context (pods : string → option Pod) (logs : string → string + bytes).
Context (put : string → bytes → option string).

(** [LogHandler]: whether the connection could be upgraded, and the outcome. *)
Inductive LogOpen := LNoUpgrade | LRejected (messages : list bytes) | LRegistered (p : LogParam).

Definition LogHandler (upgraded : bool) (token : string) : LogOpen :=
  if negb upgraded then LNoUpgrade
  else
    match Auth (SecretKey conf) now token with
    | Ok logParam => LRegistered logParam
    | Err e => LRejected [str_elems e; str_elems "connect close"]
    | Panic => LRejected []
    end.

(** The answer, and whether the handler ended in a panic of its own. After a rejected token
    the handler goes on with a nil parameter; when the object cannot be opened, it prints
    an error that is nil, and recovers. *)
Definition DownloadLogHandler (object : string → string + bytes) (token : string) : ResponseWriter * bool :=
  match Auth (SecretKey conf) now token with
  | Ok logParam =>
      let w := SetContentType "application/octet-stream" newRW in
      match object (MinioObjName logParam) with
      | inr data => (RW_Write data w, false)
      | inl _ => (w, false)
      end
  | Err e =>
      (SetContentType "application/octet-stream"
         (WriteHeader StatusUnauthorized (RW_Write (str_elems e) newRW)), true)
  | Panic => (newRW, true)
  end.

Definition local_param (logParam : LogParam) (param : UploadLogParam) : LocalUploadLogParam :=
  mkLocal (TrackNo logParam) (UMessage param) (UContainerName param) (UMinioObjName param)
    (UCallBackUrl param) (UAsync param).

(** The closure of the request to the collector. *)
Definition collector_once (jsonString : bytes) (u : UState) : option string * UState :=
  let u' := mkU (u_rw u) (u_collector u ++ [jsonString]) (u_posts u) (u_puts u) (u_go u) in
  match collector (length (u_collector u)) jsonString with
  | inl err2 => (Some err2, u')
  | inr body =>
      match DecodeUploadRes body with
      | inl err2 => (Some err2, u')
      | inr res => (None, u_set_rw (λ w, (SUCCESS_RES MarshalURes "success" (URes res) w).2) u')
      end
  end.

Definition upload_local (logParam : LogParam) (param : UploadLogParam) (u : UState) : UState :=
  match retry_Do 3 (collector_once (MarshalLocal (local_param logParam param))) u with
  | (None, u) => u
  | (Some e, u) =>
      u_set_rw (λ w, WriteHeader StatusBadRequest (FAIL_RES MarshalURes e UNil w).2) u
  end.

(** The closure of the request to the node of the pod. *)
Definition upload_once (host : string) (jsonString : bytes) (param : UploadLogParam) (u : UState)
    : option string * UState :=
  let rq := mkRequest (GetHttpClient conf Parse Compile host)
              (GetURLByHost conf host +:+ API_UPLOADLOGBYTRACKNO) jsonString in
  let u' := mkU (u_rw u) (u_collector u) (u_posts u ++ [rq]) (u_puts u) (u_go u) in
  match post (length (u_posts u)) rq with
  | inl err2 => (Some err2, u')
  | inr r =>
      let u' := if (UAsync param =? 0)%Z then u_set_rw (RW_Write r) u' else u' in
      (None, u_start (GoSaveLogCallback (UCallBackUrl param) 1 r) u')
  end.

Definition proxy_tracked (host : string) (jsonString : bytes) (param : UploadLogParam) (u : UState) : UState :=
  match retry_Do 3 (upload_once host jsonString param) u with
  | (None, u) => u
  | (Some e, u) =>
      let resBody := (FAIL_RES MarshalURes e UNil newRW).1 in
      let u := if (UAsync param =? 0)%Z
               then u_set_rw (λ w, WriteHeader StatusBadRequest (FAIL_RES MarshalURes e UNil w).2) u
               else u in
      u_start (GoSaveLogCallback (UCallBackUrl param) 0 resBody) u
  end.

(** The text stored for a pod that is not tracked: its logs, or the error of the pod; and
    the message of the request. *)
Definition appended (param : UploadLogParam) (text : bytes) : bytes :=
  text ++ ascii_of_nat 10 :: str_elems (UMessage param).

Definition proxy_untracked (pod : Pod) (param : UploadLogParam) (u : UState) : UState :=
  let store (text : bytes) (u : UState) : Z * string * UState :=
    let u := u_put (UMinioObjName param) (appended param text) u in
    match put (UMinioObjName param) (appended param text) with
    | Some e => (0%Z, e, u)
    | None => (1%Z, "", u)
    end in
  let '(code, errInfoMessage, u) :=
    match logs (pod_name pod) with
    | inr text => store text u
    | inl _ =>
        match GetPodErrorInfo (pod_status pod) with
        | Some (_, errInfo) => store (str_elems errInfo) u
        | None => (0%Z, "", u)
        end
    end in
  let resData := URes (mkUploadRes 0 code) in
  let resBody := if (code =? 1)%Z then (SUCCESS_RES MarshalURes "success" resData newRW).1
                 else (FAIL_RES MarshalURes errInfoMessage resData newRW).1 in
  u_start (GoSaveLogCallback (UCallBackUrl param) 1 resBody) u.

Definition doProxySave (isTrack : Z) (pod : option Pod) (host : string) (jsonString : bytes)
    (param : UploadLogParam) (u : UState) : UState :=
  if (isTrack =? 1)%Z then proxy_tracked host jsonString param u
  else match pod with Some pod => proxy_untracked pod param u | None => u end.

Definition is_tracked (pod : option Pod) : Z :=
  match pod with
  | Some pod => if existsb (existsb (λ name, Contains name "cvmart_logs_stdout")) (pod_envs pod) then 1 else 0
  | None => 1
  end.

Definition upload_host (host : string) (pod : option Pod) : string :=
  let host := match pod with
              | Some pod => if decide (host = "") then HostIP (pod_status pod) else host
              | None => host
              end in
  if decide (host = "") then "localhost" else host.

(** The parameters of a request for this node, made from those of another one. *)
Definition local_log (p : LogParam) : LogParam :=
  mkLogParam "localhost" (ContainerId p) (Operator p) (Tail p) (TrackNo p) (PodLabel p) (PodName p)
    (MinioObjName p) (ExpirationTime p).

(** [doProxySaveFunc] with what it captures; a panic while the token is made is recovered. *)
Definition proxy_save (logParam : LogParam) (param : UploadLogParam) : option (UState → UState) :=
  match GeneratorToken (SecretKey conf) iv (local_log logParam) with
  | Ok t =>
      let param := upload_with_token t param in
      let pod := pods (UPodLabel param) in
      Some (doProxySave (is_tracked pod) pod (upload_host (LPHost logParam) pod) (MarshalUpload param) param)
  | _ => None
  end.

(** [seen]: the upload code the answer of an asynchronous request sees, which the goroutine
    writes. *)
Definition UploadLogByTrackNo (seen : Z) (body : bytes) : UState :=
  let param := DecodeUpload body in
  match Auth (SecretKey conf) now (UToken param) with
  | Panic => startU
  | Err e => u_set_rw (λ w, WriteHeader StatusUnauthorized (RW_Write (str_elems e) w)) startU
  | Ok logParam =>
      if decide (LPHost logParam = "localhost") then upload_local logParam param startU
      else
        match proxy_save logParam param with
        | None => startU
        | Some save =>
            if (0 <? UAsync param)%Z then
              let resData := mkUploadRes (is_tracked (pods (UPodLabel param))) seen in
              u_set_rw (λ w, (SUCCESS_RES MarshalURes "request success" (URes resData) w).2)
                (u_start (GoProxySave logParam param) startU)
            else save startU
        end
  end.

(** A goroutine, started in the state the handler left. *)
Definition run_ujob (j : ujob) (u : UState) : UState :=
  match j with
  | GoProxySave logParam param => default id (proxy_save logParam param) u
  | GoSaveLogCallback _ _ _ => u
  end.

End handlers.

(** ** A tracked log, from node to node *)

Section claims.
Context `{AES, Base64, JSON, UploadJSON, Retry}.
Context (Parse : string → option string) (Compile : string → option (string → bool)).

Lemma Auth_key key now token p : Auth key now token = Ok p → key_ok key = true.
Proof.
  unfold Auth, open_token, recovered. destruct (DecodeString token); [|done].
  by destruct (key_ok key).
Qed.

(** The token for the next node is accepted there until the original one expires. *)
Lemma local_token_accepted key iv now p t :
  length iv = BlockSize → json_ok (local_log p) → GeneratorToken key iv (local_log p) = Ok t →
  (now < ExpirationTime p)%Z → Auth key now t = Ok (local_log p).
Proof.
  intros Hiv Hj Ht Hnow. unfold Auth. rewrite (open_generated key iv (Marshal (local_log p)) t) by done.
  simpl. rewrite Unmarshal_Marshal by done. unfold isExpiration. cbn [ExpirationTime local_log].
  by rewrite (proj2 (Z.ltb_lt _ _) Hnow).
Qed.

Context (confA confB : Config) (nowA nowB : Z) (iv ivB : bytes).
Context (postA postB : nat → Request → string + bytes) (collA collB : nat → bytes → string + bytes).
Context (podsA podsB : string → option Pod) (logsA logsB : string → string + bytes).
Context (putA putB : string → bytes → option string).

Let handlerA := UploadLogByTrackNo Parse Compile confA nowA iv postA collA podsA logsA putA.
Let handlerB := UploadLogByTrackNo Parse Compile confB nowB ivB postB collB podsB logsB putB.


(** A log that is not tracked is stored by the node that is asked: the object has the
    logs of the pod, or its error when the cluster has no logs, followed by a line feed and
    the message of the request; no other node and no collector is asked; the callback gets
    the result of storing it; and a client that waits for the answer gets an empty one. *)
Theorem upload_untracked seen body logParam pod text :
  let param := DecodeUpload body in
  Auth (SecretKey confA) nowA (UToken param) = Ok logParam → LPHost logParam ≠ "localhost" →
  podsA (UPodLabel param) = Some pod → is_tracked (Some pod) = 0%Z →
  (logsA (pod_name pod) = inr text ∨
   ∃ e r m, logsA (pod_name pod) = inl e ∧ GetPodErrorInfo (pod_status pod) = Some (r, m) ∧ text = str_elems m) →
  ∃ u, proxy_save Parse Compile confA iv postA podsA logsA putA logParam param = Some u ∧
    (let uA := u startU in
     u_puts uA = [(UMinioObjName param, text ++ ascii_of_nat 10 :: str_elems (UMessage param))] ∧
     u_posts uA = [] ∧ u_collector uA = [] ∧ u_rw uA = newRW ∧
     u_go uA = [GoSaveLogCallback (UCallBackUrl param) 1
       (MarshalURes (match putA (UMinioObjName param) (appended param text) with
                     | None => mkBaseResult SUCCESS_CODE 0 "success" (URes (mkUploadRes 0 1))
                     | Some e => mkBaseResult FAIL_CODE 0 e (URes (mkUploadRes 0 0))
                     end))]) ∧
    ((UAsync param <= 0)%Z → handlerA seen body = u startU).
Proof.
  intros param Hauth Hhost Hpod Htrack Htext.
  destruct (Generator_total (SecretKey confA) iv (Marshal (local_log logParam)) (Auth_key _ _ _ _ Hauth)) as [t Ht].
  set (param' := upload_with_token t param). set (host := upload_host (LPHost logParam) (Some pod)).
  assert (proxy_save Parse Compile confA iv postA podsA logsA putA logParam param =
    Some (doProxySave Parse Compile confA postA logsA putA 0 (Some pod) host (MarshalUpload param') param')) as Hsave.
  { unfold proxy_save, GeneratorToken. rewrite Ht. cbn [UPodLabel upload_with_token]. rewrite Hpod.
    fold host param'. by rewrite Htrack. }
  eexists. split; [exact Hsave|]. split.
  - cbv zeta. unfold doProxySave, proxy_untracked. cbn [Z.eqb]. change (appended param') with (appended param).
    cbn [UMinioObjName UCallBackUrl param' upload_with_token].
    destruct Htext as [-> |(e & r & m & -> & -> & ->)];
      destruct (putA (UMinioObjName param) _); by repeat split.
  - intros Hs. unfold handlerA, UploadLogByTrackNo. fold param.
    by rewrite Hauth, decide_False, Hsave, (proj2 (Z.ltb_ge _ _) Hs).
Qed.

End claims.

(** ** Examples *)

#[local] Existing Instance toy_aes.
#[local] Existing Instance plain_base64.
#[local] Existing Instance plain_retry.

Program Definition bits_log_json : JSON := {|
  json_ok := λ _, True;
  Marshal := λ p, enc (LPHost p, ContainerId p, Operator p, Tail p, TrackNo p, PodLabel p, PodName p,
                       MinioObjName p, ExpirationTime p);
  Unmarshal := λ b,
    match (dec b : option (string * string * string * string * string * string * string * string * Z)) with
    | Some (h, c, o, t, n, l, p, m, e) => mkLogParam h c o t n l p m e
    | None => zeroLogParam
    end
|}.
Next Obligation. intros [h c o t n l p m e] _. cbn beta. by rewrite (dec_enc (h, c, o, t, n, l, p, m, e)). Qed.

Program Definition bits_upload_json : UploadJSON := {|
  upload_ok := λ _, True;
  MarshalUpload := λ p, enc (UToken p, UMessage p, UPodLabel p, UContainerName p, UMinioObjName p,
                             UCallBackUrl p, UAsync p);
  DecodeUpload := λ b,
    match (dec b : option (string * string * string * string * string * string * Z)) with
    | Some (t, m, l, c, o, u, a) => mkUpload t m l c o u a
    | None => mkUpload "" "" "" "" "" "" 0
    end;
  MarshalLocal := λ p, enc (LTrackNo p, LMessage p, LContainerName p, LMinioObjName p, LCallBackUrl p, LAsync p);
  DecodeUploadRes := λ b, inr (mkUploadRes 1 1);
  MarshalURes := λ r, enc (Code r, Msg r)
|}.
Next Obligation. intros [t m l c o u a] _. cbn beta. by rewrite (dec_enc (t, m, l, c, o, u, a)). Qed.

#[local] Existing Instance bits_log_json.
#[local] Existing Instance bits_upload_json.

Definition demo_log : LogParam := mkLogParam "" "" "" "" "T7" "app" "" "" 100.

Definition demo_upload : bytes :=
  MarshalUpload (mkUpload (match GeneratorToken "0123456789abcdef" demo_iv demo_log with Ok t => t | _ => "" end)
                   "done" "app" "main" "logs/7" "http://cb" 0).

Definition demo_upload_pod (env : string) : Pod :=
  mkPod "p" [[env]] (mkPodStatus [] [] "Running" "10.0.0.7" "").

Definition demo_remote (b : bytes) : UState :=
  UploadLogByTrackNo Some (λ _, None) demo_config 9 demo_iv (λ _ _, inl "refused") (λ _ _, inr [])
    (λ _, None) (λ _, inl "") (λ _ _, None) 0 b.


Lemma upload_untracked_witness :
  ∃ u, UploadLogByTrackNo Some (λ _, None) demo_config 5 demo_iv (λ _ _, inl "") (λ _ _, inl "none")
      (λ _, Some (demo_upload_pod "HOME")) (λ _, inr (str_elems "hello")) (λ _ _, None) 0 demo_upload = u startU ∧
    u_puts (u startU) = [("logs/7", str_elems ("hello" +:+ NL +:+ "done"))].
Proof.
  destruct (upload_untracked Some (λ _, None) demo_config 5 demo_iv (λ _ _, inl "") (λ _ _, inl "none")
    (λ _, Some (demo_upload_pod "HOME")) (λ _, inr (str_elems "hello")) (λ _ _, None)
    0 demo_upload demo_log (demo_upload_pod "HOME") (str_elems "hello")) as (u & _ & (Hp & _) & Hs).
  - vm_compute. reflexivity.
  - discriminate.
  - reflexivity.
  - reflexivity.
  - left. reflexivity.
  - exists u. split; [apply Hs; vm_compute; discriminate|]. rewrite Hp. vm_compute. reflexivity.
Defined.
