(* ===== verification/ShardMap.v ===== *)
(** * The sharded map and its clients

    utils/map.go: [ConcurrentMap] with [fnv32] sharding and its operations, each of
    which runs under the lock of one shard; the iteration functions, which visit the
    shards one by one. The map refines a plain finite map, and implements the interface
    [StringMap] that its clients (in [ProxyAuth]) are written against. *)

From S2P Require Import Prelude GoStrings.

(** ** Hashing *)

Definition prime32 : Z := 16777619.

Definition fnv_step (hash : Z) (b : ascii) : Z := Z.lxor (u32 (hash * prime32)) (byte_val b).

Definition fnv32 (key : string) : Z := foldl fnv_step 2166136261%Z (str_elems key).

Definition SHARD_COUNT : nat := 32.

Definition shard_index (key : string) : nat := Z.to_nat (fnv32 key mod Z.of_nat SHARD_COUNT).

(** ** The map *)

(** [ConcurrentMap] is a slice of shards; locks are not part of the value. *)
Abbreviation ConcurrentMap V := (list (gmap string V)).

Section sharded.
Context {V : Type}.

Definition NewConcurrentMap : ConcurrentMap V := replicate SHARD_COUNT ∅.

(** Indexing the slice of shards panics out of range. *)
Definition GetShard (m : ConcurrentMap V) (key : string) : outcome (gmap string V) :=
  match m !! shard_index key with
  | Some shard => Ok shard
  | None => Panic
  end.

Definition put_shard (m : ConcurrentMap V) (key : string) (shard : gmap string V) : ConcurrentMap V :=
  <[shard_index key := shard]> m.

Definition Set_ (m : ConcurrentMap V) (key : string) (v : V) : outcome (ConcurrentMap V) :=
  let! shard := GetShard m key in
  Ok (put_shard m key (<[key := v]> shard)).

Definition MSet `{GoRange} (m : ConcurrentMap V) (data : gmap string V) : outcome (ConcurrentMap V) :=
  ofold (λ m kv, Set_ m kv.1 kv.2) m (go_range data).

Definition Upsert (m : ConcurrentMap V) (key : string) (v : V) (cb : bool → option V → V → V)
    : outcome (ConcurrentMap V * V) :=
  let! shard := GetShard m key in
  let old := shard !! key in
  let res := cb (bool_decide (is_Some old)) old v in
  Ok (put_shard m key (<[key := res]> shard), res).

Definition SetIfAbsent (m : ConcurrentMap V) (key : string) (v : V) : outcome (ConcurrentMap V * bool) :=
  let! shard := GetShard m key in
  match shard !! key with
  | Some _ => Ok (m, false)
  | None => Ok (put_shard m key (<[key := v]> shard), true)
  end.

Definition Get (m : ConcurrentMap V) (key : string) : outcome (option V) :=
  let! shard := GetShard m key in Ok (shard !! key).

Definition Has (m : ConcurrentMap V) (key : string) : outcome bool :=
  let! shard := GetShard m key in Ok (bool_decide (is_Some (shard !! key))).

Definition Remove (m : ConcurrentMap V) (key : string) : outcome (ConcurrentMap V) :=
  let! shard := GetShard m key in Ok (put_shard m key (delete key shard)).

Definition Pop (m : ConcurrentMap V) (key : string) : outcome (ConcurrentMap V * option V) :=
  let! shard := GetShard m key in Ok (put_shard m key (delete key shard), shard !! key).

Definition Count_ (m : ConcurrentMap V) : nat := foldl (λ n shard, n + size shard) 0 (take SHARD_COUNT m).

Definition IsEmpty (m : ConcurrentMap V) : bool := bool_decide (Count_ m = 0).

(** ** Iteration *)

(** One channel per shard, filled under the lock of the shard. *)
Definition snapshot `{GoRange} (m : ConcurrentMap V) : list (list (string * V)) := go_range <$> m.

(** One goroutine per channel passes on what it receives; the outcome is any interleaving. *)
Inductive fanIn {A} : list (list A) → list A → Prop :=
| fan_close chans : Forall (λ ch, ch = []) chans → fanIn chans []
| fan_forward chans i t ch out :
    chans !! i = Some (t :: ch) → fanIn (<[i := ch]> chans) out → fanIn chans (t :: out).

(** [Iter] and [IterBuffered], which differ in the capacity of the channel only. *)
Definition Iter `{GoRange} (m : ConcurrentMap V) (out : list (string * V)) : Prop := fanIn (snapshot m) out.
Definition IterBuffered `{GoRange} (m : ConcurrentMap V) (out : list (string * V)) : Prop := fanIn (snapshot m) out.

Definition Keys `{GoRange} (m : ConcurrentMap V) (keys : list string) : Prop :=
  fanIn ((fmap fst : list (string * V) → list string) <$> snapshot m) keys.

Definition collect (out : list (string * V)) : gmap string V := foldl (λ tmp kv, <[kv.1 := kv.2]> tmp) ∅ out.

Definition Items `{GoRange} (m : ConcurrentMap V) (tmp : gmap string V) : Prop :=
  ∃ out, IterBuffered m out ∧ tmp = collect out.

Definition MarshalJSON `{GoRange} {J} (marshal : gmap string V → J) (m : ConcurrentMap V) (j : J) : Prop :=
  ∃ tmp, Items m tmp ∧ j = marshal tmp.

(** The callback is called for one shard after another. *)
Definition IterCb `{GoRange} {S} (fn : S → string → V → S) (m : ConcurrentMap V) (s : S) : S :=
  foldl (λ s kv, fn s kv.1 kv.2) s (concat (snapshot m)).

(** ** Refinement of a plain map *)

(** The map [a] the shards represent: each shard holds exactly the keys that hash to it. *)
Definition represents (m : ConcurrentMap V) (a : gmap string V) : Prop :=
  length m = SHARD_COUNT ∧
  ∀ i shard k, m !! i = Some shard →
    shard !! k = if decide (shard_index k = i) then a !! k else None.

End sharded.

Lemma shard_index_lt key : shard_index key < SHARD_COUNT.
Proof.
  unfold shard_index. pose proof (Z.mod_pos_bound (fnv32 key) (Z.of_nat SHARD_COUNT) ltac:(done)). lia.
Qed.

(** Nothing is lost, duplicated or made up on the way, whatever goroutine comes first. *)
Lemma concat_take_one {A} (chans : list (list A)) i t ch :
  chans !! i = Some (t :: ch) → concat chans ≡ₚ t :: concat (<[i := ch]> chans).
Proof.
  revert i. induction chans as [|c chans IH]; intros [|i] E; [done..| |].
  - injection E as ->. done.
  - cbn [concat]. rewrite (IH i E). symmetry. apply Permutation_middle.
Qed.

Lemma fanIn_perm {A} (chans : list (list A)) out : fanIn chans out → out ≡ₚ concat chans.
Proof.
  induction 1 as [chans Hnil|chans i t ch out Hi _ IH].
  - induction Hnil as [|c chans -> _ IH]; [done|exact IH].
  - by rewrite IH, (concat_take_one chans i t ch Hi).
Qed.

(** The goroutines come to an end: there is an interleaving. *)
Lemma fanIn_ends {A} (chans : list (list A)) : ∃ out, fanIn chans out.
Proof.
  induction chans as [chans IH] using (induction_ltof1 _ (λ chans, length (concat chans))).
  destruct (decide (Exists (λ ch, ch ≠ []) chans)) as [He|Hn].
  - apply Exists_exists in He as ([|t ch] & Hin & Hne); [done|]. apply list_elem_of_lookup in Hin as [i Hi].
    destruct (IH (<[i := ch]> chans)) as [out Hout].
    { unfold ltof. rewrite (concat_take_one chans i t ch Hi). simpl. lia. }
    exists (t :: out). by eapply fan_forward.
  - exists []. apply fan_close, Forall_forall. intros [|t ch] Hin; [done|]. destruct Hn.
    apply Exists_exists. by exists (t :: ch).
Qed.

Section refinement.
Context {V : Type}.
Implicit Types (m : ConcurrentMap V) (a : gmap string V).

Lemma represents_new : represents (NewConcurrentMap (V := V)) ∅.
Proof.
  split; [apply length_replicate|]. intros i shard k [-> _]%lookup_replicate.
  rewrite !lookup_empty. by case_decide.
Qed.

Lemma GetShard_ok m a key :
  represents m a →
  ∃ shard, GetShard m key = Ok shard ∧ m !! shard_index key = Some shard ∧ shard !! key = a !! key.
Proof.
  intros [Hlen Hrep]. unfold GetShard.
  destruct (m !! shard_index key) as [shard|] eqn:E.
  - exists shard. split_and!; [done..|]. rewrite (Hrep _ _ key E). by rewrite decide_True.
  - apply lookup_ge_None in E. pose proof (shard_index_lt key). lia.
Qed.

Lemma represents_put m a key shard o :
  represents m a → m !! shard_index key = Some shard →
  represents (put_shard m key (partial_alter (λ _, o) key shard)) (partial_alter (λ _, o) key a).
Proof.
  intros [Hlen Hrep] Hs. unfold put_shard. split; [by rewrite length_insert|].
  intros i sh k Hi. destruct (decide (i = shard_index key)) as [->|Hne].
  - rewrite list_lookup_insert_eq in Hi by (apply lookup_lt_Some in Hs; done). injection Hi as <-.
    destruct (decide (k = key)) as [->|Hk].
    + rewrite !lookup_partial_alter_eq. by rewrite decide_True.
    + rewrite !lookup_partial_alter_ne by done. by apply Hrep.
  - rewrite list_lookup_insert_ne in Hi by done. rewrite (Hrep _ _ k Hi).
    case_decide as Hk; [|done]. rewrite lookup_partial_alter_ne; [done|]. intros ->. by subst.
Qed.

Lemma represents_insert m a key v shard :
  represents m a → m !! shard_index key = Some shard →
  represents (put_shard m key (<[key := v]> shard)) (<[key := v]> a).
Proof. intros Hr Hs. by apply (represents_put m a key shard (Some v)). Qed.

Lemma represents_delete m a key shard :
  represents m a → m !! shard_index key = Some shard →
  represents (put_shard m key (delete key shard)) (delete key a).
Proof. intros Hr Hs. by apply (represents_put m a key shard None). Qed.

Lemma Set_refines m a key v :
  represents m a → ∃ m', Set_ m key v = Ok m' ∧ represents m' (<[key := v]> a).
Proof.
  intros Hr. destruct (GetShard_ok m a key Hr) as (shard & Hg & Hs & _). unfold Set_. rewrite Hg. simpl.
  eexists. split; [done|]. by apply represents_insert.
Qed.

Lemma Get_refines m a key : represents m a → Get m key = Ok (a !! key).
Proof.
  intros Hr. destruct (GetShard_ok m a key Hr) as (shard & Hg & _ & Hk). unfold Get. rewrite Hg.
  simpl. by rewrite Hk.
Qed.

Lemma Has_refines m a key : represents m a → Has m key = Ok (bool_decide (is_Some (a !! key))).
Proof.
  intros Hr. destruct (GetShard_ok m a key Hr) as (shard & Hg & _ & Hk). unfold Has. rewrite Hg.
  simpl. by rewrite Hk.
Qed.

(** The entries of the shards are the entries of the map, each once. *)
Lemma elem_of_entries `{GoRange} m a k v :
  represents m a → (k, v) ∈ concat (snapshot m) ↔ a !! k = Some v.
Proof.
  intros Hr. destruct Hr as [Hlen Hrep]. unfold snapshot.
  rewrite list_elem_of_In, in_concat. split.
  - intros (l & Hl & Hin). apply list_elem_of_In in Hl, Hin.
    apply list_elem_of_fmap in Hl as (shard & -> & Hsh). apply elem_of_go_range in Hin.
    apply list_elem_of_lookup in Hsh as [i Hi]. rewrite (Hrep i shard k Hi) in Hin. by case_decide.
  - intros Hk. destruct (GetShard_ok m a k (conj Hlen Hrep)) as (shard & _ & Hs & Hv).
    exists (go_range shard). rewrite <-!list_elem_of_In. split.
    + apply list_elem_of_fmap. exists shard. split; [done|]. by eapply list_elem_of_lookup_2.
    + apply elem_of_go_range. congruence.
Qed.

Lemma entries_NoDup `{GoRange} m a : represents m a → NoDup (concat (snapshot m)).*1.
Proof.
  intros [_ Hrep]. unfold snapshot.
  assert (∀ n l, (∀ i shard k, l !! i = Some shard → is_Some (shard !! k) → shard_index k = n + i) →
    NoDup (concat (go_range <$> l : list (list (string * V)))).*1) as Hgen.
  { intros n l. revert n. induction l as [|shard l IH]; intros n Hl; simpl; [constructor|].
    rewrite fmap_app. apply NoDup_app. split_and!.
    - apply NoDup_go_range_keys.
    - intros k Hk Hk2. apply list_elem_of_fmap in Hk as ([k1 v1] & Ek & Hkv%elem_of_go_range).
      simpl in Ek. subst k1.
      assert (shard_index k = n + 0) as H0 by (apply (Hl 0 shard k); [done|by rewrite Hkv]).
      apply list_elem_of_fmap in Hk2 as ([k2 v2] & Ek & Hin). simpl in Ek. subst k2.
      apply list_elem_of_In, in_concat in Hin as (l' & Hl' & Hin').
      apply list_elem_of_In in Hl', Hin'. apply list_elem_of_fmap in Hl' as (sh & -> & Hsh).
      apply list_elem_of_lookup in Hsh as [i Hi]. apply elem_of_go_range in Hin'.
      assert (shard_index k = n + S i) by (apply (Hl (S i) sh k); [done|by rewrite Hin']). lia.
    - apply (IH (S n)). intros i sh k Hi Hk. rewrite (Hl (S i) sh k Hi Hk). lia. }
  apply (Hgen 0). intros i shard k Hi [v Hv]. rewrite (Hrep i shard k Hi) in Hv. by case_decide.
Qed.

Lemma entries_perm `{GoRange} m a : represents m a → concat (snapshot m) ≡ₚ map_to_list a.
Proof.
  intros Hr. apply NoDup_Permutation.
  - eapply NoDup_fmap_1, entries_NoDup, Hr.
  - apply NoDup_map_to_list.
  - intros [k v]. rewrite elem_of_map_to_list. by apply elem_of_entries.
Qed.

Lemma collect_perm out a : out ≡ₚ map_to_list a → collect out = a.
Proof.
  intros Hp. unfold collect. assert (foldl (λ tmp kv, <[kv.1 := kv.2]> tmp) ∅ out
    = list_to_map (M := gmap string V) (reverse out)) as ->.
  { rewrite <-(reverse_involutive out) at 1. generalize (reverse out) as l.
    induction l as [|[k v] l IH]; [done|]. rewrite reverse_cons, foldl_app, IH. done. }
  rewrite <-(list_to_map_to_list a). apply list_to_map_proper.
  - rewrite fmap_reverse, reverse_Permutation, Hp. apply NoDup_fst_map_to_list.
  - by rewrite reverse_Permutation.
Qed.

Lemma Count_refines m a : represents m a → Count_ m = size a.
Proof.
  intros Hr. unfold Count_. pose proof Hr as [Hlen Hrep].
  rewrite firstn_all2 by lia.
  assert (foldl (λ n shard, n + size shard) 0 m = length (concat (snapshot (H := range_sorted) m))) as ->.
  { unfold snapshot. clear. assert (∀ n, foldl (λ n (shard : gmap string V), n + size shard) n m =
      n + length (concat ((go_range (GoRange := range_sorted)) <$> m))) as Hg; [|by rewrite Hg].
    induction m as [|shard m IH]; intros n; [simpl; lia|].
    rewrite fmap_cons. cbn [foldl concat]. rewrite IH, length_app, length_go_range. lia. }
  rewrite <-(length_map_to_list a). by apply Permutation_length, entries_perm.
Qed.

Lemma Keys_refines `{GoRange} m a keys :
  represents m a → Keys m keys → NoDup keys ∧ ∀ k, k ∈ keys ↔ is_Some (a !! k).
Proof.
  intros Hr Hk%fanIn_perm.
  assert (concat ((fmap fst : list (string * V) → list string) <$> snapshot m) = (concat (snapshot m)).*1) as E.
  { generalize (snapshot m) as l. induction l as [|c l IH]; [done|]. cbn [fmap list_fmap concat].
    rewrite fmap_app. f_equal. exact IH. }
  rewrite E, (entries_perm m a Hr) in Hk. split; [rewrite Hk; apply NoDup_fst_map_to_list|].
  intros k. rewrite Hk, list_elem_of_fmap. split.
  - intros ([k1 v] & -> & Hin%elem_of_map_to_list). simpl. by rewrite Hin.
  - intros [v Hv]. exists (k, v). by rewrite elem_of_map_to_list.
Qed.

Lemma MSet_refines `{GoRange} m a data :
  represents m a → ∃ m', MSet m data = Ok m' ∧ represents m' (data ∪ a).
Proof.
  intros Hr. unfold MSet.
  assert (∀ l m a, represents m a → NoDup l.*1 →
    ∃ m', ofold (λ m kv, Set_ m kv.1 kv.2) m l = Ok m' ∧
          represents m' (list_to_map l ∪ a)) as Hgen.
  { clear. induction l as [|[k v] l IH]; intros m a Hr Hnd; simpl.
    { exists m. by rewrite (left_id_L ∅ (∪)). }
    apply NoDup_cons in Hnd as [Hk Hnd]. destruct (Set_refines m a k v Hr) as (m1 & -> & Hr1). simpl.
    destruct (IH m1 _ Hr1 Hnd) as (m2 & E2 & Hr2). exists m2. split; [done|].
    rewrite <-insert_union_l. rewrite <-insert_union_r in Hr2; [done|]. by apply not_elem_of_list_to_map_1. }
  destruct (Hgen (go_range data) m a Hr (NoDup_go_range_keys data)) as (m' & E & Hr').
  exists m'. split; [done|]. replace data with (list_to_map (M := gmap string V) (go_range data)) at 1; [done|].
  rewrite <-(list_to_map_to_list data) at 2. apply list_to_map_proper.
  - apply NoDup_go_range_keys.
  - apply go_range_perm.
Qed.

End refinement.

(** ** The interface its clients use *)

(** A mutable map from strings: what [BasicAuth] and [Checker] rely on. *)
Class StringMap (M : Type) (V : Type) := {
  sm_rep : M → gmap string V → Prop;
  sm_new : M;
  sm_set : M → string → V → outcome M;
  sm_set_absent : M → string → V → outcome (M * bool);
  sm_get : M → string → outcome (option V);
  sm_count : M → nat;
  sm_new_rep : sm_rep sm_new ∅;
  sm_set_rep m a k v : sm_rep m a → ∃ m', sm_set m k v = Ok m' ∧ sm_rep m' (<[k := v]> a);
  sm_set_absent_rep m a k v : sm_rep m a →
    ∃ m', sm_set_absent m k v = Ok (m', bool_decide (a !! k = None)) ∧
          sm_rep m' (match a !! k with Some _ => a | None => <[k := v]> a end);
  sm_get_rep m a k : sm_rep m a → sm_get m k = Ok (a !! k);
  sm_count_rep m a : sm_rep m a → sm_count m = size a
}.

Lemma SetIfAbsent_refines {V} (m : ConcurrentMap V) a k v :
  represents m a →
  ∃ m', SetIfAbsent m k v = Ok (m', bool_decide (a !! k = None)) ∧
        represents m' (match a !! k with Some _ => a | None => <[k := v]> a end).
Proof.
  intros Hr. destruct (GetShard_ok m a k Hr) as (shard & Hg & Hs & Hk). unfold SetIfAbsent.
  rewrite Hg. simpl. rewrite Hk. destruct (a !! k) as [x|] eqn:E; [by exists m|].
  eexists. split; [done|]. by apply represents_insert.
Qed.

#[export] Instance ConcurrentMap_StringMap {V} : StringMap (ConcurrentMap V) V := {|
  sm_rep := represents;
  sm_new := NewConcurrentMap;
  sm_set := Set_;
  sm_set_absent := SetIfAbsent;
  sm_get := Get;
  sm_count := Count_;
  sm_new_rep := represents_new;
  sm_set_rep := Set_refines;
  sm_set_absent_rep := SetIfAbsent_refines;
  sm_get_rep := Get_refines;
  sm_count_rep := Count_refines
|}.

(** C29: the sharded map is a map. From shards that represent the map [a]: no operation
    panics on a shard index; [Get], [Has] and [Pop] return what [a] holds; [Set],
    [SetIfAbsent], [Upsert], [Remove], [Pop] and [MSet] lead to shards that represent
    the updated map; [Count] is its size, and [Items], [Keys] and the iterators give
    each entry exactly once, in whatever order the shards and their maps are visited. *)
Theorem ConcurrentMap_refines `{GoRange} {V} (m : ConcurrentMap V) a k v cb data :
  represents m a →
  Get m k = Ok (a !! k) ∧
  Has m k = Ok (bool_decide (is_Some (a !! k))) ∧
  (∃ m', Set_ m k v = Ok m' ∧ represents m' (<[k := v]> a)) ∧
  (∃ m', SetIfAbsent m k v = Ok (m', bool_decide (a !! k = None)) ∧
         represents m' (match a !! k with Some _ => a | None => <[k := v]> a end)) ∧
  (∃ m', let res := cb (bool_decide (is_Some (a !! k))) (a !! k) v in
         Upsert m k v cb = Ok (m', res) ∧ represents m' (<[k := res]> a)) ∧
  (∃ m', Remove m k = Ok m' ∧ represents m' (delete k a)) ∧
  (∃ m', Pop m k = Ok (m', a !! k) ∧ represents m' (delete k a)) ∧
  (∃ m', MSet m data = Ok m' ∧ represents m' (data ∪ a)) ∧
  Count_ m = size a ∧ IsEmpty m = bool_decide (a = ∅) ∧
  (∃ out, IterBuffered m out) ∧ (∀ out, IterBuffered m out → out ≡ₚ map_to_list a) ∧
  (∀ tmp, Items m tmp → tmp = a) ∧
  (∀ keys, Keys m keys → NoDup keys ∧ ∀ k, k ∈ keys ↔ is_Some (a !! k)) ∧
  IterCb (λ seen k x, seen ++ [(k, x)]) m [] ≡ₚ map_to_list a.
Proof.
  intros Hr. destruct (GetShard_ok m a k Hr) as (shard & Hg & Hs & Hk).
  split_and!; [by apply Get_refines|by apply Has_refines|by apply Set_refines
              |by apply SetIfAbsent_refines|..].
  - unfold Upsert. rewrite Hg. simpl. rewrite Hk. eexists. split; [done|]. by apply represents_insert.
  - unfold Remove. rewrite Hg. simpl. eexists. split; [done|]. by apply represents_delete.
  - unfold Pop. rewrite Hg. simpl. rewrite Hk. eexists. split; [done|]. by apply represents_delete.
  - apply MSet_refines; done.
  - by apply Count_refines.
  - unfold IsEmpty. rewrite (Count_refines m a Hr). apply bool_decide_ext. apply map_size_empty_iff.
  - apply fanIn_ends.
  - intros out Hout%fanIn_perm. by rewrite Hout, entries_perm.
  - intros tmp (out & Hout%fanIn_perm & ->). apply collect_perm. by rewrite Hout, entries_perm.
  - intros keys Hkeys. by apply (Keys_refines m).
  - unfold IterCb. rewrite <-(entries_perm m a Hr). generalize (concat (snapshot m)) as l. intros l.
    assert (∀ seen, foldl (λ s kv, s ++ [(kv.1, kv.2)]) seen l = seen ++ l) as ->; [|done].
    induction l as [|[x y] l IH]; intros seen; simpl; [by rewrite app_nil_r|]. by rewrite IH, <-app_assoc.
Qed.

Lemma ConcurrentMap_refines_witness :
  Get (<[shard_index "a" := {["a" := 1]}]> (NewConcurrentMap (V := nat))) "a" = Ok (Some 1).
Proof.
  assert (represents (<[shard_index "a" := {["a" := 1]}]> (NewConcurrentMap (V := nat))) {["a" := 1]}) as Hr.
  { split; [by vm_compute|]. intros i shard k Hi. destruct (decide (i = shard_index "a")) as [->|Hne].
    - rewrite list_lookup_insert_eq in Hi by (apply shard_index_lt). injection Hi as <-.
      case_decide as Hk; [done|]. apply lookup_singleton_None. intros <-. done.
    - rewrite list_lookup_insert_ne in Hi by done. apply lookup_replicate in Hi as [-> _].
      case_decide as Hk; [|done]. symmetry. apply lookup_singleton_None. intros <-. done. }
  exact (proj1 (ConcurrentMap_refines (H := range_sorted)
    (<[shard_index "a" := {["a" := 1]}]> (NewConcurrentMap (V := nat))) {["a" := 1]} "a" 0 (λ _ _ x, x) ∅ Hr)).
Defined.
