(* ===== verification/ProxyAuth.v ===== *)
(** * Requests to the HTTP proxy

    utils/structs.go: [BasicAuth] ([Add], [AddFromFile], [Check]), [Checker]
    ([loadMap], [domainIsInMap], [isNeedCheck], [IsBlocked], [Add]) and [HTTPRequest]
    ([NewHTTPRequest], [HTTP], [HTTPS], [BasicAuth], [getHTTPURL], [getHeader],
    [addPortIfNot]). The stores are any [StringMap]; [net/url] and base64 decoding are
    parameters. *)

From S2P Require Import Prelude GoStrings ShardMap.

Definition colon : ascii := ":"%char.
Definition newline : ascii := ascii_of_nat 10.
Definition carriage : ascii := ascii_of_nat 13.
Definition tab : ascii := ascii_of_nat 9.

(** ** User names and passwords *)

Section basic_auth.
Context {M : Type} `{StringMap M string}.

Definition add_user (acc : M * nat) (u : list string) : outcome (M * nat) :=
  match u with
  | [name; pass] => let! m := sm_set acc.1 name pass in Ok (m, acc.2 + 1)
  | _ => Ok acc
  end.

Definition BasicAuth_Add (ba : M) (userpassArr : list string) : outcome (M * nat) :=
  ofold (λ acc userpass, add_user acc (Split userpass colon)) (ba, 0) userpassArr.

(** [strings.HasPrefix("#", userpass)] has its arguments swapped. *)
Definition BasicAuth_AddFromFile (ba : M) (content : string + string) : outcome (M * nat) :=
  match content with
  | inl err => Err err
  | inr c =>
      ofold (λ acc userpass,
          if HasPrefix "#" userpass then Ok acc
          else add_user acc (Split (Trim userpass " ") colon))
        (ba, 0) (Split (RemoveAll c carriage) newline)
  end.

Definition BasicAuth_Check (ba : M) (userpass : string) : outcome bool :=
  match Split (Trim userpass " ") colon with
  | [name; pass] =>
      let! p := sm_get ba name in
      Ok (match p with Some p => bool_decide (p = pass) | None => false end)
  | _ => Ok false
  end.

(** *** What the store holds *)

(** The users a list of [name:password] items adds to a table. *)
Definition users_of (table : gmap string string) (u : list string) : gmap string string :=
  match u with
  | [name; pass] => <[name := pass]> table
  | _ => table
  end.

Lemma add_user_rep acc a u :
  sm_rep acc.1 a →
  ∃ m, add_user acc u = Ok (m, acc.2 + if decide (length u = 2) then 1 else 0) ∧ sm_rep m (users_of a u).
Proof.
  intros Hr. destruct acc as [m0 n]. unfold add_user, users_of.
  destruct u as [|name [|pass [|]]]; try (exists m0; by rewrite decide_False, Nat.add_0_r by (simpl; lia)).
  simpl in *. destruct (sm_set_rep m0 a name pass Hr) as (m & -> & Hm). simpl. by exists m.
Qed.

Lemma add_users_rep {A} (item : A → list string) (keep : A → bool) l : ∀ acc a,
  sm_rep acc.1 a →
  ∃ m n, ofold (λ acc x, if keep x then add_user acc (item x) else Ok acc) acc l = Ok (m, n) ∧
         sm_rep m (foldl users_of a (item <$> filter (λ x, keep x = true) l)).
Proof.
  induction l as [|x l IH]; intros acc a Hr; simpl.
  { destruct acc as [m n]. by exists m, n. }
  destruct (keep x) eqn:Ek.
  - destruct (add_user_rep acc a (item x) Hr) as (m & -> & Hm). simpl.
    rewrite filter_cons_True by done. simpl. by apply (IH (m, _)).
  - simpl. rewrite filter_cons_False by congruence. by apply IH.
Qed.

Lemma Check_rep ba a s :
  sm_rep ba a →
  BasicAuth_Check ba s = Ok (match Split (Trim s " ") colon with
                             | [name; pass] => bool_decide (a !! name = Some pass)
                             | _ => false
                             end).
Proof.
  intros Hr. unfold BasicAuth_Check. destruct (Split (Trim s " ") colon) as [|name [|pass [|]]]; try done.
  rewrite (sm_get_rep ba a name Hr). simpl. f_equal. destruct (a !! name) as [p|].
  - apply bool_decide_ext. naive_solver.
  - done.
Qed.

End basic_auth.

(** The verdict on credentials, given the table of users. *)
Definition accepts (table : gmap string string) (userpass : string) : bool :=
  match Split (Trim userpass " ") colon with
  | [name; pass] => bool_decide (table !! name = Some pass)
  | _ => false
  end.

Lemma HasPrefix_hash l : HasPrefix "#" l = bool_decide (l = "" ∨ l = "#").
Proof.
  destruct l as [|a l]; [done|]. destruct (decide (String a l = "#")) as [->|Hne]; [done|].
  rewrite (bool_decide_false (_ ∨ _)) by naive_solver.
  destruct (HasPrefix "#" (String a l)) eqn:E; [|done].
  apply HasPrefix_spec in E as [r E]. rewrite str_app_cons in E. injection E as <- E.
  destruct l; [done|discriminate].
Qed.

(** Whatever map stores the users, adding users and checking credentials never
    panics, and credentials are accepted exactly when, trimmed, they are [name:password]
    with one colon and the last item added for that name (or the earlier table) has that
    password. The items of a user file are its lines except the empty ones and a lone
    [#]: lines that start with [#] are not comments, they add users. *)
Theorem BasicAuth_accepts {M} `{StringMap M string} (ba : M) a l c :
  sm_rep ba a →
  (∃ ba' n, BasicAuth_Add ba l = Ok (ba', n) ∧
     ∀ s, BasicAuth_Check ba' s = Ok (accepts (foldl users_of a ((λ u, Split u colon) <$> l)) s)) ∧
  (∃ ba' n, BasicAuth_AddFromFile ba (inr c) = Ok (ba', n) ∧
     ∀ s, BasicAuth_Check ba' s =
       Ok (accepts (foldl users_of a
             ((λ u, Split (Trim u " ") colon) <$>
                filter (λ u, u ≠ "" ∧ u ≠ "#") (Split (RemoveAll c carriage) newline))) s)).
Proof.
  intros Hr. split.
  - destruct (add_users_rep (λ u, Split u colon) (λ _, true) l (ba, 0) a Hr) as (m & n & E & Hm).
    exists m, n. split; [exact E|]. intros s. rewrite (Check_rep _ _ _ Hm).
    assert (filter (λ _ : string, true = true) l = l) as ->; [|done].
    clear. induction l as [|x l IH]; [done|]. by rewrite filter_cons_True, IH by done.
  - destruct (add_users_rep (λ u, Split (Trim u " ") colon) (λ u, negb (HasPrefix "#" u))
      (Split (RemoveAll c carriage) newline) (ba, 0) a Hr) as (m & n & E & Hm).
    exists m, n. split.
    + rewrite <-E. apply ofold_ext. intros acc u. by destruct (HasPrefix "#" u).
    + intros s. rewrite (Check_rep _ _ _ Hm). unfold accepts.
      erewrite (list_filter_iff _ (λ u, u ≠ "" ∧ u ≠ "#")); [done|].
      intros u. rewrite HasPrefix_hash, negb_true_iff, bool_decide_eq_false. naive_solver.
Qed.

(** ** Which hosts are reached through the parent proxy *)

Record CheckerItem := mkItem {
  IsHTTPS : bool;
  ItemMethod : string;
  ItemURL : string;
  Domain : string;
  ItemHost : string;
  Data : bytes;
  SuccessCount : Z;
  FailCount : Z
}.

Section checker.
Context {M D : Type} `{StringMap M bool, StringMap D CheckerItem}.
(** [url.Parse("http://" + address)] and its [Hostname]; [None] when it fails. *)
Context (Hostname : string → option string).

Record Checker := mkChecker { data : D; blockedMap : M; directMap : M }.

Definition loadMap (exists_ : bool) (content : string + string) : outcome M :=
  if negb exists_ then Ok sm_new else
  match content with
  | inl _ => Ok sm_new
  | inr c =>
      ofold (λ m line,
          let line := Trim line (String carriage (String " " (String tab ""))) in
          if decide (line = "") then Ok m else sm_set m line true)
        sm_new (Split c newline)
  end.

(** The loop of [domainIsInMap]: [checkDomain] grows by one label to the left. *)
Fixpoint domain_loop (m : M) (labels_rev : list string) (checkDomain : string) : outcome bool :=
  match labels_rev with
  | [] => Ok false
  | l :: rest =>
      let checkDomain := l +:+ "." +:+ checkDomain in
      let! r := sm_get m checkDomain in
      match r with
      | Some _ => Ok true
      | None => domain_loop m rest checkDomain
      end
  end.

Definition dot : ascii := "."%char.

Definition domainIsInMap (c : Checker) (address : string) (blocked : bool) : outcome bool :=
  match Hostname address with
  | None => Ok true
  | Some host =>
      match rev (Split host dot) with
      | top :: sub_rev =>
          domain_loop (if blocked then blockedMap c else directMap c) sub_rev top
      | [] => Ok false
      end
  end.

Definition isNeedCheck (c : Checker) (item : CheckerItem) : outcome bool :=
  let minCount := 5%Z in
  if ((minCount <=? SuccessCount item)%Z && (FailCount item <? SuccessCount item)%Z) ||
     ((minCount <=? FailCount item)%Z && (FailCount item <? SuccessCount item)%Z)
  then Ok false
  else
    let! d := domainIsInMap c (ItemHost item) false in
    if d then Ok false else
    let! b := domainIsInMap c (ItemHost item) true in
    Ok (negb b).

Definition IsBlocked (c : Checker) (address : string) : outcome (bool * Z * Z) :=
  let! b := domainIsInMap c address true in
  if b then Ok (true, 0%Z, 0%Z) else
  let! d := domainIsInMap c address false in
  if d then Ok (false, 0%Z, 0%Z) else
  let! item := sm_get (data c) address in
  match item with
  | None => Ok (true, 0%Z, 0%Z)
  | Some item => Ok ((SuccessCount item <=? FailCount item)%Z, FailCount item, SuccessCount item)
  end.

Definition Checker_Add (c : Checker) (address : string) (isHTTPS : bool) (method URL : string)
    (d : bytes) : outcome Checker :=
  let! direct := domainIsInMap c address false in
  if direct then Ok c else
  let! blocked := domainIsInMap c address true in
  if blocked then Ok c else
  if negb isHTTPS && negb (bool_decide (ToLower method = "get")) then Ok c else
  let item := mkItem isHTTPS method URL (List.hd "" (Split address colon)) address d 0 0 in
  let! r := sm_set_absent (data c) address item in
  Ok (mkChecker r.1 (blockedMap c) (directMap c)).

(** The domains a host belongs to: its suffixes of at least two labels. *)
Definition parent_domain (host dom : string) : Prop :=
  ∃ pre suf, Split host dot = pre ++ suf ∧ 2 ≤ length suf ∧ dom = Join suf ".".

Lemma domain_loop_spec (m : M) (a : gmap string bool) (labels_rev suf : list string) :
  sm_rep m a → suf ≠ [] →
  ∃ b, domain_loop m labels_rev (Join suf ".") = Ok b ∧
    (b = true ↔ ∃ l1 l2, rev labels_rev = l1 ++ l2 ∧ l2 ≠ [] ∧ is_Some (a !! Join (l2 ++ suf) ".")).
Proof.
  intros Hr. revert suf. induction labels_rev as [|l rest IH]; intros suf Hne; cbn [domain_loop].
  { exists false. split; [done|]. split; [done|]. intros (l1 & l2 & E & Hl2 & _).
    by destruct l1, l2. }
  rewrite <-(Join_cons l suf ".") by done. rewrite (sm_get_rep m a _ Hr). cbn [obind].
  destruct (a !! Join (l :: suf) ".") as [x|] eqn:E.
  - exists true. split; [done|]. split; [|done]. intros _. exists (rev rest), [l].
    split_and!; [done..|]. change ([l] ++ suf) with (l :: suf). by rewrite E.
  - destruct (IH (l :: suf)) as (b & -> & Hb); [done|]. exists b. split; [done|]. rewrite Hb. cbn [rev].
    split.
    + intros (l1 & l2 & -> & Hl2 & Hs). exists l1, (l2 ++ [l]). rewrite <-!app_assoc.
      split_and!; [done|by destruct l2|done].
    + intros (l1 & l2 & El & Hl2 & Hs).
      destruct (exists_last Hl2) as (l2' & x & ->). rewrite app_assoc in El.
      apply app_inj_tail in El as [El ->]. rewrite <-app_assoc in Hs.
      destruct l2' as [|y l2']; [|by exists l1, (y :: l2')].
      change ([] ++ [x] ++ suf) with (x :: suf) in Hs. rewrite E in Hs. by destruct Hs.
Qed.

Lemma domainIsInMap_spec (c : Checker) (address : string) (blocked : bool) (a : gmap string bool) :
  sm_rep (if blocked then blockedMap c else directMap c) a →
  ∃ b, domainIsInMap c address blocked = Ok b ∧
    (b = true ↔ match Hostname address with
                | None => True
                | Some host => ∃ dom, parent_domain host dom ∧ is_Some (a !! dom)
                end).
Proof.
  intros Hr. unfold domainIsInMap. destruct (Hostname address) as [host|]; [|by exists true].
  destruct (rev (Split host dot)) as [|top sub] eqn:E.
  { apply (f_equal (@rev string)) in E. rewrite rev_involutive in E. by apply Split_nonnil in E. }
  assert (Split host dot = rev sub ++ [top]) as Hs by (by rewrite <-(rev_involutive (Split host dot)), E).
  destruct (domain_loop_spec _ a sub [top] Hr) as (b & Hb & Hiff); [done|]. simpl in Hb.
  exists b. split; [exact Hb|]. rewrite Hiff. unfold parent_domain. rewrite Hs. split.
  - intros (l1 & l2 & El & Hl2 & Ha). exists (Join (l2 ++ [top]) "."). split; [|done].
    exists l1, (l2 ++ [top]). rewrite El, <-app_assoc, length_app. simpl.
    split_and!; [done| |done]. destruct l2; simpl; [done|lia].
  - intros (dom & (pre & suf & El & Hlen & ->) & Ha).
    destruct (exists_last (l := suf)) as (l2 & x & ->); [by intros ->; simpl in Hlen; lia|].
    rewrite app_assoc in El. apply app_inj_tail in El as [El <-]. exists pre, l2.
    split_and!; [done| |done]. intros ->. simpl in Hlen. lia.
Qed.

End checker.
Arguments mkChecker {M D}.

(** A host on neither list whose checks fail at least as often as they succeed is
    checked again on every round, however often it has failed: the second condition of
    [isNeedCheck] repeats the comparison of the first. Once checks succeeded five times
    and more often than not, it is not checked again. *)
Theorem isNeedCheck_spec {M D} `{StringMap M bool, StringMap D CheckerItem}
    Hostname (c : Checker (M := M) (D := D)) item (blocked direct : gmap string bool)
    (host : string) :
  sm_rep (blockedMap c) blocked → sm_rep (directMap c) direct →
  Hostname (ItemHost item) = Some host →
  (∀ dom, parent_domain host dom → blocked !! dom = None ∧ direct !! dom = None) →
  ((SuccessCount item <= FailCount item)%Z → isNeedCheck Hostname c item = Ok true) ∧
  ((5 <= SuccessCount item)%Z → (FailCount item < SuccessCount item)%Z →
     isNeedCheck Hostname c item = Ok false).
Proof.
  intros Hb Hd Hh Hno.
  assert (∀ (b : bool) (a : gmap string bool), sm_rep (if b then blockedMap c else directMap c) a →
    (∀ dom, parent_domain host dom → a !! dom = None) →
    domainIsInMap Hostname c (ItemHost item) b = Ok false) as Hfalse.
  { intros b a Hr Hnone. destruct (domainIsInMap_spec Hostname c (ItemHost item) b a Hr) as (r & Hr1 & Hiff).
    rewrite Hr1. destruct r; [|done]. rewrite Hh in Hiff.
    destruct (proj1 Hiff eq_refl) as (dom & Hdom & Hs). rewrite (Hnone dom Hdom) in Hs. by destruct Hs. }
  unfold isNeedCheck. split.
  - intros Hle. rewrite (proj2 (Z.ltb_ge _ _) Hle), !andb_false_r. simpl.
    rewrite (Hfalse false direct), (Hfalse true blocked); naive_solver.
  - intros H5 Hlt. rewrite (proj2 (Z.leb_le _ _) H5), (proj2 (Z.ltb_lt _ _) Hlt). done.
Qed.

(** ** Proxy requests *)

Record HTTPRequest := mkRequest {
  HeadBuf : string;
  ReqHost : string;
  Method : string;
  URL : string;
  hostOrURL : string;
  isBasicAuth : bool
}.

(** What happens on the client connection. *)
Inductive conn_effect := Reply (s : string) | Close.

Definition with_host (req : HTTPRequest) (h : string) : HTTPRequest :=
  mkRequest (HeadBuf req) h (Method req) (URL req) (hostOrURL req) (isBasicAuth req).

Definition ReqIsHTTPS (req : HTTPRequest) : bool := bool_decide (Method req = "CONNECT").

Definition addPortIfNot (req : HTTPRequest) : HTTPRequest :=
  let port := if ReqIsHTTPS req then "443" else "80" in
  let bracketed := HasPrefix (ReqHost req) "[" in
  if (negb bracketed && negb (Contains (ReqHost req) ":")) ||
     (bracketed && HasSuffix (ReqHost req) "]")
  then with_host req (ReqHost req +:+ ":" +:+ port) else req.

(** The header lines; the first whose name matches, ignoring case. *)
Definition CRLF : string := String carriage (String newline "").

Definition header_line (line : string) : option (string * string) :=
  match SplitN2 (Trim line (CRLF +:+ " ")) colon with
  | [k; v] => Some (ToUpper (Trim k " "), Trim v " ")
  | _ => None
  end.

Fixpoint find_header (key : string) (lines : list string) : outcome string :=
  match lines with
  | [] => Err "can not find HOST header"
  | line :: rest =>
      match header_line line with
      | Some (k, v) => if decide (key = k) then Ok v else find_header key rest
      | None => find_header key rest
      end
  end.

Definition getHeader (req : HTTPRequest) (key : string) : outcome string :=
  find_header (ToUpper key) (SplitStr (HeadBuf req) CRLF).

Definition getHTTPURL (req : HTTPRequest) : outcome string :=
  if negb (HasPrefix (hostOrURL req) "/") then Ok (hostOrURL req)
  else let! host := getHeader req "host" in Ok ("http://" +:+ host +:+ hostOrURL req).

Section requests.
Context {M : Type} `{StringMap M string}.
(** [url.Parse(u).Host] and base64 decoding; [None] when they fail. *)
Context (url_host : string → option string) (b64 : string → option string).

Definition dquote : ascii := ascii_of_nat 34.
Definition unauthorized : string :=
  "HTTP/1.1 401 Unauthorized" +:+ CRLF +:+ CRLF +:+ "Unauthorized".
Definition unauthorized_realm : string :=
  "HTTP/1.1 401 Unauthorized" +:+ CRLF +:+ "WWW-Authenticate: Basic realm="
  +:+ String dquote (String dquote CRLF) +:+ CRLF +:+ "Unauthorized".

Definition ReqBasicAuth (ba : M) (req : HTTPRequest) : outcome unit * list conn_effect :=
  match getHeader req "Authorization" with
  | Err e => (Err e, [Reply unauthorized_realm; Close])
  | Panic => (Panic, [])
  | Ok authorization =>
      match Fields authorization with
      | [_; enc] =>
          match b64 enc with
          | None => (Err "authorization data parse error", [Close])
          | Some user =>
              match BasicAuth_Check ba user with
              | Ok true => (Ok (), [])
              | Ok false => (Err "basic auth fail", [Reply unauthorized; Close])
              | Err e => (Err e, [])
              | Panic => (Panic, [])
              end
          end
      | _ => (Err ("authorization data error,ERR:" +:+ authorization), [Close])
      end
  end.

(** [u, _ := url.Parse(req.URL)]: a URL that does not parse leaves [u] nil. *)
Definition HTTP (ba : M) (req : HTTPRequest) : outcome HTTPRequest * list conn_effect :=
  let '(auth, eff) := if isBasicAuth req then ReqBasicAuth ba req else (Ok (), []) in
  match auth with
  | Err e => (Err e, eff)
  | Panic => (Panic, eff)
  | Ok _ =>
      match getHTTPURL req with
      | Err e => (Err e, eff)
      | Panic => (Panic, eff)
      | Ok u =>
          match url_host u with
          | None => (Panic, eff)
          | Some h =>
              (Ok (addPortIfNot (mkRequest (HeadBuf req) h (Method req) u (hostOrURL req)
                                   (isBasicAuth req))), eff)
          end
      end
  end.

Definition HTTPS (req : HTTPRequest) : HTTPRequest := addPortIfNot (with_host req (hostOrURL req)).

(** [string(req.HeadBuf)[:50]] panics on a shorter buffer. *)
Definition head50 (head : string) : outcome string :=
  if decide (String.length head < 50) then Panic else Ok (str_take 50 head).

(** The text of the first line, [None] when there is no newline. *)
Definition first_line (head : string) : option string :=
  match SplitN2 head newline with
  | [l; _] => Some l
  | _ => None
  end.

Definition NewHTTPRequest (read : option string + string) (withAuth : bool) (ba : M)
    : outcome HTTPRequest * list conn_effect :=
  match read with
  | inl None => (Err "EOF", [Close])
  | inl (Some e) => (Err ("http decoder read err:" +:+ e), [Close])
  | inr head =>
      match first_line head with
      | None =>
          match head50 head with
          | Ok h => (Err ("http decoder data line err:" +:+ h), [Close])
          | _ => (Panic, [])
          end
      | Some line =>
          match Fields line with
          | method :: target :: _ =>
              let req := mkRequest head "" (ToUpper method) "" target withAuth in
              if ReqIsHTTPS req then (Ok (HTTPS req), []) else HTTP ba req
          | _ =>
              match head50 head with
              | Ok h => (Err ("http decoder data err:" +:+ h), [Close])
              | _ => (Panic, [])
              end
          end
      end
  end.

Lemma addPortIfNot_keeps req :
  Method (addPortIfNot req) = Method req ∧ HeadBuf (addPortIfNot req) = HeadBuf req.
Proof. unfold addPortIfNot. by destruct (_ || _). Qed.

End requests.

(** C33: with authentication required, a plain request is let through only if it has an
    [Authorization] header whose second word decodes to accepted credentials, and a
    refused one closes the connection. A [CONNECT] request is let through without any
    check, whatever the users are. *)
Theorem NewHTTPRequest_auth {M} `{StringMap M string} url_host b64 (ba : M) (a : gmap string string) head :
  sm_rep ba a →
  (∀ req eff, NewHTTPRequest url_host b64 (inr head) true ba = (Ok req, eff) →
     Method req ≠ "CONNECT" →
     ∃ authorization scheme enc user,
       find_header "AUTHORIZATION" (SplitStr head CRLF) = Ok authorization ∧
       Fields authorization = [scheme; enc] ∧ b64 enc = Some user ∧ accepts a user = true) ∧
  (∀ req e eff, ReqBasicAuth b64 ba req = (Err e, eff) → Close ∈ eff) ∧
  (∀ line method target rest, first_line head = Some line →
     Fields line = method :: target :: rest → ToUpper method = "CONNECT" →
     ∃ req, NewHTTPRequest url_host b64 (inr head) true ba = (Ok req, []) ∧
            Method req = "CONNECT" ∧ ReqHost req = ReqHost (HTTPS (mkRequest head "" "CONNECT" "" target true))).
Proof.
  intros Hr. split_and!.
  - intros req eff E Hm. unfold NewHTTPRequest in E.
    destruct (first_line head) as [line|]; [|by destruct (head50 head)].
    destruct (Fields line) as [|method [|target rest]]; [by destruct (head50 head)..|].
    destruct (ReqIsHTTPS _) eqn:Eh.
    { injection E as <- _. destruct Hm. unfold HTTPS. rewrite (proj1 (addPortIfNot_keeps _)).
      by apply bool_decide_eq_true in Eh. }
    unfold HTTP in E. cbn [isBasicAuth] in E.
    destruct (ReqBasicAuth b64 ba _) as [auth eff0] eqn:Ea. destruct auth as [[]| |]; [|done..].
    unfold ReqBasicAuth in Ea. unfold getHeader in Ea. cbn [HeadBuf] in Ea.
    change (ToUpper "Authorization") with "AUTHORIZATION" in Ea.
    destruct (find_header "AUTHORIZATION" (SplitStr head CRLF)) as [authorization| |] eqn:Ef; [|done..].
    destruct (Fields authorization) as [|scheme [|enc [|]]] eqn:Ew; try done.
    destruct (b64 enc) as [user|] eqn:Eb; [|done].
    rewrite (Check_rep ba a user Hr) in Ea. exists authorization, scheme, enc, user.
    split_and!; try done. unfold accepts.
    destruct (Split (Trim user " ") colon) as [|n [|p [|]]]; try done. by destruct (bool_decide _).
  - intros req e eff E. unfold ReqBasicAuth in E.
    destruct (getHeader req "Authorization") as [authorization| |]; [|simplify_eq; set_solver|done].
    destruct (Fields authorization) as [|scheme [|enc [|]]]; try (simplify_eq; set_solver).
    destruct (b64 enc) as [user|]; [|simplify_eq; set_solver].
    rewrite (Check_rep ba a user Hr) in E.
    destruct (match Split (Trim user " ") colon with [_; _] => _ | _ => _ end); simplify_eq; set_solver.
  - intros line method target rest Hl Hf Hc. unfold NewHTTPRequest. rewrite Hl, Hf.
    unfold ReqIsHTTPS at 1. cbn [Method]. rewrite Hc, bool_decide_true by done.
    eexists. split; [done|]. split; [|done]. unfold HTTPS. by rewrite (proj1 (addPortIfNot_keeps _)).
Qed.

(** ** Witnesses *)

Lemma BasicAuth_accepts_witness :
  ∃ ba n, BasicAuth_AddFromFile (M := ConcurrentMap string) sm_new (inr "#bob:pw") = Ok (ba, n) ∧
          BasicAuth_Check ba "#bob:pw" = Ok true.
Proof.
  destruct (BasicAuth_accepts (M := ConcurrentMap string) sm_new ∅ [] "#bob:pw" sm_new_rep)
    as [_ (ba & n & E & Hc)].
  exists ba, n. split; [exact E|]. rewrite Hc. vm_compute. reflexivity.
Defined.

Definition demo_checker : Checker (M := ConcurrentMap bool) (D := ConcurrentMap CheckerItem) :=
  mkChecker sm_new sm_new sm_new.

Lemma isNeedCheck_spec_witness :
  isNeedCheck Some demo_checker (mkItem true "" "" "" "example.com" [] 0 1000) = Ok true.
Proof.
  refine (proj1 (isNeedCheck_spec Some demo_checker (mkItem true "" "" "" "example.com" [] 0 1000)
    ∅ ∅ "example.com" sm_new_rep sm_new_rep eq_refl _) _).
  - intros dom _. by rewrite !lookup_empty.
  - simpl. lia.
Defined.

Definition demo_connect : string :=
  "CONNECT db.internal:5432 HTTP/1.1" +:+ CRLF +:+ "Host: db.internal" +:+ CRLF +:+ CRLF.

Lemma NewHTTPRequest_auth_witness :
  ∃ req, NewHTTPRequest (M := ConcurrentMap string) (λ _, None) (λ _, None) (inr demo_connect) true sm_new
         = (Ok req, []) ∧ Method req = "CONNECT".
Proof.
  destruct (NewHTTPRequest_auth (M := ConcurrentMap string) (λ _, None) (λ _, None) sm_new ∅ demo_connect
    sm_new_rep) as (_ & _ & Hconnect).
  destruct (Hconnect ("CONNECT db.internal:5432 HTTP/1.1" +:+ String carriage "")
    "CONNECT" "db.internal:5432" ["HTTP/1.1"]) as (req & E & Hm & _); [vm_compute; reflexivity..|].
  exists req. split; [exact E|exact Hm].
Defined.
