(* ===== verification/ConnPool.v ===== *)
(** * The connection pool

    utils/pool.go: [NewConnPool], the filling worker, [Get], [Put], [ReleaseAll], [Len];
    utils/structs.go: [NewOutPool] and the daemon of [initPoolDeamon].

    Connections are numbered in the order the factory made them. The channel is a bounded
    queue; every operation holds the pool's lock and is one step. Which calls of the
    factory fail, and which connections are active, are parameters. *)

From S2P Require Import Prelude GoStrings.

Record poolConfig := mkPoolConfig {
  factory_err : nat → option string;     (** by the number of the call *)
  IsActive : nat → bool;
  InitialCap : Z;
  MaxCap : Z
}.

Record netPool := mkPool {
  conns : list nat;
  chan_cap : nat;
  released : list nat;       (** the calls of [Release], in order *)
  calls : nat                (** calls of the factory so far *)
}.

Definition Len (p : netPool) : Z := Z.of_nat (length (conns p)).

Section pool.
Context (cfg : poolConfig).

Definition Factory (p : netPool) : (string + nat) * netPool :=
  let p' := mkPool (conns p) (chan_cap p) (released p) (S (calls p)) in
  match factory_err cfg (calls p) with
  | Some e => (inl e, p')
  | None => (inr (calls p), p')
  end.

Definition Release (c : nat) (p : netPool) : netPool :=
  mkPool (conns p) (chan_cap p) (released p ++ [c]) (calls p).

(** [select { case p.conns <- c: default: ... }]: whether the channel took it. *)
Definition try_send (c : nat) (p : netPool) : option netPool :=
  if decide (length (conns p) < chan_cap p)
  then Some (mkPool (conns p ++ [c]) (chan_cap p) (released p) (calls p)) else None.

Definition send_or_release (c : nat) (p : netPool) : netPool :=
  match try_send c p with Some p' => p' | None => Release c p end.

(** The inner loop of the worker, [n] rounds left; [break] in the [select] only leaves it. *)
Fixpoint fill_loop (async : bool) (n : nat) (p : netPool) : netPool * option string :=
  match n with
  | O => (p, None)
  | S n' =>
      match Factory p with
      | (inl e, p) => if async then fill_loop async n' p else (p, Some e)
      | (inr c, p) =>
          let p := send_or_release c p in
          if (InitialCap cfg <=? Len p)%Z then (p, None) else fill_loop async n' p
      end
  end.

(** One turn of the worker ([InitialCap/2] truncates towards zero). *)
Definition fill_turn (async : bool) (p : netPool) : netPool * option string :=
  if (Len p <=? Z.quot (InitialCap cfg) 2)%Z
  then fill_loop async (Z.to_nat (InitialCap cfg)) p else (p, None).

(** The pool, whether the asynchronous worker runs, and the error, which is always nil.
    A negative capacity panics. *)
Definition NewConnPool : outcome (netPool * bool * option string) :=
  if (MaxCap cfg <? 0)%Z then Panic else
  let p := mkPool [] (Z.to_nat (MaxCap cfg)) [] 0 in
  if (0 <? MaxCap cfg)%Z then
    let '(p, err) := fill_turn false p in
    match err with
    | None => Ok (p, true, None)
    | Some _ => Ok (p, false, None)
    end
  else Ok (p, false, None).

Definition Get (p : netPool) : (string + nat) * netPool :=
  match conns p with
  | c :: cs =>
      let p := mkPool cs (chan_cap p) (released p) (calls p) in
      if IsActive cfg c then (inr c, p) else (inr c, Release c p)
  | [] => Factory p
  end.

Definition Put (c : option nat) (p : netPool) : netPool :=
  match c with
  | None => p
  | Some c =>
      let p := if negb (IsActive cfg c) then Release c p else p in
      send_or_release c p
  end.

Definition ReleaseAll (p : netPool) : outcome netPool :=
  if (InitialCap cfg <? 0)%Z then Panic
  else Ok (mkPool [] (Z.to_nat (InitialCap cfg)) (released p ++ conns p) (calls p)).

(** One turn of the daemon: a probe connection, closed at once, or a release of the pool. *)
Definition deamon_turn (dur : Z) (p : netPool) : outcome netPool :=
  if (dur <=? 0)%Z then Ok p else
  match Factory p with
  | (inl _, p) => ReleaseAll p
  | (inr c, p) => Ok (Release c p)
  end.

(** ** Runs *)

(** The pool with the connections its users hold. *)
Record PState := mkPState { pool : netPool; held : list nat }.

Inductive pop := PGet | PPut (c : nat) | PReleaseAll | PFill | PDeamon (dur : Z).

(** A user puts back a connection it holds; others cannot. *)
Definition pool_step (s : PState) (o : pop) : outcome PState :=
  match o with
  | PGet => match Get (pool s) with
            | (inr c, p) => Ok (mkPState p (c :: held s))
            | (inl _, p) => Ok (mkPState p (held s))
            end
  | PPut c => if decide (c ∈ held s)
              then Ok (mkPState (Put (Some c) (pool s)) (filter (λ x, x ≠ c) (held s)))
              else Ok s
  | PReleaseAll => let! p := ReleaseAll (pool s) in Ok (mkPState p (held s))
  | PFill => Ok (mkPState (fill_turn true (pool s)).1 (held s))
  | PDeamon dur => let! p := deamon_turn dur (pool s) in Ok (mkPState p (held s))
  end.

End pool.

(** The configuration of [NewOutPool], which takes every connection for active; [dial] are
    the errors of its connections. The pool, whether its worker and its daemon run. The
    error branch ends the process; [NewConnPool] never takes it. *)
Definition out_config (dial : nat → option string) (InitialCap MaxCap : Z) : poolConfig :=
  mkPoolConfig dial (λ _, true) InitialCap MaxCap.

Definition NewOutPool (dial : nat → option string) (dur InitialCap MaxCap : Z)
    : outcome (netPool * bool * bool) :=
  let! (p, worker, err) := NewConnPool (out_config dial InitialCap MaxCap) in
  match err with
  | Some _ => Panic
  | None => Ok (p, worker, (0 <? InitialCap)%Z && (0 <? dur)%Z)
  end.

(** ** Every connection is in one place *)

(** The connections made by the first [n] calls of the factory. *)
Definition made (cfg : poolConfig) (n : nat) : list nat :=
  filter (λ i, factory_err cfg i = None) (seq 0 n).

(** Every connection made is pooled, held or released, and only once; the channel is
    within its capacity. *)
Definition accounted (cfg : poolConfig) (extra : list nat) (p : netPool) : Prop :=
  conns p ++ released p ++ extra ≡ₚ made cfg (calls p) ∧ length (conns p) ≤ chan_cap p.

Section accounting.
Context (cfg : poolConfig) (Hactive : ∀ c, IsActive cfg c = true).

Lemma made_S n : made cfg (S n) =
  made cfg n ++ match factory_err cfg n with None => [n] | Some _ => [] end.
Proof.
  unfold made. rewrite seq_S, filter_app. simpl. f_equal. rewrite filter_cons, filter_nil.
  destruct (factory_err cfg n); by case_decide.
Qed.

(** A new connection is at first an extra one. *)
Lemma Factory_accounted extra p r p' :
  accounted cfg extra p → Factory cfg p = (r, p') →
  match r with
  | inl _ => accounted cfg extra p'
  | inr c => accounted cfg (c :: extra) p'
  end.
Proof.
  intros [Hp Hl] E. unfold Factory in E. unfold accounted.
  destruct (factory_err cfg (calls p)) as [e|] eqn:Ee; simplify_eq/=; split; try done.
  - rewrite made_S, Ee, app_nil_r. done.
  - rewrite made_S, Ee, <-Hp. rewrite <-!app_assoc. do 2 f_equiv. by rewrite Permutation_cons_append.
Qed.

Lemma send_accounted c extra p :
  accounted cfg (c :: extra) p → accounted cfg extra (send_or_release c p).
Proof.
  intros [Hp Hl]. unfold send_or_release, try_send, Release, accounted.
  case_decide; simpl; (split; [rewrite <-Hp|rewrite ?length_app; simpl; lia]).
  - rewrite <-!app_assoc. f_equiv. simpl. by rewrite Permutation_middle.
  - f_equiv. rewrite <-!app_assoc. done.
Qed.

Lemma Release_accounted c extra p :
  accounted cfg (c :: extra) p → accounted cfg extra (Release c p).
Proof.
  intros [Hp Hl]. unfold accounted, Release. simpl. split; [|done]. rewrite <-Hp, <-app_assoc. done.
Qed.

Lemma fill_accounted extra async n p : accounted cfg extra p → accounted cfg extra (fill_loop cfg async n p).1.
Proof.
  revert p. induction n as [|n IH]; intros p Hp; cbn [fill_loop]; [done|].
  destruct (Factory cfg p) as [[e|c] p'] eqn:E; apply (Factory_accounted extra) in E; try done.
  - destruct async; [by apply IH|done].
  - destruct (InitialCap cfg <=? _)%Z; [by apply send_accounted|]. by apply IH, send_accounted.
Qed.

Lemma ReleaseAll_accounted extra p p' :
  accounted cfg extra p → ReleaseAll cfg p = Ok p' → accounted cfg extra p'.
Proof.
  intros [Hp Hl] E. unfold ReleaseAll in E. destruct (InitialCap cfg <? 0)%Z; [done|].
  injection E as <-. unfold accounted. simpl. split; [|lia]. rewrite <-Hp, <-app_assoc.
  by rewrite !(app_assoc _ _ extra), (Permutation_app_comm (released p) (conns p)).
Qed.

Lemma filter_out (c : nat) l : NoDup l → c ∈ l → l ≡ₚ c :: filter (λ x, x ≠ c) l.
Proof.
  intros Hnd Hc. apply list_elem_of_split in Hc as (l1 & l2 & ->).
  apply NoDup_app in Hnd as (_ & Hn1 & Hn2). apply NoDup_cons in Hn2 as [Hn2 _].
  assert (∀ l : list nat, c ∉ l → filter (λ x, x ≠ c) l = l) as Hid.
  { induction l as [|x l IH]; intros Hx; [done|]. apply not_elem_of_cons in Hx as [??].
    rewrite filter_cons_True by done. by rewrite IH. }
  rewrite filter_app, filter_cons_False by naive_solver. rewrite !Hid; [|done|].
  - by rewrite Permutation_middle.
  - intros Hc. apply (Hn1 c Hc). constructor.
Qed.

Lemma accounted_NoDup extra p : accounted cfg extra p → NoDup (conns p ++ released p ++ extra).
Proof. intros [-> _]. apply NoDup_filter, NoDup_seq. Qed.

Lemma step_accounted s o s' :
  accounted cfg (held s) (pool s) → pool_step cfg s o = Ok s' → accounted cfg (held s') (pool s').
Proof.
  intros Hacc E. destruct o as [|c| | |dur]; simpl in E.
  - unfold Get in E. destruct (conns (pool s)) as [|c cs] eqn:Ec.
    + destruct (Factory cfg (pool s)) as [[e|c] p] eqn:Ef; apply (Factory_accounted (held s)) in Ef; by simplify_eq/=.
    + rewrite Hactive in E. injection E as <-. destruct Hacc as [Hp Hl]. unfold accounted. simpl.
      rewrite Ec in Hp, Hl. simpl in Hl. split; [|lia]. rewrite <-Hp. simpl.
      by rewrite app_assoc, <-Permutation_middle, <-app_assoc.
  - case_decide as Hc; [|by simplify_eq]. injection E as <-. unfold Put. rewrite Hactive. simpl.
    apply send_accounted. pose proof (accounted_NoDup _ _ Hacc) as Hnd.
    apply NoDup_app in Hnd as (_ & _ & Hnd). apply NoDup_app in Hnd as (_ & _ & Hnd).
    destruct Hacc as [Hp Hl]. split; [|done]. by rewrite <-(filter_out c (held s) Hnd Hc).
  - apply obind_ok_inv in E as (p & E1 & E2). injection E2 as <-. by eapply ReleaseAll_accounted.
  - injection E as <-. simpl. unfold fill_turn. destruct (_ <=? _)%Z; [by apply fill_accounted|done].
  - apply obind_ok_inv in E as (p & E1 & E2). injection E2 as <-. unfold deamon_turn in E1.
    destruct (dur <=? 0)%Z; [by simplify_eq|]. destruct (Factory cfg (pool s)) as [[e|c] p'] eqn:Ef;
      apply (Factory_accounted (held s)) in Ef; try done.
    + by eapply ReleaseAll_accounted.
    + injection E1 as <-. by apply Release_accounted.
Qed.

End accounting.

Lemma NewConnPool_accounted cfg p w e : NewConnPool cfg = Ok (p, w, e) → accounted cfg [] p ∧ e = None.
Proof.
  unfold NewConnPool. destruct (MaxCap cfg <? 0)%Z; [done|].
  set (p0 := mkPool [] _ [] 0). assert (accounted cfg [] p0) as H0 by (split; [done|simpl; lia]).
  destruct (0 <? MaxCap cfg)%Z; [|by intros [= <- <- <-]].
  assert (accounted cfg [] (fill_turn cfg false p0).1) as H1.
  { unfold fill_turn. destruct (_ <=? _)%Z; [by apply fill_accounted|done]. }
  destruct (fill_turn cfg false p0) as [p1 [err|]]; intros [= <- <- <-]; by split.
Qed.

Lemma run_accounted cfg p ops s :
  (∀ c, IsActive cfg c = true) → accounted cfg [] p →
  ofold (pool_step cfg) (mkPState p []) ops = Ok s → accounted cfg (held s) (pool s).
Proof.
  intros Hact Hp. apply (ofold_inv (λ s, accounted cfg (held s) (pool s))); [|done].
  intros s1 o1 s2 _ H1 H2. by eapply step_accounted.
Qed.

(** C19. The pool of the proxy never mixes its connections up: after any sequence of gets,
    puts of held connections, fills, probes and releases, every connection that was made is
    in exactly one place (pooled, held by one user, or released), the channel is within its
    capacity, and what the next [Get] hands out is neither released nor held. *)
Theorem pool_accounts dial dur ic mc p w d ops s :
  let cfg := out_config dial ic mc in
  NewOutPool dial dur ic mc = Ok (p, w, d) → ofold (pool_step cfg) (mkPState p []) ops = Ok s →
  conns (pool s) ++ released (pool s) ++ held s ≡ₚ made cfg (calls (pool s)) ∧
  NoDup (conns (pool s) ++ released (pool s) ++ held s) ∧
  length (conns (pool s)) ≤ chan_cap (pool s) ∧
  (∀ c p', Get cfg (pool s) = (inr c, p') → c ∉ released p' ∧ c ∉ held s).
Proof.
  intros cfg Hnew Hrun. apply obind_ok_inv in Hnew as ([[p0 w0] e0] & Hnew & E).
  apply NewConnPool_accounted in Hnew as [Hp ->]. injection E as -> -> _.
  assert (accounted cfg (held s) (pool s)) as Hs by (by eapply run_accounted).
  pose proof (accounted_NoDup _ _ _ Hs) as Hnd.
  split; [apply Hs|]. split; [done|]. split; [apply Hs|].
  intros c p' E. pose proof (step_accounted cfg (λ _, eq_refl) s PGet (mkPState p' (c :: held s)) Hs) as Hstep.
  specialize (Hstep ltac:(simpl; by rewrite E)). apply accounted_NoDup in Hstep. simpl in Hstep.
  apply NoDup_app in Hstep as (_ & _ & Hstep). apply NoDup_app in Hstep as (_ & Hr & Hc).
  apply NoDup_cons in Hc as [Hc _]. split; [|done]. intros Hin. apply (Hr c Hin). constructor.
Qed.

(** What goes wrong otherwise: a connection that is not active is handed out by [Get]
    without an error although it has just been released, and [Put] keeps it in the pool
    although it has just been released; a failed first fill leaves no worker that would
    ever fill the pool, and is not reported, since [NewConnPool] returns no error; and a
    release leaves a channel of the initial, not the maximal, capacity. *)
Theorem pool_failures cfg p c :
  (∀ cs, conns p = c :: cs → IsActive cfg c = false →
     ∃ p', Get cfg p = (inr c, p') ∧ released p' = released p ++ [c]) ∧
  (IsActive cfg c = false → length (conns p) < chan_cap p →
     c ∈ conns (Put cfg (Some c) p) ∧ c ∈ released (Put cfg (Some c) p)) ∧
  ((0 < InitialCap cfg)%Z → (0 < MaxCap cfg)%Z → (∃ e, factory_err cfg 0 = Some e) →
     ∃ p', NewConnPool cfg = Ok (p', false, None) ∧ conns p' = []) ∧
  (∀ p', ReleaseAll cfg p = Ok p' → chan_cap p' = Z.to_nat (InitialCap cfg)).
Proof.
  split; [|split; [|split]].
  - intros cs Hc Ha. unfold Get. rewrite Hc, Ha. by eexists.
  - intros Ha Hl. unfold Put. rewrite Ha. simpl. unfold send_or_release, try_send, Release. simpl.
    rewrite decide_True by done. simpl. split; apply elem_of_app; right; constructor.
  - intros Hi Hm [e He]. unfold NewConnPool. rewrite (proj2 (Z.ltb_ge _ _)) by lia.
    rewrite (proj2 (Z.ltb_lt _ _) Hm). unfold fill_turn. simpl.
    rewrite (proj2 (Z.leb_le _ _)) by (apply Z.quot_pos; lia).
    destruct (Z.to_nat (InitialCap cfg)) as [|n] eqn:En; [lia|]. cbn [fill_loop].
    unfold Factory. simpl. rewrite He. by eexists.
  - intros p' E. unfold ReleaseAll in E. destruct (InitialCap cfg <? 0)%Z; by simplify_eq/=.
Qed.

(** ** Witnesses *)

Definition demo_dial (i : nat) : option string := if decide (i = 2) then Some "refused" else None.
Definition demo_run : list pop := [PGet; PFill; PGet; PPut 0; PReleaseAll; PDeamon 1; PGet].

Lemma pool_accounts_witness :
  let s := mkPState (mkPool [] 2 [3; 0; 4] 6) [5; 1] in
  let cfg := out_config demo_dial 2 4 in
  NewOutPool demo_dial 1 2 4 = Ok (mkPool [0; 1] 4 [] 2, true, true) ∧
  conns (pool s) ++ released (pool s) ++ held s ≡ₚ made cfg (calls (pool s)).
Proof.
  intros s cfg. split; [vm_compute; reflexivity|].
  apply (pool_accounts demo_dial 1 2 4 (mkPool [0; 1] 4 [] 2) true true demo_run s); vm_compute; reflexivity.
Defined.

Lemma pool_failures_witness :
  (∃ p', Get (mkPoolConfig (λ _, None) (λ _, false) 1 1) (mkPool [7] 1 [] 8) = (inr 7, p') ∧ released p' = [7]) ∧
  (∃ p', NewConnPool (mkPoolConfig (λ _, Some "refused") (λ _, true) 1 1) = Ok (p', false, None) ∧ conns p' = []).
Proof.
  split.
  - apply (pool_failures (mkPoolConfig (λ _, None) (λ _, false) 1 1) (mkPool [7] 1 [] 8) 7) with (cs := []);
      reflexivity.
  - apply (pool_failures (mkPoolConfig (λ _, Some "refused") (λ _, true) 1 1) (mkPool [] 1 [] 0) 0);
      [reflexivity..|]. exists "refused". reflexivity.
Defined.
