(* ===== verification/ServeChannel.v ===== *)
(** * Accepting connections

    utils/serve-channel.go: [ListenTCP], [ListenTls] and [ListenUDP] of a [ServerChannel].

    The loop accepts until the first error; every connection or packet is given to the
    handler in a goroutine of its own, which recovers from a panic of the handler. The
    answers of the listener are an input, one per round. *)

From S2P Require Import Prelude GoStrings NetUtils.

Record ServerChannel := mkServerChannel { sc_ip : string; sc_port : Z }.

(** The handler of accept errors is the one that prints them. *)
Definition NewServerChannel (ip : string) (port : Z) : ServerChannel := mkServerChannel ip port.

Inductive protocol := Tls | Tcp.

(** What the loop does in order; a goroutine is started with what it was given. *)
Inductive accept_event {C : Type} :=
| EHandle (c : C)                  (** [go fn(conn)] *)
| EAcceptError (err : string)      (** [errAcceptHandler] *)
| EClose.                          (** [Listener.Close] *)
Arguments accept_event : clear implicits.

(** The rounds of the loop and whether it still accepts after them. *)
Fixpoint accept_loop {C} (p : protocol) (answers : list (string + C)) : list (accept_event C) * bool :=
  match answers with
  | [] => ([], true)
  | inr conn :: answers => let '(es, b) := accept_loop p answers in (EHandle conn :: es, b)
  | inl err :: _ => (EAcceptError err :: match p with Tls => [EClose] | Tcp => [] end, false)
  end.

(** What the two have in common: the error of the listener, or the events of the loop. *)
Definition Listen {C} (p : protocol) (listen : string → Z → option string) (sc : ServerChannel)
    (answers : list (string + C)) : string + list (accept_event C) * bool :=
  match listen (sc_ip sc) (sc_port sc) with
  | Some err => inl err
  | None => inr (accept_loop p answers)
  end.

Definition ListenTCP {C} (net_Listen : string → option string) (sc : ServerChannel)
    (answers : list (string + C)) : string + list (accept_event C) * bool :=
  Listen Tcp (λ ip port, net_Listen (host_port ip port)) sc answers.

Definition ListenTls {C} X509KeyPair AppendCertsFromPEM tls_Listen (certBytes keyBytes : bytes) (sc : ServerChannel)
    (answers : list (string + C)) : string + list (accept_event C) * bool :=
  Listen Tls (λ ip port, match NetUtils.ListenTls X509KeyPair AppendCertsFromPEM tls_Listen ip port certBytes keyBytes with
                         | inl err => Some err
                         | inr _ => None
                         end) sc answers.

(** [ListenUDP]: a packet is what was read into a buffer of 2048 bytes, made anew in every
    round; a longer one is cut. *)
Definition udp_buffer : nat := 2048.

Definition ListenUDP {A} (listen : string → Z → option string) (sc : ServerChannel)
    (answers : list (string + bytes * A)) : string + list (accept_event (bytes * A)) * bool :=
  match listen (sc_ip sc) (sc_port sc) with
  | Some err => inl err
  | None => inr (accept_loop Tcp ((λ a, match a with inl e => inl e | inr (b, addr) => inr (take udp_buffer b, addr) end)
                                    <$> answers))
  end.

(** The goroutine of a connection: a panic of the handler is recovered, so that what the
    handlers of other connections do to [S] does not depend on it. *)
Definition handle {C S} (fn : C → S → S * outcome unit) (c : C) (s : S) : S := (fn c s).1.

(** The handlers in the order in which their goroutines get to run. *)
Definition serve {C S} (fn : C → S → S * outcome unit) (order : list C) (s : S) : S := foldl (λ s c, handle fn c s) s order.

Definition handled {C} (es : list (accept_event C)) : list C :=
  omap (λ e, match e with EHandle c => Some c | _ => None end) es.

(** The connections accepted before the first error. *)
Fixpoint accepted {C} (answers : list (string + C)) : list C :=
  match answers with
  | inr c :: answers => c :: accepted answers
  | _ => []
  end.

(** Every connection accepted before the first error, and no other, is handed to the handler,
    once and in order; the loop goes on exactly when no error has occurred, and the first
    error is reported once, after which a TLS listener, and only that, is closed. *)
Theorem accept_loop_spec {C} p (answers : list (string + C)) es b :
  accept_loop p answers = (es, b) →
  handled es = accepted answers ∧
  (b = true ↔ ∀ e, inl e ∉ answers) ∧
  (∀ e rest, answers = (inr <$> accepted answers) ++ inl e :: rest →
     es = (EHandle <$> accepted answers) ++ EAcceptError e :: match p with Tls => [EClose] | Tcp => [] end).
Proof.
  revert es b. induction answers as [|[err|c] answers IH]; intros es b E; cbn [accept_loop accepted] in *.
  - simplify_eq. split; [done|]. split; [split; [intros _ e; apply not_elem_of_nil|done]|]. by intros e rest ?.
  - simplify_eq. split; [by destruct p|]. split.
    + split; [done|]. intros Hn. by destruct (Hn err); left.
    + intros e rest [= -> ->]. done.
  - destruct (accept_loop p answers) as [es' b'] eqn:E'. simplify_eq.
    destruct (IH es' b eq_refl) as (H1 & H2 & H3). split; [cbn; by f_equal|]. split.
    + rewrite H2. split.
      * intros Hn e [?|?]%elem_of_cons; [done|]. by eapply Hn.
      * intros Hn e Hin. apply (Hn e). by right.
    + intros e rest Eq. cbn [fmap list_fmap app] in Eq |- *. injection Eq as Eq. f_equal. by eapply H3.
Qed.

(** A handler that panics leaves the others as they are: when the handlers of different
    connections touch different parts of the state, each part is what its own handler left,
    in whatever order the goroutines run and whichever of them panic. *)
Theorem serve_isolated {C S} (fn : C → S → S * outcome unit) (part : C → S → S → Prop) order c s :
  (∀ c, Transitive (part c)) → (∀ c, Reflexive (part c)) →
  (∀ c d s, c ≠ d → part c s (fn d s).1) →
  (∀ c s s', part c s s' → part c (fn c s).1 (fn c s').1) →
  NoDup order → c ∈ order → part c (fn c s).1 (serve fn order s).
Proof.
  intros Htr Hrefl Hother Hown Hnd Hc. apply list_elem_of_split in Hc as (l1 & l2 & ->).
  apply NoDup_app in Hnd as (_ & Hd1 & [Hd2 _]%NoDup_cons).
  assert (∀ l s, c ∉ l → part c s (serve fn l s)) as Hpass.
  { intros l. induction l as [|d l IH]; intros s0 Hn; [apply Hrefl|]. apply not_elem_of_cons in Hn as [Hcd Hn].
    etrans; [by apply Hother|]. by apply IH. }
  unfold serve. rewrite foldl_app. cbn [foldl]. fold (serve fn l1 s).
  etrans; [apply Hown, (Hpass l1 s)|by apply Hpass]. intros Hin. apply (Hd1 c Hin). by left.
Qed.
