(* ===== verification/ProxyHttp.v ===== *)
(** * The HTTP proxy

    proxy/http.go: [callback], [OutToTCP], [IsDeadLoop], [InitBasicAuth], [IsBasicAuth];
    proxy/service.go: the arguments of [InitProxy]; utils/structs.go: the probes of [Checker.start];
    utils/functions.go: [IoBind].

    The requests, users and host lists are those of [ProxyAuth], the connections to a
    parent proxy come from [ConnPool], and the bytes are moved by [ioCopy] of [IoUtils].
    What the proxy does to the client's connection and towards the outside is a list of
    effects. *)

From S2P Require Import Prelude GoStrings GoIo IoUtils ShardMap ProxyAuth ConnPool.

(** ** [net.SplitHostPort] *)

Fixpoint index_of (c : ascii) (b : bytes) : option nat :=
  match b with
  | [] => None
  | a :: b' => if decide (a = c) then Some 0 else S <$> index_of c b'
  end.

Fixpoint last_index_of (c : ascii) (b : bytes) : option nat :=
  match b with
  | [] => None
  | a :: b' =>
      match last_index_of c b' with
      | Some i => Some (S i)
      | None => if decide (a = c) then Some 0 else None
      end
  end.

Definition lbracket : ascii := "["%char.
Definition rbracket : ascii := "]"%char.

(** The host and the port, as bytes. *)
Definition SplitHostPort (hostport : bytes) : option (bytes * bytes) :=
  match last_index_of colon hostport with
  | None => None
  | Some i =>
      let finish := λ host j k,
        if bool_decide (lbracket ∈ drop j hostport) then None
        else if bool_decide (rbracket ∈ drop k hostport) then None
        else Some (host, drop (i + 1) hostport) in
      match hostport with
      | c :: _ =>
          if decide (c = lbracket) then
            match index_of rbracket hostport with
            | None => None
            | Some stop =>
                if decide (stop + 1 = i) then finish (drop 1 (take stop hostport)) 1 (stop + 1)
                else None
            end
          else
            let host := take i hostport in
            if bool_decide (colon ∈ host) then None else finish host 0 0
      | [] => None
      end
  end.

Lemma last_index_of_none c l : c ∉ l → last_index_of c l = None.
Proof.
  induction l as [|a l IH]; simpl; [done|]. intros [Hac Hl]%not_elem_of_cons.
  rewrite IH by done. by rewrite decide_False.
Qed.

Lemma last_index_of_app c l r : c ∉ r → last_index_of c (l ++ c :: r) = Some (length l).
Proof.
  intros Hr. induction l as [|a l IH]; simpl; [|by rewrite IH].
  rewrite last_index_of_none by done. by rewrite decide_True.
Qed.

(** No byte of a host or of a port that is neither a colon nor a bracket. *)
Definition plain_part (b : bytes) : Prop := ∀ c, c ∈ [colon; lbracket; rbracket] → c ∉ b.

(** A host and a port are read back. *)
Lemma SplitHostPort_join host port :
  plain_part host → plain_part port → SplitHostPort (host ++ colon :: port) = Some (host, port).
Proof.
  intros Hh Hp. unfold SplitHostPort. rewrite last_index_of_app by (apply Hp; set_solver).
  assert (∀ c, c ∈ [lbracket; rbracket] → c ∉ host ++ colon :: port) as Hn.
  { intros c Hc. rewrite elem_of_app, elem_of_cons. pose proof (Hh c). pose proof (Hp c).
    assert (c ≠ colon) by (intros ->; revert Hc; rewrite !elem_of_cons; by intros [?|[?|?%not_elem_of_nil]]). set_solver. }
  destruct (host ++ colon :: port) as [|c0 rest] eqn:E; [by destruct host|].
  rewrite decide_False by (intros ->; apply (Hn lbracket); [set_solver|left]). rewrite <-E in *. clear E.
  rewrite take_app_length, !drop_0.
  rewrite bool_decide_eq_false_2 by (apply Hh; set_solver).
  rewrite !bool_decide_eq_false_2 by (apply Hn; set_solver).
  replace (length host + 1) with (length (host ++ [colon])) by (rewrite length_app; simpl; lia).
  change (colon :: port) with ([colon] ++ port). by rewrite (app_assoc host), drop_app_length.
Qed.

(** ** Configuration *)

(** The fields are pointers: those that [InitProxy] sets are values, those that it leaves nil
    are options. *)
Record HTTPArgs := mkHTTPArgs {
  Local : string;
  Parent : string;
  CertBytes : bytes;
  KeyBytes : bytes;
  Always : bool;
  HTTPTimeout : Z;
  Interval : option Z;
  Blocked : option string;
  Direct : option string;
  AuthFile : string;
  Auth : list string;
  ParentType : option string;
  LocalType : string;
  Timeout : Z;
  PoolSize : option Z;
  CheckParentInterval : option Z
}.

(** The arguments [InitProxy] registers. *)
Definition proxy_args (ProxyPort : Z) : HTTPArgs :=
  mkHTTPArgs ("0.0.0.0:" +:+ Itoa ProxyPort) "" [] [] true 5000 None None None "" [] None "tcp" 5000 None None.

Definition IsBasicAuth (cfg : HTTPArgs) : bool :=
  bool_decide (AuthFile cfg ≠ "") || bool_decide (0 < length (Auth cfg)).

Section proxy.
Context {MU MB MD : Type} `{StringMap MU string, StringMap MB bool, StringMap MD CheckerItem}.

(** The users, and the error, which [InitService] drops. *)
Definition InitBasicAuth (cfg : HTTPArgs) (file : string + string) : outcome (MU * option string) :=
  let add := λ ba, if decide (0 < length (Auth cfg))
                   then let! r := BasicAuth_Add ba (Auth cfg) in Ok (r.1, None)
                   else Ok (ba, None) in
  if decide (AuthFile cfg ≠ "") then
    match BasicAuth_AddFromFile sm_new file with
    | Ok r => add r.1
    | Err e => Ok (sm_new, Some ("auth-file ERR:" +:+ e))
    | Panic => Panic
    end
  else add sm_new.

(** ** Requests *)

(** Addresses are in the canonical form of [IP.String]. [net.LookupIP] and
    [GetAllInterfaceAddr] are the resolver and the interfaces of the host. *)
Context (LookupIP : string → option (list string)) (interfaces : option (list string)).

Definition IsDeadLoop (inLocalAddr host : string) : bool :=
  match SplitHostPort (str_elems inLocalAddr), SplitHostPort (str_elems host) with
  | Some (inIP, inPort), Some (outDomain, outPort) =>
      if decide (inPort = outPort) then
        let outIPs := default [] (LookupIP (string_of_list_ascii outDomain)) in
        if bool_decide (string_of_list_ascii inIP ∈ outIPs) then true
        else
          match interfaces with
          | None => false
          | Some ifs => existsb (λ l, bool_decide (l ∈ outIPs)) ifs
          end
      else false
  | _, _ => false
  end.

Inductive effect :=
| EIn (e : conn_effect)          (** on the client's connection *)
| EDial (address : string)       (** a connection to the host itself *)
| EPool (c : option nat)         (** a connection from the pool to the parent, if it gave one *)
| EOut (head : string)           (** written to the outgoing connection *)
| EBind.                         (** both connections are copied into each other *)

Definition established : string := "HTTP/1.1 200 Connection established" +:+ CRLF +:+ CRLF.

(** [dial] says whether connecting fails; [pool] is [None] for a nil pool, whose use
    panics. *)
Definition OutToTCP (pcfg : poolConfig) (dial : string → option string) (pool : option netPool)
    (useProxy : bool) (inLocalAddr address : string) (req : HTTPRequest)
    : list effect * outcome unit * option netPool :=
  if IsDeadLoop inLocalAddr (ReqHost req)
  then ([EIn Close], Err ("dead loop detected , " +:+ ReqHost req), pool)
  else
    let connected := if ReqIsHTTPS req && negb useProxy
                     then [EIn (Reply established); EBind] else [EOut (HeadBuf req); EBind] in
    if useProxy then
      match pool with
      | None => ([], Panic, None)
      | Some p =>
          match Get pcfg p with
          | (inl e, p) => ([EPool None; EIn Close], Err e, Some p)
          | (inr c, p) => (EPool (Some c) :: connected, Ok (), Some p)
          end
      end
    else
      match dial address with
      | Some e => ([EDial address; EIn Close], Err e, pool)
      | None => (EDial address :: connected, Ok (), pool)
      end.

Context (Hostname : string → option string).
Context (url_host : string → option string) (b64 : string → option string).

(** The decision whether to go through the parent. *)
Definition choose_proxy (cfg : HTTPArgs) (checker : Checker (M := MB) (D := MD)) (req : HTTPRequest)
    : outcome (bool * Checker (M := MB) (D := MD)) :=
  if decide (Parent cfg = "") then Ok (false, checker)
  else if Always cfg then Ok (true, checker)
  else
    let! checker :=
      if ReqIsHTTPS req then Checker_Add Hostname checker (ReqHost req) true (Method req) "" []
      else Checker_Add Hostname checker (ReqHost req) false (Method req) (URL req) (str_elems (HeadBuf req)) in
    let! b := IsBlocked Hostname checker (ReqHost req) in
    Ok (b.1.1, checker).

(** What the handlers share. *)
Record PxState := mkPx { px_checker : Checker (M := MB) (D := MD); px_pool : option netPool }.

(** The handler of a connection; a panic is recovered, and leaves the connection as it is. *)
Definition callback (cfg : HTTPArgs) (ba : MU) (pcfg : poolConfig) (dial : string → option string)
    (inLocalAddr : string) (read : option string + string) (st : PxState) : list effect * PxState :=
  let '(r, eff) := NewHTTPRequest url_host b64 read (IsBasicAuth cfg) ba in
  let eff := EIn <$> eff in
  match r with
  | Panic => (eff, st)
  | Err _ => (eff ++ [EIn Close], st)
  | Ok req =>
      match choose_proxy cfg (px_checker st) req with
      | Ok (useProxy, checker) =>
          match OutToTCP pcfg dial (px_pool st) useProxy inLocalAddr (ReqHost req) req with
          | (eff', Ok _, p) => (eff ++ eff', mkPx checker p)
          | (eff', Err _, p) => (eff ++ eff' ++ [EIn Close], mkPx checker p)
          | (eff', Panic, p) => (eff ++ eff', mkPx checker p)
          end
      | _ => (eff, st)
      end
  end.

(** ** Probes *)

(** What one goroutine of [start] does with an item: [reach] is the result of connecting
    or of the GET request. *)
Definition check_item (reach : CheckerItem → bool) (c : Checker (M := MB) (D := MD)) (item : CheckerItem)
    : outcome (Checker (M := MB) (D := MD)) :=
  let! need := isNeedCheck Hostname c item in
  if negb need then Ok c else
  let item' :=
    if reach item
    then mkItem (IsHTTPS item) (ItemMethod item) (ItemURL item) (Domain item) (ItemHost item) (Data item)
           (u64 (SuccessCount item + 1)) (FailCount item)
    else mkItem (IsHTTPS item) (ItemMethod item) (ItemURL item) (Domain item) (ItemHost item) (Data item)
           (SuccessCount item) (u64 (FailCount item + 1)) in
  let! d := sm_set (data c) (ItemHost item') item' in
  Ok (mkChecker d (blockedMap c) (directMap c)).

End proxy.

(** ** [IoBind] *)

(** The two copies end in some order, each with an error; [one.Do] lets the first call
    the function that closes the connections. The calls made, given the results in the
    order the copies end. *)
Fixpoint bind_calls {W} (called : bool) (ends : list (CopyResult W)) : list (bool * read_err) :=
  match ends with
  | [] => []
  | r :: ends' =>
      match cp_err r with
      | NoErr => bind_calls called ends'
      | e => if called then bind_calls called ends' else (isSrcErr r, e) :: bind_calls true ends'
      end
  end.

(** ** Where a request goes *)

Section theorems.
Context {MU MB MD : Type} `{StringMap MU string, StringMap MB bool, StringMap MD CheckerItem}.
Context (LookupIP : string → option (list string)) (interfaces : option (list string)).
Context (Hostname : string → option string).
Context (url_host : string → option string) (b64 : string → option string).

Definition outgoing (e : effect) : Prop :=
  match e with EIn _ => False | _ => True end.

Lemma OutToTCP_spec pcfg dial pool useProxy inLocal address req eff r p' :
  OutToTCP LookupIP interfaces pcfg dial pool useProxy inLocal address req = (eff, r, p') →
  (∀ e, e ∈ eff → outgoing e → IsDeadLoop LookupIP interfaces inLocal (ReqHost req) = false) ∧
  (∀ a, EDial a ∈ eff → a = address) ∧
  (∀ h, EOut h ∈ eff → h = HeadBuf req ∧ (ReqIsHTTPS req = true → useProxy = true)) ∧
  match r with
  | Ok _ => ∃ eff', eff = eff' ++ [EBind] ∧ EIn Close ∉ eff
  | Err _ => EIn Close ∈ eff ∧ EBind ∉ eff
  | Panic => useProxy = true ∧ pool = None ∧ eff = []
  end.
Proof.
  unfold OutToTCP. destruct (IsDeadLoop _ _ inLocal (ReqHost req)) eqn:El.
  { intros [= <- <- <-]. split_and!; try (intros ? ?%list_elem_of_singleton; by simplify_eq).
    - constructor.
    - by intros ?%list_elem_of_singleton. }
  set (connected := if ReqIsHTTPS req && negb useProxy then _ else _).
  assert (∀ a, EDial a ∉ connected) as Hnd.
  { intros a. unfold connected. destruct (_ && _); set_solver. }
  assert (∀ h, EOut h ∈ connected → h = HeadBuf req ∧ (ReqIsHTTPS req = true → useProxy = true)) as Ho.
  { intros h. unfold connected. destruct (ReqIsHTTPS req), useProxy; simpl; set_solver. }
  assert (∃ x, connected = [x; EBind] ∧ x ≠ EIn Close) as (x & Ex & Hx).
  { unfold connected. destruct (_ && _); eexists; done. }
  destruct useProxy.
  - destruct pool as [p|].
    + destruct (Get pcfg p) as [[e|c] p2]; intros [= <- <- <-].
      * split_and!; set_solver.
      * rewrite Ex in *. split_and!; try done; [set_solver..|].
        exists [EPool (Some c); x]. split; [done|]. set_solver.
    + intros [= <- <- <-]. split_and!; set_solver.
  - destruct (dial address) as [e|]; intros [= <- <- <-].
    + split_and!; set_solver.
    + rewrite Ex in *. split_and!; try done; [set_solver..|].
      exists [EDial address; x]. split; [done|]. set_solver.
Qed.

Lemma NewHTTPRequest_head (ba : MU) withAuth head req eff :
  NewHTTPRequest url_host b64 (inr head) withAuth ba = (Ok req, eff) → HeadBuf req = head.
Proof.
  unfold NewHTTPRequest. destruct (first_line head); [|by destruct (head50 head)].
  destruct (Fields s) as [|m [|t ?]]; [by destruct (head50 head)..|].
  destruct (ReqIsHTTPS _).
  { intros [= <- <-]. unfold HTTPS. match goal with |- HeadBuf (addPortIfNot ?r) = _ =>
      by destruct (addPortIfNot_keeps r) as [_ ->] end. }
  unfold HTTP. destruct (if isBasicAuth _ then _ else _) as [[] eff0]; try done.
  destruct (getHTTPURL _); try done. destruct (url_host _) as [h|]; [|done].
  intros [= <- <-]. match goal with |- HeadBuf (addPortIfNot ?r) = _ =>
    by destruct (addPortIfNot_keeps r) as [_ ->] end.
Qed.

Lemma EIn_outgoing e (l : list conn_effect) : e ∈ EIn <$> l → ¬ outgoing e.
Proof. intros (x & -> & _)%list_elem_of_fmap. intros []. Qed.

Lemma NewHTTPRequest_short (ba : MU) withAuth head :
  first_line head = None → String.length head < 50 →
  NewHTTPRequest url_host b64 (inr head) withAuth ba = (Panic, []).
Proof.
  intros Hf Hl. unfold NewHTTPRequest. rewrite Hf. unfold head50. by rewrite decide_True.
Qed.

(** What a connection may expect of the proxy when there is no parent. [r] is what decoding
    the input gave, [dial] says which hosts cannot be reached.
    - It goes out only to the host of the request it decoded, and only when the check does
      not take that for the proxy; the first bytes a plain request sends out are the client's.
    - Unless decoding panics, the connection ends up closed or bound to the outgoing one,
      never neither and never both; after a panic it is left as it is.
    - A request for another host that can be reached is bound. *)
Record conn_ok (dial : string → option string) (inLocal : string) (read : option string + string)
    (r : outcome HTTPRequest) (eff : list effect) : Prop := {
  ok_outgoing e : e ∈ eff → outgoing e → ∃ req, r = Ok req ∧
    IsDeadLoop LookupIP interfaces inLocal (ReqHost req) = false ∧
    (∀ a, e = EDial a → a = ReqHost req) ∧ (∀ h, e = EOut h → read = inr h ∧ ReqIsHTTPS req = false) ∧
    (∀ c, e ≠ EPool c);
  ok_ends : r ≠ Panic → (EIn Close ∈ eff ∧ EBind ∉ eff) ∨ (EIn Close ∉ eff ∧ last eff = Some EBind);
  ok_panic : r = Panic → EIn Close ∉ eff;
  ok_bound req : r = Ok req → IsDeadLoop LookupIP interfaces inLocal (ReqHost req) = false →
    dial (ReqHost req) = None → last eff = Some EBind
}.

(** A decoded request has had no reply yet, and decoding that panics neither. *)
Lemma NewHTTPRequest_quiet (ba : MU) read withAuth r eff :
  NewHTTPRequest url_host b64 read withAuth ba = (r, eff) → is_err r = false → eff = [].
Proof.
  assert (∀ req r eff, HTTP url_host b64 ba req = (r, eff) → is_err r = false → eff = []) as Hh.
  { intros req r0 eff0. unfold HTTP, ReqBasicAuth. intros E Hr.
    destruct (isBasicAuth req); repeat (case_match; simplify_eq/=; try done). }
  intros E Hr. unfold NewHTTPRequest in E. repeat (case_match; simplify_eq/=; try done); by eapply Hh.
Qed.

Lemma NewHTTPRequest_read (ba : MU) withAuth read req eff :
  NewHTTPRequest url_host b64 read withAuth ba = (Ok req, eff) → read = inr (HeadBuf req).
Proof.
  intros E. destruct read as [[]|head]; [done..|]. by rewrite (NewHTTPRequest_head _ _ _ _ _ E).
Qed.

(** Without a parent the handlers share nothing: each leaves the state as it was, and its
    connection gets what it may expect. *)
Lemma callback_ok cfg (ba : MU) pcfg dial inLocal read (st st' : PxState (MB := MB) (MD := MD)) eff :
  Parent cfg = "" →
  callback LookupIP interfaces Hostname url_host b64 cfg ba pcfg dial inLocal read st = (eff, st') →
  st' = st ∧ conn_ok dial inLocal read (NewHTTPRequest url_host b64 read (IsBasicAuth cfg) ba).1 eff.
Proof.
  intros Hpar E. unfold callback in E.
  destruct (NewHTTPRequest _ _ read _ ba) as [r eff0] eqn:Er. cbn [fst].
  destruct r as [req|m|].
  2:{ injection E as <- <-. split; [done|]. split; try done.
      - intros e [He|He]%elem_of_app Ho; [by apply EIn_outgoing in He|].
        by apply list_elem_of_singleton in He as ->.
      - intros _. left. split; [set_solver|]. rewrite elem_of_app, list_elem_of_singleton.
        intros [He|He]; [by apply EIn_outgoing in He|done]. }
  2:{ injection E as <- <-. rewrite (NewHTTPRequest_quiet _ _ _ _ _ Er) by done. split; [done|].
      split; try done; [intros e []%not_elem_of_nil|intros _ []%not_elem_of_nil]. }
  rewrite (NewHTTPRequest_quiet _ _ _ _ _ Er) in E by done.
  unfold choose_proxy in E. rewrite decide_True in E by done. unfold OutToTCP in E. simpl in E.
  apply NewHTTPRequest_read in Er as ->.
  destruct (IsDeadLoop _ _ inLocal (ReqHost req)) eqn:El.
  { injection E as <- <-. split; [by destruct st|]. split; [|intros _; left; set_solver|done|intros ? [= <-]; by rewrite El].
    intros e He. rewrite !elem_of_cons in He. by destruct He as [->|[->|He%not_elem_of_nil]]. }
  destruct (dial (ReqHost req)) eqn:Ed.
  - injection E as <- <-. split; [by destruct st|]. split; [|intros _; left; set_solver|done|intros ? [= <-]; by rewrite Ed].
    intros e He Ho. exists req. split_and!; try done; intros ? ->; set_solver.
  - injection E as <- <-. split; [by destruct st|].
    destruct (ReqIsHTTPS req) eqn:Eh; cbn [negb andb];
      (split; [|intros _; right; split; [set_solver|done]|done|done]);
      intros e He Ho; exists req; (split_and!; [done|done|..]); intros ? ->; set_solver.
Qed.

(** A request of fewer than 50 bytes without a line feed makes decoding panic, and the
    connection is then left open. *)
Lemma callback_short cfg (ba : MU) pcfg dial inLocal head (st : PxState (MB := MB) (MD := MD)) :
  first_line head = None → String.length head < 50 →
  callback LookupIP interfaces Hostname url_host b64 cfg ba pcfg dial inLocal (inr head) st = ([], st).
Proof. intros Hf Hl. unfold callback. by rewrite NewHTTPRequest_short. Qed.

(** A dead loop is a request to the own port at an address of the host itself. *)
Lemma IsDeadLoop_spec inLocal host :
  IsDeadLoop LookupIP interfaces inLocal host = true ↔
  ∃ inIP port domain ips,
    SplitHostPort (str_elems inLocal) = Some (inIP, port) ∧
    SplitHostPort (str_elems host) = Some (domain, port) ∧
    LookupIP (string_of_list_ascii domain) = Some ips ∧
    (string_of_list_ascii inIP ∈ ips ∨ ∃ ifs l, interfaces = Some ifs ∧ l ∈ ifs ∧ l ∈ ips).
Proof.
  unfold IsDeadLoop. split.
  - destruct (SplitHostPort (str_elems inLocal)) as [[inIP inPort]|] eqn:Ei; [|done].
    destruct (SplitHostPort (str_elems host)) as [[dom outPort]|] eqn:Eo; [|done].
    case_decide as Hp; [subst outPort|done].
    destruct (LookupIP (string_of_list_ascii dom)) as [ips|] eqn:El; simpl.
    + case_bool_decide; [by eauto 10|]. destruct interfaces as [ifs|]; [|done].
      intros (l & Hl & Hin%bool_decide_eq_true_1)%existsb_exists.
      exists inIP, inPort, dom, ips. split_and!; try done. right. exists ifs, l.
      split; [done|]. by rewrite list_elem_of_In.
    + destruct interfaces as [ifs|]; [|done]. by intros (l & _ & Hin)%existsb_exists.
  - intros (inIP & port & dom & ips & -> & -> & El & Hor). rewrite decide_True, El by done. simpl.
    case_bool_decide as Hb; [done|]. destruct Hor as [?|(ifs & l & Ei & Hl & Hin)]; [done|].
    rewrite Ei. apply existsb_exists. exists l. rewrite <-list_elem_of_In.
    split; [done|]. by apply bool_decide_eq_true_2.
Qed.

(** A host the lists do not name goes through the parent when it is first seen, and
    directly once a probe has reached it. *)
Lemma checker_learns (c : Checker (M := MB) (D := MD)) address method URL d
    (items : gmap string CheckerItem) (blocked direct : gmap string bool) host reach :
  sm_rep (blockedMap c) blocked → sm_rep (directMap c) direct → sm_rep (data c) items →
  items !! address = None → Hostname address = Some host →
  (∀ dom, parent_domain host dom → blocked !! dom = None ∧ direct !! dom = None) →
  ∃ c1 c2 item, Checker_Add Hostname c address true method URL d = Ok c1 ∧
    IsBlocked Hostname c1 address = Ok (true, 0%Z, 0%Z) ∧
    sm_get (data c1) address = Ok (Some item) ∧
    check_item Hostname reach c1 item = Ok c2 ∧
    IsBlocked Hostname c2 address =
      Ok (negb (reach item), if reach item then 0%Z else 1%Z, if reach item then 1%Z else 0%Z).
Proof.
  intros Hb Hd Hi Hnew Hh Hdom.
  assert (∀ (c : Checker (M := MB) (D := MD)) bl, sm_rep (blockedMap c) blocked → sm_rep (directMap c) direct →
    domainIsInMap Hostname c address bl = Ok false) as Hin.
  { intros c0 bl Hb0 Hd0.
    destruct (domainIsInMap_spec Hostname c0 address bl (if bl then blocked else direct)) as (b & E & Hiff);
      [by destruct bl|]. rewrite E. f_equal. apply not_true_is_false. rewrite Hiff, Hh.
    intros (dom & Hp & Hs). destruct (Hdom dom Hp) as [E1 E2].
    destruct bl; [rewrite E1 in Hs|rewrite E2 in Hs]; by destruct Hs. }
  set (item := mkItem true method URL (List.hd "" (Split address colon)) address d 0 0).
  destruct (sm_set_absent_rep (data c) items address item Hi) as (m & Em & Hm). rewrite Hnew in Em, Hm.
  set (c1 := mkChecker m (blockedMap c) (directMap c)).
  assert (Checker_Add Hostname c address true method URL d = Ok c1) as E1.
  { unfold Checker_Add. rewrite !Hin by done. cbn [obind negb andb]. fold item. by rewrite Em. }
  assert (sm_get m address = Ok (Some item)) as Eg by (by rewrite (sm_get_rep _ _ _ Hm), lookup_insert_eq).
  set (item' := if reach item
    then mkItem true method URL (Domain item) address d 1 0 else mkItem true method URL (Domain item) address d 0 1).
  destruct (sm_set_rep m _ address item' Hm) as (m2 & Em2 & Hm2).
  exists c1, (mkChecker m2 (blockedMap c) (directMap c)), item. split; [done|].
  split. { unfold IsBlocked. rewrite !Hin by done. cbn [obind]. unfold c1 at 1. cbn [data]. by rewrite Eg. }
  split; [done|]. split.
  - assert (isNeedCheck Hostname c1 item = Ok true) as En.
    { unfold isNeedCheck. cbv zeta. change (ItemHost item) with address. rewrite !Hin by done. reflexivity. }
    unfold check_item. rewrite En. cbn [obind negb]. clear Hm2. unfold item' in Em2.
    change (u64 (SuccessCount item + 1)) with 1%Z. change (u64 (FailCount item + 1)) with 1%Z.
    by destruct (reach item); cbn in Em2 |- *; rewrite Em2.
  - unfold IsBlocked. rewrite !Hin by done. cbn [obind data].
    rewrite (sm_get_rep _ _ _ Hm2), lookup_insert_eq. cbn [obind]. unfold item'. by destruct (reach item).
Qed.

End theorems.

(** ** Closing once *)

(** Both copies of [IoBind] end with an error, so the connections are closed, and only
    once, whichever copy ends first. *)
Lemma IoBind_closes_once {R W} `{Reader R} (write : SWriter W) a b dst src :
  (32768 <= rmax)%Z →
  ∃ r1 r2, ioCopy write dst a = Some r1 ∧ ioCopy write src b = Some r2 ∧
    bind_calls false [r1; r2] = [(isSrcErr r1, cp_err r1)] ∧
    bind_calls false [r2; r1] = [(isSrcErr r2, cp_err r2)].
Proof.
  intros Hm. destruct (ioCopy_loop_returns write (S (rsize a)) 0 [] dst a) as (r1 & E1 & N1); [done|lia|].
  destruct (ioCopy_loop_returns write (S (rsize b)) 0 [] src b) as (r2 & E2 & N2); [done|lia|].
  exists r1, r2. split_and!; try done; simpl; destruct (cp_err r1), (cp_err r2); done.
Qed.

(** ** An example *)

Definition demo_get : string :=
  "GET http://a.b/x HTTP/1.1" +:+ CRLF +:+ "Host: a.b" +:+ CRLF +:+ CRLF.

Definition demo_state : PxState (MB := ConcurrentMap bool) (MD := ConcurrentMap CheckerItem) :=
  mkPx demo_checker None.
