(* ===== verification/ProxyService.v ===== *)
(** * The proxy as a service

    proxy/service.go: [InitProxy], [Register], [Run]; proxy/http.go: [Start], [InitService],
    [InitOutConnPool], [StopService], [Clean], [NewHTTP]; proxy/args.go: [TCPArgs.Protocol];
    utils/structs.go: [NewChecker], [getConn] and a round of [Checker.start].

    [Start] puts the parts together: the users and host lists of [ProxyAuth], the pool of
    [ConnPool], the accept loop of [ServeChannel] and the handler of [ProxyHttp], over the
    connections of [NetUtils]. *)

From S2P Require Import Prelude GoStrings ShardMap ProxyAuth ConnPool NetUtils ServeChannel ProxyHttp.

Definition TYPE_TCP : string := "tcp".
Definition TYPE_TLS : string := "tls".

(** [TCPArgs.Protocol], of a flag that may be nil. *)
Definition Protocol (IsTLS : option bool) : outcome string :=
  match IsTLS with
  | None => Panic
  | Some true => Ok "tls"
  | Some false => Ok "tcp"
  end.

(** ** The outside *)

(** Hosts come and go, so that an attempt to connect has a number; connections to the parent,
    to hosts and probes are counted separately. *)
Inductive attempt := ToParent (n : nat) | ToHost (n : nat) | Probe (n : nat).

(** The files, the resolver, the interfaces and the network of the node. *)
Record Host := mkHost {
  LookupIP : string → option (list string);
  Interfaces : string + list Interface;
  Hostname : string → option string;                 (** [url.Parse("http://" + s)] *)
  url_host : string → option string;
  b64 : string → option string;
  X509KeyPair : bytes → bytes → option string;
  AppendCertsFromPEM : bytes → bool;
  Dial : attempt → string → Z → string + unit;
  HttpGet : string → Z → option bool * option string;
  net_Listen : string → option string;
  tls_Listen : string → TlsConfig → option string;
  Stat : string → stat_result;
  ReadFile : string → string + string
}.

(** The addresses as [IsDeadLoop] compares them. *)
Definition interface_ips (h : Host) : option (list string) :=
  match GetAllInterfaceAddr (Interfaces h) with
  | inl _ => None
  | inr l => Some (IPv4_String <$> l)
  end.

(** An accepted connection: its local address and what the first read gives. *)
Record InConn := mkInConn { LocalAddr : string; first_read : option string + string }.

Section service.
Context {MU MB MD : Type} `{StringMap MU string, StringMap MB bool, StringMap MD CheckerItem}.
Context (h : Host).

(** ** Connections to the parent *)

Definition getConn (isTLS : bool) (certBytes keyBytes : bytes) (address : string) (timeout : Z) (n : nat)
    : outcome unit :=
  if isTLS then
    let! _ := TlsConnectHost (X509KeyPair h) (AppendCertsFromPEM h) (Dial h (ToParent n)) address timeout certBytes keyBytes in
    Ok ()
  else match ConnectHost (Dial h (ToParent n)) address timeout with
       | inl err => Err err
       | inr _ => Ok ()
       end.

Definition pool_err (isTLS : bool) (cfg : HTTPArgs) (n : nat) : option string :=
  match getConn isTLS (CertBytes cfg) (KeyBytes cfg) (Parent cfg) (Timeout cfg) n with
  | Err e => Some e
  | _ => None
  end.

(** The configuration and the pool. When connecting panics (a TLS parent without a port),
    so does the first filling; with a size of zero there is none, and a pool that panics
    whenever a connection is asked for is as good as a nil one. *)
Definition InitOutConnPool (cfg : HTTPArgs) (parentType : string) : outcome (option (poolConfig * netPool)) :=
  if decide (parentType = TYPE_TLS ∨ parentType = TYPE_TCP) then
    match CheckParentInterval cfg, PoolSize cfg with
    | Some dur, Some size =>
        let isTLS := bool_decide (parentType = TYPE_TLS) in
        let panics := isTLS && bool_decide (":"%char ∉ str_elems (Parent cfg)) in
        if panics && (0 <? size)%Z then Panic else
        let! (p, _, _) := NewOutPool (pool_err isTLS cfg) dur size (i64 (size * 2)) in
        Ok (if panics then None
            else Some (out_config (pool_err isTLS cfg) size (i64 (size * 2)), p))
    | _, _ => Panic
    end
  else Ok None.

(** ** Host lists *)

Definition NewChecker (blockedFile directFile : string) : outcome (Checker (M := MB) (D := MD)) :=
  let load := λ f, loadMap (PathExists (Stat h) f) (ReadFile h f) in
  let! blocked := load blockedFile in
  let! direct := load directFile in
  Ok (mkChecker sm_new blocked direct).

(** Whether the probe of an item succeeds. *)
Definition reach (timeout : Z) (n : nat) (item : CheckerItem) : bool :=
  if IsHTTPS item
  then match ConnectHost (Dial h (Probe n)) (ItemHost item) timeout with inl _ => false | inr _ => true end
  else match (HTTPGet (HttpGet h) (ItemURL item) timeout).1 with Some _ => false | None => true end.

(** A round of [start]: the items it found in the map, in the order in which their
    goroutines get to run. *)
Definition probe_round (timeout : Z) (n : nat) (c : Checker (M := MB) (D := MD)) (items : list CheckerItem)
    : outcome (Checker (M := MB) (D := MD)) :=
  ofold (check_item (Hostname h) (reach timeout n)) c items.

(** The users and the checker, which a service without a parent does not have. *)
Definition InitService (cfg : HTTPArgs) : outcome (MU * option (Checker (M := MB) (D := MD))) :=
  let! (ba, _) := InitBasicAuth cfg (ReadFile h (AuthFile cfg)) in
  if decide (Parent cfg ≠ "") then
    match Interval cfg, Blocked cfg, Direct cfg with
    | Some _, Some blocked, Some direct => let! c := NewChecker blocked direct in Ok (ba, Some c)
    | _, _, _ => Panic
    end
  else Ok (ba, None).

(** ** Start *)

(** A service that accepts connections. *)
Record Service := mkService {
  sv_args : HTTPArgs;
  sv_auth : MU;
  sv_pool : poolConfig;
  sv_state : PxState (MB := MB) (MD := MD);
  sv_address : string;
  sv_events : list (accept_event InConn);
  sv_accepting : bool
}.

(** The checker of [NewHTTP] is never used without a parent. *)
Definition Start (cfg : HTTPArgs) (answers : list (string + InConn)) : outcome Service :=
  let! pool :=
    if decide (Parent cfg ≠ "") then
      match ParentType cfg with
      | None => Panic
      | Some t => InitOutConnPool cfg t
      end
    else Ok None in
  let! (ba, checker) := InitService cfg in
  let '(host, port) := default ([], []) (SplitHostPort (str_elems (Local cfg))) in
  let sc := NewServerChannel (string_of_list_ascii host) (Atoi_value (string_of_list_ascii port)) in
  let listening :=
    if decide (LocalType cfg = TYPE_TCP) then ListenTCP (net_Listen h) sc answers
    else ListenTls (X509KeyPair h) (AppendCertsFromPEM h) (tls_Listen h) (CertBytes cfg) (KeyBytes cfg) sc answers in
  match listening with
  | inl err => Err err
  | inr (es, accepting) =>
      Ok (mkService cfg ba (default (out_config (λ _, None) 0 0) (fst <$> pool))
            (mkPx (default (mkChecker sm_new sm_new sm_new) checker) (snd <$> pool))
            (host_port (sc_ip sc) (sc_port sc)) es accepting)
  end.

(** The error of the [n]-th direct connection. *)
Definition host_err (timeout : Z) (n : nat) (address : string) : option string :=
  match ConnectHost (Dial h (ToHost n)) address timeout with inl err => Some err | inr _ => None end.

(** The goroutine of an accepted connection; what it did is kept beside the state. *)
Definition on_connection (s : Service) (c : InConn) (st : PxState (MB := MB) (MD := MD) * list (InConn * list effect))
    : PxState (MB := MB) (MD := MD) * list (InConn * list effect) * outcome unit :=
  let dial := host_err (Timeout (sv_args s)) (length st.2) in
  let '(eff, st') := callback (LookupIP h) (interface_ips h) (Hostname h) (url_host h) (b64 h)
                       (sv_args s) (sv_auth s) (sv_pool s) dial (LocalAddr c) (first_read c) st.1 in
  (st', st.2 ++ [(c, eff)], Ok ()).

(** The connections in the order in which their goroutines get to run. *)
Definition serve_all (s : Service) (order : list InConn) : PxState (MB := MB) (MD := MD) * list (InConn * list effect) :=
  serve (on_connection s) order (sv_state s, []).

(** Ending the service; a nil pool has nothing to release. *)
Definition StopService (s : Service) : outcome Service :=
  match px_pool (sv_state s) with
  | None => Ok s
  | Some p =>
      let! p := ReleaseAll (sv_pool s) p in
      Ok (mkService (sv_args s) (sv_auth s) (sv_pool s) (mkPx (px_checker (sv_state s)) (Some p))
            (sv_address s) (sv_events s) (sv_accepting s))
  end.

Definition Clean (s : Service) : outcome Service := StopService s.

End service.

(** ** The registry *)

(** The only implementation of the interface is [HTTP], so an item is its arguments. *)
Record ServiceItem := mkServiceItem { Args : HTTPArgs; Name : string }.

Definition Register (name : string) (args : HTTPArgs) (servicesMap : gmap string ServiceItem)
    : gmap string ServiceItem := <[name := mkServiceItem args name]> servicesMap.

Definition InitProxy (ProxyPort : Z) (servicesMap : gmap string ServiceItem) : gmap string ServiceItem :=
  Register "http" (proxy_args ProxyPort) servicesMap.

(** What [Run] returns, and what its goroutine does: a service, or the end of the process
    ([log.Fatalf]) when [Start] fails or panics. *)
Inductive goroutine {MU MB MD : Type} := Serving (s : Service (MU := MU) (MB := MB) (MD := MD)) | Fatal (msg : string).
Arguments goroutine : clear implicits.

Section run.
Context {MU MB MD : Type} `{StringMap MU string, StringMap MB bool, StringMap MD CheckerItem}.

Definition Run (h : Host) (servicesMap : gmap string ServiceItem) (name : string) (answers : list (string + InConn))
    : string + ServiceItem * goroutine MU MB MD :=
  match servicesMap !! name with
  | None => inl ("service " +:+ name +:+ " not found")
  | Some service =>
      inr (service,
        match Start (MU := MU) h (Args service) answers with
        | Ok s => Serving s
        | Err err => Fatal (name +:+ " servcie fail, ERR: " +:+ err)
        | Panic => Fatal (name +:+ " servcie crashed")
        end)
  end.
End run.

(** ** The service the program starts *)

Section theorems.
Context {MU MB MD : Type} `{StringMap MU string, StringMap MB bool, StringMap MD CheckerItem}.

Lemma any_address_plain : plain_part (str_elems "0.0.0.0").
Proof.
  intros c Hc. rewrite !elem_of_cons in Hc. destruct Hc as [->|[->|[->|Hc%not_elem_of_nil]]]; [by_decide..|done].
Qed.

Lemma Itoa_part z : plain_part (str_elems (Itoa z)).
Proof.
  intros c Hc. rewrite !elem_of_cons in Hc.
  destruct Hc as [->|[->|[->|Hc%not_elem_of_nil]]]; [by apply Itoa_no_digit..|done].
Qed.

(** The address the arguments name is the one the listener gets. *)
Lemma proxy_args_address port :
  in_i64 port →
  SplitHostPort (str_elems (Local (proxy_args port))) = Some (str_elems "0.0.0.0", str_elems (Itoa port)) ∧
  host_port "0.0.0.0" (Atoi_value (Itoa port)) = Local (proxy_args port).
Proof.
  intros Hp. split; [|by rewrite Atoi_Itoa]. cbn [Local proxy_args].
  change ("0.0.0.0:" +:+ Itoa port) with ("0.0.0.0" +:+ String ":" (Itoa port)). rewrite str_elems_app.
  apply SplitHostPort_join; [apply any_address_plain|apply Itoa_part].
Qed.

Lemma Start_proxy_args (h : Host) port answers :
  in_i64 port →
  Start (MU := MU) (MB := MB) (MD := MD) h (proxy_args port) answers =
  match net_Listen h (Local (proxy_args port)) with
  | Some err => Err err
  | None =>
      let '(es, b) := accept_loop Tcp answers in
      Ok (mkService (proxy_args port) sm_new (out_config (λ _, None) 0 0)
            (mkPx (mkChecker sm_new sm_new sm_new) None) (Local (proxy_args port)) es b)
  end.
Proof.
  intros Hp. destruct (proxy_args_address port Hp) as [Hs Ha]. unfold Start.
  rewrite decide_False by tauto. cbn [obind]. unfold InitService, InitBasicAuth.
  cbn [AuthFile Auth Parent proxy_args length].
  rewrite !decide_False by (tauto || lia). cbn [obind].
  rewrite Hs. cbn [from_option id]. unfold NewServerChannel, str_elems. rewrite !Stdlib.Strings.String.string_of_list_ascii_of_string.
  change (LocalType (proxy_args port)) with TYPE_TCP. rewrite (decide_True (P := TYPE_TCP = TYPE_TCP)) by done. unfold ListenTCP, Listen. cbn [sc_ip sc_port]. rewrite Ha.
  destruct (net_Listen h _); [done|]. by destruct (accept_loop Tcp answers).
Qed.

(** Serving without a parent: every connection gets what it may expect, whatever the others
    do. *)
Lemma serve_all_spec (h : Host) (s : Service (MU := MU) (MB := MB) (MD := MD)) order :
  Parent (sv_args s) = "" →
  (serve_all h s order).1 = sv_state s ∧ (serve_all h s order).2.*1 = order ∧
  ∀ i c eff, (serve_all h s order).2 !! i = Some (c, eff) →
    conn_ok (LookupIP h) (interface_ips h) (host_err h (Timeout (sv_args s)) i) (LocalAddr c) (first_read c)
      (NewHTTPRequest (url_host h) (b64 h) (first_read c) (IsBasicAuth (sv_args s)) (sv_auth s)).1 eff.
Proof.
  intros Hpar. unfold serve_all. induction order as [|c order IH] using rev_ind; [done|].
  unfold serve in *. rewrite foldl_app. cbn [foldl]. set (st := foldl _ _ order) in *.
  destruct IH as (IH1 & IH2 & IH3). unfold handle, on_connection.
  destruct (callback _ _ _ _ _ _ _ _ _ _ _ st.1) as [eff st'] eqn:E.
  apply callback_ok in E as [-> Hok]; [|done]. cbn [fst snd]. split; [done|].
  split; [by rewrite fmap_app, IH2|].
  intros i d eff' Hi. rewrite lookup_app in Hi. destruct (st.2 !! i) eqn:Eo.
  - simplify_eq. by apply IH3.
  - apply lookup_ge_None in Eo. apply list_lookup_singleton_Some in Hi as [Hi [= <- <-]].
    by replace i with (length st.2) by lia.
Qed.

(** A service with a parent needs the flags that [InitProxy] leaves nil: setting only the
    parent would end the process at the start. *)
Lemma Start_parent_flags (h : Host) cfg answers (s : Service (MU := MU) (MB := MB) (MD := MD)) :
  Start h cfg answers = Ok s → Parent cfg ≠ "" →
  is_Some (ParentType cfg) ∧ is_Some (Interval cfg) ∧ is_Some (Blocked cfg) ∧ is_Some (Direct cfg).
Proof.
  unfold Start. intros E Hp. rewrite decide_True in E by done.
  destruct (ParentType cfg) as [t|]; [|done]. split; [done|].
  apply obind_ok_inv in E as (pool & _ & E). apply obind_ok_inv in E as ([ba c] & Hi & _).
  unfold InitService in Hi. apply obind_ok_inv in Hi as ([ba' e] & _ & Hi). rewrite decide_True in Hi by done.
  destruct (Interval cfg), (Blocked cfg), (Direct cfg); done.
Qed.

(** A stopped service has no pooled connection left, and each was released. *)
Lemma StopService_releases (s s' : Service (MU := MU) (MB := MB) (MD := MD)) p :
  px_pool (sv_state s) = Some p → StopService s = Ok s' →
  ∃ p', px_pool (sv_state s') = Some p' ∧ conns p' = [] ∧ released p' = released p ++ conns p.
Proof.
  intros Hp. unfold StopService, ReleaseAll. rewrite Hp. destruct (InitialCap _ <? 0)%Z; [done|].
  cbn [obind]. intros [= <-]. by eexists.
Qed.

(** An address that the proxy knows for its own: the port a client connected to, with a host
    that resolves to the IP the client connected to or to one of an interface. *)
Definition own_address (h : Host) (c : InConn) (address : string) : Prop :=
  ∃ inIP port domain ips,
    SplitHostPort (str_elems (LocalAddr c)) = Some (inIP, port) ∧
    SplitHostPort (str_elems address) = Some (domain, port) ∧
    LookupIP h (string_of_list_ascii domain) = Some ips ∧
    (string_of_list_ascii inIP ∈ ips ∨ ∃ ifs l, interface_ips h = Some ifs ∧ l ∈ ifs ∧ l ∈ ips).

(** The check does not know all names of the proxy: another loopback address, or the
    unspecified address, leads to it as well. *)
Lemma own_address_missed :
  Forall (λ host, IsDeadLoop (λ d, Some [d]) (Some ["127.0.0.1"; "10.0.0.1"]) "10.0.0.1:1080" host = false)
    ["127.0.0.2:1080"; "0.0.0.0:1080"].
Proof. repeat constructor. Qed.

(** C22. The proxy, as the program registers and runs it. It listens on the configured port of
    every interface; when it cannot, the process ends. Every connection that is accepted
    before the first error of the listener is handled, and in whatever order the handlers
    run, each gets what [conn_ok] says, independently of the others. It reaches only the
    host it asked for, and no address that the proxy knows for its own: the port the client
    connected to, at the IP it connected to or at one of an interface, as the host of the
    request resolves (other names of the proxy, such as 127.0.0.2, are not known and are
    dialled). It ends closed or bound, and is bound whenever that host is let through and
    can be reached; only a connection whose request makes the decoding panic (such as one of
    fewer than 50 bytes without a request line) is left open. Credentials are never asked for. *)
Theorem proxy_serves (h : Host) port servicesMap answers :
  in_i64 port →
  let address := "0.0.0.0:" +:+ Itoa port in
  match net_Listen h address, Run (MU := MU) (MB := MB) (MD := MD) h (InitProxy port servicesMap) "http" answers with
  | Some err, inr (_, Fatal msg) => msg = "http servcie fail, ERR: " +:+ err
  | None, inr (_, Serving s) =>
      sv_address s = address ∧ handled (sv_events s) = accepted answers ∧
      (sv_accepting s = true ↔ ∀ e, inl e ∉ answers) ∧
      ∀ order, (serve_all h s order).2.*1 = order ∧
        ∀ i c eff, (serve_all h s order).2 !! i = Some (c, eff) →
          conn_ok (LookupIP h) (interface_ips h) (host_err h 5000 i) (LocalAddr c) (first_read c)
            (NewHTTPRequest (url_host h) (b64 h) (first_read c) false (sv_auth s)).1 eff ∧
          ∀ address, EDial address ∈ eff → ¬ own_address h c address
  | _, _ => False
  end.
Proof.
  intros Hp address. unfold Run, InitProxy, Register. rewrite lookup_insert_eq. cbn [Args].
  rewrite Start_proxy_args by done. change (Local (proxy_args port)) with address.
  destruct (net_Listen h address); [done|].
  destruct (accept_loop Tcp answers) as [es b] eqn:E. apply accept_loop_spec in E as (Hh & Hb & _).
  split; [done|]. split; [done|]. split; [done|]. intros order.
  destruct (serve_all_spec h (mkService (MU := MU) (MB := MB) (MD := MD) (proxy_args port) sm_new
    (out_config (λ _, None) 0 0) (mkPx (mkChecker sm_new sm_new sm_new) None) address es b) order eq_refl)
    as (_ & Hs1 & Hs2). split; [done|]. intros i c eff Hi. specialize (Hs2 i c eff Hi). split; [done|].
  intros a Ha Hown. destruct (ok_outgoing _ _ _ _ _ _ _ Hs2 _ Ha I) as (req & _ & Hd & Hdial & _).
  rewrite (Hdial a eq_refl) in Hown. apply (proj2 (IsDeadLoop_spec _ _ _ _)) in Hown. congruence.
Qed.

End theorems.

(** ** An example *)

Definition demo_host : Host :=
  mkHost (λ _, Some ["1.2.3.4"]) (inr [mkInterface true (inr [IPNet [byte_of 10; byte_of 0; byte_of 0; byte_of 1]])])
    Some (λ _, Some "a.b") Some (λ _ _, None) (λ _, true) (λ _ _ _, inr ()) (λ _ _, (None, None))
    (λ _, None) (λ _ _, None) (λ _, StatNotExist) (λ _, inl "no such file").

Definition demo_short : InConn := mkInConn "10.0.0.1:1080" (inr "GET").
Definition demo_conn : InConn := mkInConn "10.0.0.1:1080" (inr demo_get).

(** Three connections: one that asks for a page, one that is closed at once, one whose request is too
    short; only the last is left open. *)
Lemma proxy_serves_witness :
  let answers := [inr demo_conn; inr (mkInConn "10.0.0.1:1080" (inl None)); inr demo_short; inl "closed"] in
  match Run (MU := ConcurrentMap string) (MB := ConcurrentMap bool) (MD := ConcurrentMap CheckerItem)
          demo_host (InitProxy 1080 ∅) "http" answers with
  | inr (_, Serving s) =>
      (serve_all demo_host s [demo_short; demo_conn]).2 = [(demo_short, []); (demo_conn, [EDial "a.b:80"; EOut demo_get; EBind])] ∧
      sv_address s = "0.0.0.0:1080" ∧ handled (sv_events s) = accepted answers
  | _ => False
  end.
Proof.
  intros answers.
  pose proof (proxy_serves (MU := ConcurrentMap string) (MB := ConcurrentMap bool) (MD := ConcurrentMap CheckerItem)
    demo_host 1080 ∅ answers ltac:(unfold in_i64; lia)) as Hs.
  cbv zeta in Hs. change (net_Listen demo_host _) with (@None string) in Hs. cbv iota in Hs.
  destruct (Run _ _ _ _) as [e|[item [s|msg]]] eqn:E; [done| |done].
  destruct Hs as (Ha & Hh & _). split; [|split; [exact Ha|exact Hh]].
  assert (s = match Run (MU := ConcurrentMap string) (MB := ConcurrentMap bool) (MD := ConcurrentMap CheckerItem)
    demo_host (InitProxy 1080 ∅) "http" answers with inr (_, Serving s) => s | _ => s end) as -> by (by rewrite E).
  vm_compute. reflexivity.
Defined.
