(* ===== verification/HttpRange.v ===== *)
(** * HTTP byte ranges

    utils/httprange.go: [ParseRequestRangeSpec], [GetLength], [GetOffsetLength] and
    [String]. Offsets are 64-bit integers; the arithmetic wraps where Go's does. *)

From S2P Require Import Prelude GoStrings.

Record HTTPRangeSpec := mkRange { IsSuffixLength : bool; Start : Z; End_ : Z }.

Definition byteRangePrefix : string := "bytes=".
Definition ErrInvalidRange : string := "Invalid range".
Definition dash : ascii := "-"%char.

(** A nil specification is [None]. *)
Definition GetLength (h : option HTTPRangeSpec) (resourceSize : Z) : outcome Z :=
  if (resourceSize <? 0)%Z then Err "Resource size cannot be negative" else
  match h with
  | None => Ok resourceSize
  | Some h =>
      if IsSuffixLength h then
        let specifiedLen := i64 (- Start h) in
        Ok (if (resourceSize <? specifiedLen)%Z then resourceSize else specifiedLen)
      else if (resourceSize <=? Start h)%Z then Err ErrInvalidRange
      else if (-1 <? End_ h)%Z then
        let end_ := if (resourceSize <=? End_ h)%Z then (resourceSize - 1)%Z else End_ h in
        Ok (i64 (end_ - Start h + 1))
      else if (End_ h =? -1)%Z then Ok (i64 (resourceSize - Start h))
      else Err "Unexpected range specification case"
  end.

Definition GetOffsetLength (h : option HTTPRangeSpec) (resourceSize : Z) : outcome (Z * Z) :=
  match h with
  | None => Ok (0%Z, resourceSize)
  | Some spec =>
      let! length := GetLength h resourceSize in
      let start :=
        if IsSuffixLength spec then
          let s := i64 (resourceSize + Start spec) in if (s <? 0)%Z then 0%Z else s
        else Start spec in
      Ok (start, length)
  end.

(** A byte position: absent ([-1]), or a non-negative number without sign. *)
Definition parse_pos (rangeString pos which Which : string) : outcome Z :=
  match pos with
  | EmptyString => Ok (-1)%Z
  | String c _ =>
      if decide (c = "+"%char)
      then Err ("Byte position ('" +:+ pos +:+ "') must not have a sign")
      else match ParseInt64 pos with
           | None => Err ("'" +:+ rangeString +:+ "' does not have a valid " +:+ which +:+
                          " byte position value")
           | Some z =>
               if (z <? 0)%Z then Err (Which +:+ " byte position is negative ('" +:+ Itoa z +:+ "')")
               else Ok z
           end
  end.

Definition ParseRequestRangeSpec (rangeString : string) : outcome HTTPRangeSpec :=
  if negb (HasPrefix rangeString byteRangePrefix)
  then Err ("'" +:+ rangeString +:+ "' does not start with '" +:+ byteRangePrefix +:+ "'")
  else
    let byteRangeString := TrimPrefix rangeString byteRangePrefix in
    match SplitN2 byteRangeString dash with
    | [offsetBeginString; offsetEndString] =>
        let! offsetBegin := parse_pos rangeString offsetBeginString "first" "First" in
        let! offsetEnd := parse_pos rangeString offsetEndString "last" "Last" in
        if (-1 <? offsetBegin)%Z && (-1 <? offsetEnd)%Z then
          if (offsetEnd <? offsetBegin)%Z then Err ErrInvalidRange
          else Ok (mkRange false offsetBegin offsetEnd)
        else if (-1 <? offsetBegin)%Z then Ok (mkRange false offsetBegin (-1))
        else if (-1 <? offsetEnd)%Z then
          if (offsetEnd =? 0)%Z then Err ErrInvalidRange
          else Ok (mkRange true (i64 (- offsetEnd)) (-1))
        else Err ("'" +:+ rangeString +:+ "' does not have valid range value")
    | _ => Err ("'" +:+ rangeString +:+ "' does not have a valid range value")
    end.

Definition RangeString (h : option HTTPRangeSpec) (resourceSize : Z) : string :=
  match h with
  | None => ""
  | Some _ =>
      match GetOffsetLength h resourceSize with
      | Ok (off, length) => Itoa off +:+ "-" +:+ Itoa (i64 (off + length - 1))
      | _ => ""
      end
  end.

(** ** Well-formed specifications *)

(** The three forms of a range header. *)
Definition range_wf (h : HTTPRangeSpec) : Prop :=
  if IsSuffixLength h then (- 2 ^ 63 < Start h < 0)%Z ∧ End_ h = (-1)%Z
  else (0 <= Start h < 2 ^ 63)%Z ∧ (End_ h = (-1)%Z ∨ (Start h <= End_ h < 2 ^ 63)%Z).

Definition range_header (h : HTTPRangeSpec) : string :=
  byteRangePrefix +:+
  (if IsSuffixLength h then "-" +:+ print_nat (- Start h)
   else print_nat (Start h) +:+ "-" +:+ (if (End_ h =? -1)%Z then "" else print_nat (End_ h))).

Lemma digit_char_plain d : (0 <= d < 10)%Z → digit_char d ≠ dash ∧ digit_char d ≠ "+"%char.
Proof.
  intros Hd. assert (d = 0 ∨ d = 1 ∨ d = 2 ∨ d = 3 ∨ d = 4 ∨ d = 5 ∨ d = 6 ∨ d = 7 ∨ d = 8 ∨ d = 9)%Z
    as H by lia. repeat destruct H as [->|H]; try (by split). subst. by split.
Qed.

Lemma print_nat_no_dash z : (0 <= z)%Z → dash ∉ str_elems (print_nat z).
Proof. intros Hz (d & Hd & E)%print_nat_elems; [|done]. by destruct (digit_char_plain d Hd). Qed.

Lemma ParseInt64_print z : (0 <= z < 2 ^ 63)%Z → ParseInt64 (print_nat z) = Some z.
Proof.
  intros Hz. destruct (print_nat_spec z) as [Hp Hne]; [lia|]. unfold ParseInt64.
  assert (∀ r : option Z, r = Some z →
    (x ← r; if bool_decide (in_i64 x) then Some x else None) = Some z) as Hfin.
  { intros r ->. simpl. rewrite bool_decide_true; [done|]. unfold in_i64. lia. }
  destruct (print_nat z) as [|c s] eqn:E; [done|].
  assert (∃ d, (0 <= d < 10)%Z ∧ c = digit_char d) as (d & Hd & Hc).
  { apply (print_nat_elems z); [lia|]. rewrite E. constructor. }
  apply Hfin. destruct (digit_char_plain d Hd) as [H1 H2]. rewrite <-Hc in H1, H2.
  destruct c as [[][][][][][][][]]; done.
Qed.

Lemma parse_pos_print rs which Which z :
  (0 <= z < 2 ^ 63)%Z → parse_pos rs (print_nat z) which Which = Ok z.
Proof.
  intros Hz. pose proof (ParseInt64_print z Hz) as Hp. destruct (print_nat_spec z) as [_ Hne]; [lia|].
  unfold parse_pos. destruct (print_nat z) as [|c s] eqn:E; [done|].
  assert (∃ d, (0 <= d < 10)%Z ∧ c = digit_char d) as (d & Hd & ->).
  { apply (print_nat_elems z); [lia|]. rewrite E. constructor. }
  rewrite decide_False by (apply digit_char_plain; done). rewrite Hp.
  by rewrite (proj2 (Z.ltb_ge _ _)) by lia.
Qed.

Lemma parse_pos_ok rs p which Which z :
  parse_pos rs p which Which = Ok z → z = (-1)%Z ∨ (0 <= z < 2 ^ 63)%Z.
Proof.
  unfold parse_pos. destruct p as [|c s]; [intros [= <-]; by left|]. case_decide; [done|].
  destruct (ParseInt64 (String c s)) as [x|] eqn:E; [|done].
  assert (in_i64 x) as Hx.
  { unfold ParseInt64 in E. apply bind_Some in E as (y & _ & Hy).
    case_bool_decide; [|done]. by simplify_eq. }
  destruct (Z.ltb_spec x 0); [done|]. intros [= <-]. right. unfold in_i64 in Hx. lia.
Qed.

Lemma parse_wf s h : ParseRequestRangeSpec s = Ok h → range_wf h.
Proof.
  unfold ParseRequestRangeSpec. destruct (negb _); [done|].
  destruct (SplitN2 _ dash) as [|b [|e [|]]]; try done.
  intros (zb & Hb & (ze & He & E)%obind_ok_inv)%obind_ok_inv.
  apply parse_pos_ok in Hb, He. unfold range_wf.
  destruct (Z.ltb_spec (-1) zb), (Z.ltb_spec (-1) ze); simpl in E.
  - destruct (Z.ltb_spec ze zb); simplify_eq/=. lia.
  - simplify_eq/=. lia.
  - destruct (Z.eqb_spec ze 0); simplify_eq/=. rewrite i64_small by (unfold in_i64; lia). lia.
  - done.
Qed.

(** C38: printing a well-formed range as a header and parsing it gives the range back;
    whatever header parses gives a well-formed range, and for every resource size such a
    range either is rejected (it starts past the end) or yields an offset and a length
    that stay within the resource. *)
Theorem range_roundtrip_bounds :
  (∀ h, range_wf h → ParseRequestRangeSpec (range_header h) = Ok h) ∧
  (∀ s h size, ParseRequestRangeSpec s = Ok h → (0 <= size < 2 ^ 63)%Z →
     range_wf h ∧
     ((IsSuffixLength h = false ∧ (size <= Start h)%Z ∧
         GetOffsetLength (Some h) size = Err ErrInvalidRange) ∨
      ∃ off len, GetOffsetLength (Some h) size = Ok (off, len) ∧
        (0 <= off)%Z ∧ (0 <= len)%Z ∧ (off + len <= size)%Z)).
Proof.
  split.
  - intros [suf st en] Hwf. unfold range_wf in Hwf. simpl in Hwf. unfold ParseRequestRangeSpec, range_header.
    simpl IsSuffixLength. cbn [Start End_]. rewrite HasPrefix_app, TrimPrefix_app. simpl negb. cbv iota.
    destruct suf.
    + destruct Hwf as [Hs ->]. change ("-" +:+ print_nat (- st)) with ("" +:+ String dash (print_nat (- st))).
      rewrite SplitN2_app by apply not_elem_of_nil. rewrite parse_pos_print by lia. simpl.
      rewrite (proj2 (Z.ltb_lt (-1) (- st))) by lia. rewrite (proj2 (Z.eqb_neq _ _)) by lia.
      rewrite i64_small by (unfold in_i64; lia). do 2 f_equal. lia.
    + destruct Hwf as [Hs He].
      change (print_nat st +:+ "-" +:+ ?x) with (print_nat st +:+ String dash x).
      rewrite SplitN2_app by (apply print_nat_no_dash; lia). rewrite parse_pos_print by lia. simpl obind.
      cbv beta. destruct (Z.eqb_spec en (-1)) as [->|Hne].
      * simpl. by rewrite (proj2 (Z.ltb_lt (-1) st)) by lia.
      * destruct He as [?|He]; [done|]. rewrite parse_pos_print by lia. simpl.
        rewrite (proj2 (Z.ltb_lt (-1) st)), (proj2 (Z.ltb_lt (-1) en)) by lia. simpl.
        by rewrite (proj2 (Z.ltb_ge en st)) by lia.
  - intros s h size Hp Hsize. apply parse_wf in Hp. split; [done|].
    unfold GetOffsetLength, GetLength. rewrite (proj2 (Z.ltb_ge size 0)) by lia.
    unfold range_wf in Hp. destruct h as [suf st en]. simpl in *. destruct suf.
    + right. rewrite !i64_small by (unfold in_i64; lia). simpl.
      destruct (Z.ltb_spec size (- st)), (Z.ltb_spec (size + st) 0); eexists _, _;
        (split; [done|]); lia.
    + destruct (Z.leb_spec size st) as [Hle|Hlt]; [by left|]. right.
      destruct (Z.ltb_spec (-1) en) as [Hen|Hen].
      * simpl. destruct (Z.leb_spec size en); rewrite i64_small by (unfold in_i64; lia);
          eexists _, _; (split; [done|]); lia.
      * rewrite (proj2 (Z.eqb_eq en (-1))) by lia. simpl. rewrite i64_small by (unfold in_i64; lia).
        eexists _, _. split; [done|]. lia.
Qed.

Lemma range_roundtrip_bounds_witness :
  ParseRequestRangeSpec "bytes=10-99" = Ok (mkRange false 10 99) ∧
  ParseRequestRangeSpec "bytes=-30" = Ok (mkRange true (-30) (-1)).
Proof.
  split.
  - apply (proj1 range_roundtrip_bounds (mkRange false 10 99)). unfold range_wf; simpl; lia.
  - apply (proj1 range_roundtrip_bounds (mkRange true (-30) (-1))). unfold range_wf; simpl; lia.
Defined.
