(* ===== verification/Dcmi.v ===== *)
(** * The Ascend device manager

    [gpu/atlas/dcmi/dcmi.go], [gpu/atlas/common/utils.go] and the parts of
    [gpu/atlas/AtlasInfo.go] and [gpu/atlas/dsmi] that read device data.

    The vendor libraries [libdcmi.so] and [libdrvdsmi.so] are parameters: a record of
    optional symbols over a driver state, each taking its arguments and returning a
    code, the contents of its out-parameters and the next driver state. Nothing is
    assumed of the values they return; the conversions of the Go code ([i32], [u32],
    ...) are applied to them. A [float32] is an IEEE single of [SpecFloat]; the C type
    [char] is signed (amd64). *)

From Stdlib Require Import Floats.SpecFloat.
From S2P Require Import Prelude GoStrings.

(** ** Constants and checks of package common *)

Definition Success : Z := 0.
Definition RetError : Z := -1.
Definition UnRetError : Z := 4294967295.
Definition Percent : Z := 100.
Definition MaxErrorCodeCount : Z := 128.
Definition HiAIMaxCardID : Z := 2147483647.
Definition HiAIMaxCardNum : Z := 64.
Definition HiAIMaxDeviceNum : Z := 4.
Definition NpuType : Z := 0.
Definition AICore : Z := 2.
Definition DefaultTemperatureWhenQueryFailed : Z := -275.
Definition FUNCTION_NOT_FOUND : Z := -99998.
Definition SO_NOT_FOUND : Z := -99999.
Definition ERROR_UNKNOWN : Z := -99997.
Definition dcmiMaxVdevNum : Z := 32.
Definition dcmiVDevResNameLen : nat := 16.
Definition maxChipNameLen : nat := 32.
Definition productTypeLen : nat := 64.
Definition templateNameLen : nat := 32.
Definition MainCmdVDevMng : Z := 52.
Definition VmngSubCmdGetVDevResource : Z := 0.
Definition VmngSubCmdGetTotalResource : Z := 1.
Definition VmngSubCmdGetFreeResource : Z := 2.

Definition IsGreaterThanOrEqualInt32 (num : Z) : bool := (2147483647 <=? num)%Z.

Definition IsValidUtilizationRate (num : Z) : bool :=
  negb ((Percent <? num)%Z || (num <? 0)%Z).

Definition IsValidCardID (cardID : Z) : bool :=
  (0 <=? cardID)%Z && (cardID <? HiAIMaxCardID)%Z.

Definition IsValidDeviceID (deviceID : Z) : bool :=
  (0 <=? deviceID)%Z && (deviceID <? HiAIMaxDeviceNum)%Z.

Definition IsValidLogicIDOrPhyID (id : Z) : bool :=
  (0 <=? id)%Z && (id <? HiAIMaxCardNum * HiAIMaxDeviceNum)%Z.

Definition IsValidCardIDAndDeviceID (cardID deviceID : Z) : bool :=
  if IsValidCardID cardID then IsValidDeviceID deviceID else false.

Definition IsValidDevNumInCard (num : Z) : bool :=
  (0 <? num)%Z && (num <=? HiAIMaxDeviceNum)%Z.

Definition Ascend310 : string := "Ascend310".
Definition Ascend310P : string := "Ascend310P".
Definition Ascend910 : string := "Ascend910".

Definition GetDeviceTypeByChipName (chipName : string) : string :=
  if Contains chipName "310P" then Ascend310P
  else if Contains chipName "310" then Ascend310
  else if Contains chipName "910" then Ascend910
  else "".

Definition get910TemplateNameList : list string :=
  ["vir16"; "vir08"; "vir04"; "vir02"; "vir01"].

Definition get310PTemplateNameList : list string :=
  ["vir04"; "vir02"; "vir01"; "vir04_3c"; "vir02_1c"; "vir04_4c_dvpp"; "vir04_3c_ndvpp"].

Definition IsValidTemplateName (devType templateName : string) : bool :=
  if decide (devType = Ascend310P) then bool_decide (templateName ∈ get310PTemplateNameList)
  else if decide (devType = Ascend910) then bool_decide (templateName ∈ get910TemplateNameList)
  else false.

(** ** float32 *)

Definition float32 : Type := spec_float.
Definition f32_of_int (z : Z) : float32 := binary_normalize 24 128 z 0 false.
Definition f32_mul (a b : float32) : float32 := SFmul 24 128 a b.
Definition f32_neg (a : float32) : bool := SFltb a (S754_zero false).
Definition ReduceOnePercent : float32 := S754_finite false 10737418 (-30).
Definition ReduceTenth : float32 := S754_finite false 13421773 (-27).

(** ** Data *)

Record MemoryInfo := { MemorySize : Z; MemoryAvailable : Z; Frequency : Z; Utilization : Z }.

Record HbmInfo := { hbm_MemorySize : Z; hbm_Frequency : Z; hbm_Usage : Z; hbm_Temp : Z;
                    hbm_BandWidthUtilRate : Z }.

Record ChipInfo := { chip_Type : string; chip_Name : string; chip_Version : string }.

Record CgoCreateVDevOut := { out_VDevID : Z; out_PcieBus : Z; out_PcieDevice : Z;
                             out_PcieFunc : Z; out_VfgID : Z }.

Record CgoCreateVDevRes := { res_VDevID : Z; res_VfgID : Z; res_TemplateName : string }.

Record CgoBaseResource := { base_Token : Z; base_TokenMax : Z; base_TaskTimeout : Z;
                            base_VfgID : Z; base_VipMode : Z }.

Record CgoComputingResource := {
  Aic : float32; Aiv : float32;
  Dsa : Z; Rtsq : Z; Acsq : Z; Cdqm : Z; CCore : Z; Ffts : Z; Sdma : Z; PcieDma : Z;
  comp_MemorySize : Z;
  EventID : Z; NotifyID : Z; StreamID : Z; ModelID : Z;
  TopicScheduleAicpu : Z; HostCtrlCPU : Z; HostAicpu : Z; DeviceAicpu : Z;
  TopicCtrlCPUSlot : Z
}.

Record CgoMediaResource := { Jpegd : float32; Jpege : float32; Vpc : float32;
                             Vdec : float32; Pngd : float32; Venc : float32 }.

Record CgoVDevQueryInfo := {
  q_Name : string; q_Status : Z; q_IsContainerUsed : Z; q_Vfid : Z; q_VfgID : Z;
  q_ContainerID : Z; q_Base : CgoBaseResource; q_Computing : CgoComputingResource;
  q_Media : CgoMediaResource
}.

Record CgoVDevQueryStru := { vq_VDevID : Z; vq_QueryInfo : CgoVDevQueryInfo }.

Record CgoSocFreeResource := {
  free_VfgNum : Z; free_VfgBitmap : Z; free_Base : CgoBaseResource;
  free_Computing : CgoComputingResource; free_Media : CgoMediaResource
}.

Record CgoSocTotalResource := {
  total_VDevNum : Z; total_VDevID : list Z; total_VfgNum : Z; total_VfgBitmap : Z;
  total_Base : CgoBaseResource; total_Computing : CgoComputingResource;
  total_Media : CgoMediaResource
}.

Record VirtualDevInfo := {
  TotalResource : CgoSocTotalResource; FreeResource : CgoSocFreeResource;
  VDevInfo : list CgoVDevQueryStru
}.

(** The C structs the library fills; a [char] array is the list of its bytes. *)
Module C.

Record base_resource := { token : Z; token_max : Z; task_timeout : Z; vfg_id : Z; vip_mode : Z }.

Record computing_resource := {
  aic : float32; aiv : float32;
  dsa : Z; rtsq : Z; acsq : Z; cdqm : Z; c_core : Z; ffts : Z; sdma : Z; pcie_dma : Z;
  memory_size : Z;
  event_id : Z; notify_id : Z; stream_id : Z; model_id : Z;
  topic_schedule_aicpu : Z; host_ctrl_cpu : Z; host_aicpu : Z; device_aicpu : Z;
  topic_ctrl_cpu_slot : Z
}.

Record media_resource := { jpegd : float32; jpege : float32; vpc : float32; vdec : float32;
                           pngd : float32; venc : float32 }.

Record create_vdev_out := { vdev_id : Z; pcie_bus : Z; pcie_device : Z; pcie_func : Z;
                            out_vfg_id : Z }.

Record create_vdev_res := { in_vdev_id : Z; in_vfg_id : Z; template_name : bytes }.

Record vdev_query_info := {
  name : bytes; status : Z; is_container_used : Z; vfid : Z; q_vfg_id : Z;
  container_id : Z; q_base : base_resource; q_computing : computing_resource;
  q_media : media_resource
}.

Record vdev_query_stru := { q_vdev_id : Z; query_info : vdev_query_info }.

Record soc_free_resource := {
  f_vfg_num : Z; f_vfg_bitmap : Z; f_base : base_resource;
  f_computing : computing_resource; f_media : media_resource
}.

Record soc_total_resource := {
  vdev_num : Z; vdev_ids : list Z; vfg_num : Z; vfg_bitmap : Z; t_base : base_resource;
  t_computing : computing_resource; t_media : media_resource
}.

Record memory_info := { m_memory_size : Z; memory_available : Z; freq : Z; utiliza : Z }.

Record hbm_info := { h_memory_size : Z; h_freq : Z; memory_usage : Z; temp : Z;
                     bandwith_util_rate : Z }.

Record chip_info := { chip_type : bytes; chip_name : bytes; chip_ver : bytes }.


End C.

(** ** The library and the runtime state *)

(** A symbol found by [dlsym], or a NULL pointer. [dcmi_get_device_info] writes through
    a [void] pointer: it is listed once for each struct it is called with
    ([dcmi_get_vdev_info], [dcmi_get_total_info], [dcmi_get_free_info]). *)
Definition CFun (D A B : Type) : Type := option (A → D → Z * B * D).

Record DcmiLib (D : Type) := {
  dlopen_ok : D → bool;
  dlclose_ret : D → Z;
  dcmi_init : CFun D unit unit;
  dcmi_get_card_list : CFun D Z (Z * list Z);
  dcmi_get_device_num_in_card : CFun D Z Z;
  dcmi_get_device_logic_id : CFun D (Z * Z) Z;
  dcmi_create_vdevice : CFun D (Z * Z * C.create_vdev_res) C.create_vdev_out;
  dcmi_set_destroy_vdevice : CFun D (Z * Z * Z) unit;
  dcmi_get_vdev_info : CFun D (Z * Z * Z * Z * C.vdev_query_stru) C.vdev_query_stru;
  dcmi_get_total_info : CFun D (Z * Z * Z * Z) C.soc_total_resource;
  dcmi_get_free_info : CFun D (Z * Z * Z * Z) C.soc_free_resource;
  dcmi_get_device_type : CFun D (Z * Z) Z;
  dcmi_get_device_health : CFun D (Z * Z) Z;
  dcmi_get_device_utilization_rate : CFun D (Z * Z * Z) Z;
  dcmi_get_device_temperature : CFun D (Z * Z) Z;
  dcmi_get_device_voltage : CFun D (Z * Z) Z;
  dcmi_get_device_power_info : CFun D (Z * Z) Z;
  dcmi_get_device_frequency : CFun D (Z * Z * Z) Z;
  dcmi_get_device_memory_info_v3 : CFun D (Z * Z) C.memory_info;
  dcmi_get_device_hbm_info : CFun D (Z * Z) C.hbm_info;
  dcmi_get_device_errorcode_v2 : CFun D (Z * Z * Z) (Z * list Z);
  dcmi_get_device_chip_info : CFun D (Z * Z) C.chip_info;
  dcmi_get_device_phyid_from_logicid : CFun D Z Z;
  dcmi_get_device_logicid_from_phyid : CFun D Z Z;
  dcmi_get_device_ip : CFun D (Z * Z * Z * Z) bytes;
  dcmi_get_device_network_health : CFun D (Z * Z) Z;
  dcmi_get_card_id_device_id_from_logicid : CFun D Z (Z * Z);
  dcmi_mcu_get_power_info : CFun D Z Z;
  dcmi_get_product_type : CFun D (Z * Z * Z) bytes
}.

(** The function pointers of the binding: NULL before the first [dlsym], then those of the
    open library; after [dlclose] they are not reset and point to code that may be gone. *)
Inductive pointers := PNull | PLoaded | PDangling.

(** The C globals of the binding: whether [dcmiHandle] is non-NULL, the function pointers;
    whether the process has called through a dangling pointer (which is undefined, commonly
    a fault that no [recover] sees: what follows means nothing); and the state behind the
    library. *)
Record Rt (D : Type) := { dcmiHandle : bool; symbols : pointers; crashed : bool; drv : D }.
Arguments dcmiHandle {D} _.
Arguments symbols {D} _.
Arguments crashed {D} _.
Arguments drv {D} _.

Section Manager.
Context {D : Type} (lib : DcmiLib D).

(** A call of the manager: an outcome and the next runtime state. *)
Definition DC (A : Type) : Type := Rt D → outcome A * Rt D.

Definition ret {A} (a : A) : DC A := λ s, (Ok a, s).
Definition fail {A} (m : string) : DC A := λ s, (Err m, s).
Definition panic {A} : DC A := λ s, (Panic, s).

Definition dbind {A B} (m : DC A) (k : A → DC B) : DC B :=
  λ s, match m s with
       | (Ok a, s') => k a s'
       | (Err e, s') => (Err e, s')
       | (Panic, s') => (Panic, s')
       end.

(** [err != nil] turned into another error message. *)
Definition wrap_err {A} (m : DC A) (msg : string) : DC A :=
  λ s, match m s with (Err _, s') => (Err msg, s') | r => r end.

(** [v, _ := f()]: the value that comes with the error is [d]. *)
Definition or_value {A} (m : DC A) (d : A) : DC A :=
  λ s, match m s with (Err _, s') => (Ok d, s') | r => r end.

Notation "'dc' x := m 'in' k" := (dbind m (λ x, k))
  (at level 10, x pattern, m at level 200, k at level 200).

(** The guard of a function: its error unless the condition holds. *)
Definition check (b : bool) (msg : string) : DC unit :=
  if b then ret tt else fail msg.

(** The C wrapper of a symbol: FUNCTION_NOT_FOUND, and the out-parameters left as they
    were, when the pointer is NULL. *)
Definition CALL_FUNC {A B} (f : CFun D A B) (out0 : B) (a : A) (s : Rt D) : Z * B * Rt D :=
  match symbols s, f with
  | PNull, _ | _, None => (FUNCTION_NOT_FOUND, out0, s)
  | PLoaded, Some g =>
      let '(rc, b, d) := g a (drv s) in
      (rc, b, {| dcmiHandle := dcmiHandle s; symbols := symbols s; crashed := crashed s; drv := d |})
  | PDangling, Some _ =>
      (FUNCTION_NOT_FOUND, out0,
       {| dcmiHandle := dcmiHandle s; symbols := symbols s; crashed := true; drv := drv s |})
  end.

(** [if retCode := C.f(...); int32(retCode) != Success { return error }]. *)
Definition query {A B} (f : CFun D A B) (out0 : B) (a : A) (msg : string) : DC B :=
  λ s, let '(rc, b, s') := CALL_FUNC f out0 a s in
       if (i32 rc =? Success)%Z then (Ok b, s') else (Err msg, s').

(** ** Loading *)

(** The path is never NULL: it is the C copy of a constant. *)
Definition dcmiInit_dl (s : Rt D) : Z * Rt D :=
  if dlopen_ok _ lib (drv s)
  then (Success, {| dcmiHandle := true; symbols := PLoaded; crashed := crashed s; drv := drv s |})
  else (SO_NOT_FOUND, {| dcmiHandle := false; symbols := symbols s; crashed := crashed s; drv := drv s |}).

(** Neither the handle nor the function pointers are reset. *)
Definition dcmiShutDown (s : Rt D) : Z * Rt D :=
  if dcmiHandle s
  then (if (dlclose_ret _ lib (drv s) =? 0)%Z
        then (Success, {| dcmiHandle := true;
                          symbols := match symbols s with PNull => PNull | _ => PDangling end;
                          crashed := crashed s; drv := drv s |})
        else (ERROR_UNKNOWN, s))
  else (Success, s).

Definition DcInit : DC unit :=
  λ s, let (rc, s1) := dcmiInit_dl s in
       if (rc =? Success)%Z
       then query (dcmi_init _ lib) tt tt "dcmi init failed" s1
       else (Err "dcmi lib load failed", s1).

Definition DcShutDown : DC unit :=
  λ s, let (rc, s1) := dcmiShutDown s in
       if (rc =? Success)%Z then (Ok tt, s1) else (Err "dcmi shut down failed", s1).

(** ** Cards and devices *)

(** A C array of [n] elements after the library wrote [w] to it. *)
Definition c_array (n : nat) (w : list Z) : list Z := take n (w ++ replicate n 0%Z).

(** The loop of [DcGetCardList]: negative identifiers are logged and skipped. *)
Fixpoint card_loop (ids : list Z) : list Z :=
  match ids with
  | [] => []
  | id :: ids' =>
      if (i32 id <? 0)%Z then card_loop ids' else i32 id :: card_loop ids'
  end.

Definition DcGetCardList : DC (Z * list Z) :=
  dc (cNum, w) := query (dcmi_get_card_list _ lib) (0%Z, []) HiAIMaxCardNum
                        "get card list failed" in
  if (i32 cNum <=? 0)%Z || (HiAIMaxCardNum <? i32 cNum)%Z
  then fail "get error card quantity"
  else ret (i32 cNum, card_loop (take (Z.to_nat (i32 cNum)) (c_array 64 w))).

Definition DcGetDeviceNumInCard (cardID : Z) : DC Z :=
  dc _ := check (IsValidCardID cardID) "cardID is invalid" in
  dc deviceNum := query (dcmi_get_device_num_in_card _ lib) 0%Z cardID
                        "get device count on the card failed" in
  if IsValidDevNumInCard (i32 deviceNum) then ret (i32 deviceNum)
  else fail "get error device quantity".

Definition DcGetDeviceLogicID (cardID deviceID : Z) : DC Z :=
  dc _ := check (IsValidCardIDAndDeviceID cardID deviceID) "cardID or deviceID is invalid" in
  dc logicID := query (dcmi_get_device_logic_id _ lib) 0%Z (cardID, deviceID)
                      "failed to get logicID by cardID and deviceID" in
  if IsValidLogicIDOrPhyID (i32 logicID) then ret (i32 logicID)
  else fail "get invalid logicID".

(** The inner loop of [DcGetLogicIDList]: [n] devices left, [devID] the next. *)
Fixpoint logic_loop (n : nat) (cardID devID : Z) (ids : list Z) : DC (list Z) :=
  match n with
  | O => ret ids
  | S n' =>
      dc id := wrap_err (DcGetDeviceLogicID cardID devID) "get device logic id failed" in
      logic_loop n' cardID (devID + 1) (ids ++ [id])
  end.

Fixpoint logic_cards (cards : list Z) (totalNum : Z) (ids : list Z) : DC (Z * list Z) :=
  match cards with
  | [] => ret (totalNum, ids)
  | cardID :: cards' =>
      dc devNumInCard := wrap_err (DcGetDeviceNumInCard cardID)
                                  "get device num by cardID failed" in
      let totalNum := i32 (totalNum + devNumInCard) in
      if (HiAIMaxDeviceNum * HiAIMaxCardNum <? totalNum)%Z
      then fail "get device num greater than the maximum"
      else
        dc ids' := logic_loop (Z.to_nat devNumInCard) cardID 0%Z ids in
        logic_cards cards' totalNum ids'
  end.

Definition DcGetLogicIDList : DC (Z * list Z) :=
  dc (_, cardList) := wrap_err DcGetCardList "get card list failed" in
  logic_cards cardList 0%Z [].

Definition DcGetDeviceCount : DC Z :=
  dc (devNum, _) := wrap_err DcGetLogicIDList "get device count failed" in
  ret devNum.

Definition DcGetCardIDDeviceID (logicID : Z) : DC (Z * Z) :=
  dc _ := check (IsValidLogicIDOrPhyID logicID) "input invalid logicID" in
  dc (cardID, deviceID) :=
    query (dcmi_get_card_id_device_id_from_logicid _ lib) (0%Z, 0%Z) (u32 logicID)
          "failed to get card id and device id by logicID" in
  if IsValidCardIDAndDeviceID (i32 cardID) (i32 deviceID)
  then ret (i32 cardID, i32 deviceID)
  else fail "failed to get card id and device id".

Definition DcGetPhysicIDFromLogicID (logicID : Z) : DC Z :=
  dc _ := check (IsValidLogicIDOrPhyID logicID) "logicID is invalid" in
  dc physicID := query (dcmi_get_device_phyid_from_logicid _ lib) 0%Z (u32 logicID)
                       "get physic id from logicID failed" in
  if IsValidLogicIDOrPhyID (i32 physicID) then ret (i32 physicID)
  else fail "get wrong physicID from logicID".

Definition DcGetLogicIDFromPhysicID (physicID : Z) : DC Z :=
  dc _ := check (IsValidLogicIDOrPhyID physicID) "physicID is invalid" in
  dc logicID := query (dcmi_get_device_logicid_from_phyid _ lib) 0%Z (u32 physicID)
                      "get logicID from physicID failed" in
  if IsValidLogicIDOrPhyID (i32 logicID) then ret (i32 logicID)
  else fail "get wrong logicID from physicID".

(** ** Virtual devices *)

Definition DcSetDestroyVirtualDevice (cardID deviceID vDevID : Z) : DC unit :=
  dc _ := check (IsValidCardIDAndDeviceID cardID deviceID) "cardID or deviceID is invalid" in
  query (dcmi_set_destroy_vdevice _ lib) tt (cardID, deviceID, u32 vDevID)
        "destroy virtual device failed".

Definition convertCreateVDevOut (c : C.create_vdev_out) : CgoCreateVDevOut :=
  {| out_VDevID := u32 (C.vdev_id c); out_PcieBus := u32 (C.pcie_bus c);
     out_PcieDevice := u32 (C.pcie_device c); out_PcieFunc := u32 (C.pcie_func c);
     out_VfgID := u32 (C.out_vfg_id c) |}.

Definition create_vdev_out0 : C.create_vdev_out :=
  {| C.vdev_id := 0; C.pcie_bus := 0; C.pcie_device := 0; C.pcie_func := 0;
     C.out_vfg_id := 0 |}.

(** The 32-byte array of the template name: the name, then zero bytes. *)
Definition cTemplateName (name : string) : bytes :=
  take templateNameLen (str_elems name ++ replicate templateNameLen "000"%char).

Definition DcCreateVirtualDevice (cardID deviceID : Z) (vDevInfo : CgoCreateVDevRes) :
    DC CgoCreateVDevOut :=
  dc _ := check (IsValidCardIDAndDeviceID cardID deviceID) "cardID or deviceID is invalid" in
  dc _ := check (String.length (res_TemplateName vDevInfo) <=? templateNameLen)
                "the length of template name exceeds the upper limit" in
  let deviceCreateStr :=
    {| C.in_vdev_id := u32 (res_VDevID vDevInfo); C.in_vfg_id := u32 (res_VfgID vDevInfo);
       C.template_name := cTemplateName (res_TemplateName vDevInfo) |} in
  dc out := query (dcmi_create_vdevice _ lib) create_vdev_out0
                  (cardID, deviceID, deviceCreateStr) "create vdevice failed" in
  ret (convertCreateVDevOut out).

(** [string([]rune{rune(v)})] of a signed [char]: a negative value is not a code point
    and prints as U+FFFD. *)
Definition rune_string (v : ascii) : string :=
  if (byte_val v <? 128)%Z then String v ""
  else String "239" (String "191" (String "189" "")).

Fixpoint convertToString (cgoArr : bytes) : string :=
  match cgoArr with
  | [] => ""
  | v :: rest => if (byte_val v =? 0)%Z then "" else rune_string v +:+ convertToString rest
  end.

Definition convertBaseResource (c : C.base_resource) : CgoBaseResource :=
  {| base_Token := u64 (C.token c); base_TokenMax := u64 (C.token_max c);
     base_TaskTimeout := u64 (C.task_timeout c); base_VfgID := u32 (C.vfg_id c);
     base_VipMode := u8 (C.vip_mode c) |}.

Definition convertComputingResource (c : C.computing_resource) : CgoComputingResource :=
  {| Aic := C.aic c; Aiv := C.aiv c; Dsa := u16 (C.dsa c); Rtsq := u16 (C.rtsq c);
     Acsq := u16 (C.acsq c); Cdqm := u16 (C.cdqm c); CCore := u16 (C.c_core c);
     Ffts := u16 (C.ffts c); Sdma := u16 (C.sdma c); PcieDma := u16 (C.pcie_dma c);
     comp_MemorySize := u64 (C.memory_size c); EventID := u32 (C.event_id c);
     NotifyID := u32 (C.notify_id c); StreamID := u32 (C.stream_id c);
     ModelID := u32 (C.model_id c); TopicScheduleAicpu := u16 (C.topic_schedule_aicpu c);
     HostCtrlCPU := u16 (C.host_ctrl_cpu c); HostAicpu := u16 (C.host_aicpu c);
     DeviceAicpu := u16 (C.device_aicpu c);
     TopicCtrlCPUSlot := u16 (C.topic_ctrl_cpu_slot c) |}.

Definition convertMediaResource (c : C.media_resource) : CgoMediaResource :=
  {| Jpegd := C.jpegd c; Jpege := C.jpege c; Vpc := C.vpc c; Vdec := C.vdec c;
     Pngd := C.pngd c; Venc := C.venc c |}.

Definition convertVDevQueryInfo (c : C.vdev_query_info) : CgoVDevQueryInfo :=
  {| q_Name := convertToString (take dcmiVDevResNameLen (C.name c));
     q_Status := u32 (C.status c); q_IsContainerUsed := u32 (C.is_container_used c);
     q_Vfid := u32 (C.vfid c); q_VfgID := u32 (C.q_vfg_id c);
     q_ContainerID := u64 (C.container_id c); q_Base := convertBaseResource (C.q_base c);
     q_Computing := convertComputingResource (C.q_computing c);
     q_Media := convertMediaResource (C.q_media c) |}.

Definition convertVDevQueryStru (c : C.vdev_query_stru) : CgoVDevQueryStru :=
  {| vq_VDevID := u32 (C.q_vdev_id c); vq_QueryInfo := convertVDevQueryInfo (C.query_info c) |}.

Definition f32_zero : float32 := S754_zero false.
Definition base0 : C.base_resource :=
  {| C.token := 0; C.token_max := 0; C.task_timeout := 0; C.vfg_id := 0; C.vip_mode := 0 |}.
Definition computing0 : C.computing_resource :=
  {| C.aic := f32_zero; C.aiv := f32_zero; C.dsa := 0; C.rtsq := 0; C.acsq := 0; C.cdqm := 0;
     C.c_core := 0; C.ffts := 0; C.sdma := 0; C.pcie_dma := 0; C.memory_size := 0;
     C.event_id := 0; C.notify_id := 0; C.stream_id := 0; C.model_id := 0;
     C.topic_schedule_aicpu := 0; C.host_ctrl_cpu := 0; C.host_aicpu := 0;
     C.device_aicpu := 0; C.topic_ctrl_cpu_slot := 0 |}.
Definition media0 : C.media_resource :=
  {| C.jpegd := f32_zero; C.jpege := f32_zero; C.vpc := f32_zero; C.vdec := f32_zero;
     C.pngd := f32_zero; C.venc := f32_zero |}.
Definition query0 (vDevID : Z) : C.vdev_query_stru :=
  {| C.q_vdev_id := u32 vDevID;
     C.query_info := {| C.name := []; C.status := 0; C.is_container_used := 0; C.vfid := 0;
                        C.q_vfg_id := 0; C.container_id := 0; C.q_base := base0;
                        C.q_computing := computing0; C.q_media := media0 |} |}.
Definition total0 : C.soc_total_resource :=
  {| C.vdev_num := 0; C.vdev_ids := []; C.vfg_num := 0; C.vfg_bitmap := 0; C.t_base := base0;
     C.t_computing := computing0; C.t_media := media0 |}.
Definition free0 : C.soc_free_resource :=
  {| C.f_vfg_num := 0; C.f_vfg_bitmap := 0; C.f_base := base0; C.f_computing := computing0;
     C.f_media := media0 |}.

Definition DcGetDeviceVDevResource (cardID deviceID vDevID : Z) : DC CgoVDevQueryStru :=
  dc _ := check (IsValidCardIDAndDeviceID cardID deviceID) "cardID or deviceID is invalid" in
  dc r := query (dcmi_get_vdev_info _ lib) (query0 vDevID)
                (cardID, deviceID, MainCmdVDevMng, VmngSubCmdGetVDevResource, query0 vDevID)
                "get device info failed" in
  ret (convertVDevQueryStru r).

Definition convertSocTotalResource (c : C.soc_total_resource) : CgoSocTotalResource :=
  {| total_VDevNum := u32 (C.vdev_num c);
     total_VDevID := u32 <$> take (Z.to_nat (Z.min (u32 (C.vdev_num c)) dcmiMaxVdevNum))
                                  (c_array 32 (C.vdev_ids c));
     total_VfgNum := u32 (C.vfg_num c); total_VfgBitmap := u32 (C.vfg_bitmap c);
     total_Base := convertBaseResource (C.t_base c);
     total_Computing := convertComputingResource (C.t_computing c);
     total_Media := convertMediaResource (C.t_media c) |}.

Definition DcGetDeviceTotalResource (cardID deviceID : Z) : DC CgoSocTotalResource :=
  dc _ := check (IsValidCardIDAndDeviceID cardID deviceID) "cardID or deviceID is invalid" in
  dc r := query (dcmi_get_total_info _ lib) total0
                (cardID, deviceID, MainCmdVDevMng, VmngSubCmdGetTotalResource)
                "get device info failed" in
  dc _ := check (u32 (C.vdev_num r) <=? dcmiMaxVdevNum)%Z "get error virtual quantity" in
  ret (convertSocTotalResource r).

Definition convertSocFreeResource (c : C.soc_free_resource) : CgoSocFreeResource :=
  {| free_VfgNum := u32 (C.f_vfg_num c); free_VfgBitmap := u32 (C.f_vfg_bitmap c);
     free_Base := convertBaseResource (C.f_base c);
     free_Computing := convertComputingResource (C.f_computing c);
     free_Media := convertMediaResource (C.f_media c) |}.

Definition DcGetDeviceFreeResource (cardID deviceID : Z) : DC CgoSocFreeResource :=
  dc _ := check (IsValidCardIDAndDeviceID cardID deviceID) "cardID or deviceID is invalid" in
  dc r := query (dcmi_get_free_info _ lib) free0
                (cardID, deviceID, MainCmdVDevMng, VmngSubCmdGetFreeResource)
                "get device info failed" in
  ret (convertSocFreeResource r).

(** The loop of [DcVGetDeviceInfo] over the virtual devices. *)
Fixpoint vdev_loop (cardID deviceID : Z) (vs : list Z) (acc : list CgoVDevQueryStru) :
    DC (list CgoVDevQueryStru) :=
  match vs with
  | [] => ret acc
  | v :: vs' =>
      dc q := wrap_err (DcGetDeviceVDevResource cardID deviceID v)
                       "get device virtual resource failed" in
      vdev_loop cardID deviceID vs' (acc ++ [q])
  end.

Definition DcVGetDeviceInfo (cardID deviceID : Z) : DC VirtualDevInfo :=
  dc _ := check (IsValidCardIDAndDeviceID cardID deviceID) "cardID or deviceID is invalid" in
  dc unitType := query (dcmi_get_device_type _ lib) 0%Z (cardID, deviceID)
                       "get device type failed" in
  dc _ := check (i32 unitType =? NpuType)%Z "not support unit type" in
  dc total := wrap_err (DcGetDeviceTotalResource cardID deviceID)
                       "get device total resource failed" in
  dc free := wrap_err (DcGetDeviceFreeResource cardID deviceID)
                      "get device free resource failed" in
  dc vs := vdev_loop cardID deviceID (total_VDevID total) [] in
  ret {| TotalResource := total; FreeResource := free; VDevInfo := vs |}.

Definition DcCreateVDevice (logicID : Z) (vDevInfo : CgoCreateVDevRes) : DC CgoCreateVDevOut :=
  dc _ := check (IsValidLogicIDOrPhyID logicID) "input invalid logicID" in
  dc (cardID, deviceID) := wrap_err (DcGetCardIDDeviceID logicID)
                                    "get card id and device id failed" in
  wrap_err (DcCreateVirtualDevice cardID deviceID vDevInfo) "create virtual device failed".

Definition DcGetVDeviceInfo (logicID : Z) : DC VirtualDevInfo :=
  dc _ := check (IsValidLogicIDOrPhyID logicID) "input invalid logicID" in
  dc (cardID, deviceID) := wrap_err (DcGetCardIDDeviceID logicID)
                                    "get card id and device id failed" in
  wrap_err (DcVGetDeviceInfo cardID deviceID) "get virtual device info failed".

Definition DcDestroyVDevice (logicID vDevID : Z) : DC unit :=
  dc _ := check (IsValidLogicIDOrPhyID logicID) "input invalid logicID" in
  dc (cardID, deviceID) := wrap_err (DcGetCardIDDeviceID logicID)
                                    "get card id and device id failed" in
  wrap_err (DcSetDestroyVirtualDevice cardID deviceID vDevID) "destroy virtual device failed".

(** ** Measurements *)

Definition DcGetDeviceVoltage (cardID deviceID : Z) : DC float32 :=
  dc _ := check (IsValidCardIDAndDeviceID cardID deviceID) "cardID or deviceID is invalid" in
  dc vol := query (dcmi_get_device_voltage _ lib) 0%Z (cardID, deviceID)
                  "failed to obtain the voltage" in
  if IsGreaterThanOrEqualInt32 (u32 vol) then fail "voltage value out of range(max is int32)"
  else ret (f32_mul (f32_of_int (u32 vol)) ReduceOnePercent).

Definition DcGetDevicePowerInfo (cardID deviceID : Z) : DC float32 :=
  dc _ := check (IsValidCardIDAndDeviceID cardID deviceID) "cardID or deviceID is invalid" in
  dc cpower := query (dcmi_get_device_power_info _ lib) 0%Z (cardID, deviceID)
                     "failed to obtain the power" in
  let parsedPower := f32_of_int (i32 cpower) in
  if f32_neg parsedPower then fail "get wrong device power"
  else ret (f32_mul parsedPower ReduceTenth).

Definition DcGetDeviceFrequency (cardID deviceID devType : Z) : DC Z :=
  dc _ := check (IsValidCardIDAndDeviceID cardID deviceID) "cardID or deviceID is invalid" in
  dc cFrequency := query (dcmi_get_device_frequency _ lib) 0%Z (cardID, deviceID, devType)
                         "failed to obtain the frequency" in
  if IsGreaterThanOrEqualInt32 (u32 cFrequency)
  then fail "frequency value out of range(max is int32)"
  else ret (i32 (u32 cFrequency)).

Definition memory_info0 : C.memory_info :=
  {| C.m_memory_size := 0; C.memory_available := 0; C.freq := 0; C.utiliza := 0 |}.

Definition DcGetMemoryInfo (cardID deviceID : Z) : DC MemoryInfo :=
  dc _ := check (IsValidCardIDAndDeviceID cardID deviceID) "cardID or deviceID is invalid" in
  dc m := query (dcmi_get_device_memory_info_v3 _ lib) memory_info0 (cardID, deviceID)
                "failed to obtain the memory info by v3 interface" in
  if (u64 (C.m_memory_size m) <? u64 (C.memory_available m))%Z
  then fail "total memory is less than available memory"
  else ret {| MemorySize := u64 (C.m_memory_size m);
              MemoryAvailable := u64 (C.memory_available m);
              Frequency := u32 (C.freq m); Utilization := u32 (C.utiliza m) |}.

Definition hbm_info0 : C.hbm_info :=
  {| C.h_memory_size := 0; C.h_freq := 0; C.memory_usage := 0; C.temp := 0;
     C.bandwith_util_rate := 0 |}.

Definition FuncDcmiGetDeviceHbmInfo (cardID deviceID : Z) : DC HbmInfo :=
  dc _ := check (IsValidCardIDAndDeviceID cardID deviceID) "cardID or deviceID is invalid" in
  dc h := query (dcmi_get_device_hbm_info _ lib) hbm_info0 (cardID, deviceID)
                "failed to obtain the hbm info" in
  let hbmTemp := i32 (C.temp h) in
  if (hbmTemp <? 0)%Z then fail "get wrong device HBM temporary"
  else ret {| hbm_MemorySize := u64 (C.h_memory_size h); hbm_Frequency := u32 (C.h_freq h);
              hbm_Usage := u64 (C.memory_usage h); hbm_Temp := hbmTemp;
              hbm_BandWidthUtilRate := u32 (C.bandwith_util_rate h) |}.

Definition DcGetHbmInfo (cardID deviceID : Z) : DC HbmInfo :=
  ret {| hbm_MemorySize := 0; hbm_Frequency := 0; hbm_Usage := 0; hbm_Temp := 0;
         hbm_BandWidthUtilRate := 0 |}.

Definition DcGetDeviceErrorCode (cardID deviceID : Z) : DC (Z * Z) :=
  dc _ := check (IsValidCardIDAndDeviceID cardID deviceID) "cardID or deviceID is invalid" in
  dc (errCount, codes) :=
    query (dcmi_get_device_errorcode_v2 _ lib) (0%Z, []) (cardID, deviceID, MaxErrorCodeCount)
          "failed to obtain the device errorcode" in
  if (i32 errCount <? 0)%Z || (MaxErrorCodeCount <? i32 errCount)%Z
  then fail "get wrong errorcode count"
  else ret (i32 errCount, i64 (u32 (nth 0 (c_array 128 codes) 0%Z))).

Definition DcGetDeviceHealth (cardID deviceID : Z) : DC Z :=
  dc _ := check (IsValidCardIDAndDeviceID cardID deviceID) "cardID or deviceID is invalid" in
  dc health := query (dcmi_get_device_health _ lib) 0%Z (cardID, deviceID)
                     "get device health state failed" in
  if IsGreaterThanOrEqualInt32 (u32 health) then fail "get wrong health state"
  else ret (i32 (u32 health)).

Definition DcGetDeviceUtilizationRate (cardID deviceID devType : Z) : DC Z :=
  dc _ := check (IsValidCardIDAndDeviceID cardID deviceID) "cardID or deviceID is invalid" in
  dc rate := query (dcmi_get_device_utilization_rate _ lib) 0%Z (cardID, deviceID, devType)
                   "get device utilization rate failed" in
  if IsValidUtilizationRate (u32 rate) then ret (i32 (u32 rate))
  else fail "get wrong device utilization rate".

Definition DcGetDeviceTemperature (cardID deviceID : Z) : DC Z :=
  dc _ := check (IsValidCardIDAndDeviceID cardID deviceID) "cardID or deviceID is invalid" in
  dc temp := query (dcmi_get_device_temperature _ lib) 0%Z (cardID, deviceID)
                   "get device temperature failed" in
  if (i32 temp <? DefaultTemperatureWhenQueryFailed)%Z then fail "get wrong device temperature"
  else ret (i32 temp).

Fixpoint convertUCharToCharArr (cgoArr : bytes) : bytes :=
  match cgoArr with
  | [] => []
  | v :: rest => if (byte_val v =? 0)%Z then [] else v :: convertUCharToCharArr rest
  end.

Definition IsValidChipInfo (chip : ChipInfo) : bool :=
  bool_decide (chip_Name chip ≠ "") || bool_decide (chip_Type chip ≠ "")
  || bool_decide (chip_Version chip ≠ "").

Definition chip_info0 : C.chip_info :=
  {| C.chip_type := []; C.chip_name := []; C.chip_ver := [] |}.

Definition DcGetChipInfo (cardID deviceID : Z) : DC ChipInfo :=
  dc _ := check (IsValidCardIDAndDeviceID cardID deviceID) "cardID or deviceID is invalid" in
  dc c := query (dcmi_get_device_chip_info _ lib) chip_info0 (cardID, deviceID)
                "get device ChipInfo information failed" in
  let str l := string_of_list_ascii (convertUCharToCharArr (take maxChipNameLen l)) in
  let chip := {| chip_Name := str (C.chip_name c); chip_Type := str (C.chip_type c);
                 chip_Version := str (C.chip_ver c) |} in
  if IsValidChipInfo chip then ret chip
  else fail "get device ChipInfo information failed, chip info is empty".

(** [net.ParseIP] on a dotted text and its [String]: four decimal fields without
    leading zeros, each at most 255. *)
Definition parse_octet (s : string) : option Z :=
  if HasPrefix s "0" && negb (bool_decide (s = "0")) then None
  else match parse_nat s with
       | Some z => if (z <=? 255)%Z then Some z else None
       | None => None
       end.

Definition ParseIPv4 (s : string) : option string :=
  match mapM parse_octet (Split s "."%char) with
  | Some [a; b; c; d] => Some (Join (Itoa <$> [a; b; c; d]) ".")
  | _ => None
  end.

Definition DcGetDeviceIPAddress (cardID deviceID : Z) : DC string :=
  dc _ := check (IsValidCardIDAndDeviceID cardID deviceID) "cardID or deviceID is invalid" in
  dc addr := query (dcmi_get_device_ip _ lib) [] (cardID, deviceID, 1%Z, 0%Z)
                   "get device IP address failed" in
  let deviceIP := Itoa ∘ byte_val <$> take 4 (addr ++ replicate 4 "000"%char) in
  match ParseIPv4 (Join deviceIP ".") with
  | None => fail "the device IP address is invalid"
  | Some ip => ret ip
  end.

Definition DcGetDeviceNetWorkHealth (cardID deviceID : Z) : DC Z :=
  dc _ := check (IsValidCardIDAndDeviceID cardID deviceID) "cardID or deviceID is invalid" in
  dc healthCode := query (dcmi_get_device_network_health _ lib) 0%Z (cardID, deviceID)
                         "get device network healthCode failed" in
  if (i32 healthCode <? 0)%Z || (127 <? i32 healthCode)%Z
  then fail "get wrong device network healthCode"
  else ret (u32 healthCode).

Definition FuncDcmiMcuGetPowerInfo (cardID : Z) : DC float32 :=
  dc power := query (dcmi_mcu_get_power_info _ lib) 0%Z cardID "mcu_get_power_info failed" in
  let parsedPower := f32_of_int (i32 power) in
  if f32_neg parsedPower then fail "get wrong mcu_get_power_info"
  else ret (f32_mul parsedPower ReduceTenth).

Definition DcGetMcuPowerInfo (cardID : Z) : DC float32 := ret f32_zero.

Definition DcGetProductType (cardID deviceID : Z) : DC string :=
  dc buf := query (dcmi_get_product_type _ lib) [] (cardID, deviceID, Z.of_nat productTypeLen)
                  "get product type failed" in
  ret (string_of_list_ascii (convertUCharToCharArr (take productTypeLen buf))).

(** ** AtlasInfo *)

Record InfoObj := { Total : Z; Used : Z; GpuType : string; Model : string; GpuUtil : Z;
                    MemUtil : Z }.

(** The body of the device loop: a device whose memory query fails is skipped without
    advancing [index]; a failed chip query leaves a nil pointer that [info.Name]
    dereferences. *)
Definition device_step (carIndex deviceId : Z) (st : gmap string InfoObj * Z) :
    DC (gmap string InfoObj * Z) :=
  λ s, match DcGetMemoryInfo carIndex deviceId s with
  | (Ok memoryInfo, s1) =>
      (dc coreRate := or_value (DcGetDeviceUtilizationRate carIndex deviceId AICore) RetError in
       dc info := (λ s2, match DcGetChipInfo carIndex deviceId s2 with
                         | (Err _, s3) => (Panic, s3)
                         | r => r
                         end) in
       let obj :=
         {| Total := u64 (MemorySize memoryInfo * (1000 * 1000));
            Used := u64 (u64 (MemorySize memoryInfo - MemoryAvailable memoryInfo)
                         * (1000 * 1000));
            GpuType := "NPU"; Model := chip_Name info; GpuUtil := u32 coreRate;
            MemUtil := Utilization memoryInfo |} in
       ret (<[Itoa (st.2) := obj]> (st.1), i64 (st.2 + 1))) s1
  | (Err _, s1) => (Ok st, s1)
  | (Panic, s1) => (Panic, s1)
  end.

(** [n] devices of the card left, [deviceId] the next. *)
Fixpoint device_loop (n : nat) (carIndex deviceId : Z) (st : gmap string InfoObj * Z) :
    DC (gmap string InfoObj * Z) :=
  match n with
  | O => ret st
  | S n' => dc st' := device_step carIndex deviceId st in
            device_loop n' carIndex (deviceId + 1) st'
  end.

Fixpoint card_infos (cards : list Z) (st : gmap string InfoObj * Z) :
    DC (gmap string InfoObj * Z) :=
  match cards with
  | [] => ret st
  | carIndex :: cards' =>
      dc deviceIdMax := or_value (DcGetDeviceNumInCard carIndex) RetError in
      dc st' := device_loop (Z.to_nat deviceIdMax) carIndex 0%Z st in
      card_infos cards' st'
  end.

Definition InfoAll_dcmi_body : DC (gmap string InfoObj) :=
  dc _ := or_value DcInit tt in
  dc deviceCount := DcGetDeviceCount in
  if (0 <? deviceCount)%Z then
    dc (_, carList) := or_value DcGetCardList (RetError, []) in
    dc (res, _) := card_infos carList (∅, 0%Z) in
    ret res
  else ret ∅.

(** [InfoAll] on a [dcmi] executor: the deferred [DcShutDown] runs on every path, and the
    deferred recover turns a panic into the zero results, a nil map and a nil error. *)
Definition InfoAll_dcmi : DC (gmap string InfoObj) :=
  λ s, let (r, s1) := InfoAll_dcmi_body s in
       let s2 := (DcShutDown s1).2 in
       match r with
       | Panic => (Ok ∅, s2)
       | _ => (r, s2)
       end.

(** [Info] of some indices: the entries of [InfoAll] that are asked for. *)
Definition Info (indexs : list string) : DC (gmap string InfoObj) :=
  dc all := InfoAll_dcmi in
  ret (filter (λ kv : string * InfoObj, kv.1 ∈ indexs) all).

End Manager.

(** [ContainerDevices]: [inspect] is what the Docker client answers, the container's
    environment or an error. *)
Fixpoint visible_devices (env : list string) : outcome (list string) :=
  match env with
  | [] => Ok []
  | v :: env' =>
      if Contains v "ASCEND_VISIBLE_DEVICES" then
        match Split v "="%char with
        | _ :: e1 :: _ => Ok (Split e1 ","%char)
        | _ => Panic
        end
      else visible_devices env'
  end.

Definition ContainerDevices (inspect : option (list string)) : outcome (list string) :=
  match inspect with
  | None => Ok []
  | Some env => visible_devices env
  end.

(** ** The older dsmi library *)

Record DsmiLib := {
  dsmi_open_host : bool; dsmi_open : bool; dsmi_close_ret : Z;
  dsmi_get_device_count : Z * Z;
  dsmi_list_device : Z → Z * list Z;
  dsmi_get_memory_info : Z → Z * (Z * Z);
  dsmi_get_device_utilization_rate : Z → Z → Z * Z;
  dsmi_get_chip_info : Z → bytes * bytes
}.

Record AtlasInfo := { a_Total : Z; a_Used : Z; a_CoreRate : Z; a_ChipType : string;
                      a_ChipName : string }.

Section Dsmi.
Context (lib : DsmiLib).

Definition dsmi_Init : outcome Z :=
  if dsmi_open_host lib then Ok 0%Z else if dsmi_open lib then Ok 0%Z else Panic.

Definition dsmi_Shutdown : outcome Z :=
  if (dsmi_close_ret lib =? 0)%Z then Ok 0%Z else Panic.

(** One device: the memory query decides whether it is recorded; the results of the other
    two calls are used whatever they return. *)
Definition atlas_info (v : Z) : option AtlasInfo :=
  let (ret, mem) := dsmi_get_memory_info lib v in
  if (ret =? 0)%Z then
    let (memory_size, utiliza) := mem in
    let s := Z.quot (i64 (i64 (i64 (u32 utiliza) * i64 (u64 memory_size)) * (1000 * 1000))) 100 in
    let (chip_type, chip_name) := dsmi_get_chip_info lib v in
    Some {| a_Total := u64 (u64 memory_size * (1000 * 1000)); a_Used := u64 s;
            a_CoreRate := u32 (dsmi_get_device_utilization_rate lib v 2).2;
            a_ChipName := string_of_list_ascii (convertUCharToCharArr chip_name);
            a_ChipType := string_of_list_ascii (convertUCharToCharArr chip_type) |}
  else None.

Definition device_info_step (infos : gmap Z AtlasInfo) (v : Z) : gmap Z AtlasInfo :=
  match atlas_info v with
  | Some info => <[v := info]> infos
  | None => infos
  end.

(** The map and the error, as the function returns both; [None] is a panic: with no
    device, [&deviceList[0]] is out of range. *)
Definition AllDeviceInfo : option (gmap Z AtlasInfo * option string) :=
  let (ret, count) := dsmi_get_device_count lib in
  if (ret =? 0)%Z then
    let n := Z.to_nat (u32 count) in
    if decide (n = 0) then None
    else
      let (ret, ids) := dsmi_list_device lib (i32 (u32 count)) in
      if (ret =? 0)%Z
      then Some (foldl device_info_step ∅ (i32 <$> c_array n ids), None)
      else Some (∅, Some "dsmi_list_device error")
  else Some (∅, Some "device count=0").

(** The body of [InfoAll] on a [dsmi] executor. *)
Definition InfoAll_dsmi_body : outcome (gmap string InfoObj) :=
  let! _ := dsmi_Init in
  match AllDeviceInfo with
  | None => Panic
  | Some (allInfo, Some _) =>
      ofold (λ res (kv : Z * AtlasInfo),
               let (k, a) := kv in
               if (a_Total a =? 0)%Z then Panic
               else Ok (<[Itoa k := {| Total := a_Total a; Used := a_Used a;
                                       GpuType := ""; Model := ""; GpuUtil := a_CoreRate a;
                                       MemUtil := u32 (a_Used a / a_Total a) |}]> res))
            (∅ : gmap string InfoObj) (map_to_list allInfo)
  | Some (_, None) => Ok ∅
  end.

(** With the deferred [Shutdown] (which may panic in turn) and recover. *)
Definition InfoAll_dsmi : outcome (gmap string InfoObj) :=
  match InfoAll_dsmi_body with
  | Ok res => if is_ok dsmi_Shutdown then Ok res else Ok ∅
  | Err e => Err e
  | Panic => Ok ∅
  end.

End Dsmi.

(** ** Lemmas *)

Section ManagerLemmas.
Context {D : Type} (lib : DcmiLib D).
Implicit Types (s : Rt D).

Lemma dbind_ok_inv {A B} (m : DC A) (k : A → @DC D B) s b s' :
  dbind m k s = (Ok b, s') → ∃ a s1, m s = (Ok a, s1) ∧ k a s1 = (Ok b, s').
Proof. unfold dbind. destruct (m s) as [[a|e|] s1]; intros; simplify_eq; eauto. Qed.

Lemma wrap_err_ok_inv {A} (m : @DC D A) msg s a s' :
  wrap_err m msg s = (Ok a, s') → m s = (Ok a, s').
Proof. unfold wrap_err. by destruct (m s) as [[?|?|] ?]. Qed.

Lemma or_value_ok_inv {A} (m : @DC D A) d s a s' :
  or_value m d s = (Ok a, s') → m s = (Ok a, s') ∨ a = d.
Proof. unfold or_value. destruct (m s) as [[?|?|] ?]; intros; simplify_eq; auto. Qed.

Lemma check_ok_inv b msg s u s' : check b msg s = (Ok u, s') → b = true ∧ s' = s.
Proof. destruct b; cbv; intros; by simplify_eq. Qed.

Lemma DcGetDeviceNumInCard_range cardID s n s' :
  DcGetDeviceNumInCard lib cardID s = (Ok n, s') → (1 <= n <= 4)%Z.
Proof.
  intros (_ & s1 & _ & (d & s2 & _ & H)%dbind_ok_inv)%dbind_ok_inv.
  unfold IsValidDevNumInCard, HiAIMaxDeviceNum in H. case_match eqn:E; [|done].
  injection H as <- _. lia.
Qed.

Lemma DcGetDeviceLogicID_range cardID deviceID s id s' :
  DcGetDeviceLogicID lib cardID deviceID s = (Ok id, s') → (0 <= id < 256)%Z.
Proof.
  intros (_ & s1 & _ & (d & s2 & _ & H)%dbind_ok_inv)%dbind_ok_inv.
  unfold IsValidLogicIDOrPhyID, HiAIMaxCardNum, HiAIMaxDeviceNum in H.
  case_match eqn:E; [|done]. injection H as <- _. lia.
Qed.

Lemma card_loop_spec ids :
  Forall (λ c, 0 <= c)%Z (card_loop ids) ∧ length (card_loop ids) ≤ length ids.
Proof.
  induction ids as [|id ids [IH1 IH2]]; simpl; [split; auto|].
  case_match; simpl; split; try lia; auto. constructor; [lia|done].
Qed.

Lemma DcGetCardList_spec s n l s' :
  DcGetCardList lib s = (Ok (n, l), s') →
  (1 <= n <= 64)%Z ∧ (Z.of_nat (length l) <= n)%Z ∧ Forall (λ c, 0 <= c)%Z l.
Proof.
  intros ([cNum w] & s1 & _ & H)%dbind_ok_inv. unfold HiAIMaxCardNum in H.
  case_match eqn:E; [done|]. injection H as <- <- _.
  destruct (card_loop_spec (take (Z.to_nat (i32 cNum)) (c_array 64 w))) as [H1 H2].
  rewrite length_take in H2. split; [lia|]. split; [lia|done].
Qed.

Lemma logic_loop_spec n cardID devID ids s ids' s' :
  logic_loop lib n cardID devID ids s = (Ok ids', s') →
  Forall (λ i, 0 <= i < 256)%Z ids →
  length ids' = length ids + n ∧ Forall (λ i, 0 <= i < 256)%Z ids'.
Proof.
  revert devID ids s. induction n as [|n IH]; intros devID ids s H Hids; simpl in H.
  { injection H as <- _. split; [lia|done]. }
  apply dbind_ok_inv in H as (id & s1 & H1%wrap_err_ok_inv & H2).
  apply DcGetDeviceLogicID_range in H1.
  apply IH in H2 as [Hl Hf]; [|apply Forall_app; auto].
  rewrite length_app in Hl. simpl in Hl. split; [lia|done].
Qed.

Lemma logic_cards_spec cards n ids s n' ids' s' :
  logic_cards lib cards n ids s = (Ok (n', ids'), s') →
  (0 <= n <= 256)%Z → Z.of_nat (length ids) = n → Forall (λ i, 0 <= i < 256)%Z ids →
  (0 <= n' <= 256)%Z ∧ Z.of_nat (length ids') = n' ∧ Forall (λ i, 0 <= i < 256)%Z ids'.
Proof.
  revert n ids s. induction cards as [|c cards IH]; intros n ids s H Hn Hl Hf; simpl in H.
  { injection H as <- <- _. auto. }
  apply dbind_ok_inv in H as (d & s1 & H1%wrap_err_ok_inv & H2).
  apply DcGetDeviceNumInCard_range in H1.
  rewrite i32_small in H2 by (unfold in_i32; lia).
  unfold HiAIMaxDeviceNum, HiAIMaxCardNum in H2. case_match eqn:E; [done|].
  apply dbind_ok_inv in H2 as (ids1 & s2 & H3 & H4).
  apply logic_loop_spec in H3 as [Hl1 Hf1]; [|done].
  eapply IH; [exact H4|lia|lia|done].
Qed.

End ManagerLemmas.

(** ** Freedom from panics *)

Definition no_panic {D A} (m : @DC D A) : Prop := ∀ s, (m s).1 ≠ Panic.

Lemma no_panic_ret {D A} (a : A) : no_panic (D := D) (ret a).
Proof. by intros s. Qed.

Lemma no_panic_fail {D A} msg : no_panic (D := D) (A := A) (fail msg).
Proof. by intros s. Qed.

Lemma no_panic_check {D} b msg : no_panic (D := D) (check b msg).
Proof. intros s. by destruct b. Qed.

Lemma no_panic_query {D A B} (f : CFun D A B) o a msg : no_panic (query f o a msg).
Proof.
  intros s. unfold query. destruct (CALL_FUNC f o a s) as [[rc b] s']. by case_match.
Qed.

Lemma no_panic_dbind {D A B} (m : @DC D A) (k : A → @DC D B) :
  no_panic m → (∀ a, no_panic (k a)) → no_panic (dbind m k).
Proof.
  intros Hm Hk s. specialize (Hm s). unfold dbind.
  destruct (m s) as [[a|e|] s1]; simpl in *; [apply Hk|done|done].
Qed.

Lemma no_panic_wrap {D A} (m : @DC D A) msg : no_panic m → no_panic (wrap_err m msg).
Proof.
  intros Hm s. specialize (Hm s). unfold wrap_err. by destruct (m s) as [[a|e|] s1].
Qed.

Create HintDb dcmi.
#[export] Hint Resolve no_panic_ret no_panic_fail no_panic_check no_panic_query
  no_panic_wrap : dcmi.

Ltac no_panic_tac :=
  repeat match goal with
  | |- no_panic (dbind _ _) => apply no_panic_dbind; [|intros ?]
  | |- no_panic (wrap_err _ _) => apply no_panic_wrap
  | |- no_panic (let '(_, _) := ?p in _) => destruct p
  | |- no_panic (if ?b then _ else _) => destruct b
  | |- no_panic (match ?x with _ => _ end) => destruct x
  end; auto with dcmi.

Lemma no_panic_DcGetDeviceNumInCard {D} (lib : DcmiLib D) c :
  no_panic (DcGetDeviceNumInCard lib c).
Proof. unfold DcGetDeviceNumInCard. no_panic_tac. Qed.

Lemma no_panic_DcGetDeviceLogicID {D} (lib : DcmiLib D) c d :
  no_panic (DcGetDeviceLogicID lib c d).
Proof. unfold DcGetDeviceLogicID. no_panic_tac. Qed.

Lemma no_panic_DcGetCardList {D} (lib : DcmiLib D) : no_panic (DcGetCardList lib).
Proof. unfold DcGetCardList. no_panic_tac. Qed.
#[export] Hint Resolve no_panic_DcGetDeviceNumInCard no_panic_DcGetDeviceLogicID
  no_panic_DcGetCardList : dcmi.

Lemma no_panic_logic_loop {D} (lib : DcmiLib D) n c d ids :
  no_panic (logic_loop lib n c d ids).
Proof. revert d ids. induction n; intros; simpl; no_panic_tac. Qed.
#[export] Hint Resolve no_panic_logic_loop : dcmi.

Lemma no_panic_logic_cards {D} (lib : DcmiLib D) cards n ids :
  no_panic (logic_cards lib cards n ids).
Proof. revert n ids. induction cards; intros; simpl; no_panic_tac. Qed.
#[export] Hint Resolve no_panic_logic_cards : dcmi.

Lemma no_panic_DcGetLogicIDList {D} (lib : DcmiLib D) : no_panic (DcGetLogicIDList lib).
Proof. unfold DcGetLogicIDList. no_panic_tac. Qed.

(** ** The table of devices *)

Section Table.
Context {D : Type} (lib : DcmiLib D).

(** The entry of a device is what the library says of it, the memory being asked for in the
    state [s]: total and used size, the latter the non-negative difference with the
    available memory, both scaled to bytes; the utilisation of the memory and of the core,
    or the converted error value exactly when that query failed; the name of the chip. *)
Definition reports (c d : Z) (s : Rt D) (obj : InfoObj) : Prop :=
  ∃ mem s1 rate s2 chip s3,
    query (dcmi_get_device_memory_info_v3 _ lib) memory_info0 (c, d)
      "failed to obtain the memory info by v3 interface" s = (Ok mem, s1) ∧
    DcGetDeviceUtilizationRate lib c d AICore s1 = (rate, s2) ∧
    DcGetChipInfo lib c d s2 = (Ok chip, s3) ∧
    let size := u64 (C.m_memory_size mem) in
    let avail := u64 (C.memory_available mem) in
    (avail <= size)%Z ∧ Total obj = u64 (size * 1000000) ∧ Used obj = u64 ((size - avail) * 1000000) ∧
    MemUtil obj = u32 (C.utiliza mem) ∧ GpuType obj = "NPU" ∧ Model obj = chip_Name chip ∧
    match rate with
    | Ok r => GpuUtil obj = r ∧ (0 <= r <= 100)%Z
    | Err _ => GpuUtil obj = UnRetError
    | Panic => False
    end.

(** The table has one entry for each of the devices [ds], a card and a number on it, under
    its decimal index in that list, and no other. *)
Definition table_ok (m : gmap string InfoObj) (ds : list (Z * Z)) : Prop :=
  (∀ key, is_Some (m !! key) ↔ ∃ i, (0 <= i < Z.of_nat (length ds))%Z ∧ key = Itoa i) ∧
  ∀ i c d, ds !! i = Some (c, d) → ∃ obj s, m !! Itoa (Z.of_nat i) = Some obj ∧ reports c d s obj.

Lemma table_ok_empty : table_ok ∅ [].
Proof.
  split; [|done]. intros key. rewrite lookup_empty. split.
  - by intros [? ?].
  - intros (i & Hi & _). simpl in Hi. lia.
Qed.

Lemma table_ok_insert m ds c d s obj :
  table_ok m ds → reports c d s obj → table_ok (<[Itoa (Z.of_nat (length ds)) := obj]> m) (ds ++ [(c, d)]).
Proof.
  intros [H1 H2] Ho. rewrite <-(Nat2Z.id (length ds)) at 1. split.
  - intros key. rewrite lookup_insert_is_Some', H1, length_app. simpl. split.
    + intros [<-|(i & Hi & ->)]; [exists (Z.of_nat (length ds))|exists i]; (split; [lia|by rewrite ?Nat2Z.id]).
    + intros (i & Hi & ->). destruct (decide (i = Z.of_nat (length ds))) as [->|Hne]; [left; by rewrite Nat2Z.id|].
      right. exists i. split; [lia|done].
  - intros i c' d' Hi. rewrite Nat2Z.id. apply lookup_app_Some in Hi as [Hi|[Hge Hi]].
    + destruct (H2 i c' d' Hi) as (obj' & s' & Hm & Hr). exists obj', s'. split; [|done].
      apply lookup_lt_Some in Hi. rewrite lookup_insert_ne; [done|]. intros E%Itoa_inj; lia.
    + apply list_lookup_singleton_Some in Hi as [Hi [= <- <-]]. exists obj, s. split; [|done].
      replace i with (length ds) by lia. apply lookup_insert_eq.
Qed.

(** The utilisation of the core: the library's value, or the error value. *)
Lemma or_value_rate c d s rate s' :
  or_value (DcGetDeviceUtilizationRate lib c d AICore) RetError s = (Ok rate, s') →
  ∃ r, DcGetDeviceUtilizationRate lib c d AICore s = (r, s') ∧
    match r with
    | Ok r => u32 rate = r ∧ (0 <= r <= 100)%Z
    | Err _ => u32 rate = UnRetError
    | Panic => False
    end.
Proof.
  unfold or_value. destruct (DcGetDeviceUtilizationRate lib c d AICore s) as [[r|e|] s1] eqn:E; intros; simplify_eq.
  - exists (Ok rate). split; [done|].
    apply dbind_ok_inv in E as (_ & s2 & _ & (x & s3 & _ & E)%dbind_ok_inv).
    unfold IsValidUtilizationRate, Percent in E. case_match eqn:El; [|done]. injection E as <- _.
    rewrite (i32_small (u32 x)) by (unfold in_i32; lia). rewrite u32_small by apply u32_range.
    split; [done|]. pose proof (u32_range x) as Hx. unfold in_u32 in Hx. lia.
  - by exists (Err e).
Qed.

Lemma device_step_spec c d m ds s m' k' s' :
  device_step lib c d (m, Z.of_nat (length ds)) s = (Ok (m', k'), s') →
  length ds < 1000 → table_ok m ds →
  ∃ ds', k' = Z.of_nat (length ds') ∧ length ds ≤ length ds' ≤ length ds + 1 ∧ table_ok m' ds'.
Proof.
  unfold device_step. destruct (DcGetMemoryInfo lib c d s) as [[mi|e|] s1] eqn:Em;
    intros E Hk Hm; [|injection E as <- <- _; exists ds; split_and!; [done|lia|lia|done]|done].
  apply dbind_ok_inv in Em as (_ & s0 & [_ ->]%check_ok_inv & (mem & s2 & Hmem & Em)%dbind_ok_inv).
  destruct (_ <? _)%Z eqn:Ele in Em; [done|]. injection Em as <- <-.
  apply dbind_ok_inv in E as (rate & s3 & Hr & E). apply dbind_ok_inv in E as (chip & s4 & Hc & E).
  injection E as <- <- _. cbn [fst snd]. rewrite i64_small by (unfold in_i64; lia).
  exists (ds ++ [(c, d)]). rewrite length_app. simpl length. split_and!; [lia|lia|lia|].
  apply (table_ok_insert m ds c d s); [done|].
  destruct (or_value_rate c d s2 rate s3 Hr) as (r & Hrate & Hval).
  destruct (DcGetChipInfo lib c d s3) as [[chip'| |] s5] eqn:Ec; simplify_eq.
  exists mem, s2, r, s3, chip, s4. split; [done|]. split; [done|]. split; [done|]. cbn [Total Used MemUtil GpuType Model GpuUtil MemorySize MemoryAvailable Utilization].
  pose proof (u64_range (C.m_memory_size mem)) as R1. pose proof (u64_range (C.memory_available mem)) as R2.
  unfold in_u64 in R1, R2. apply Z.ltb_ge in Ele. cbv zeta.
  rewrite (u64_small (u64 (C.m_memory_size mem) - _)) by (unfold in_u64; lia). by split_and!.
Qed.

Lemma device_loop_spec n c d m ds s m' k' s' :
  device_loop lib n c d (m, Z.of_nat (length ds)) s = (Ok (m', k'), s') →
  length ds + n < 1000 → table_ok m ds →
  ∃ ds', k' = Z.of_nat (length ds') ∧ length ds ≤ length ds' ≤ length ds + n ∧ table_ok m' ds'.
Proof.
  revert d m ds s. induction n as [|n IH]; intros d m ds s E Hn Hm; cbn [device_loop] in E.
  { injection E as <- <- _. exists ds. split_and!; [done|lia|lia|done]. }
  apply dbind_ok_inv in E as ([m1 k1] & s1 & E1 & E2).
  apply device_step_spec in E1 as (ds1 & -> & Hl & Hm1); [|lia|done].
  apply IH in E2 as (ds2 & -> & Hl2 & Hm2); [|lia|done]. exists ds2. split_and!; [done|lia|lia|done].
Qed.

Lemma card_infos_spec cards m ds s m' k' s' :
  card_infos lib cards (m, Z.of_nat (length ds)) s = (Ok (m', k'), s') →
  length ds + 4 * length cards < 1000 → table_ok m ds →
  ∃ ds', k' = Z.of_nat (length ds') ∧ length ds ≤ length ds' ≤ length ds + 4 * length cards ∧ table_ok m' ds'.
Proof.
  revert m ds s. induction cards as [|c cards IH]; intros m ds s E Hn Hm; cbn [card_infos] in E.
  { injection E as <- <- _. exists ds. split_and!; [done|lia|lia|done]. }
  cbn [length] in Hn |- *.
  apply dbind_ok_inv in E as (n & s1 & E1 & E2).
  assert (n <= 4)%Z as Hn4.
  { apply or_value_ok_inv in E1 as [E1| ->]; [|unfold RetError; lia].
    apply DcGetDeviceNumInCard_range in E1. lia. }
  apply dbind_ok_inv in E2 as ([m1 k1] & s2 & E3 & E4).
  apply device_loop_spec in E3 as (ds1 & -> & Hl & Hm1); [|lia|done].
  apply IH in E4 as (ds2 & -> & Hl2 & Hm2); [|lia|done]. exists ds2. split_and!; [done|lia|lia|done].
Qed.

Lemma InfoAll_dcmi_body_spec s m s' :
  InfoAll_dcmi_body lib s = (Ok m, s') → ∃ ds, length ds ≤ 256 ∧ table_ok m ds.
Proof.
  intros (_ & s1 & _ & (n & s2 & _ & E)%dbind_ok_inv)%dbind_ok_inv.
  case_match; [|injection E as <- _; exists []; split; [simpl; lia|apply table_ok_empty]].
  apply dbind_ok_inv in E as ([n' cards] & s3 & Hc & E).
  assert (length cards ≤ 64) as Hlen.
  { apply or_value_ok_inv in Hc as [Hc|Hc]; [|by injection Hc as _ ->; simpl; lia].
    apply DcGetCardList_spec in Hc as (? & ? & _). lia. }
  apply dbind_ok_inv in E as ([m1 k1] & s4 & E1 & E2).
  apply (card_infos_spec cards ∅ []) in E1 as (ds & -> & Hl & Hm); [|simpl; lia|apply table_ok_empty].
  injection E2 as <- _. exists ds. simpl in Hl. split; [lia|done].
Qed.

End Table.

(** ** The values the Go types can hold *)

Section Typed.
Context {D : Type} (lib : DcmiLib D).

Definition typed_base (b : CgoBaseResource) : Prop :=
  in_u64 (base_Token b) ∧ in_u64 (base_TokenMax b) ∧ in_u64 (base_TaskTimeout b) ∧
  in_u32 (base_VfgID b) ∧ (0 <= base_VipMode b < 256)%Z.

Definition typed_computing (c : CgoComputingResource) : Prop :=
  Forall in_u16 [Dsa c; Rtsq c; Acsq c; Cdqm c; CCore c; Ffts c; Sdma c; PcieDma c;
                 TopicScheduleAicpu c; HostCtrlCPU c; HostAicpu c; DeviceAicpu c; TopicCtrlCPUSlot c] ∧
  Forall in_u32 [EventID c; NotifyID c; StreamID c; ModelID c] ∧ in_u64 (comp_MemorySize c).

Definition typed_query (q : CgoVDevQueryStru) : Prop :=
  let i := vq_QueryInfo q in
  Forall in_u32 [vq_VDevID q; q_Status i; q_IsContainerUsed i; q_Vfid i; q_VfgID i] ∧
  in_u64 (q_ContainerID i) ∧ typed_base (q_Base i) ∧ typed_computing (q_Computing i).

(** The numbers are within their types, at most 32 virtual devices are counted, and there is
    one identifier and one description for each of them. *)
Definition typed_virtual (v : VirtualDevInfo) : Prop :=
  let t := TotalResource v in let f := FreeResource v in
  (0 <= total_VDevNum t <= 32)%Z ∧
  length (total_VDevID t) = Z.to_nat (total_VDevNum t) ∧ length (VDevInfo v) = length (total_VDevID t) ∧
  Forall in_u32 (total_VDevID t) ∧ Forall typed_query (VDevInfo v) ∧
  Forall in_u32 [total_VfgNum t; total_VfgBitmap t; free_VfgNum f; free_VfgBitmap f] ∧
  typed_base (total_Base t) ∧ typed_computing (total_Computing t) ∧
  typed_base (free_Base f) ∧ typed_computing (free_Computing f).

Lemma typed_convertBase c : typed_base (convertBaseResource c).
Proof. repeat split; try apply u64_range; try apply u32_range; cbn; unfold u8; apply Z.mod_pos_bound; lia. Qed.

Lemma typed_convertComputing c : typed_computing (convertComputingResource c).
Proof.
  split; [|split; [|apply u64_range]]; repeat (apply Forall_cons; split; [apply u16_range || apply u32_range|]);
    apply Forall_nil; exact I.
Qed.

Lemma typed_convertQuery c : typed_query (convertVDevQueryStru c).
Proof.
  split; [|split; [apply u64_range|split; [apply typed_convertBase|apply typed_convertComputing]]].
  repeat (apply Forall_cons; split; [apply u32_range|]). apply Forall_nil; exact I.
Qed.

Lemma vdev_loop_typed card dev vs acc s qs s' :
  vdev_loop lib card dev vs acc s = (Ok qs, s') → Forall typed_query acc →
  length qs = length acc + length vs ∧ Forall typed_query qs.
Proof.
  revert acc s. induction vs as [|v vs IH]; intros acc s E Hacc; cbn [vdev_loop] in E.
  { injection E as <- _. by rewrite Nat.add_0_r. }
  apply dbind_ok_inv in E as (q & s1 & Hq%wrap_err_ok_inv & E).
  assert (typed_query q) as Htq.
  { unfold DcGetDeviceVDevResource in Hq. apply dbind_ok_inv in Hq as (_ & s2 & _ & Hq).
    apply dbind_ok_inv in Hq as (r & s3 & _ & Hq). injection Hq as <- _. apply typed_convertQuery. }
  apply IH in E as [Hl Hf]; [|by apply Forall_app; split; [|apply Forall_singleton]].
  rewrite length_app in Hl. cbn [length] in *. split; [lia|done].
Qed.

Lemma DcGetDeviceTotalResource_typed card dev s t s' :
  DcGetDeviceTotalResource lib card dev s = (Ok t, s') →
  (0 <= total_VDevNum t <= 32)%Z ∧ length (total_VDevID t) = Z.to_nat (total_VDevNum t) ∧
  Forall in_u32 (total_VDevID t) ∧ in_u32 (total_VfgNum t) ∧ in_u32 (total_VfgBitmap t) ∧
  typed_base (total_Base t) ∧ typed_computing (total_Computing t).
Proof.
  unfold DcGetDeviceTotalResource. intros E.
  apply dbind_ok_inv in E as (_ & s1 & _ & E). apply dbind_ok_inv in E as (r & s2 & _ & E).
  apply dbind_ok_inv in E as (_ & s3 & [Hmax _]%check_ok_inv & E). injection E as <- _.
  apply Z.leb_le in Hmax. pose proof (u32_range (C.vdev_num r)) as Hr. unfold in_u32, dcmiMaxVdevNum in *.
  cbn [convertSocTotalResource total_VDevNum total_VDevID total_VfgNum total_VfgBitmap total_Base total_Computing].
  split; [lia|]. split.
  { rewrite length_fmap, length_take. unfold c_array. rewrite length_take, length_app, length_replicate.
    unfold dcmiMaxVdevNum. lia. }
  split; [apply Forall_fmap, Forall_true; intros; apply u32_range|].
  split; [apply u32_range|]. split; [apply u32_range|].
  split; [apply typed_convertBase|apply typed_convertComputing].
Qed.

(** C39. Whatever the vendor library writes, what [DcGetVDeviceInfo] returns is well formed:
    every number is within the Go type of its field, at most 32 virtual devices are counted,
    and the result has exactly one identifier and one description for each of them. *)
Theorem DcGetVDeviceInfo_typed logicID s v s' :
  DcGetVDeviceInfo lib logicID s = (Ok v, s') → IsValidLogicIDOrPhyID logicID = true ∧ typed_virtual v.
Proof.
  unfold DcGetVDeviceInfo. intros E. apply dbind_ok_inv in E as (_ & s1 & [Hid _]%check_ok_inv & E).
  split; [done|]. apply dbind_ok_inv in E as ([card dev] & s2 & _ & E%wrap_err_ok_inv).
  unfold DcVGetDeviceInfo in E. apply dbind_ok_inv in E as (_ & s3 & _ & E).
  apply dbind_ok_inv in E as (ut & s4 & _ & E). apply dbind_ok_inv in E as (_ & s5 & _ & E).
  apply dbind_ok_inv in E as (t & s6 & Ht%wrap_err_ok_inv & E).
  apply dbind_ok_inv in E as (f & s7 & Hf%wrap_err_ok_inv & E).
  apply dbind_ok_inv in E as (qs & s8 & Hqs & E). injection E as <- _.
  apply DcGetDeviceTotalResource_typed in Ht as (Hn & Hl & Hids & Hg & Hb & Htb & Htc).
  apply vdev_loop_typed in Hqs as [Hlq Hq]; [|by apply Forall_nil].
  unfold DcGetDeviceFreeResource in Hf. apply dbind_ok_inv in Hf as (_ & s9 & _ & Hf).
  apply dbind_ok_inv in Hf as (r & s10 & _ & Hf). injection Hf as <- _.
  unfold typed_virtual. cbn [TotalResource FreeResource VDevInfo]. split; [done|]. split; [done|]. split; [done|].
  split; [done|]. split; [done|].
  split; [repeat (apply Forall_cons; split; [done || apply u32_range|]); by apply Forall_nil|].
  split; [done|]. split; [done|]. split; [apply typed_convertBase|apply typed_convertComputing].
Qed.

End Typed.

(** ** Properties *)

(** [DcGetLogicIDList] never panics, whatever the vendor library returns; and when it
    succeeds, it reports at most 64 * 4 devices, the list has exactly the reported number
    of identifiers, and each of them is a valid logic identifier, below 256. *)
Theorem DcGetLogicIDList_spec {D} (lib : DcmiLib D) (s : Rt D) :
  (DcGetLogicIDList lib s).1 ≠ Panic ∧
  ∀ n ids s', DcGetLogicIDList lib s = (Ok (n, ids), s') →
    (0 <= n <= 256)%Z ∧ Z.of_nat (length ids) = n ∧
    Forall (λ id, IsValidLogicIDOrPhyID id = true) ids.
Proof.
  split; [apply no_panic_DcGetLogicIDList|]. intros n ids s' H.
  apply dbind_ok_inv in H as ([c cards] & s1 & _ & H).
  apply logic_cards_spec in H as (H1 & H2 & H3); [|lia|done|done].
  split; [done|]. split; [done|]. eapply Forall_impl; [exact H3|].
  intros id Hid. unfold IsValidLogicIDOrPhyID, HiAIMaxCardNum, HiAIMaxDeviceNum. cbv beta in Hid. lia.
Qed.


(** The table is asked for again when the library can no longer be opened: the pointers of
    the first time are called. *)
Lemma InfoAll_dangling {D} (lib : DcmiLib D) (s : Rt D) f :
  symbols s = PDangling → dlopen_ok _ lib (drv s) = false → dcmi_get_card_list _ lib = Some f →
  crashed (InfoAll_dcmi lib s).2 = true.
Proof.
  intros Hs Ho Hf. destruct s as [hd sy cr dv]. simpl in Hs, Ho. subst sy.
  assert (DcInit lib {| dcmiHandle := hd; symbols := PDangling; crashed := cr; drv := dv |} =
    (Err "dcmi lib load failed", {| dcmiHandle := false; symbols := PDangling; crashed := cr; drv := dv |})) as Hi.
  { unfold DcInit, dcmiInit_dl. cbn [drv]. by rewrite Ho. }
  unfold InfoAll_dcmi, InfoAll_dcmi_body. unfold dbind at 1. unfold or_value at 1. rewrite Hi.
  unfold DcGetDeviceCount, DcGetLogicIDList, DcGetCardList, wrap_err, dbind, query, CALL_FUNC. rewrite Hf. done.
Qed.

(** A driver with one card of two devices; [broken] is a device whose memory query
    fails, if any. *)
Definition demo_lib (broken : option Z) : DcmiLib unit :=
  let const {A B} (b : B) : CFun unit A B := Some (λ _ d, (0%Z, b, d)) in
  {| dlopen_ok := λ _, true; dlclose_ret := λ _, 0%Z;
     dcmi_init := const tt;
     dcmi_get_card_list := const (1%Z, [3%Z]);
     dcmi_get_device_num_in_card := const 2%Z;
     dcmi_get_device_logic_id := Some (λ cd d, (0%Z, (cd.2 + 6)%Z, d));
     dcmi_create_vdevice := const create_vdev_out0;
     dcmi_set_destroy_vdevice := const tt;
     dcmi_get_vdev_info := const (query0 0);
     dcmi_get_total_info :=
       const {| C.vdev_num := 2; C.vdev_ids := [100; 101]%Z; C.vfg_num := 1; C.vfg_bitmap := 1;
                C.t_base := base0; C.t_computing := computing0; C.t_media := media0 |};
     dcmi_get_free_info := const free0;
     dcmi_get_device_type := const 0%Z;
     dcmi_get_device_health := const 0%Z;
     dcmi_get_device_utilization_rate := const 37%Z;
     dcmi_get_device_temperature := const 40%Z;
     dcmi_get_device_voltage := const 80%Z;
     dcmi_get_device_power_info := const 82%Z;
     dcmi_get_device_frequency := const 900%Z;
     dcmi_get_device_memory_info_v3 :=
       Some (λ cd d, ((if decide (Some (cd.2) = broken) then -1 else 0)%Z,
                      {| C.m_memory_size := 16000 + cd.2; C.memory_available := 4000;
                         C.freq := 1600; C.utiliza := 75 |}, d));
     dcmi_get_device_hbm_info := const hbm_info0;
     dcmi_get_device_errorcode_v2 := const (0%Z, []);
     dcmi_get_device_chip_info :=
       const {| C.chip_type := str_elems "Ascend"; C.chip_name := str_elems "310P3";
                C.chip_ver := str_elems "V1" |};
     dcmi_get_device_phyid_from_logicid := const 0%Z;
     dcmi_get_device_logicid_from_phyid := const 0%Z;
     dcmi_get_device_ip := const ["192"%char; "168"%char; "001"%char; "007"%char];
     dcmi_get_device_network_health := const 0%Z;
     dcmi_get_card_id_device_id_from_logicid := const (3%Z, 1%Z);
     dcmi_mcu_get_power_info := const 1%Z;
     dcmi_get_product_type := const (str_elems "Atlas") |}.

Definition demo_rt : Rt unit := {| dcmiHandle := true; symbols := PLoaded; crashed := false; drv := tt |}.

Lemma DcGetLogicIDList_spec_witness :
  (DcGetLogicIDList (demo_lib None) demo_rt).1 = Ok (2%Z, [6%Z; 7%Z]) ∧
  Forall (λ id, IsValidLogicIDOrPhyID id = true) [6%Z; 7%Z].
Proof.
  split; [vm_compute; reflexivity|].
  refine (proj2 (proj2 (proj2 (DcGetLogicIDList_spec (demo_lib None) demo_rt)
                              2%Z [6%Z; 7%Z] demo_rt _))).
  vm_compute. reflexivity.
Defined.

Definition demo_obj (device : Z) : InfoObj :=
  {| Total := (16000 + device) * 1000000; Used := (12000 + device) * 1000000;
     GpuType := "NPU"; Model := "310P3"; GpuUtil := 37; MemUtil := 75 |}.


(** Two virtual devices. *)
Lemma DcGetVDeviceInfo_typed_witness :
  ∃ v, (DcGetVDeviceInfo (demo_lib None) 7 demo_rt).1 = Ok v ∧ total_VDevID (TotalResource v) = [100; 101]%Z ∧
    length (VDevInfo v) = 2.
Proof.
  destruct (DcGetVDeviceInfo (demo_lib None) 7 demo_rt) as [[v| |] s] eqn:E; [|vm_compute in E; discriminate..].
  exists v. split; [reflexivity|].
  assert (total_VDevID (TotalResource v) = [100; 101]%Z) as Hids by (vm_compute in E; injection E as <- _; reflexivity).
  split; [exact Hids|].
  destruct (DcGetVDeviceInfo_typed (demo_lib None) 7 demo_rt v s E) as (_ & _ & _ & Hl & _).
  rewrite Hl, Hids. reflexivity.
Defined.

(** Indices shift past a device whose memory query fails: entry "0" then describes the
    second device, which a container that was given device "1" asks for in vain. *)
Example index_shift :
  (InfoAll_dcmi (demo_lib (Some 0%Z)) demo_rt).1 = Ok {[ "0" := demo_obj 1 ]} ∧
  (Info (demo_lib (Some 0%Z)) ["1"] demo_rt).1 = Ok ∅.
Proof. split; vm_compute; reflexivity. Qed.

(** The dsmi branch tests [error != nil] where it means [error == nil]: it never reports
    a device. *)
Lemma AllDeviceInfo_error lib m e : AllDeviceInfo lib = Some (m, Some e) → m = ∅.
Proof. unfold AllDeviceInfo. intros H. by repeat (case_match; simplify_eq). Qed.

Lemma InfoAll_dsmi_empty lib : InfoAll_dsmi lib = Ok ∅.
Proof.
  unfold InfoAll_dsmi, InfoAll_dsmi_body, dsmi_Init.
  assert (∀ b : bool, (if b then Ok ∅ else Ok ∅) = Ok (∅ : gmap string InfoObj)) as Hb
    by by intros [].
  destruct (AllDeviceInfo lib) as [[m [e|]]|] eqn:E; repeat case_match; simplify_eq/=;
    try done; try congruence.
  all: apply AllDeviceInfo_error in E as ->; rewrite map_to_list_empty in *; by simplify_eq/=.
Qed.

(** Concrete readings: the address, and 80 hundredths of a volt, which in single
    precision are not 0.8 but its neighbour 13421772 * 2^-24. *)
Example demo_ip :
  (DcGetDeviceIPAddress (demo_lib None) 3 1 demo_rt).1 = Ok "192.168.1.7".
Proof. reflexivity. Qed.

Example demo_voltage :
  (DcGetDeviceVoltage (demo_lib None) 3 1 demo_rt).1
  = Ok (S754_finite false 13421772 (-24)).
Proof. vm_compute. reflexivity. Qed.
