(* ===== verification/DcDriver.v ===== *)
(** * The driver interface of Ascend devices

    gpu/atlas/dcmi/dcmi.go: the interface [DcDriverInterface] and its implementation
    [DcManager], whose methods are those of [Dcmi]. The law of the interface is that no
    method panics, whatever the vendor library returns; the clients of AtlasInfo.go rely on
    it outside of their own recover. *)

From S2P Require Import Prelude GoStrings Float64 Dcmi.

(** A driver: every method maps the state of the binding to an outcome and the next state. *)
Record DcDriverInterface (D : Type) := mkDriver {
  m_DcInit : @DC D unit;
  m_DcShutDown : @DC D unit;
  m_DcGetDeviceCount : @DC D Z;
  m_DcGetLogicIDList : @DC D (Z * list Z);
  m_DcGetDeviceHealth : Z → Z → @DC D Z;
  m_DcGetDeviceNetWorkHealth : Z → Z → @DC D Z;
  m_DcGetDeviceUtilizationRate : Z → Z → Z → @DC D Z;
  m_DcGetDeviceTemperature : Z → Z → @DC D Z;
  m_DcGetDeviceVoltage : Z → Z → @DC D float32;
  m_DcGetDevicePowerInfo : Z → Z → @DC D float32;
  m_DcGetDeviceFrequency : Z → Z → Z → @DC D Z;
  m_DcGetMemoryInfo : Z → Z → @DC D MemoryInfo;
  m_DcGetHbmInfo : Z → Z → @DC D HbmInfo;
  m_DcGetDeviceErrorCode : Z → Z → @DC D (Z * Z);
  m_DcGetChipInfo : Z → Z → @DC D ChipInfo;
  m_DcGetPhysicIDFromLogicID : Z → @DC D Z;
  m_DcGetLogicIDFromPhysicID : Z → @DC D Z;
  m_DcGetDeviceLogicID : Z → Z → @DC D Z;
  m_DcGetDeviceIPAddress : Z → Z → @DC D string;
  m_DcGetMcuPowerInfo : Z → @DC D float32;
  m_DcGetCardList : @DC D (Z * list Z);
  m_DcGetDeviceNumInCard : Z → @DC D Z;
  m_DcSetDestroyVirtualDevice : Z → Z → Z → @DC D unit;
  m_DcCreateVirtualDevice : Z → Z → CgoCreateVDevRes → @DC D CgoCreateVDevOut;
  m_DcGetDeviceVDevResource : Z → Z → Z → @DC D CgoVDevQueryStru;
  m_DcGetDeviceTotalResource : Z → Z → @DC D CgoSocTotalResource;
  m_DcGetDeviceFreeResource : Z → Z → @DC D CgoSocFreeResource;
  m_DcVGetDeviceInfo : Z → Z → @DC D VirtualDevInfo;
  m_DcGetCardIDDeviceID : Z → @DC D (Z * Z);
  m_DcCreateVDevice : Z → CgoCreateVDevRes → @DC D CgoCreateVDevOut;
  m_DcGetVDeviceInfo : Z → @DC D VirtualDevInfo;
  m_DcDestroyVDevice : Z → Z → @DC D unit;
  m_DcGetProductType : Z → Z → @DC D string
}.

Definition DcManager {D : Type} (lib : DcmiLib D) : DcDriverInterface D := {|
  m_DcInit := DcInit lib;
  m_DcShutDown := DcShutDown lib;
  m_DcGetDeviceCount := DcGetDeviceCount lib;
  m_DcGetLogicIDList := DcGetLogicIDList lib;
  m_DcGetDeviceHealth := DcGetDeviceHealth lib;
  m_DcGetDeviceNetWorkHealth := DcGetDeviceNetWorkHealth lib;
  m_DcGetDeviceUtilizationRate := DcGetDeviceUtilizationRate lib;
  m_DcGetDeviceTemperature := DcGetDeviceTemperature lib;
  m_DcGetDeviceVoltage := DcGetDeviceVoltage lib;
  m_DcGetDevicePowerInfo := DcGetDevicePowerInfo lib;
  m_DcGetDeviceFrequency := DcGetDeviceFrequency lib;
  m_DcGetMemoryInfo := DcGetMemoryInfo lib;
  m_DcGetHbmInfo := DcGetHbmInfo;
  m_DcGetDeviceErrorCode := DcGetDeviceErrorCode lib;
  m_DcGetChipInfo := DcGetChipInfo lib;
  m_DcGetPhysicIDFromLogicID := DcGetPhysicIDFromLogicID lib;
  m_DcGetLogicIDFromPhysicID := DcGetLogicIDFromPhysicID lib;
  m_DcGetDeviceLogicID := DcGetDeviceLogicID lib;
  m_DcGetDeviceIPAddress := DcGetDeviceIPAddress lib;
  m_DcGetMcuPowerInfo := DcGetMcuPowerInfo;
  m_DcGetCardList := DcGetCardList lib;
  m_DcGetDeviceNumInCard := DcGetDeviceNumInCard lib;
  m_DcSetDestroyVirtualDevice := DcSetDestroyVirtualDevice lib;
  m_DcCreateVirtualDevice := DcCreateVirtualDevice lib;
  m_DcGetDeviceVDevResource := DcGetDeviceVDevResource lib;
  m_DcGetDeviceTotalResource := DcGetDeviceTotalResource lib;
  m_DcGetDeviceFreeResource := DcGetDeviceFreeResource lib;
  m_DcVGetDeviceInfo := DcVGetDeviceInfo lib;
  m_DcGetCardIDDeviceID := DcGetCardIDDeviceID lib;
  m_DcCreateVDevice := DcCreateVDevice lib;
  m_DcGetVDeviceInfo := DcGetVDeviceInfo lib;
  m_DcDestroyVDevice := DcDestroyVDevice lib;
  m_DcGetProductType := DcGetProductType lib
|}.

(** ** The law *)

Record driver_total {D : Type} (d : DcDriverInterface D) : Prop := mkTotal {
  t_DcInit : no_panic (m_DcInit D d);
  t_DcShutDown : no_panic (m_DcShutDown D d);
  t_DcGetDeviceCount : no_panic (m_DcGetDeviceCount D d);
  t_DcGetLogicIDList : no_panic (m_DcGetLogicIDList D d);
  t_DcGetDeviceHealth : ∀ x y, no_panic (m_DcGetDeviceHealth D d x y);
  t_DcGetDeviceNetWorkHealth : ∀ x y, no_panic (m_DcGetDeviceNetWorkHealth D d x y);
  t_DcGetDeviceUtilizationRate : ∀ x y z, no_panic (m_DcGetDeviceUtilizationRate D d x y z);
  t_DcGetDeviceTemperature : ∀ x y, no_panic (m_DcGetDeviceTemperature D d x y);
  t_DcGetDeviceVoltage : ∀ x y, no_panic (m_DcGetDeviceVoltage D d x y);
  t_DcGetDevicePowerInfo : ∀ x y, no_panic (m_DcGetDevicePowerInfo D d x y);
  t_DcGetDeviceFrequency : ∀ x y z, no_panic (m_DcGetDeviceFrequency D d x y z);
  t_DcGetMemoryInfo : ∀ x y, no_panic (m_DcGetMemoryInfo D d x y);
  t_DcGetHbmInfo : ∀ x y, no_panic (m_DcGetHbmInfo D d x y);
  t_DcGetDeviceErrorCode : ∀ x y, no_panic (m_DcGetDeviceErrorCode D d x y);
  t_DcGetChipInfo : ∀ x y, no_panic (m_DcGetChipInfo D d x y);
  t_DcGetPhysicIDFromLogicID : ∀ x, no_panic (m_DcGetPhysicIDFromLogicID D d x);
  t_DcGetLogicIDFromPhysicID : ∀ x, no_panic (m_DcGetLogicIDFromPhysicID D d x);
  t_DcGetDeviceLogicID : ∀ x y, no_panic (m_DcGetDeviceLogicID D d x y);
  t_DcGetDeviceIPAddress : ∀ x y, no_panic (m_DcGetDeviceIPAddress D d x y);
  t_DcGetMcuPowerInfo : ∀ x, no_panic (m_DcGetMcuPowerInfo D d x);
  t_DcGetCardList : no_panic (m_DcGetCardList D d);
  t_DcGetDeviceNumInCard : ∀ x, no_panic (m_DcGetDeviceNumInCard D d x);
  t_DcSetDestroyVirtualDevice : ∀ x y z, no_panic (m_DcSetDestroyVirtualDevice D d x y z);
  t_DcCreateVirtualDevice : ∀ x y z, no_panic (m_DcCreateVirtualDevice D d x y z);
  t_DcGetDeviceVDevResource : ∀ x y z, no_panic (m_DcGetDeviceVDevResource D d x y z);
  t_DcGetDeviceTotalResource : ∀ x y, no_panic (m_DcGetDeviceTotalResource D d x y);
  t_DcGetDeviceFreeResource : ∀ x y, no_panic (m_DcGetDeviceFreeResource D d x y);
  t_DcVGetDeviceInfo : ∀ x y, no_panic (m_DcVGetDeviceInfo D d x y);
  t_DcGetCardIDDeviceID : ∀ x, no_panic (m_DcGetCardIDDeviceID D d x);
  t_DcCreateVDevice : ∀ x y, no_panic (m_DcCreateVDevice D d x y);
  t_DcGetVDeviceInfo : ∀ x, no_panic (m_DcGetVDeviceInfo D d x);
  t_DcDestroyVDevice : ∀ x y, no_panic (m_DcDestroyVDevice D d x y);
  t_DcGetProductType : ∀ x y, no_panic (m_DcGetProductType D d x y)
}.

Lemma no_panic_DcInit {D} (lib : DcmiLib D) : no_panic (DcInit lib).
Proof.
  intros s. unfold DcInit. destruct (dcmiInit_dl lib s) as [rc s1]. destruct (rc =? Success)%Z; [|done].
  apply no_panic_query.
Qed.

Lemma no_panic_DcShutDown {D} (lib : DcmiLib D) : no_panic (DcShutDown lib).
Proof. intros s. unfold DcShutDown. destruct (dcmiShutDown lib s) as [rc s1]. by destruct (rc =? Success)%Z. Qed.
#[export] Hint Resolve no_panic_DcInit no_panic_DcShutDown no_panic_DcGetLogicIDList : dcmi.

Lemma no_panic_vdev_loop {D} (lib : DcmiLib D) c d vs acc : no_panic (vdev_loop lib c d vs acc).
Proof.
  revert acc. induction vs as [|v vs IH]; intros acc; simpl; [no_panic_tac|].
  unfold DcGetDeviceVDevResource. no_panic_tac.
Qed.
#[export] Hint Resolve no_panic_vdev_loop : dcmi.

(** The manager keeps the law, for every library. *)
Theorem DcManager_total {D} (lib : DcmiLib D) : driver_total (DcManager lib).
Proof.
  split; cbn; intros;
    unfold DcGetVDeviceInfo, DcCreateVDevice, DcDestroyVDevice, DcVGetDeviceInfo, DcGetDeviceCount;
    unfold DcGetDeviceHealth, DcGetDeviceNetWorkHealth, DcGetDeviceUtilizationRate, DcGetDeviceTemperature,
      DcGetDeviceVoltage, DcGetDevicePowerInfo, DcGetDeviceFrequency, DcGetMemoryInfo, DcGetHbmInfo, DcGetDeviceErrorCode,
      DcGetChipInfo, DcGetPhysicIDFromLogicID, DcGetLogicIDFromPhysicID, DcGetDeviceIPAddress, DcGetMcuPowerInfo,
      DcSetDestroyVirtualDevice, DcCreateVirtualDevice, DcGetDeviceVDevResource, DcGetDeviceTotalResource,
      DcGetDeviceFreeResource, DcGetCardIDDeviceID, DcGetProductType; cbv zeta; no_panic_tac.
Qed.
