(* ===== verification/ApiService.v ===== *)
(** * Signed requests: model archives and device information

    Service/ProxyService.go ([RequestAndRedirect]), Service/ModelSaveService.go
    ([ListModelFile], [SaveModelFile]), Service/GpuInfoService.go, and the interface
    [GpuInfo] of gpu/GpuInfo.go.

    A request with the header Target_host is passed on to that host as it is; any other
    request must carry an MD5 signature of its timestamp. The handlers read archives
    ([IoUtils]) below a directory found by [Quota.FindRealPath] and store their entries in
    Minio. A handler takes a request to the answer written, the request passed on, the
    calls of Minio in order and the callbacks; the object store, MD5, JSON, the file system
    and the host a request is passed on to are parameters. *)

From S2P Require Import Prelude GoStrings GoPath Clients Quota IoUtils Dcmi.

(** ** Data *)

Record ListModelParam := mkListModelParam { LHostPath : string; LFileName : string }.

Record SaveItem := mkSaveItem { FileName : string; ObjectName : string }.

Record SaveModeParam := mkSaveModeParam {
  SHostPath : string;
  SFileName : string;
  MinioEndpoint : string;
  ObjectBucket : string;
  AccessKey : string;
  SSecretKey : string;
  SaveItems : list SaveItem;
  CallBack : string;
  SAsync : bool
}.

(** The slices are nil ([None]) until they are assigned. *)
Record SaveModelResp := mkResp {
  UnSaved : option (list string);
  Saved : option (list string);
  NotFound : option (list string);
  ErrorMessage : string
}.

Definition emptyResp : SaveModelResp := mkResp None None None "".

(** A request as the handlers see it. *)
Record ApiRequest := mkApiRequest {
  Target_host : string;
  ar_query : string → string;
  ar_body : bytes
}.

(** The data of an answer. *)
Inductive ApiData :=
| ANil
| AFiles (l : list FileItem)
| AResp (r : SaveModelResp)
| AInfo (i : gmap string InfoObj).

(** Calls of the Minio client. *)
Inductive minio_call :=
| BucketExists (bucket : string)
| MakeBucket (bucket : string)
| PutObject (bucket obj : string) (data : bytes).

(** The interface [GpuInfo]; [None] is a device list or a table with an error. *)
Record GpuInfo := mkGpuInfo {
  ContainerDevices : string → list string;
  GInfo : list string → outcome (gmap string InfoObj)
}.

(** A handler at work: the answer, the request passed on with the host, the calls of
    Minio, the callbacks posted. *)
Record AState := mkA {
  a_rw : ResponseWriter;
  a_forward : option (string * ApiRequest);
  a_minio : list minio_call;
  a_posts : list (string * bytes)
}.

Definition startA : AState := mkA newRW None [] [].
Definition a_set_rw (f : ResponseWriter → ResponseWriter) (a : AState) : AState :=
  mkA (f (a_rw a)) (a_forward a) (a_minio a) (a_posts a).
Definition a_call (c : minio_call) (a : AState) : AState :=
  mkA (a_rw a) (a_forward a) (a_minio a ++ [c]) (a_posts a).
Definition a_post (url : string) (b : bytes) (a : AState) : AState :=
  mkA (a_rw a) (a_forward a) (a_minio a) (a_posts a ++ [(url, b)]).

Definition StatusNoContent : Z := 204.

(** ** Handlers *)

Section handlers.
(** [md5hex s]: the hexadecimal MD5 of [s]. *)
Context (conf : Config) (md5hex : string → string).
(** What the other host answers, written to the response. *)
Context (backend : string → ApiRequest → ResponseWriter → ResponseWriter).
Context (marshal : BaseResult ApiData → bytes).

Definition a_success (msg : string) (d : ApiData) : AState → AState :=
  a_set_rw (λ w, (SUCCESS_RES marshal msg d w).2).
Definition a_fail (msg : string) (d : ApiData) : AState → AState :=
  a_set_rw (λ w, (FAIL_RES marshal msg d w).2).

Definition signature (timestamp : string) : string := md5hex (timestamp +:+ "_" +:+ SecretKey conf).

Definition signed (r : ApiRequest) : bool :=
  if decide (ar_query r "timestamp" = "") then false
  else bool_decide (signature (ar_query r "timestamp") = ar_query r "sign").

(** Whether the request was passed on, and the error. *)
Definition RequestAndRedirect (r : ApiRequest) (a : AState) : bool * option string * AState :=
  if decide (Target_host r ≠ "") then
    let host := Target_host r +:+ ":" +:+ Itoa (ServerPort conf) in
    let r' := mkApiRequest "" (ar_query r) (ar_body r) in
    (true, None, mkA (backend host r' (a_rw a)) (Some (host, r')) (a_minio a) (a_posts a))
  else if signed r then (false, None, a)
  else (false, Some "auth fail", a_fail "auth fail" ANil a).

(** *** Archives *)

Context (BaseDir : string) (lstat : string → lstat_result) (stat : string → option string).
(** Opening an archive: an error, or its entries. *)
Context (open : string → string + list tar_event).
Context (DecodeList : bytes → option ListModelParam) (DecodeSave : bytes → option SaveModeParam).

(** The error of [FindRealPath] is overwritten before it is looked at. *)
Definition archive_path (hostPath fileName : string) : string :=
  PathJoin [(FindRealPath lstat stat BaseDir hostPath).1; fileName].

Definition ListModelFile (r : ApiRequest) : outcome AState :=
  let '(ok, err, a) := RequestAndRedirect r startA in
  if bool_decide (is_Some err) || ok then Ok a
  else
    match DecodeList (ar_body r) with
    | None => Ok (a_fail "request param error" ANil a)
    | Some param =>
        match ListFiles (open (archive_path (LHostPath param) (LFileName param))) with
        | Err e => Ok (a_fail e ANil a)
        | Ok list => Ok (a_success "" (AFiles list) a)
        | Panic => Panic
        end
    end.

(** The Minio client: the error of [minio.New], whether a bucket exists, and what the n-th
    call of [PutObject] does with the contents it is given: it stores all of them, or fails
    with an error and leaves some unread. *)
Context (New : string → string → string → bool → option string).
Context (bucket_exists : string → bool).
Context (put : nat → string → string → bytes → option (string * bytes)).

Definition endpoint (p : SaveModeParam) : string * bool :=
  let secure := HasPrefix (MinioEndpoint p) "https" in
  (if HasPrefix (MinioEndpoint p) "http"
   then TrimPrefix (TrimPrefix (MinioEndpoint p) "https://") "http://" else MinioEndpoint p, secure).

(** The object of the last item with that name. *)
Definition object_of (items : list SaveItem) (fileName : string) : string :=
  foldl (λ objName item, if decide (FileName item = fileName) then ObjectName item else objName)
    "" items.

(** The variables of [doSave] its closure works on. *)
Record SaveVars := mkVars {
  v_saved : list string;
  v_unSaved : list string;
  v_message : string;
  v_state : AState;
  v_puts : nat
}.

Definition save_one (p : SaveModeParam) (fileName : string) (reader : bytes) (v : SaveVars)
    : bytes * SaveVars :=
  let obj := Trim (object_of (SaveItems p) fileName) "/" in
  let a := a_call (PutObject (ObjectBucket p) obj reader) (v_state v) in
  match put (v_puts v) (ObjectBucket p) obj reader with
  | Some (e, rest) =>
      (rest, mkVars (v_saved v) (v_unSaved v ++ [fileName])
               (v_message v +:+ e +:+ String (ascii_of_nat 10) "") a (S (v_puts v)))
  | None => ([], mkVars (v_saved v ++ [fileName]) (v_unSaved v) (v_message v) a (S (v_puts v)))
  end.

Definition ensure_bucket (p : SaveModeParam) (a : AState) : AState :=
  let a := a_call (BucketExists (ObjectBucket p)) a in
  if bucket_exists (ObjectBucket p) then a else a_call (MakeBucket (ObjectBucket p)) a.

(** [notFound] is collected and not stored anywhere. *)
Definition notFound (p : SaveModeParam) (saved unSaved : list string) : list string :=
  filter (λ name, name ∉ saved ∧ name ∉ unSaved) (FileName <$> SaveItems p).

(** [doSave] up to its call of [cal]: the error it passes, the values [res] takes one after
    the other, and the state. *)
Definition doSave (p : SaveModeParam) (a : AState)
    : option string * list SaveModelResp * AState :=
  let relFile := archive_path (SHostPath p) (SFileName p) in
  let a := ensure_bucket p a in
  let '(err, v) := ExtractFileTo (save_one p) (open relFile) (FileName <$> SaveItems p)
                     (mkVars [] [] "" a 0) in
  match err with
  | Some e => (Some e, [emptyResp], v_state v)
  | None =>
      (None, [emptyResp;
              mkResp None (Some (v_saved v)) None "";
              mkResp (Some (v_unSaved v)) (Some (v_saved v)) None "";
              mkResp (Some (v_unSaved v)) (Some (v_saved v)) None (v_message v)], v_state v)
  end.

(** [res.ErrorMessage += err2.Error()] of the closure of an asynchronous request. *)
Definition add_error (err2 : option string) (res : SaveModelResp) : SaveModelResp :=
  match err2 with
  | Some e => mkResp (UnSaved res) (Saved res) (NotFound res)
                (ErrorMessage res +:+ e +:+ String (ascii_of_nat 10) "")
  | None => res
  end.

(** The rest of the closure. *)
Definition async_cal (p : SaveModeParam) (err2 : option string) (res : SaveModelResp) (a : AState) : AState :=
  if decide (CallBack p ≠ "") then
    let code := match err2 with Some _ => FAIL_CODE | None => SUCCESS_CODE end in
    a_post (CallBack p) (marshal (mkBaseResult code 0 "" (AResp res))) a
  else a.

(** [SaveModelFile] after the check of the request. [progress]: how many assignments of the
    goroutine the answer of an asynchronous request sees; the goroutine runs to its end. *)
Definition save_body (progress : nat) (r : ApiRequest) (a : AState) : AState :=
  match DecodeSave (ar_body r) with
  | None => a_fail "request param error" ANil a
  | Some p =>
      let '(ep, secure) := endpoint p in
      match New ep (AccessKey p) (SSecretKey p) secure with
      | Some e => a_fail e ANil a
      | None =>
          let '(err, values, a) := doSave p a in
          let res := List.last values emptyResp in
          if SAsync p then
            let values := values ++ [add_error err res] in
            let a := a_success "" (AResp (nth (Nat.min progress (length values - 1)) values emptyResp)) a in
            async_cal p err (add_error err res) a
          else
            match err with
            | Some e => a_fail e ANil a
            | None => a_success "" (AResp res) a
            end
      end
  end.

Definition SaveModelFile (progress : nat) (r : ApiRequest) : AState :=
  let '(ok, err, a) := RequestAndRedirect r startA in
  if ok && bool_decide (err = None) then a else save_body progress r a.

(** *** Devices *)

Context (executor : option GpuInfo).

Definition container_index (containerID : string) : list string :=
  match executor with Some g => ContainerDevices g containerID | None => [] end.

Definition ContainerGpuInfoForMonitorHandler (r : ApiRequest) : outcome AState :=
  let '(ok, err, a) := RequestAndRedirect r startA in
  if bool_decide (is_Some err) || ok then Ok a
  else if decide (ar_query r "containerId" = "") then Ok (a_fail "containerId is empty" ANil a)
  else
    match executor, container_index (ar_query r "containerId") with
    | Some g, (_ :: _) as index =>
        match GInfo g index with
        | Ok res => Ok (a_success "" (AInfo res) a)
        | Err _ => Ok (a_fail "get gpu info error" ANil a)
        | Panic => Panic
        end
    | _, _ => Ok (a_success "no gpu" ANil a)
    end.

(** The messages of [ContainerGpuInfoHandler]: [infos] is what [Info] gives in the rounds of
    its loop, each with the error of the write. A failed upgrade leaves a nil connection,
    whose [Close] panics. *)
Inductive GpuStream :=
| GNoContent (w : ResponseWriter)
| GMessages (l : list (gmap string InfoObj))
| GPanic.

Fixpoint gpu_loop (infos : list (outcome (gmap string InfoObj) * option string)) : list (gmap string InfoObj) :=
  match infos with
  | (Ok res, None) :: infos' => res :: gpu_loop infos'
  | (Ok res, Some _) :: _ => [res]
  | _ => []
  end.

Definition ContainerGpuInfoHandler (containerID : string) (upgraded : bool)
    (infos : list (outcome (gmap string InfoObj) * option string)) : GpuStream :=
  if decide (containerID = "") then GNoContent (WriteHeader StatusNoContent newRW)
  else
    match container_index containerID with
    | [] => GNoContent (WriteHeader StatusNoContent newRW)
    | _ => if upgraded then GMessages (gpu_loop infos) else GPanic
    end.

End handlers.

(** ** What is stored *)

Section store.
Context (put : nat → string → string → bytes → option (string * bytes)).

Lemma object_of_app items items' n :
  object_of (items ++ items') n =
  foldl (λ o item, if decide (FileName item = n) then ObjectName item else o) (object_of items n) items'.
Proof. unfold object_of. by rewrite foldl_app. Qed.

(** Without repeated names, the object of a file is the one its item asks for. *)
Lemma object_of_item items item :
  NoDup (FileName <$> items) → item ∈ items → object_of items (FileName item) = ObjectName item.
Proof.
  intros Hnd (pre & post & ->)%list_elem_of_split. rewrite fmap_app, fmap_cons in Hnd.
  apply NoDup_app in Hnd as (_ & _ & [Hpost _]%NoDup_cons).
  rewrite object_of_app. cbn [foldl]. rewrite decide_True by done.
  induction post as [|x post IH]; [done|]. cbn [foldl]. rewrite fmap_cons, not_elem_of_cons in Hpost.
  destruct Hpost as [Hne Hpost]. rewrite decide_False by done. by apply IH.
Qed.

(** A name that is asked for once is handed to the closure once, with the whole entry. *)
Lemma entry_calls_once {S} (cal : string → bytes → S → bytes * S) h data names s :
  NoDup names →
  entry_calls cal h data names s = if decide (th_name h ∈ names) then (cal (th_name h) data s).2 else s.
Proof.
  induction names as [|n names IH] in data, s |- *; intros Hnd; cbn [entry_calls].
  { by rewrite decide_False by set_solver. }
  apply NoDup_cons in Hnd as [Hn Hnd]. destruct (decide (th_name h = n)) as [<- | Hne].
  - destruct (cal (th_name h) data s) as [rest s'] eqn:E. rewrite IH, decide_False by done.
    rewrite decide_True by set_solver. done.
  - rewrite IH by done. by destruct (decide (th_name h ∈ names)), (decide (th_name h ∈ n :: names)); set_solver.
Qed.

(** The entries of an archive that are asked for. *)
Definition wanted (names : list string) (es : list (tar_header * bytes)) : list (tar_header * bytes) :=
  filter (λ e, th_name e.1 ∈ names) es.

Lemma extract_wanted {S} (cal : string → bytes → S → bytes * S) names es s :
  NoDup names →
  extract_to_loop cal names ((λ e, TEntry e.1 e.2) <$> es) s =
  (None, foldl (λ s e, (cal (th_name e.1) e.2 s).2) s (wanted names es)).
Proof.
  intros Hnd. revert s. induction es as [|[h d] es IH]; intros s; [done|].
  rewrite fmap_cons. cbn [extract_to_loop fst snd]. rewrite IH, entry_calls_once by done.
  unfold wanted. rewrite filter_cons. cbn [fst]. by destruct (decide _).
Qed.

Definition object (p : SaveModeParam) (e : tar_header * bytes) : string :=
  Trim (object_of (SaveItems p) (th_name e.1)) "/".

(** The result of storing each of a list of entries, from the k-th call on. *)
Definition results (p : SaveModeParam) (k : nat) (es : list (tar_header * bytes))
    : list (string * option (string * bytes)) :=
  imap (λ i e, (th_name e.1, put (k + i) (ObjectBucket p) (object p e) e.2)) es.

Definition stored (rs : list (string * option (string * bytes))) : list string :=
  fst <$> filter (λ r, r.2 = None) rs.
Definition failed (rs : list (string * option (string * bytes))) : list string :=
  fst <$> filter (λ r, is_Some r.2) rs.
Definition messages (rs : list (string * option (string * bytes))) : string :=
  foldr (λ r s, match r.2 with Some (e, _) => e +:+ String (ascii_of_nat 10) "" +:+ s | None => s end) "" rs.

Lemma save_fold p es v :
  foldl (λ v e, (save_one put p (th_name e.1) e.2 v).2) v es =
  let rs := results p (v_puts v) es in
  mkVars (v_saved v ++ stored rs) (v_unSaved v ++ failed rs) (v_message v +:+ messages rs)
    (foldl (λ a e, a_call (PutObject (ObjectBucket p) (object p e) e.2) a) (v_state v) es)
    (v_puts v + length es).
Proof.
  revert v. induction es as [|e es IH]; intros v; cbn [foldl].
  { destruct v. unfold results, stored, failed, messages. simpl.
    by rewrite !app_nil_r, str_app_nil_r, Nat.add_0_r. }
  rewrite IH. cbv zeta. unfold results. rewrite imap_cons, Nat.add_0_r.
  assert (∀ k, imap (λ i e0, (th_name e0.1, put (S k + i) (ObjectBucket p) (object p e0) e0.2)) es =
    imap ((λ i e0, (th_name e0.1, put (k + i) (ObjectBucket p) (object p e0) e0.2)) ∘ S) es) as Hs.
  { intros k. apply imap_ext. intros i x _. simpl. by rewrite Nat.add_succ_r. }
  unfold save_one. change (Trim (object_of (SaveItems p) (th_name e.1)) "/") with (object p e).
  unfold stored, failed, messages.
  destruct (put (v_puts v) _ _ _) as [[er rest]|] eqn:E; cbn [v_puts v_saved v_unSaved v_message v_state snd];
    rewrite Hs, !filter_cons; cbn [snd fst].
  - rewrite decide_False by done. rewrite decide_True by done.
    rewrite fmap_cons. cbn [foldr fst snd]. f_equal; [by rewrite <-app_assoc|by rewrite !str_app_assoc|simpl; lia].
  - rewrite decide_True by done. rewrite decide_False by (by intros []).
    rewrite fmap_cons. cbn [foldr fst snd]. f_equal; [by rewrite <-app_assoc|simpl; lia].
Qed.

Lemma a_calls_minio cs a :
  a_minio (foldl (λ a c, a_call c a) a cs) = a_minio a ++ cs.
Proof.
  revert a. induction cs as [|c cs IH]; intros a; [by rewrite app_nil_r|].
  cbn [foldl]. rewrite IH. cbn. by rewrite <-app_assoc.
Qed.

End store.

Section claims.
Context (conf : Config) (md5hex : string → string).
Context (backend : string → ApiRequest → ResponseWriter → ResponseWriter).
Context (marshal : BaseResult ApiData → bytes).
Context (BaseDir : string) (lstat : string → lstat_result) (stat : string → option string).
Context (open : string → string + list tar_event).
Context (DecodeList : bytes → option ListModelParam) (DecodeSave : bytes → option SaveModeParam).
Context (New : string → string → string → bool → option string).
Context (bucket_exists : string → bool).
Context (put : nat → string → string → bytes → option (string * bytes)).

Lemma doSave_stores p es a :
  open (archive_path BaseDir lstat stat (SHostPath p) (SFileName p)) = inr ((λ e, TEntry e.1 e.2) <$> es) →
  NoDup (FileName <$> SaveItems p) →
  let es' := wanted (FileName <$> SaveItems p) es in
  let rs := results put p 0 es' in
  ∃ values, doSave BaseDir lstat stat open bucket_exists put p a =
    (None, values, foldl (λ a e, a_call (PutObject (ObjectBucket p) (object p e) e.2) a)
                     (ensure_bucket bucket_exists p a) es') ∧
    List.last values emptyResp = mkResp (Some (failed rs)) (Some (stored rs)) None (messages rs).
Proof.
  intros Ho Hnd es' rs. unfold doSave. rewrite Ho. cbn [ExtractFileTo].
  rewrite extract_wanted, save_fold by done. cbv zeta. cbn [v_saved v_unSaved v_message v_state v_puts].
  eexists. by split.
Qed.

(** C27. A signed synchronous request to this node to save files of an archive, when the
    client of the object store can be made, the archive can be read to its end and no file
    is asked for twice: exactly the entries whose names are asked for are stored, in the
    order of the archive, one upload for each entry, with its whole contents, in the object
    its item names; the answer lists as saved the entries whose upload succeeded and as
    unsaved the others, with their errors, and never lists the names that the archive does
    not have. (A file that is asked for under two objects is uploaded twice to the last of
    them, the second time without contents, see [SaveModelFile_repeated].) *)
Theorem SaveModelFile_stores progress r p es :
  Target_host r = "" → signed conf md5hex r = true →
  DecodeSave (ar_body r) = Some p → SAsync p = false →
  New (endpoint p).1 (AccessKey p) (SSecretKey p) (endpoint p).2 = None →
  open (archive_path BaseDir lstat stat (SHostPath p) (SFileName p)) = inr ((λ e, TEntry e.1 e.2) <$> es) →
  NoDup (FileName <$> SaveItems p) →
  let b := ObjectBucket p in
  let es' := wanted (FileName <$> SaveItems p) es in
  let rs := results put p 0 es' in
  ∃ a, SaveModelFile conf md5hex backend marshal BaseDir lstat stat open DecodeSave New bucket_exists put
         progress r = a ∧
    a_minio a = BucketExists b :: (if bucket_exists b then [] else [MakeBucket b]) ++
                ((λ e, PutObject b (object p e) e.2) <$> es') ∧
    a_rw a = (SUCCESS_RES marshal "" (AResp (mkResp (Some (failed rs)) (Some (stored rs)) None (messages rs)))
                newRW).2 ∧
    (∀ item e, item ∈ SaveItems p → e ∈ es → th_name e.1 = FileName item →
       PutObject b (Trim (ObjectName item) "/") e.2 ∈ a_minio a).
Proof.
  intros Ht Hs Hd Has Hn Ho Hnd b es' rs.
  destruct (doSave_stores p es startA Ho Hnd) as (values & Hdo & Hlast).
  unfold SaveModelFile, RequestAndRedirect. rewrite decide_False by tauto. rewrite Hs. cbn [andb].
  unfold save_body.
  rewrite Hd, (surjective_pairing (endpoint p)), Hn, Hdo, Has, Hlast. eexists. split; [done|].
  assert (a_minio (foldl (λ a e, a_call (PutObject b (object p e) e.2) a) (ensure_bucket bucket_exists p startA) es')
    = BucketExists b :: (if bucket_exists b then [] else [MakeBucket b]) ++
      ((λ e, PutObject b (object p e) e.2) <$> es')) as Hm.
  { rewrite <-(foldl_fmap (λ a c, a_call c a) _ es' (λ e, PutObject b (object p e) e.2)), a_calls_minio.
    unfold ensure_bucket. by destruct (bucket_exists _). }
  unfold a_success, a_set_rw. cbn [a_minio a_rw]. split; [done|]. split.
  - f_equal. f_equal. clear Hm. fold b es'. generalize es'. intros l.
    assert (∀ a, a_rw (foldl (λ a e, a_call (PutObject b (object p e) e.2) a) a l) = a_rw a) as Hrw.
    { induction l as [|x l IH]; intros a; [done|]. cbn [foldl]. by rewrite IH. }
    rewrite Hrw. unfold ensure_bucket. by destruct (bucket_exists _).
  - intros item e Hi He Hname. fold b es'. rewrite Hm. apply elem_of_cons. right. apply elem_of_app. right.
    apply list_elem_of_fmap. exists e. split.
    + unfold object. by rewrite Hname, object_of_item.
    + apply list_elem_of_filter. split; [|done]. rewrite Hname. by apply list_elem_of_fmap_2.
Qed.

(** Two states that differ in the answer only, which has [pre] in front in the first. *)
Section same.
Context (pre : bytes).

Definition same_effects (a a' : AState) : Prop :=
  a_minio a = a_minio a' ∧ a_posts a = a_posts a' ∧ rw_body (a_rw a) = pre ++ rw_body (a_rw a').

Definition same_vars (v v' : SaveVars) : Prop :=
  v_saved v = v_saved v' ∧ v_unSaved v = v_unSaved v' ∧ v_message v = v_message v' ∧
  same_effects (v_state v) (v_state v') ∧ v_puts v = v_puts v'.

Lemma a_call_same c a a' : same_effects a a' → same_effects (a_call c a) (a_call c a').
Proof. intros (H1 & H2 & H3). split; cbn; [by rewrite H1|done]. Qed.

Lemma rw_body_send code msg d w : rw_body (send_res marshal code msg d w).2 = rw_body w ++ marshal (mkBaseResult code 0 msg d).
Proof. unfold send_res, RW_Write, WriteHeader, SetContentType. by destruct (rw_sent w). Qed.

Lemma a_answer_same code msg d a a' : same_effects a a' →
  same_effects (a_set_rw (λ w, (send_res marshal code msg d w).2) a)
               (a_set_rw (λ w, (send_res marshal code msg d w).2) a').
Proof.
  intros (H1 & H2 & H3). split_and!; [done..|]. cbn [a_set_rw a_rw]. rewrite !rw_body_send, H3. by rewrite (assoc app).
Qed.

Lemma save_one_same p n d v v' : same_vars v v' →
  (save_one put p n d v).1 = (save_one put p n d v').1 ∧
  same_vars (save_one put p n d v).2 (save_one put p n d v').2.
Proof.
  intros (H1 & H2 & H3 & H4 & H5). unfold save_one. rewrite H1, H2, H3, H5.
  destruct (put _ _ _ _) as [[e rest]|]; (split; [done|]); repeat (split; [done|]); cbn;
    (split; [by apply a_call_same|done]).
Qed.

Lemma extract_same p names tar v v' : same_vars v v' →
  (extract_to_loop (save_one put p) names tar v).1 = (extract_to_loop (save_one put p) names tar v').1 ∧
  same_vars (extract_to_loop (save_one put p) names tar v).2 (extract_to_loop (save_one put p) names tar v').2.
Proof.
  assert (∀ h ns d v v', same_vars v v' →
    same_vars (entry_calls (save_one put p) h d ns v) (entry_calls (save_one put p) h d ns v')) as Hentry.
  { intros h ns. induction ns as [|n ns IH]; intros d w w' Hw; [done|]. cbn [entry_calls].
    case_decide; [|by apply IH]. destruct (save_one_same p n d w w' Hw) as [H1 H2].
    destruct (save_one put p n d w), (save_one put p n d w'). simpl in *. subst. by apply IH. }
  revert v v'. induction tar as [|[h d|e] tar IH]; intros v v' Hv; [done| |done].
  cbn [extract_to_loop]. by apply IH, Hentry.
Qed.

Lemma doSave_same p a a' : same_effects a a' →
  (doSave BaseDir lstat stat open bucket_exists put p a).1 =
  (doSave BaseDir lstat stat open bucket_exists put p a').1 ∧
  same_effects (doSave BaseDir lstat stat open bucket_exists put p a).2
               (doSave BaseDir lstat stat open bucket_exists put p a').2.
Proof.
  intros Ha. unfold doSave.
  assert (same_vars (mkVars [] [] "" (ensure_bucket bucket_exists p a) 0)
                    (mkVars [] [] "" (ensure_bucket bucket_exists p a') 0)) as Hv.
  { repeat (split; [done|]). split; [|done]. cbn. unfold ensure_bucket.
    destruct (bucket_exists _); by repeat apply a_call_same. }
  assert (∀ x, let e v := ExtractFileTo (save_one put p) x (FileName <$> SaveItems p) v in
    (e (mkVars [] [] "" (ensure_bucket bucket_exists p a) 0)).1 =
    (e (mkVars [] [] "" (ensure_bucket bucket_exists p a') 0)).1 ∧
    same_vars (e (mkVars [] [] "" (ensure_bucket bucket_exists p a) 0)).2
              (e (mkVars [] [] "" (ensure_bucket bucket_exists p a') 0)).2) as He.
  { intros [m|tar]; [by split|]. by apply extract_same. }
  specialize (He (open (archive_path BaseDir lstat stat (SHostPath p) (SFileName p)))).
  cbv beta zeta in He |- *. destruct (ExtractFileTo _ _ _ (mkVars _ _ _ (ensure_bucket _ _ a) _)) as [e1 v1].
  destruct (ExtractFileTo _ _ _ (mkVars _ _ _ (ensure_bucket _ _ a') _)) as [e2 v2]. cbn [fst snd] in He.
  destruct He as [-> (-> & -> & -> & ? & _)]. by destruct e2.
Qed.

Lemma save_body_same progress r r' a a' : ar_body r = ar_body r' → same_effects a a' →
  same_effects (save_body marshal BaseDir lstat stat open DecodeSave New bucket_exists put progress r a)
               (save_body marshal BaseDir lstat stat open DecodeSave New bucket_exists put progress r' a').
Proof.
  intros Hb Ha. unfold save_body. rewrite <-Hb. destruct (DecodeSave _) as [p|]; [|by apply a_answer_same].
  destruct (endpoint p) as [ep secure]. destruct (New _ _ _ _); [by apply a_answer_same|].
  destruct (doSave_same p a a' Ha) as [H1 H2].
  destruct (doSave _ _ _ _ _ _ p a) as [[e1 vs1] a1], (doSave _ _ _ _ _ _ p a') as [[e2 vs2] a2].
  cbn [fst snd] in H1, H2. simplify_eq.
  destruct (SAsync p); [|destruct e2; by apply a_answer_same].
  set (d := AResp (nth _ _ _)). destruct (a_answer_same SUCCESS_CODE "" d a1 a2 H2) as (Hm & Hp & Hrw).
  unfold async_cal. case_decide; [|done]. unfold a_success, SUCCESS_RES.
  split; [done|]. split; [|done]. cbn [a_post a_posts]. by rewrite Hp.
Qed.

End same.

(** C28. What the signature protects. A request for another host is passed on unchanged but
    for the header, without any check, with no call of the object store and no callback by
    this node. For this node, a request that is not signed is refused when it lists an
    archive or asks for devices: nothing of the file system or of the devices reaches the
    answer. A request to save files is told that it is refused and then carried out all
    the same: the calls of the object store and the callbacks are those of the same request
    with a valid signature, and the answer is the refusal followed by the answer to that
    request. *)
Theorem signed_requests progress executor r :
  let list o l s := ListModelFile conf md5hex backend marshal BaseDir l s o DecodeList r in
  let monitor e := ContainerGpuInfoForMonitorHandler conf md5hex backend marshal e r in
  let save := SaveModelFile conf md5hex backend marshal BaseDir lstat stat open DecodeSave New bucket_exists put
                progress in
  (Target_host r ≠ "" →
     ∃ a, list open lstat stat = Ok a ∧ monitor executor = Ok a ∧ save r = a ∧ a_minio a = [] ∧ a_posts a = [] ∧
       a_forward a = Some (Target_host r +:+ ":" +:+ Itoa (ServerPort conf),
                           mkApiRequest "" (ar_query r) (ar_body r))) ∧
  (Target_host r = "" → signed conf md5hex r = false →
     (∀ o l s e, list o l s = Ok (a_fail marshal "auth fail" ANil startA) ∧
                 monitor e = Ok (a_fail marshal "auth fail" ANil startA)) ∧
     (∀ r', Target_host r' = "" → signed conf md5hex r' = true → ar_body r' = ar_body r →
        same_effects (marshal (mkBaseResult FAIL_CODE 0 "auth fail" ANil)) (save r) (save r'))).
Proof.
  intros list monitor save. subst list monitor save.
  unfold ListModelFile, ContainerGpuInfoForMonitorHandler, SaveModelFile, RequestAndRedirect. split.
  - intros Ht. rewrite !decide_True by done. rewrite !orb_true_r. eexists. by repeat split.
  - intros Ht Hs. split.
    + intros o l s e. rewrite !decide_False by tauto. rewrite Hs. by rewrite !bool_decide_true by done.
    + intros r' Ht' Hs' Hb. rewrite !decide_False by tauto. rewrite Hs, Hs'. cbn [andb].
      apply save_body_same; [done|]. split; [done|]. split; [done|]. unfold a_fail, FAIL_RES. cbn [a_set_rw a_rw].
      rewrite rw_body_send. by rewrite app_nil_r.
Qed.

End claims.

(** ** Examples *)

Definition demo_header (n : string) : tar_header := mkHeader n 1 0 false.
Definition demo_archive : list (tar_header * bytes) :=
  [(demo_header "model.om", str_elems "weights"); (demo_header "readme", str_elems "text");
   (demo_header "labels", str_elems "cat")].

Definition demo_save : SaveModeParam :=
  mkSaveModeParam "/data" "m.tar" "http://minio:9000" "models" "" ""
    [mkSaveItem "labels" "/v1/labels/"; mkSaveItem "model.om" "/v1/om"; mkSaveItem "absent" "x"] "" false.

Definition demo_query (sign key : string) : string :=
  if decide (key = "timestamp") then "17" else if decide (key = "sign") then sign else "".

Definition demo_api (sign : string) : ApiRequest := mkApiRequest "" (demo_query sign) [].

(** The second upload is refused. *)
Definition demo_put (k : nat) (b o : string) (d : bytes) : option (string * bytes) :=
  if decide (k = 1) then Some ("denied", d) else None.

Definition demo_md5 (s : string) : string := "d" +:+ s.

Lemma SaveModelFile_stores_witness :
  ∃ a, SaveModelFile demo_config demo_md5 (λ _ _ w, w) (λ _, []) "/host" (λ _, LNoLink) (λ _, None)
         (λ _, inr ((λ e, TEntry e.1 e.2) <$> demo_archive)) (λ _, Some demo_save) (λ _ _ _ _, None) (λ _, false)
         demo_put 0 (demo_api (signature demo_config demo_md5 "17")) = a ∧
    a_minio a = [BucketExists "models"; MakeBucket "models";
                 PutObject "models" "v1/om" (str_elems "weights");
                 PutObject "models" "v1/labels" (str_elems "cat")] ∧
    stored (results demo_put demo_save 0 (wanted (FileName <$> SaveItems demo_save) demo_archive)) = ["model.om"].
Proof.
  destruct (SaveModelFile_stores demo_config demo_md5 (λ _ _ w, w) (λ _, []) "/host" (λ _, LNoLink) (λ _, None)
    (λ _, inr ((λ e, TEntry e.1 e.2) <$> demo_archive)) (λ _, Some demo_save) (λ _ _ _ _, None) (λ _, false)
    demo_put 0 (demo_api (signature demo_config demo_md5 "17")) demo_save demo_archive)
    as (a & Ha & Hm & _ & _); try reflexivity.
  { apply (bool_decide_unpack _). vm_compute. exact I. }
  exists a. split; [exact Ha|]. split; [rewrite Hm; vm_compute; reflexivity|vm_compute; reflexivity].
Defined.

(** One file asked for under two objects: both uploads go to the last, and the second is
    empty. *)
Definition demo_repeated : SaveModeParam :=
  mkSaveModeParam "/data" "m.tar" "http://minio:9000" "models" "" ""
    [mkSaveItem "labels" "/v1/a"; mkSaveItem "labels" "/v1/b"] "" false.

Lemma SaveModelFile_repeated :
  a_minio (SaveModelFile demo_config demo_md5 (λ _ _ w, w) (λ _, []) "/host" (λ _, LNoLink) (λ _, None)
         (λ _, inr ((λ e, TEntry e.1 e.2) <$> demo_archive)) (λ _, Some demo_repeated) (λ _ _ _ _, None) (λ _, true)
         (λ _ _ _ _, None) 0 (demo_api (signature demo_config demo_md5 "17"))) =
  [BucketExists "models"; PutObject "models" "v1/b" (str_elems "cat"); PutObject "models" "v1/b" []].
Proof. vm_compute. reflexivity. Qed.

(** A request with a wrong signature. *)
Definition demo_marshal (r : BaseResult ApiData) : bytes :=
  if decide (Code r = FAIL_CODE) then str_elems "no" else str_elems "yes".

Lemma signed_requests_witness :
  let save := SaveModelFile demo_config demo_md5 (λ _ _ w, w) demo_marshal "/host" (λ _, LNoLink) (λ _, None)
         (λ _, inr ((λ e, TEntry e.1 e.2) <$> demo_archive)) (λ _, Some demo_save) (λ _ _ _ _, None) (λ _, false)
         demo_put 0 in
  signed demo_config demo_md5 (demo_api "forged") = false ∧
  same_effects (str_elems "no") (save (demo_api "forged")) (save (demo_api (signature demo_config demo_md5 "17"))) ∧
  length (a_minio (save (demo_api "forged"))) = 4.
Proof.
  cbv zeta. split; [vm_compute; reflexivity|]. split; [|vm_compute; reflexivity].
  apply (signed_requests demo_config demo_md5 (λ _ _ w, w) demo_marshal "/host" (λ _, LNoLink) (λ _, None)
         (λ _, inr ((λ e, TEntry e.1 e.2) <$> demo_archive)) (λ _, None) (λ _, Some demo_save) (λ _ _ _ _, None)
         (λ _, false) demo_put 0 None (demo_api "forged")); vm_compute; reflexivity.
Defined.
