(* ===== verification/Ioctl.v ===== *)
(** * Device control numbers

    utils/cgoioctl: the [Number] of the four kinds of ioctl for both layouts
    (ioctl_14_2.go, ioctl_13_3.go), the calls with their wrapped errors, and the functions
    around the C macro [_IOC] (cgoioctl.go); gpu/sophgo/bmctl: the two requests of the
    Sophgo driver. The system call is a parameter. *)

From S2P Require Import Prelude GoStrings.

(** ** Numbers *)

(** [sizeBits] and the directions; the other widths are the same on every platform. *)
Record layout := mkLayout { sizeBits : Z; dirNone : Z; dirRead : Z; dirWrite : Z }.

Definition layout_14_2 : layout := mkLayout 14 0 2 1.
Definition layout_13_3 : layout := mkLayout 13 1 2 4.

Definition nrBits : Z := 8.
Definition typeBits : Z := 8.
Definition nrShift : Z := 0.
Definition typeShift : Z := nrShift + nrBits.
Definition sizeShift : Z := typeShift + typeBits.

Section ioctl.
Context (l : layout).

Definition dirShift : Z := sizeShift + sizeBits l.

(** [uint32(x) << s]. *)
Definition shl32 (x s : Z) : Z := u32 (Z.shiftl x s).

Definition number (dir typ nr size : Z) : Z :=
  let d := shl32 dir dirShift in
  let t := shl32 typ typeShift in
  let n := shl32 nr nrShift in
  let s := shl32 size sizeShift in
  Z.lor (Z.lor (Z.lor d t) n) s.

Record N := mkN { NName : string; NType : Z; NNr : Z }.
Record R := mkR { RName : string; RType : Z; RNr : Z; RSize : Z }.
Record W := mkW { WName : string; WType : Z; WNr : Z; WSize : Z }.
Record WR := mkWR { WRName : string; WRType : Z; WRNr : Z; WRSize : Z }.

Definition N_Number (n : N) : Z := number (dirNone l) (NType n) (NNr n) 0.
Definition R_Number (r : R) : Z := number (dirRead l) (RType r) (RNr r) (RSize r).
Definition W_Number (w : W) : Z := number (dirWrite l) (WType w) (WNr w) (WSize w).
Definition WR_Number (w : WR) : Z := number (Z.lor (dirRead l) (dirWrite l)) (WRType w) (WRNr w) (WRSize w).

(** ** Calls *)

(** [unix.Syscall(SYS_IOCTL, fd, number, arg)]: the result and the error number. *)
Context {A : Type} (Syscall : Z → Z → A → Z * Z).

Record IoctlError := mkIoctlError { EName : string; ENumber : Z; EErr : Z }.

Definition ioctl_call (fd num : Z) (arg : A) : Z * option Z :=
  let '(r, e) := Syscall fd num arg in
  (r, if negb (e =? 0)%Z then Some e else None).

Definition wrapError (err : option Z) (name : string) (num : Z) : option IoctlError :=
  match err with None => None | Some e => Some (mkIoctlError name num e) end.

Definition ExecInt (n : N) (fd : Z) (val : A) : Z * option IoctlError :=
  let '(res, err) := ioctl_call fd (N_Number n) val in
  (res, wrapError err (NName n) (N_Number n)).

(** Without an argument: the integer zero. *)
Definition N_Exec (zero : A) (n : N) (fd : Z) : Z * option IoctlError := ExecInt n fd zero.

Definition R_Read (r : R) (fd : Z) (ptr : A) : option IoctlError :=
  wrapError (ioctl_call fd (R_Number r) ptr).2 (RName r) (R_Number r).
Definition W_Write (w : W) (fd : Z) (ptr : A) : option IoctlError :=
  wrapError (ioctl_call fd (W_Number w) ptr).2 (WName w) (W_Number w).
Definition WR_Exec (w : WR) (fd : Z) (ptr : A) : option IoctlError :=
  wrapError (ioctl_call fd (WR_Number w) ptr).2 (WRName w) (WR_Number w).

End ioctl.

(** ** Messages *)

(** [%#08x] of 32 bits: the prefix and eight digits. *)
Definition hex_char (d : Z) : ascii :=
  match str_elems "0123456789abcdef" !! Z.to_nat d with Some c => c | None => "0"%char end.

Fixpoint hex_pad (n : nat) (z : Z) (acc : bytes) : bytes :=
  match n with
  | O => acc
  | S n => hex_pad n (z / 16) (hex_char (z mod 16) :: acc)
  end.

Definition hex8 (z : Z) : string := "0x" +:+ string_of_list_ascii (hex_pad 8 z []).

(** [strerror] is the text of an error number. *)
Definition Error_Error (strerror : Z → string) (e : IoctlError) : string :=
  if decide (EName e ≠ "")
  then "ioctl: " +:+ EName e +:+ " (" +:+ hex8 (ENumber e) +:+ "): " +:+ strerror (EErr e)
  else "ioctl: " +:+ hex8 (ENumber e) +:+ ": " +:+ strerror (EErr e).

Lemma hex_char_inj d e : (0 <= d < 16)%Z → (0 <= e < 16)%Z → hex_char d = hex_char e → d = e.
Proof.
  intros Hd He E. assert (∀ x, (0 <= x < 16)%Z → x ∈ (Z.of_nat <$> seq 0 16)) as Hin.
  { intros x Hx. apply list_elem_of_fmap. exists (Z.to_nat x). rewrite Z2Nat.id by lia. split; [done|].
    apply elem_of_seq. lia. }
  assert (forallb (λ x, forallb (λ y, negb (bool_decide (hex_char x = hex_char y)) || bool_decide (x = y))
    (Z.of_nat <$> seq 0 16)) (Z.of_nat <$> seq 0 16) = true) as Hall by (vm_compute; reflexivity).
  pose proof (proj1 (forallb_forall _ _) Hall d (proj1 (list_elem_of_In _ _) (Hin d Hd))) as Hd'.
  pose proof (proj1 (forallb_forall _ _) Hd' e (proj1 (list_elem_of_In _ _) (Hin e He))) as He'. clear Hall Hd'. simpl in He'.
  apply orb_true_iff in He' as [Hn|Hn]; [|by apply bool_decide_eq_true in Hn].
  apply negb_true_iff, bool_decide_eq_false in Hn. done.
Qed.

Lemma hex_pad_inj n z y acc : hex_pad n z acc = hex_pad n y acc → (z mod 16 ^ Z.of_nat n = y mod 16 ^ Z.of_nat n)%Z.
Proof.
  assert (∀ n z a, ∃ ds, hex_pad n z a = ds ++ a ∧ length ds = n) as Hshape.
  { clear. induction n as [|n IH]; intros z a; [by exists []|]. cbn [hex_pad].
    destruct (IH (z / 16)%Z (hex_char (z mod 16) :: a)) as (ds & -> & Hl).
    exists (ds ++ [hex_char (z mod 16)]). rewrite <-app_assoc, length_app. simpl. split; [done|lia]. }
  assert (∀ n z y a b, hex_pad n z a = hex_pad n y b → length a = length b →
    (z mod 16 ^ Z.of_nat n = y mod 16 ^ Z.of_nat n)%Z ∧ a = b) as H; [|by intros E; apply (H n z y acc acc E)].
  clear - Hshape. induction n as [|n IH]; intros z y a b E Hl; [split; [by rewrite !Z.mod_1_r|done]|].
  cbn [hex_pad] in E. apply IH in E as [E1 E2]; [|simpl; by rewrite Hl]. injection E2 as Ec ->.
  apply hex_char_inj in Ec; [|apply Z.mod_pos_bound; lia..]. split; [|done].
  rewrite Nat2Z.inj_succ, Z.pow_succ_r, !Z.rem_mul_r by (try apply Z.pow_nonzero; lia). by rewrite Ec, E1.
Qed.

(** Two requests of 32 bits never print alike. *)
Lemma hex8_inj z y : in_u32 z → in_u32 y → hex8 z = hex8 y → z = y.
Proof.
  intros Hz Hy E. apply (f_equal str_elems) in E. unfold hex8 in E. rewrite !str_elems_app in E.
  apply (inj (app _)) in E. unfold str_elems in E. rewrite !Stdlib.Strings.String.list_ascii_of_string_of_list_ascii in E.
  apply hex_pad_inj in E. change (16 ^ Z.of_nat 8)%Z with (2 ^ 32)%Z in E. unfold in_u32 in *. by rewrite !Z.mod_small in E.
Qed.

(** ** The C macro *)

(** [_IOC] computes with unsigned longs of 64 bits; the wrappers cut the result to 32. *)
Definition IOC (l : layout) (dir typ nr size : Z) : Z :=
  Z.lor (Z.lor (Z.lor (u64 (Z.shiftl dir (dirShift l))) (u64 (Z.shiftl typ typeShift)))
    (u64 (Z.shiftl nr nrShift))) (u64 (Z.shiftl size sizeShift)).

Definition IO (l : layout) (typ nr : Z) : Z := u32 (IOC l (dirNone l) typ nr 0).
Definition IOR (l : layout) (typ nr size : Z) : Z := u32 (IOC l (dirRead l) typ nr size).
Definition IOW (l : layout) (typ nr size : Z) : Z := u32 (IOC l (dirWrite l) typ nr size).
Definition IOWR (l : layout) (typ nr size : Z) : Z :=
  u32 (IOC l (Z.lor (dirRead l) (dirWrite l)) typ nr size).

(** ** The requests of the Sophgo driver *)

Definition ioctlMAGIC : Z := byte_val "q".
Definition BMCTL_GET_DEV_CNT : R := mkR "" ioctlMAGIC 0 8.
Definition BMCTL_GET_SMI_ATTR : WR := mkWR "" ioctlMAGIC 1 8.

(** ** Fields *)

(** The directions of the layouts, and fields within their widths. *)
Definition fields_ok (l : layout) (dir typ nr size : Z) : Prop :=
  (0 <= dir < 2 ^ (32 - dirShift l))%Z ∧ (0 <= typ < 2 ^ 8)%Z ∧ (0 <= nr < 2 ^ 8)%Z ∧
  (0 <= size < 2 ^ sizeBits l)%Z.

(** The reading of the fields, as the kernel does it. *)
Definition IOC_DIR (l : layout) (n : Z) : Z := Z.shiftr n (dirShift l).
Definition IOC_SIZE (l : layout) (n : Z) : Z := (Z.shiftr n 16 mod 2 ^ sizeBits l)%Z.
Definition IOC_TYPE (n : Z) : Z := (Z.shiftr n 8 mod 2 ^ 8)%Z.
Definition IOC_NR (n : Z) : Z := (n mod 2 ^ 8)%Z.

Lemma lor_shift a b k : (0 <= k)%Z → (0 <= a < 2 ^ k)%Z → Z.lor (Z.shiftl b k) a = (b * 2 ^ k + a)%Z.
Proof.
  intros Hk Ha. rewrite <-Z.shiftl_mul_pow2 by done. rewrite <-(Z.add_lor_land (Z.shiftl b k) a).
  rewrite <-(Z.add_0_r (Z.lor _ _)) at 1. f_equal. symmetry.
  apply Z.bits_inj'. intros i Hi. rewrite Z.land_spec, Z.shiftl_spec, Z.bits_0 by done.
  destruct (Z.ltb_spec i k) as [Hlt|Hge].
  - by rewrite Z.testbit_neg_r by lia.
  - destruct (decide (a = 0)%Z) as [->|Hn]; [by rewrite Z.bits_0, andb_false_r|].
    rewrite (Z.bits_above_log2 a i), andb_false_r; [done|lia|].
    apply Z.lt_le_trans with k; [|done]. apply Z.log2_lt_pow2; lia.
Qed.

Lemma shl32_small x s : (0 <= s)%Z → (0 <= x * 2 ^ s < 2 ^ 32)%Z → shl32 x s = Z.shiftl x s.
Proof. intros Hs Hx. unfold shl32. rewrite Z.shiftl_mul_pow2 by done. by apply u32_small. Qed.

Definition known (l : layout) : Prop := l = layout_14_2 ∨ l = layout_13_3.

(** Fields within their widths do not overlap. *)
Lemma number_sum l dir typ nr size :
  known l → fields_ok l dir typ nr size →
  number l dir typ nr size = (dir * 2 ^ dirShift l + (size * 2 ^ 16 + (typ * 2 ^ 8 + nr)))%Z.
Proof.
  intros Hl (Hd & Ht & Hn & Hs). unfold number.
  assert (dirShift l + sizeBits l <= 46 ∧ 16 <= dirShift l ∧ 0 < sizeBits l)%Z as (_ & Hsh & _)
    by (destruct Hl as [-> | ->]; vm_compute; split_and!; congruence).
  rewrite !shl32_small.
  - change nrShift with 0%Z. rewrite Z.shiftl_0_r.
    rewrite <-(lor_shift nr typ 8) by lia.
    change sizeShift with 16%Z. change typeShift with 8%Z.
    rewrite <-(lor_shift (Z.lor (Z.shiftl typ 8) nr) size 16); [|lia|rewrite lor_shift by lia; lia].
    assert (dirShift l = 16 + sizeBits l)%Z as Hds by done.
    rewrite <-(lor_shift _ dir (dirShift l)); [|lia|].
    + by rewrite (Z.lor_comm (Z.shiftl size 16)), !Z.lor_assoc.
    + rewrite !lor_shift by (rewrite ?lor_shift; lia). rewrite Hds, Z.pow_add_r by lia. nia.
  - done.
  - change sizeShift with 16%Z. destruct Hl as [-> | ->]; cbn in Hs |- *; lia.
  - done.
  - change nrShift with 0%Z. lia.
  - done.
  - change typeShift with 8%Z. lia.
  - lia.
  - destruct Hl as [-> | ->];
      [change (dirShift layout_14_2) with 30%Z in *|change (dirShift layout_13_3) with 29%Z in *]; lia.
Qed.

(** Ioctl numbers: with fields within their widths the kernel reads back exactly the
    direction, size, type and number that were packed, so distinct requests have distinct
    numbers; and whatever the fields are, also too large ones, the numbers computed in Go are
    those of the C macro. *)
Theorem ioctl_number_fields l dir typ nr size :
  known l →
  (fields_ok l dir typ nr size →
     IOC_DIR l (number l dir typ nr size) = dir ∧ IOC_SIZE l (number l dir typ nr size) = size ∧
     IOC_TYPE (number l dir typ nr size) = typ ∧ IOC_NR (number l dir typ nr size) = nr ∧
     ∀ dir' typ' nr' size', fields_ok l dir' typ' nr' size' →
       number l dir' typ' nr' size' = number l dir typ nr size →
       dir' = dir ∧ typ' = typ ∧ nr' = nr ∧ size' = size) ∧
  (IO l typ nr = N_Number l (mkN "" typ nr) ∧ IOR l typ nr size = R_Number l (mkR "" typ nr size) ∧
   IOW l typ nr size = W_Number l (mkW "" typ nr size) ∧
   IOWR l typ nr size = WR_Number l (mkWR "" typ nr size)).
Proof.
  intros Hl. split.
  - assert (∀ dir typ nr size, fields_ok l dir typ nr size →
      IOC_DIR l (number l dir typ nr size) = dir ∧ IOC_SIZE l (number l dir typ nr size) = size ∧
      IOC_TYPE (number l dir typ nr size) = typ ∧ IOC_NR (number l dir typ nr size) = nr) as Hr.
    { intros d t n s Hok. rewrite number_sum by done. destruct Hok as (Hd & Ht & Hn & Hs).
      unfold IOC_DIR, IOC_SIZE, IOC_TYPE, IOC_NR. rewrite !Z.shiftr_div_pow2 by (destruct Hl as [-> | ->]; done).
      destruct Hl as [-> | ->];
        [change (dirShift layout_14_2) with 30%Z in *; change (sizeBits layout_14_2) with 14%Z in *
        |change (dirShift layout_13_3) with 29%Z in *; change (sizeBits layout_13_3) with 13%Z in *];
        change (2 ^ 8)%Z with 256%Z in *; change (2 ^ 16)%Z with 65536%Z in *; cbn in *;
        Z.to_euclidean_division_equations; lia. }
    intros Hok. destruct (Hr _ _ _ _ Hok) as (E1 & E2 & E3 & E4). split_and!; try done.
    intros d t n s Hok' E. destruct (Hr _ _ _ _ Hok') as (F1 & F2 & F3 & F4). rewrite E in F1, F2, F3, F4.
    split_and!; congruence.
  - assert (∀ d t n s, u32 (IOC l d t n s) = number l d t n s) as Hm; [|split_and!; apply Hm].
    intros d t n s. unfold IOC, number, shl32, u32, u64.
    rewrite <-!Z.land_ones by done. rewrite !Z.land_lor_distr_l, <-!Z.land_assoc.
    by change (Z.land (Z.ones 64) (Z.ones 32)) with (Z.ones 32).
Qed.

(** The two requests of the Sophgo driver, on the common platforms. *)
Lemma ioctl_number_fields_witness :
  R_Number layout_14_2 BMCTL_GET_DEV_CNT = 2148036864%Z ∧
  IOC_SIZE layout_14_2 (number layout_14_2 3 113 1 8) = 8%Z ∧
  IOWR layout_14_2 113 1 8 = WR_Number layout_14_2 BMCTL_GET_SMI_ATTR.
Proof.
  destruct (ioctl_number_fields layout_14_2 3 113 1 8 (or_introl eq_refl)) as (H1 & H2).
  split; [vm_compute; reflexivity|]. split; [|apply H2].
  apply H1. vm_compute. split_and!; congruence.
Defined.

(** A type of more than 8 bits is not rejected: it spills into the size. *)
Lemma number_overlap :
  number layout_14_2 2 256 0 0 = number layout_14_2 2 0 0 1.
Proof. reflexivity. Qed.
