(* ===== verification/Accelerators.v ===== *)
(** * Nvidia, Sophgo and Cambricon devices

    gpu/nvidia/NvidiaInfo.go: [ContainerDevices], [Info] with its cache of handles,
    [InfoAll], [Nvidia_smi] and [GetInfoByString]; gpu/nvidia/GpuCheckExecutor.go:
    [CheckGpu], with its handler of Service/GpuCheckService.go; gpu/sophgo and gpu/mlu:
    the tables of devices; gpu/GpuInfo.go: [InfoObj] is that of [Dcmi].

    The vendor libraries, the command nvidia-smi, the Docker daemon and spf13/cast are
    parameters. *)

From S2P Require Import Prelude GoStrings Float64 Dcmi.

Definition mkInfo (total used : Z) (gputype model : string) (util memutil : Z) : InfoObj :=
  {| Total := total; Used := used; GpuType := gputype; Model := model; GpuUtil := util;
     MemUtil := memutil |}.

(** ** Nvidia: the devices of a container *)

(** The loop over the environment; [env[1]] panics without "=", which is recovered with no
    devices. *)
Fixpoint visible_devices (count : Z) (env : list string) : list string :=
  match env with
  | [] => []
  | v :: env' =>
      if Contains v "NVIDIA_VISIBLE_DEVICE" then
        match Split v "="%char with
        | _ :: e1 :: _ =>
            if decide (e1 = "all")
            then if (0 <? count)%Z then (λ i, Itoa (Z.of_nat i)) <$> seq 0 (Z.to_nat count) else []
            else Split e1 ","%char
        | _ => []
        end
      else visible_devices count env'
  end.

(** [env] is the environment of the container, when the inspection succeeds. *)
Definition Nvidia_ContainerDevices (count : Z) (env : option (list string)) : list string :=
  match env with None => [] | Some env => visible_devices count env end.

(** ** Nvidia: the table printed by nvidia-smi *)

Definition is_digit_char (c : ascii) : bool := bool_decide (c ∈ str_elems "0123456789").

Fixpoint digit_run (b : bytes) : bytes * bytes :=
  match b with
  | c :: b' => if is_digit_char c then let '(d, r) := digit_run b' in (c :: d, r) else ([], b)
  | [] => ([], [])
  end.

(** [FindStringSubmatch] of [(\d+)<unit>]: the digits of the leftmost match. *)
Fixpoint find_quantity (unit b : bytes) : option bytes :=
  match b with
  | [] => None
  | c :: b' =>
      if is_digit_char c then
        let '(d, r) := digit_run b in
        if decide (take (length unit) r = unit) then Some d else find_quantity unit b'
      else find_quantity unit b'
  end.

Definition MiB : string := "MiB".

(** The indices of the used memory, the total memory and the utilisation; 0 also stands
    for not found yet. *)
Definition row_step (acc : nat * nat * nat) (iv : nat * string) : nat * nat * nat :=
  let '(used, total, util) := acc in
  let '(i, v) := iv in
  let '(used, total) :=
    if Contains v MiB then if decide (used = 0) then (i, total) else (used, i) else (used, total) in
  let util := if decide (0 < i) then if Contains v "%" then i else util else util in
  (used, total, util).

Definition row_indices (s : list string) : nat * nat * nat :=
  foldl row_step (0, 0, 0) (imap pair s).

Section nvidia.
(** [cast.ToUint64] and [cast.ToUint32], and the result of an inexact conversion. *)
Context (ToUint : string → Z) (unspecified : Z).

Definition quantity (unit : bytes) (v : string) : Z :=
  match find_quantity unit (str_elems v) with
  | Some d => ToUint (string_of_list_ascii d)
  | None => 0
  end.

(** The numbers of a row; indexing an empty row panics. *)
Definition row_values (s : list string) : outcome (Z * Z * Z) :=
  let '(used, total, util) := row_indices s in
  match s !! used, s !! total, s !! util with
  | Some u, Some t, Some g =>
      Ok (quantity (str_elems MiB) u, quantity (str_elems MiB) t, quantity (str_elems "%") g)
  | _, _, _ => Panic
  end.

(** The first separator line, with the two lines after it. *)
Fixpoint smi_rows (lines : list string) : option (option string * option string) :=
  match lines with
  | [] => None
  | l :: rest => if Contains l "===+===" then Some (rest !! 0, rest !! 1) else smi_rows rest
  end.

Definition MB : Z := 1024 * 1024.

Definition smi_info (used memorySize utilRate : Z) (model : string) : InfoObj :=
  let memUtil :=
    if (0 <? memorySize)%Z
    then f_u32 unspecified (fmul (fdiv (fmul (fmul (f64 used) (f64 1024)) (f64 1024))
                                       (fmul (fmul (f64 memorySize) (f64 1024)) (f64 1024))) (f64 100))
    else 0%Z in
  mkInfo (u64 (memorySize * MB)) (u64 (used * MB)) "GPU" model utilRate memUtil.

Definition GetInfoByString (info : string) : outcome InfoObj :=
  match smi_rows (Split info (ascii_of_nat 10)) with
  | None => Ok (smi_info 0 0 0 "nvidia gpu")
  | Some (Some l1, Some l2) =>
      match SplitStr l1 "  " !! 2 with
      | None => Panic
      | Some model =>
          let! (u, t, g) := row_values (Fields l2) in Ok (smi_info u t g model)
      end
  | Some _ => Panic
  end.

(** [smi id] is the output of the command, or its error. *)
Definition Nvidia_smi (smi : string → string + string) (uuid : string) : outcome InfoObj :=
  match smi uuid with
  | inl e => Err e
  | inr out => match GetInfoByString out with Ok r => Ok r | Err _ => Ok (smi_info 0 0 0 "") | Panic => Panic end
  end.

(** ** Nvidia: the devices *)

(** The management library: handles by identifier, and what it says of a handle; the zero
    handle is [None]. *)
Record nvml := mkNvml {
  DeviceGetCount : Z;
  ByUUID : string → option nat;
  ByIndex : Z → option nat;
  MemoryInfo : option nat → Z * Z;        (** total, used *)
  Name : option nat → string;
  Utilization : option nat → Z
}.

(** [strconv.ParseInt(v, 10, 8)] without its error: a number out of range is clipped, text
    that is not a number is 0. *)
Definition ParseInt8 (v : string) : Z :=
  let r := match v with
           | String "+" s => parse_nat s
           | String "-" s => Z.opp <$> parse_nat s
           | _ => parse_nat v
           end in
  match r with
  | Some z => Z.max (-128) (Z.min 127 z)
  | None => 0
  end.

Definition device_info (lib : nvml) (h : option nat) : InfoObj :=
  let '(total, used) := MemoryInfo lib h in
  let memUtil := if (0 <? total)%Z
                 then f_u32 unspecified (fmul (fdiv (f64 used) (f64 total)) (f64 100)) else 0%Z in
  mkInfo total used "GPU" (Name lib h) (Utilization lib h) memUtil.

(** How a round ends: with the table so far, with an error to return, or in a panic. *)
Inductive round := RNext (res : gmap string InfoObj) | RStop (res : gmap string InfoObj) (e : string) | RPanic.

(** One round, with the cache after it. In the branch of a UUID the new handle is declared
    again, so the one used below is still the zero handle. *)
Definition info_step (lib : nvml) (smi : string → string + string)
    (cache : gmap string nat) (res : gmap string InfoObj) (v : string) : gmap string nat * round :=
  let report := λ h, RNext (<[v := device_info lib h]> res) in
  match cache !! v with
  | Some h => (cache, report (Some h))
  | None =>
      if HasPrefix v "GPU" then
        match ByUUID lib (TrimSpace v) with
        | Some h => (<[v := h]> cache, report None)
        | None =>
            match Nvidia_smi smi v with
            | Ok gpuInfo => (cache, RNext (<[v := gpuInfo]> res))
            | Err _ => (cache, RStop res "get deviceHandle error by uuid")
            | Panic => (cache, RPanic)
            end
        end
      else
        match ByIndex lib (ParseInt8 v) with
        | Some h => (<[v := h]> cache, report (Some h))
        | None => (cache, RStop res "get deviceHandle error")
        end
  end.

(** The cache, the table and the error. A panic is recovered with a nil table and no
    error. *)
Fixpoint info_loop (lib : nvml) (smi : string → string + string)
    (cache : gmap string nat) (res : gmap string InfoObj) (vs : list string)
    : gmap string nat * gmap string InfoObj * option string :=
  match vs with
  | [] => (cache, res, None)
  | v :: vs' =>
      match info_step lib smi cache res v with
      | (cache, RNext res) => info_loop lib smi cache res vs'
      | (cache, RStop res e) => (cache, res, Some e)
      | (cache, RPanic) => (cache, ∅, None)
      end
  end.

Definition Nvidia_Info (lib : nvml) (smi : string → string + string) (cache : gmap string nat)
    (indexs : list string) : gmap string nat * gmap string InfoObj * option string :=
  info_loop lib smi cache ∅ indexs.

Definition Nvidia_InfoAll (lib : nvml) (smi : string → string + string) (cache : gmap string nat)
    : gmap string nat * gmap string InfoObj * option string :=
  Nvidia_Info lib smi cache
    (if (0 <? DeviceGetCount lib)%Z
     then (λ i, Itoa (Z.of_nat i)) <$> seq 0 (Z.to_nat (DeviceGetCount lib)) else []).

End nvidia.

(** ** The check of the devices *)

(** The outcome of the command: the exit code if it was an exit error, whether there was
    any error, and the output. *)
Record check_run := mkCheckRun { exit_code : option Z; run_err : option string; output : bytes }.

(** The complete lines of the output; the rest is not looked at. *)
Fixpoint out_lines (acc b : bytes) : list string :=
  match b with
  | [] => []
  | c :: b' =>
      if decide (c = ascii_of_nat 10)
      then string_of_list_ascii (acc ++ [c]) :: out_lines [] b'
      else out_lines (acc ++ [c]) b'
  end.

(** [running] is [checkGpuExec != nil]. *)
Definition CheckGpu (r : check_run) (running : bool) : (Z * option string) * bool :=
  if running then ((5%Z, Some "CheckGpu started"), true)
  else
    let status := match run_err r with Some _ => default 0%Z (exit_code r) | None => 0%Z end in
    match list_find (λ l, Contains l "error" = true) (out_lines [] (output r)) with
    | Some (_, l) => ((status, Some l), true)
    | None => ((status, run_err r), false)
    end.

(** The status and message of the answer. *)
Definition CheckGpuHandler (r : check_run) (running : bool) : (Z * string) * bool :=
  let '((status, err), running) := CheckGpu r running in
  match err with
  | Some e => ((5%Z, e), running)
  | None => ((status, ""), running)
  end.

(** ** Sophgo *)

Record DeviceInfo := mkDeviceInfo { DevId : Z; ChipId : Z; MemUsed : Z; MemTotal : Z; TpuUtil : Z }.

(** [cnt]: the number of devices, or an error. [attr i]: the attributes the driver fills in
    for device [i] (device, chip, used and total memory, utilisation), as C integers. *)
Definition GetAllDeviceInfo (cnt : option Z) (attr : Z → Z * Z * Z * Z * Z) : list (Z * DeviceInfo) :=
  match cnt with
  | None => []
  | Some num =>
      (λ i, let '(dev, chip, used, total, util) := attr (Z.of_nat i) in
            (Z.of_nat i, mkDeviceInfo (i32 dev) (i32 chip) (i64 (used * (1024 * 1024)))
                           (i64 (total * (1024 * 1024))) (i32 util))) <$> seq 0 (Z.to_nat num)
  end.

(** The devices of [allInfo] in the order the map is visited. *)
Definition Sophgo_Info (indexs : list string) (allInfo : list DeviceInfo) : gmap string InfoObj :=
  foldl (λ res v, if existsb (λ i, bool_decide (i = Itoa (DevId v))) indexs
                  then <[Itoa (DevId v) := mkInfo 0 0 "TPU" "BM1684" (u32 (TpuUtil v)) 0]> res else res)
    ∅ allInfo.

(** Integer division panics on a total of zero. *)
Definition sophgo_all_step (res : gmap string InfoObj) (v : DeviceInfo) : outcome (gmap string InfoObj) :=
  if (MemTotal v =? 0)%Z then Panic
  else Ok (<[Itoa (DevId v) := mkInfo (u64 (MemTotal v)) (u64 (MemUsed v)) "" "" (u32 (TpuUtil v))
                                 (u32 (Z.quot (MemUsed v) (MemTotal v) * 100))]> res).

Definition Sophgo_InfoAll (allInfo : list DeviceInfo) : outcome (gmap string InfoObj) :=
  ofold sophgo_all_step ∅ allInfo.

(** [regexp.MustCompile(`\d+$`).FindString]: the digits at the end. *)
Definition trailing_digits (s : string) : string :=
  string_of_list_ascii (reverse (digit_run (reverse (str_elems s))).1).

Definition Sophgo_ContainerDevices (devices : option (list string)) : list string :=
  match devices with
  | None => []
  | Some ds => trailing_digits <$> filter (λ d, Contains d "/dev/bm-tpu" = true) ds
  end.

(** ** Cambricon *)

(** What the client answers for a device: used and total memory, the average utilisation
    and the model; [None] for an error. *)
Record mlu_device := mkMlu { mlu_mem : option (Z * Z); mlu_util : option Z; mlu_model : string }.

Definition mlu_step (client : string → mlu_device) (with_model : bool) (res : gmap string InfoObj)
    (v : string) : outcome (gmap string InfoObj) :=
  match mlu_mem (client v), mlu_util (client v) with
  | Some (used, total), Some util =>
      if (total =? 0)%Z then Panic
      else Ok (<[v := mkInfo (u64 (i64 (total * 1024 * 1024))) (u64 (i64 (used * 1024 * 1024)))
                        (if with_model then "MLU" else "") (if with_model then mlu_model (client v) else "")
                        (u32 util) (u32 (Z.quot used total * 100))]> res)
  | _, _ => Ok res
  end.

Definition Mlu_Info (client : string → mlu_device) (indexs : list string) : outcome (gmap string InfoObj) :=
  ofold (mlu_step client true) ∅ indexs.

Definition Mlu_InfoAll (client : string → mlu_device) (count : option Z) : outcome (gmap string InfoObj) :=
  match count with
  | Some n => ofold (mlu_step client false) ∅ ((λ i, Itoa (Z.of_nat i)) <$> seq 0 (Z.to_nat n))
  | None => Ok ∅
  end.

(** ** The first query of a device *)

(** A device asked for by its UUID for the first time is reported with the data of the
    zero handle, for which the library knows nothing: no memory, no name, no load; only
    from the second query on, when the handle is in the cache, are the data those of the
    device. A device asked for by its index is reported correctly at once. *)
Theorem nvidia_first_query unspecified ToUint lib smi cache v h :
  cache !! v = None →
  (HasPrefix v "GPU" = true → ByUUID lib (TrimSpace v) = Some h →
     Nvidia_Info ToUint unspecified lib smi cache [v] =
       (<[v := h]> cache, {[v := device_info unspecified lib None]}, None)) ∧
  (HasPrefix v "GPU" = false → ByIndex lib (ParseInt8 v) = Some h →
     Nvidia_Info ToUint unspecified lib smi cache [v] =
       (<[v := h]> cache, {[v := device_info unspecified lib (Some h)]}, None)) ∧
  Nvidia_Info ToUint unspecified lib smi (<[v := h]> cache) [v] =
    (<[v := h]> cache, {[v := device_info unspecified lib (Some h)]}, None) ∧
  (MemoryInfo lib None = (0, 0)%Z → Name lib None = "" → Utilization lib None = 0%Z →
     device_info unspecified lib None = mkInfo 0 0 "GPU" "" 0 0).
Proof.
  intros Hc. unfold Nvidia_Info. cbn [info_loop]. unfold info_step. rewrite Hc.
  split_and!.
  - intros -> ->. done.
  - intros -> ->. done.
  - by rewrite lookup_insert_eq.
  - intros Hm Hn Hu. unfold device_info. by rewrite Hm, Hn, Hu.
Qed.

(** ** The check can be lost *)

(** Answers to a sequence of checks. *)
Fixpoint checks (running : bool) (rs : list check_run) : list (Z * option string) :=
  match rs with
  | [] => []
  | r :: rs' => let '(a, running) := CheckGpu r running in a :: checks running rs'
  end.

Definition reports_error (r : check_run) : Prop :=
  ∃ l, l ∈ out_lines [] (output r) ∧ Contains l "error" = true.

Lemma checks_running rs : checks true rs = replicate (length rs) (5%Z, Some "CheckGpu started").
Proof. induction rs as [|r rs IH]; [done|]. simpl. by rewrite IH. Qed.

(** Checks that print no line with the word error are answered each with the result of
    its own run; but from the first run that prints such a line on, no check is ever run
    again: every later one is refused as already started. *)
Theorem checks_stuck pre r post :
  Forall (λ r, ¬ reports_error r) pre → reports_error r →
  ∃ l, checks false (pre ++ r :: post) =
    ((λ r, (match run_err r with Some _ => default 0%Z (exit_code r) | None => 0%Z end, run_err r)) <$> pre) ++
    (match run_err r with Some _ => default 0%Z (exit_code r) | None => 0%Z end, Some l) ::
    replicate (length post) (5%Z, Some "CheckGpu started").
Proof.
  intros Hpre (l & Hl & He). induction Hpre as [|r0 pre Hr Hpre IH].
  - cbn [app checks fmap list_fmap]. unfold CheckGpu.
    destruct (list_find_elem_of (λ l, Contains l "error" = true) _ l Hl He) as [[i l'] ->].
    exists l'. by rewrite checks_running.
  - destruct IH as [l' IH]. exists l'. cbn [app checks fmap list_fmap]. unfold CheckGpu at 1.
    assert (list_find (λ l, Contains l "error" = true) (out_lines [] (output r0)) = None) as ->.
    { apply list_find_None, Forall_forall. intros x Hx Hex. apply Hr. by exists x. }
    by rewrite IH.
Qed.

(** ** The share of memory *)

(** The integer division makes the share of the memory in use 0, unless all of it is. *)
Lemma sophgo_memutil res v :
  (0 <= MemUsed v)%Z → (0 < MemTotal v)%Z → (MemUsed v < MemTotal v)%Z →
  ∃ o, sophgo_all_step res v = Ok (<[Itoa (DevId v) := o]> res) ∧ MemUtil o = 0%Z.
Proof.
  intros Hu Ht Hlt. unfold sophgo_all_step. rewrite (proj2 (Z.eqb_neq _ _)) by lia.
  eexists. split; [done|]. simpl. rewrite Z.quot_small by lia. done.
Qed.

(** ** The row of a device *)

Lemma Contains_suffix s t : Contains (s +:+ t) t = true.
Proof.
  unfold Contains. apply bool_decide_eq_true_2. induction s as [|a s [i Hi]].
  - rewrite str_app_nil_l. assert (String.prefix t t = true) as Hp.
    { pose proof (HasPrefix_app t "") as Hp. by rewrite str_app_nil_r in Hp. }
    destruct t; cbn [Index]; rewrite Hp; by eexists.
  - rewrite str_app_cons. cbn [Index]. rewrite Hi. destruct (String.prefix _ _); by eexists.
Qed.

Lemma digit_char_digit d : (0 <= d < 10)%Z → is_digit_char (digit_char d) = true.
Proof.
  intros Hd. assert (d = 0 ∨ d = 1 ∨ d = 2 ∨ d = 3 ∨ d = 4 ∨ d = 5 ∨ d = 6 ∨ d = 7 ∨ d = 8 ∨ d = 9)%Z as Hc by lia.
  destruct Hc as [->|[->|[->|[->|[->|[->|[->|[->|[->| ->]]]]]]]]]; reflexivity.
Qed.

Lemma digit_run_app d c r :
  Forall (λ x, is_digit_char x = true) d → is_digit_char c = false →
  digit_run (d ++ c :: r) = (d, c :: r).
Proof.
  intros Hd Hc. induction Hd as [|x d Hx Hd IH]; cbn [app digit_run]; [by rewrite Hc|].
  by rewrite Hx, IH.
Qed.

(** A printed number followed by its unit. *)
Lemma quantity_print ToUint z unit c u :
  (0 <= z)%Z → ToUint (print_nat z) = z → str_elems unit = c :: u → is_digit_char c = false →
  quantity ToUint (str_elems unit) (print_nat z +:+ unit) = z.
Proof.
  intros Hz Ht Hu Hc. unfold quantity. rewrite str_elems_app.
  assert (Forall (λ x, is_digit_char x = true) (str_elems (print_nat z))) as Hd.
  { apply Forall_forall. intros x Hx. destruct (print_nat_elems z x Hz Hx) as (d & Hd & ->).
    by apply digit_char_digit. }
  assert (str_elems (print_nat z) ≠ []) as Hne.
  { destruct (print_nat_spec z Hz) as [_ Hn]. by destruct (print_nat z). }
  assert (find_quantity (str_elems unit) (str_elems (print_nat z) ++ str_elems unit)
          = Some (str_elems (print_nat z))) as ->.
  { destruct (str_elems (print_nat z)) as [|x d] eqn:E; [done|]. cbn [app find_quantity].
    apply Forall_cons in Hd as [Hx Hd]. rewrite Hx, Hu.
    change (x :: d ++ c :: u) with ((x :: d) ++ c :: u).
    rewrite digit_run_app; [|by constructor|done]. rewrite decide_True; [done|]. by rewrite take_ge. }
  unfold str_elems. rewrite Stdlib.Strings.String.string_of_list_ascii_of_string. done.
Qed.

(** The loop over a part of a row that starts at index [n]. *)
Definition row_fold (n : nat) (s : list string) (acc : nat * nat * nat) : nat * nat * nat :=
  foldl row_step acc (imap (λ i v, (n + i, v)) s).

Lemma row_fold_cons n v s acc : row_fold n (v :: s) acc = row_fold (S n) s (row_step acc (n, v)).
Proof.
  unfold row_fold. rewrite imap_cons. cbn [foldl]. rewrite Nat.add_0_r. f_equal.
  apply imap_ext. intros i x _. simpl. f_equal. lia.
Qed.

Lemma row_fold_app n s1 s2 acc :
  row_fold n (s1 ++ s2) acc = row_fold (n + length s1) s2 (row_fold n s1 acc).
Proof.
  revert n acc. induction s1 as [|v s1 IH]; intros n acc; cbn [app].
  - simpl. rewrite Nat.add_0_r. done.
  - rewrite !row_fold_cons, IH. simpl. f_equal. lia.
Qed.

(** A part without memory sizes. *)
Lemma row_fold_none n s used total util :
  (∀ v, v ∈ s → Contains v MiB = false) →
  ∃ util', row_fold n s (used, total, util) = (used, total, util') ∧
    ((∀ v, v ∈ s → Contains v "%" = false) → util' = util).
Proof.
  revert util n. induction s as [|v s IH]; intros util n Hs; [by exists util|].
  rewrite row_fold_cons. unfold row_step. rewrite (Hs v) by constructor.
  set (u := if decide (0 < n) then _ else _).
  destruct (IH u (S n)) as (u' & -> & Hu); [intros x Hx; apply Hs; by constructor|].
  exists u'. split; [done|]. intros Hp. rewrite Hu by (intros x Hx; apply Hp; by constructor).
  unfold u. rewrite (Hp v) by constructor. by case_decide.
Qed.

(** A row of the table is read as it was printed: the used and the total memory and the
    utilisation come back exactly, whatever the other columns are, when no other column
    mentions MiB, none after the utilisation mentions %, and the row does not start with
    the memory. *)
Theorem row_values_print ToUint a b c d u t g :
  (∀ z, (0 <= z < 2 ^ 63)%Z → ToUint (print_nat z) = z) →
  (0 <= u < 2 ^ 63)%Z → (0 <= t < 2 ^ 63)%Z → (0 <= g < 2 ^ 63)%Z →
  a ≠ [] → (∀ v, v ∈ a ++ b ++ c ++ (print_nat g +:+ "%") :: d → Contains v MiB = false) →
  (∀ v, v ∈ d → Contains v "%" = false) →
  row_values ToUint (a ++ (print_nat u +:+ MiB) :: b ++ (print_nat t +:+ MiB) :: c ++ (print_nat g +:+ "%") :: d)
    = Ok (u, t, g).
Proof.
  intros HT Hu Ht Hg Ha Hm Hp. unfold row_values.
  set (s := a ++ _). assert (row_indices s = row_fold 0 s (0, 0, 0)) as -> by done.
  assert (∃ k, row_fold 0 s (0, 0, 0) = (length a, length a + S (length b), k) ∧
            k = length a + S (length b + S (length c))) as (k & -> & ->).
  { unfold s. rewrite row_fold_app.
    destruct (row_fold_none 0 a 0 0 0) as (u1 & -> & _); [set_solver|].
    rewrite row_fold_cons. unfold row_step at 1. rewrite Contains_suffix. rewrite (decide_True (P := 0 = 0)) by done.
    set (u2 := if decide (0 < 0 + length a) then _ else _). clearbody u2. rewrite row_fold_app.
    destruct (row_fold_none (S (0 + length a)) b (0 + length a) 0 u2) as (u3 & -> & _); [set_solver|].
    rewrite row_fold_cons. unfold row_step at 1. rewrite Contains_suffix.
    rewrite decide_False by (destruct a; simpl; lia || done).
    set (u4 := if decide (0 < _) then _ else _). clearbody u4. rewrite row_fold_app.
    match goal with |- context [row_fold ?n c (?x, ?y, ?z)] =>
      destruct (row_fold_none n c x y z) as (u5 & -> & _); [set_solver|] end.
    rewrite row_fold_cons. unfold row_step at 1. rewrite (Hm (print_nat g +:+ "%")) by set_solver.
    rewrite Contains_suffix. rewrite decide_True by lia.
    match goal with |- context [row_fold ?n d (?x, ?y, ?z)] =>
      destruct (row_fold_none n d x y z) as (u6 & -> & Hu6); [set_solver|] end.
    eexists. split; [f_equal; f_equal; lia|]. rewrite Hu6 by done. lia. }
  assert (s !! length a = Some (print_nat u +:+ MiB)) as -> by apply list_lookup_middle, eq_refl.
  assert (s !! (length a + S (length b)) = Some (print_nat t +:+ MiB)) as ->.
  { unfold s. rewrite lookup_app_r by lia. replace (_ - length a) with (S (length b)) by lia. cbn [lookup list_lookup].
    by apply list_lookup_middle. }
  assert (s !! (length a + S (length b + S (length c))) = Some (print_nat g +:+ "%")) as ->.
  { assert (s = (a ++ (print_nat u +:+ MiB) :: b ++ (print_nat t +:+ MiB) :: c) ++ (print_nat g +:+ "%") :: d) as ->.
    { unfold s. rewrite <-!app_assoc. cbn [app]. by rewrite <-!app_assoc. }
    apply list_lookup_middle. rewrite !length_app. cbn [length]. rewrite length_app. cbn [length]. lia. }
  by erewrite !quantity_print by (done || lia || (apply HT; lia)).
Qed.

(** ** Witnesses *)

Definition demo_nvml : nvml :=
  mkNvml 1 (λ u, if decide (u = "GPU-1") then Some 7 else None) (λ i, if (i =? 0)%Z then Some 7 else None)
    (λ h, if h then (16, 4)%Z else (0, 0)%Z) (λ h, if h then "A100" else "") (λ h, if h then 30%Z else 0%Z).

Lemma nvidia_first_query_witness :
  Nvidia_Info (λ _, 0%Z) 0 demo_nvml inl ∅ ["GPU-1"] =
    ({["GPU-1" := 7]}, {["GPU-1" := mkInfo 0 0 "GPU" "" 0 0]}, None) ∧
  Nvidia_Info (λ _, 0%Z) 0 demo_nvml inl {["GPU-1" := 7]} ["GPU-1"] =
    ({["GPU-1" := 7]}, {["GPU-1" := mkInfo 16 4 "GPU" "A100" 30 25]}, None).
Proof.
  destruct (nvidia_first_query 0 (λ _, 0%Z) demo_nvml inl ∅ "GPU-1" 7 (lookup_empty _)) as (H1 & _ & H3 & _).
  split; [rewrite H1 by reflexivity; reflexivity|]. etrans; [exact H3|]. vm_compute. reflexivity.
Defined.

Definition quiet_run : check_run := mkCheckRun None None (str_elems ("ok" +:+ String (ascii_of_nat 10) "")).
Definition bad_run : check_run :=
  mkCheckRun (Some 3%Z) (Some "exit status 3") (str_elems ("xid error" +:+ String (ascii_of_nat 10) "")).

Lemma checks_stuck_witness :
  ∃ l, checks false ([quiet_run] ++ bad_run :: [quiet_run; quiet_run]) =
    [(0%Z, None)] ++ (3%Z, Some l) :: replicate 2 (5%Z, Some "CheckGpu started").
Proof.
  apply (checks_stuck [quiet_run] bad_run [quiet_run; quiet_run]).
  - apply Forall_singleton. intros (l & Hl & He). vm_compute in Hl.
    apply list_elem_of_singleton in Hl as ->. vm_compute in He. discriminate.
  - eexists. split; [vm_compute; constructor|vm_compute; reflexivity].
Defined.

Lemma row_values_print_witness :
  row_values (λ s, default 0%Z (parse_nat s))
    (["|"; "N/A"; "34C"; "P0"; "52W"; "/"; "400W"; "|"] ++ (print_nat 1024 +:+ MiB) :: ["/"] ++
     (print_nat 40960 +:+ MiB) :: ["|"] ++ (print_nat 17 +:+ "%") :: ["Default"; "|"]) = Ok (1024, 40960, 17)%Z.
Proof.
  apply (row_values_print (λ s, default 0%Z (parse_nat s))
    ["|"; "N/A"; "34C"; "P0"; "52W"; "/"; "400W"; "|"] ["/"] ["|"] ["Default"; "|"]); try lia.
  - intros z Hz. destruct (print_nat_spec z) as [-> _]; [lia|reflexivity].
  - discriminate.
  - apply Forall_forall. by_decide.
  - apply Forall_forall. by_decide.
Defined.
