(* ===== verification/Cndev.v ===== *)
(** * The Cambricon device client

    gpu/mlu/cndev (cvdev.go, cndev_dl.go): every method of [cndev] over the vendor library,
    and the client of gpu/mlu/MluInfo.go made from it. The library is a record of functions
    over a driver state; the structs are those of include/cndev.h, less the fields that are
    not read. Most methods return what the library left in the struct together with the
    error; those that return a slice index a C array up to a count the library wrote. *)

From S2P Require Import Prelude GoStrings Dcmi Accelerators.
Local Open Scope Z_scope.

(** ** C structs *)

Module C.

Record ArmOsMemoryInfo := { armOsMemoryTotal : Z; armOsMemoryUsed : Z }.
Record DeviceCPUUtilization := { chipUtilization : Z; coreNumber : Z; cpuCoreUtilization : list Z }.
Record CRCInfo := { die2dieCRCError : Z; die2dieCRCErrorOverflow : Z }.
Record CurrentPCIInfo := { currentSpeed : Z; currentWidth : Z }.
Record DDRInfo := { dataWidth : Z; bandWidth : Z; bandWidthDecimal : Z }.
Record ECCInfo := { oneBitError : Z; multipleOneError : Z; multipleError : Z; multipleMultipleError : Z;
                    correctedError : Z; uncorrectedError : Z; totalError : Z; addressForbiddenError : Z }.
Record MemoryInfo := { physicalMemoryTotal : Z; physicalMemoryUsed : Z;
                       virtualMemoryTotal : Z; virtualMemoryUsed : Z }.
Record LinkCapability := { p2pTransfer : Z; interlakenSerdes : Z }.
Record LinkCounter := { cntrReadByte : Z; cntrReadPackage : Z; cntrWriteByte : Z; cntrWritePackage : Z;
                        errReplay : Z; errFatal : Z; errEccDouble : Z; errCRC24 : Z; errCRC32 : Z;
                        errCorrected : Z; errUncorrected : Z }.
Record LinkStatus := { isActive : Z; serdesState : Z }.
Record LinkVersion := { majorVersion : Z; minorVersion : Z; buildVersion : Z }.
Record PCIeInfo := { subsystemId : Z; deviceId : Z; vendor : Z; subsystemVendor : Z; domain : Z; bus : Z;
                     device : Z; function : Z; slotID : Z }.
Record ProcessUtilization := { pid : Z; ipuUtil : Z; jpuUtil : Z; vpuDecUtil : Z; vpuEncUtil : Z; memUtil : Z }.
Record TemperatureInfo := { board : Z; cluster : list Z }.
Record UtilizationInfo := { averageCoreUtilization : Z; coreUtilization : list Z }.
Record VersionInfo := { mcuMajorVersion : Z; mcuMinorVersion : Z; mcuBuildVersion : Z;
                        driverMajorVersion : Z; driverMinorVersion : Z; driverBuildVersion : Z }.

End C.

(** ** The library *)

Definition CNDEV_SUCCESS : Z := 0.
Definition CNDEV_ERROR_UNINITIALIZED : Z := 4.
Definition CNDEV_ERROR_UNKNOWN : Z := 999.

(** A function of the library, for a device: its return value, the struct and the state. A
    struct with one field that is read is that field; a codec or tiny core struct is its
    count and its array. *)
Definition Fn (D T : Type) : Type := Z → D → Z * T * D.

Record Lib (D F : Type) := mkLib {
  dlopen : D → bool;
  cndevInit_ : D → Z * D;
  cndevRelease_ : D → Z * D;
  dlclose : D → Z * D;
  cndevGetErrorString : Z → string;
  cndevGetArmOsMemoryUsage : Fn D C.ArmOsMemoryInfo;
  cndevGetClusterCount : Fn D Z;
  cndevGetCoreCount : Fn D Z;
  cndevGetDeviceCount : D → Z * Z * D;
  cndevGetDeviceCPUUtilization : Fn D C.DeviceCPUUtilization;
  cndevGetCRCInfo : Fn D C.CRCInfo;
  cndevGetCurrentPCIInfo : Fn D C.CurrentPCIInfo;
  cndevGetDDRInfo : Fn D C.DDRInfo;
  cndevGetECCInfo : Fn D C.ECCInfo;
  cndevGetFanSpeedInfo : Fn D Z;
  cndevGetCardHealthState : Fn D Z;
  cndevGetImageCodecUtilization : Fn D (Z * list Z);
  cndevGetMemoryUsage : Fn D C.MemoryInfo;
  cndevGetMLULinkCapability : Z → Fn D C.LinkCapability;
  cndevGetMLULinkCounter : Z → Fn D C.LinkCounter;
  cndevGetMLULinkPortMode : Z → Fn D Z;
  cndevGetMLULinkPortNumber : Z → D → Z * D;
  cndevGetMLULinkSpeedInfo : Z → Fn D (F * Z);
  cndevGetMLULinkStatus : Z → Fn D C.LinkStatus;
  cndevGetMLULinkVersion : Z → Fn D C.LinkVersion;
  cndevGetCardNameStringByDevId : Z → D → string * D;
  cndevGetNUMANodeIdByDevId : Fn D Z;
  cndevGetPCIeInfo : Fn D C.PCIeInfo;
  cndevGetPowerInfo : Fn D Z;
  cndevGetProcessUtilization : Fn D (Z * list C.ProcessUtilization);
  cndevGetCardSN : Fn D Z;
  cndevGetTemperatureInfo : Fn D C.TemperatureInfo;
  cndevGetTinyCoreUtilization : Fn D (Z * list Z);
  cndevGetDeviceUtilizationInfo : Fn D C.UtilizationInfo;
  cndevGetUUID : Fn D string;
  cndevGetVersionInfo : Fn D C.VersionInfo;
  cndevGetCardVfState : Fn D Z;
  cndevGetVideoCodecUtilization : Fn D (Z * list Z)
}.
Arguments dlopen {D F} _.
Arguments dlclose {D F} _.

Section client.
Context {D F : Type} (lib : Lib D F).

Definition errorString (ret : Z) : option string :=
  if ret =? CNDEV_SUCCESS then None else Some ("cndev: " +:+ cndevGetErrorString D F lib ret).

(** ** Loading *)

(** [handles]: how many handles [dl.handles] has. *)
Definition cndevInit (handles : nat) (d : D) : Z * nat * D :=
  if dlopen lib d then let '(r, d) := cndevInit_ D F lib d in (r, S handles, d)
  else (CNDEV_ERROR_UNINITIALIZED, handles, d).

Fixpoint close_all (handles : nat) (d : D) : Z * D :=
  match handles with
  | O => (CNDEV_SUCCESS, d)
  | S handles' =>
      let '(err, d) := dlclose lib d in
      if err =? 0 then close_all handles' d else (CNDEV_ERROR_UNKNOWN, d)
  end.

(** The handles stay in the list after they were closed. *)
Definition cndevRelease (handles : nat) (d : D) : Z * nat * D :=
  let '(ret, d) := cndevRelease_ D F lib d in
  if negb (ret =? CNDEV_SUCCESS) then (ret, handles, d)
  else let '(ret, d) := close_all handles d in (ret, handles, d).

Definition Init (handles : nat) (d : D) : option string * nat * D :=
  let '(r, handles, d) := cndevInit handles d in
  (if r =? CNDEV_ERROR_UNINITIALIZED then Some "could not load CNDEV library" else errorString r, handles, d).

Definition Release (handles : nat) (d : D) : option string * nat * D :=
  let '(r, handles, d) := cndevRelease handles d in (errorString r, handles, d).

(** ** Values *)

(** A method that converts the struct whether or not there is an error. *)
Definition plain {T U} (f : Fn D T) (conv : T → U) (idx : Z) (d : D) : U * option string * D :=
  let '(r, x, d) := f (i32 idx) d in (conv x, errorString r, d).

Definition GetDeviceArmOsMemory := plain (cndevGetArmOsMemoryUsage D F lib)
  (λ c, (i64 (C.armOsMemoryUsed c), i64 (C.armOsMemoryTotal c))).
Definition GetDeviceClusterCount := plain (cndevGetClusterCount D F lib) i32.
Definition GetDeviceCoreNum := plain (cndevGetCoreCount D F lib) (λ c, u64 (i32 c)).
Definition GetDeviceCount (d : D) : Z * option string * D :=
  let '(r, x, d) := cndevGetDeviceCount D F lib d in (u32 x, errorString r, d).
Definition GetDeviceCRCInfo := plain (cndevGetCRCInfo D F lib)
  (λ c, (u64 (C.die2dieCRCError c), u64 (C.die2dieCRCErrorOverflow c))).
Definition GetDeviceCurrentPCIeInfo := plain (cndevGetCurrentPCIInfo D F lib)
  (λ c, (i32 (C.currentSpeed c), i32 (C.currentWidth c))).
Definition GetDeviceECCInfo := plain (cndevGetECCInfo D F lib)
  (λ c, (u64 (C.addressForbiddenError c), u64 (C.correctedError c), u64 (C.multipleError c),
         u64 (C.multipleMultipleError c), u64 (C.multipleOneError c), u64 (C.oneBitError c),
         u64 (C.totalError c), u64 (C.uncorrectedError c))).
Definition GetDeviceFanSpeed := plain (cndevGetFanSpeedInfo D F lib) i32.
Definition GetDeviceHealth := plain (cndevGetCardHealthState D F lib) i32.
Definition GetDeviceMemory := plain (cndevGetMemoryUsage D F lib)
  (λ c, (i64 (C.physicalMemoryUsed c), i64 (C.physicalMemoryTotal c),
         i64 (C.virtualMemoryUsed c), i64 (C.virtualMemoryTotal c))).
Definition GetDeviceMLULinkCapability (idx link : Z) := plain (cndevGetMLULinkCapability D F lib (i32 link))
  (λ c, (u32 (C.p2pTransfer c), u32 (C.interlakenSerdes c))) idx.
Definition GetDeviceMLULinkCounter (idx link : Z) := plain (cndevGetMLULinkCounter D F lib (i32 link))
  (λ c, (u64 (C.cntrReadByte c), u64 (C.cntrReadPackage c), u64 (C.cntrWriteByte c),
         u64 (C.cntrWritePackage c), u64 (C.errCorrected c), u64 (C.errCRC24 c), u64 (C.errCRC32 c),
         u64 (C.errEccDouble c), u64 (C.errFatal c), u64 (C.errReplay c), u64 (C.errUncorrected c))) idx.
Definition GetDeviceMLULinkPortMode (idx link : Z) := plain (cndevGetMLULinkPortMode D F lib (i32 link)) u32 idx.
Definition GetDeviceMLULinkPortNumber (idx : Z) (d : D) : Z * D :=
  let '(n, d) := cndevGetMLULinkPortNumber D F lib (i32 idx) d in (i32 n, d).
Definition GetDeviceMLULinkSpeedInfo (idx link : Z) := plain (cndevGetMLULinkSpeedInfo D F lib (i32 link))
  (λ c, (c.1, u32 c.2)) idx.
Definition GetDeviceMLULinkStatus (idx link : Z) := plain (cndevGetMLULinkStatus D F lib (i32 link))
  (λ c, (u32 (C.isActive c), u32 (C.serdesState c))) idx.
Definition GetDeviceMLULinkVersion (idx link : Z) := plain (cndevGetMLULinkVersion D F lib (i32 link))
  (λ c, (u32 (C.majorVersion c), u32 (C.minorVersion c), u32 (C.buildVersion c))) idx.
Definition GetDeviceModel (idx : Z) (d : D) : string * D := cndevGetCardNameStringByDevId D F lib (i32 idx) d.
Definition GetDeviceNUMANodeID := plain (cndevGetNUMANodeIdByDevId D F lib) i32.
Definition GetDevicePCIeInfo := plain (cndevGetPCIeInfo D F lib)
  (λ c, (i32 (C.slotID c), u32 (C.subsystemId c), u32 (C.deviceId c), u16 (C.vendor c),
         u16 (C.subsystemVendor c), u32 (C.domain c), u32 (C.bus c), u32 (C.device c), u32 (C.function c))).
Definition GetDevicePower := plain (cndevGetPowerInfo D F lib) i32.
Definition GetDeviceVersion := plain (cndevGetVersionInfo D F lib)
  (λ c, (u32 (C.mcuMajorVersion c), u32 (C.mcuMinorVersion c), u32 (C.mcuBuildVersion c),
         u32 (C.driverMajorVersion c), u32 (C.driverMinorVersion c), u32 (C.driverBuildVersion c))).
Definition GetDeviceVfState := plain (cndevGetCardVfState D F lib) i32.

(** ** Slices and texts *)

(** A method that returns nothing with an error. *)
Definition checked {T U} (f : Fn D T) (conv : T → outcome U) (idx : Z) (d : D) : outcome U * D :=
  let '(r, x, d) := f (i32 idx) d in
  match errorString r with Some e => (Err e, d) | None => (conv x, d) end.

(** [make] with [n] elements and a loop over the first [n] elements of an array of [size]:
    a count that is negative, as a Go integer of the width it has, or too large panics. *)
Definition read_array (size : nat) (conv : Z → Z) (n : Z) (arr : list Z) : outcome (list Z) :=
  if (0 <=? n) && (n <=? Z.of_nat size)
  then Ok (conv <$> take (Z.to_nat n) (c_array size arr)) else Panic.

Definition GetDeviceCPUUtil := checked (cndevGetDeviceCPUUtilization D F lib)
  (λ c, let! core := read_array 80 u8 (u8 (C.coreNumber c)) (C.cpuCoreUtilization c) in
        Ok (u16 (C.chipUtilization c), core)).
Definition GetDeviceImageCodecUtil := checked (cndevGetImageCodecUtilization D F lib)
  (λ c, read_array 20 i32 (i32 c.1) c.2).
Definition GetDeviceTinyCoreUtil := checked (cndevGetTinyCoreUtilization D F lib)
  (λ c, read_array 10 i32 (i32 c.1) c.2).
Definition GetDeviceVideoCodecUtil := checked (cndevGetVideoCodecUtilization D F lib)
  (λ c, read_array 20 i32 (i32 c.1) c.2).

Definition GetDeviceTemperature (idx : Z) (d : D) : outcome (Z * list Z) * D :=
  match GetDeviceClusterCount idx d with
  | (_, Some e, d) => (Err e, d)
  | (cluster, None, d) =>
      checked (cndevGetTemperatureInfo D F lib)
        (λ c, let! t := read_array 20 i32 cluster (C.cluster c) in Ok (i32 (C.board c), t)) idx d
  end.

Definition GetDeviceUtil (idx : Z) (d : D) : outcome (Z * list Z) * D :=
  match GetDeviceCoreNum idx d with
  | (_, Some e, d) => (Err e, d)
  | (core, None, d) =>
      checked (cndevGetDeviceUtilizationInfo D F lib)
        (λ c, let! u := read_array 80 i32 core (C.coreUtilization c) in
              Ok (i32 (C.averageCoreUtilization c), u)) idx d
  end.

(** The library writes the low half of the count; the array has 10 elements. *)
Definition GetDeviceProcessUtil := checked (cndevGetProcessUtilization D F lib)
  (λ c, let n := u32 c.1 in
        if n <=? 10 then
          let results := take (Z.to_nat n) c.2 in
          let field (f : C.ProcessUtilization → Z) := (λ p, u32 (f p)) <$> results in
          Ok (field C.pid, field C.ipuUtil, field C.jpuUtil, field C.memUtil, field C.vpuDecUtil,
              field C.vpuEncUtil)
        else Panic).

(** [%x] of an [int64]. *)
Fixpoint hex_digits (fuel : nat) (z : Z) (acc : string) : string :=
  match fuel with
  | O => acc
  | S fuel' =>
      let c := match str_elems "0123456789abcdef" !! Z.to_nat (z mod 16) with Some c => c | None => "0"%char end in
      if z <? 16 then String c acc else hex_digits fuel' (z / 16) (String c acc)
  end.
Definition hex_int64 (z : Z) : string :=
  if z <? 0 then "-" +:+ hex_digits 16 (- z) "" else hex_digits 16 z "".

Definition GetDeviceSN := checked (cndevGetCardSN D F lib) (λ sn, Ok (hex_int64 (i64 sn))).
Definition GetDeviceUUID := checked (cndevGetUUID D F lib) (λ uuid, Ok uuid).

(** [ParseFloat]: of "width.decimal". *)
Definition GetDeviceDDRInfo {G} (ParseFloat : string → string + G) := checked (cndevGetDDRInfo D F lib)
  (λ c, match ParseFloat (Itoa (u32 (C.bandWidth c)) +:+ "." +:+ Itoa (u32 (C.bandWidthDecimal c))) with
        | inl e => Err e
        | inr x => Ok (u32 (C.dataWidth c), x)
        end).

End client.

(** ** The interface *)

(** The methods of the interface: values with an error beside them, or a value or an error,
    and the next state behind the library. *)
Definition Rs (D T : Type) : Type := D → T * option string * D.
Definition Ro (D T : Type) : Type := D → outcome T * D.

Record Cndev (D F G : Type) := mkCndev {
  i_Init : nat → D → option string * nat * D;
  i_Release : nat → D → option string * nat * D;
  i_GetDeviceArmOsMemory : Z → Rs D (Z * Z);
  i_GetDeviceClusterCount : Z → Rs D Z;
  i_GetDeviceCoreNum : Z → Rs D Z;
  i_GetDeviceCount : Rs D Z;
  i_GetDeviceCPUUtil : Z → Ro D (Z * list Z);
  i_GetDeviceCRCInfo : Z → Rs D (Z * Z);
  i_GetDeviceCurrentPCIeInfo : Z → Rs D (Z * Z);
  i_GetDeviceDDRInfo : Z → Ro D (Z * G);
  i_GetDeviceECCInfo : Z → Rs D (Z * Z * Z * Z * Z * Z * Z * Z);
  i_GetDeviceFanSpeed : Z → Rs D Z;
  i_GetDeviceHealth : Z → Rs D Z;
  i_GetDeviceImageCodecUtil : Z → Ro D (list Z);
  i_GetDeviceMemory : Z → Rs D (Z * Z * Z * Z);
  i_GetDeviceMLULinkCapability : Z → Z → Rs D (Z * Z);
  i_GetDeviceMLULinkCounter : Z → Z → Rs D (Z * Z * Z * Z * Z * Z * Z * Z * Z * Z * Z);
  i_GetDeviceMLULinkPortMode : Z → Z → Rs D Z;
  i_GetDeviceMLULinkPortNumber : Z → D → Z * D;
  i_GetDeviceMLULinkSpeedInfo : Z → Z → Rs D (F * Z);
  i_GetDeviceMLULinkStatus : Z → Z → Rs D (Z * Z);
  i_GetDeviceMLULinkVersion : Z → Z → Rs D (Z * Z * Z);
  i_GetDeviceModel : Z → D → string * D;
  i_GetDeviceNUMANodeID : Z → Rs D Z;
  i_GetDevicePCIeInfo : Z → Rs D (Z * Z * Z * Z * Z * Z * Z * Z * Z);
  i_GetDevicePower : Z → Rs D Z;
  i_GetDeviceProcessUtil : Z → Ro D (list Z * list Z * list Z * list Z * list Z * list Z);
  i_GetDeviceSN : Z → Ro D string;
  i_GetDeviceTemperature : Z → Ro D (Z * list Z);
  i_GetDeviceTinyCoreUtil : Z → Ro D (list Z);
  i_GetDeviceUtil : Z → Ro D (Z * list Z);
  i_GetDeviceUUID : Z → Ro D string;
  i_GetDeviceVersion : Z → Rs D (Z * Z * Z * Z * Z * Z);
  i_GetDeviceVfState : Z → Rs D Z;
  i_GetDeviceVideoCodecUtil : Z → Ro D (list Z)
}.

Definition NewCndevClient {D F G : Type} (lib : Lib D F) (ParseFloat : string → string + G) : Cndev D F G := {|
  i_Init := Init lib;
  i_Release := Release lib;
  i_GetDeviceArmOsMemory := GetDeviceArmOsMemory lib;
  i_GetDeviceClusterCount := GetDeviceClusterCount lib;
  i_GetDeviceCoreNum := GetDeviceCoreNum lib;
  i_GetDeviceCount := GetDeviceCount lib;
  i_GetDeviceCPUUtil := GetDeviceCPUUtil lib;
  i_GetDeviceCRCInfo := GetDeviceCRCInfo lib;
  i_GetDeviceCurrentPCIeInfo := GetDeviceCurrentPCIeInfo lib;
  i_GetDeviceDDRInfo := GetDeviceDDRInfo lib ParseFloat;
  i_GetDeviceECCInfo := GetDeviceECCInfo lib;
  i_GetDeviceFanSpeed := GetDeviceFanSpeed lib;
  i_GetDeviceHealth := GetDeviceHealth lib;
  i_GetDeviceImageCodecUtil := GetDeviceImageCodecUtil lib;
  i_GetDeviceMemory := GetDeviceMemory lib;
  i_GetDeviceMLULinkCapability := GetDeviceMLULinkCapability lib;
  i_GetDeviceMLULinkCounter := GetDeviceMLULinkCounter lib;
  i_GetDeviceMLULinkPortMode := GetDeviceMLULinkPortMode lib;
  i_GetDeviceMLULinkPortNumber := GetDeviceMLULinkPortNumber lib;
  i_GetDeviceMLULinkSpeedInfo := GetDeviceMLULinkSpeedInfo lib;
  i_GetDeviceMLULinkStatus := GetDeviceMLULinkStatus lib;
  i_GetDeviceMLULinkVersion := GetDeviceMLULinkVersion lib;
  i_GetDeviceModel := GetDeviceModel lib;
  i_GetDeviceNUMANodeID := GetDeviceNUMANodeID lib;
  i_GetDevicePCIeInfo := GetDevicePCIeInfo lib;
  i_GetDevicePower := GetDevicePower lib;
  i_GetDeviceProcessUtil := GetDeviceProcessUtil lib;
  i_GetDeviceSN := GetDeviceSN lib;
  i_GetDeviceTemperature := GetDeviceTemperature lib;
  i_GetDeviceTinyCoreUtil := GetDeviceTinyCoreUtil lib;
  i_GetDeviceUtil := GetDeviceUtil lib;
  i_GetDeviceUUID := GetDeviceUUID lib;
  i_GetDeviceVersion := GetDeviceVersion lib;
  i_GetDeviceVfState := GetDeviceVfState lib;
  i_GetDeviceVideoCodecUtil := GetDeviceVideoCodecUtil lib
|}.

(** ** The client of MluInfo.go *)

(** [cast.ToUint] of a device name; the answers of a client for one device, one after the
    other. *)
Definition mlu_answers {D F G : Type} (client : Cndev D F G) (ToUint : string → Z) (d : D) (v : string)
    : outcome mlu_device * D :=
  let '(mem, err, d) := i_GetDeviceMemory D F G client (ToUint v) d in
  let '(util, d) := i_GetDeviceUtil D F G client (ToUint v) d in
  let '(model, d) := i_GetDeviceModel D F G client (ToUint v) d in
  match util with
  | Panic => (Panic, d)
  | _ =>
      (Ok (mkMlu (match err with None => Some (mem.1.1.1, mem.1.1.2) | Some _ => None end)
                 (match util with Ok (avg, _) => Some avg | _ => None end) model), d)
  end.

(** ** Slices stay within the arrays *)

Lemma i32_range z : in_i32 (i32 z).
Proof. unfold in_i32, i32. pose proof (Z.mod_pos_bound (z + 2 ^ 31) (2 ^ 32)). lia. Qed.

Lemma read_array_spec size conv n arr :
  (0 <= n <= Z.of_nat size ∧
     ∃ l, read_array size conv n arr = Ok l ∧ length l = Z.to_nat n ∧ Forall (λ x, ∃ y, x = conv y) l) ∨
  (~ (0 <= n <= Z.of_nat size) ∧ read_array size conv n arr = Panic).
Proof.
  unfold read_array. destruct (Z.leb_spec 0 n), (Z.leb_spec n (Z.of_nat size)); cbn [andb];
    [left; split; [lia|]|right; split; [lia|done]..].
  eexists. split; [done|]. split.
  - rewrite length_fmap, length_take. unfold c_array. rewrite length_take, length_app, length_replicate. lia.
  - apply Forall_fmap, Forall_true. intros x. by exists x.
Qed.

Section bounds.
Context {D F : Type} (lib : Lib D F).

(** The load of a device: with an error there is no value; otherwise there is one value for
    each core, at most 80, all within [int32]; a count outside of the array panics. *)
Lemma GetDeviceUtil_bounds idx d :
  match (GetDeviceUtil lib idx d).1 with
  | Ok (avg, core) =>
      in_i32 avg ∧ Forall in_i32 core ∧ Z.of_nat (length core) = (GetDeviceCoreNum lib idx d).1.1 ∧
      (length core ≤ 80)%nat
  | Err e => (GetDeviceCoreNum lib idx d).1.2 = Some e ∨ ∃ r, errorString lib r = Some e
  | Panic => 80 < (GetDeviceCoreNum lib idx d).1.1
  end.
Proof.
  unfold GetDeviceUtil. pose proof (u64_range (i32 (cndevGetCoreCount D F lib (i32 idx) d).1.2)) as Hc.
  unfold GetDeviceCoreNum, plain. destruct (cndevGetCoreCount D F lib (i32 idx) d) as [[r x] d1].
  cbn [fst snd] in *. destruct (errorString lib r) as [e|]; [by left|]. unfold checked.
  destruct (cndevGetDeviceUtilizationInfo D F lib (i32 idx) d1) as [[r2 c] d2]. cbn [fst snd].
  destruct (errorString lib r2) as [e|] eqn:E2; [right; by exists r2|]. cbn [fst].
  unfold in_u64 in Hc.
  destruct (read_array_spec 80 i32 (u64 (i32 x)) (C.coreUtilization c)) as [(Hn & l & -> & Hl & Hf)|[Hn ->]];
    cbn [obind]; [|lia].
  split; [apply i32_range|]. split; [|lia].
  eapply Forall_impl; [exact Hf|]. intros z [y ->]. apply i32_range.
Qed.

(** The query of a device panics only when the library counts more than 80 cores; what it
    reports fits its types. *)
Lemma mlu_answers_bounds {G} (ParseFloat : string → string + G) ToUint d v :
  match (mlu_answers (NewCndevClient lib ParseFloat) ToUint d v).1 with
  | Ok dev => (∀ used total, mlu_mem dev = Some (used, total) → in_i64 used ∧ in_i64 total) ∧
              (∀ util, mlu_util dev = Some util → in_i32 util)
  | Err _ => False
  | Panic => ∃ d', 80 < (GetDeviceCoreNum lib (ToUint v) d').1.1
  end.
Proof.
  unfold mlu_answers, NewCndevClient. cbn [i_GetDeviceMemory i_GetDeviceUtil i_GetDeviceModel].
  unfold GetDeviceMemory, plain. destruct (cndevGetMemoryUsage D F lib _ d) as [[r x] d1].
  pose proof (GetDeviceUtil_bounds (ToUint v) d1) as Hu.
  destruct (GetDeviceUtil lib (ToUint v) d1) as [util d2]. cbn [fst] in Hu.
  destruct (GetDeviceModel lib (ToUint v) d2) as [model d3].
  assert (∀ used total, match errorString lib r with None => Some (i64 (C.physicalMemoryUsed x), i64 (C.physicalMemoryTotal x)) | Some _ => None end
    = Some (used, total) → in_i64 used ∧ in_i64 total) as Hm.
  { intros used total. destruct (errorString lib r); [done|]. intros [= <- <-]. split; apply i64_range. }
  destruct util as [[avg core]|e|]; cbn [fst mlu_mem mlu_util]; [split; [done|] |split; [done|done]|by exists d1].
  intros u [= <-]. by destruct Hu as [? _].
Qed.

End bounds.
