(* ===== verification/GpuInit.v ===== *)
(** * The choice of the device backend

    The package initialisations of gpu/GpuInfo.go, gpu/atlas/AtlasInfo.go,
    gpu/nvidia/NvidiaInfo.go, gpu/sophgo/SophgoInfo.go and gpu/mlu/MluInfo.go, with
    [SetExecutor] and [GetExecutor]; gpu/sophgo/bmctl: [InitCtl]; utils/dl/dl.go and the
    loading of gpu/atlas/dsmi; gpu/atlas/dsmi/dsmi.go: [GetDeviceInfoByDeviceIds] and
    [GetDeviceCount]; [ContainerDevices] of gpu/mlu.

    Each backend that finds its library or device registers itself in one global variable
    before [main] runs; [ApiService] asks the one that is there. *)

From S2P Require Import Prelude GoStrings Dcmi Accelerators ApiService.

(** ** Shared libraries (utils/dl) *)

(** The dynamic linker: a handle or the text of [dlerror]. *)
Record Linker := mkLinker {
  dlopen : string → Z → string + nat;
  dlclose : option nat → option string;
  dlsym : option nat → string → option string          (** the pending error after the call *)
}.

Record DynamicLibrary := mkDl { dl_Name : string; dl_Flags : Z; dl_handle : option nat }.

Definition dl_New (name : string) (flags : Z) : DynamicLibrary := mkDl name flags None.

Section dl.
Context (ld : Linker).

Definition dl_Open (l : DynamicLibrary) : outcome DynamicLibrary :=
  match dlopen ld (dl_Name l) (dl_Flags l) with
  | inl err => Err err
  | inr h => Ok (mkDl (dl_Name l) (dl_Flags l) (Some h))
  end.

Definition dl_Close (l : DynamicLibrary) : outcome unit :=
  match dlclose ld (dl_handle l) with Some err => Err err | None => Ok () end.

(** Errors of earlier calls are cleared first, so that only the one of this lookup counts. *)
Definition dl_Lookup (l : DynamicLibrary) (symbol : string) : outcome unit :=
  match dlsym ld (dl_handle l) symbol with Some err => Err err | None => Ok () end.

(** [dsmi.Init]: the library of the host or, failing that, the other one. *)
Definition dcmiLibraryLoadFlags : Z := Z.lor 1 256.    (** [RTLD_LAZY | RTLD_GLOBAL] *)

Definition dsmi_load : outcome DynamicLibrary :=
  match dl_Open (dl_New "libdrvdsmi_host.so" dcmiLibraryLoadFlags) with
  | Ok lib => Ok lib
  | _ => match dl_Open (dl_New "libdrvdsmi.so" dcmiLibraryLoadFlags) with
         | Ok lib => Ok lib
         | _ => Panic
         end
  end.

End dl.

(** ** Backends *)

Inductive Executor := EAtlas (dcmi : bool) | ENvidia | ESophgo | EMlu.

#[global] Instance Executor_eq_dec : EqDecision Executor.
Proof. solve_decision. Defined.

(** What a node has. *)
Record Hardware (D : Type) := mkHardware {
  hw_dcmi : DcmiLib D;
  hw_rt : Rt D;
  hw_dsmi : DsmiLib;
  hw_nvml : outcome Z;                 (** the result of [nvml.Init]; a missing library panics *)
  hw_stat : string → bool;             (** whether [os.Stat] succeeds *)
  hw_bmdev : option string;            (** the error of opening the control device *)
  hw_cndev : outcome (option string);  (** the error of the client's [Init] *)
  hw_docker : option string            (** the error of [NewEnvClient] *)
}.
Arguments hw_dcmi {D}. Arguments hw_rt {D}. Arguments hw_dsmi {D}. Arguments hw_nvml {D}. Arguments hw_stat {D}.
Arguments hw_bmdev {D}. Arguments hw_cndev {D}. Arguments hw_docker {D}.

(** [InitCtl]: the descriptor is closed in any case. *)
Definition InitCtl (open_err : option string) : option string := open_err.

Section init.
Context {D : Type} (hw : Hardware D).

(** The environment of the process after package gpu, and whether there is a Docker client. *)
Definition gpu_init (getenv : string → string) : (string → string) * bool :=
  let getenv := if decide (getenv "DOCKER_API_VERSION" = "")
                then λ n, if decide (n = "DOCKER_API_VERSION") then "1.23" else getenv n else getenv in
  (getenv, match hw_docker hw with Some _ => false | None => true end).

(** What is registered, if anything, the flag [disabledFlag], and the libraries after the
    deferred [DcShutDown]. *)
Definition atlas_init : option Executor * bool * Rt D :=
  let '(r, s) := DcInit (hw_dcmi hw) (hw_rt hw) in
  let done := (DcShutDown (hw_dcmi hw) s).2 in
  match r with
  | Ok _ => (Some (EAtlas true), false, done)
  | Err _ =>
      match dsmi_Init (hw_dsmi hw) with
      | Ok _ => (Some (EAtlas false), false, done)
      | _ => (None, true, done)
      end
  | Panic => (None, true, done)
  end.

(** Of the places, the last that exists; none is looked at when [nvml.Init] panics. *)
Definition smi_places : list string :=
  ["/host/usr/bin/nvidia-smi"; "/host/usr/local/bin/nvidia-smi"; "/usr/bin/nvidia-smi"; "/usr/local/bin/nvidia-smi"].

Definition smi_path : string := foldl (λ path p, if hw_stat hw p then p else path) "" smi_places.

Definition nvidia_init : option Executor * string :=
  match hw_nvml hw with
  | Ok r => (if (r =? 0)%Z then Some ENvidia else None, smi_path)
  | _ => (None, "")
  end.

Definition sophgo_init : option Executor :=
  match InitCtl (hw_bmdev hw) with None => Some ESophgo | Some _ => None end.

Definition mlu_init : option Executor * bool :=
  match hw_cndev hw with
  | Ok None => (Some EMlu, false)
  | _ => (None, true)
  end.

(** ** Registration *)

Inductive Package := PAtlas | PNvidia | PSophgo | PMlu.

Definition register (p : Package) : option Executor :=
  match p with
  | PAtlas => atlas_init.1.1
  | PNvidia => nvidia_init.1
  | PSophgo => sophgo_init
  | PMlu => mlu_init.1
  end.

Definition SetExecutor (executor : option Executor) (e : Executor) : option Executor := Some e.

(** The packages in the order in which they are initialised. *)
Definition initialise (order : list Package) : option Executor :=
  foldl (λ executor p, match register p with Some e => SetExecutor executor e | None => executor end) None order.

Definition GetExecutor (executor : option Executor) : outcome Executor :=
  match executor with
  | None => Err "not hava executor"
  | Some e => Ok e
  end.

(** The packages that Service/GpuInfoService.go imports, sorted by their paths. *)
Definition linked : list Package := [PAtlas; PNvidia; PSophgo].

End init.

(** ** Older queries *)

Section dsmi.
Context (lib : DsmiLib).

(** The memory structure is used whether or not the call succeeded. *)
Definition id_info (v : Z) : AtlasInfo :=
  let '(memory_size, utiliza) := (dsmi_get_memory_info lib v).2 in
  let s := Z.quot (i64 (i64 (u32 utiliza) * i64 (u64 memory_size))) 100 in
  {| a_Total := u64 memory_size; a_Used := u64 s; a_CoreRate := u32 (dsmi_get_device_utilization_rate lib v 2).2;
     a_ChipType := ""; a_ChipName := "" |}.

Definition GetDeviceInfoByDeviceIds (ids : list Z) : gmap Z AtlasInfo :=
  foldl (λ infos v, <[v := id_info v]> infos) ∅ ids.

(** A C int is written into the lower half of a Go int that is zero. *)
Definition GetDeviceCount : Z * option string :=
  let '(ret, count) := dsmi_get_device_count lib in
  (u32 count, if (ret =? 0)%Z then None else Some "dsmi_list_device error").

End dsmi.

(** The Cambricon backend looks for the device files of Sophgo. *)
Definition Mlu_ContainerDevices (devices : option (list string)) : list string :=
  match devices with
  | None => []
  | Some ds => trailing_digits <$> filter (λ d, Contains d "/dev/bm-tpu" = true) ds
  end.

(** ** Lemmas *)

(** Loading through the linker is what [Dcmi.dsmi_Init] says of the two libraries. *)
Lemma dsmi_load_refines ld lib :
  dsmi_open_host lib = is_ok (dl_Open ld (dl_New "libdrvdsmi_host.so" dcmiLibraryLoadFlags)) →
  dsmi_open lib = is_ok (dl_Open ld (dl_New "libdrvdsmi.so" dcmiLibraryLoadFlags)) →
  is_ok (dsmi_load ld) = is_ok (dsmi_Init lib) ∧ (dsmi_load ld = Panic ↔ dsmi_Init lib = Panic).
Proof.
  unfold dsmi_load, dsmi_Init. intros -> ->.
  destruct (dl_Open ld (dl_New "libdrvdsmi_host.so" _)) as [a|a|], (dl_Open ld (dl_New "libdrvdsmi.so" _)) as [b|b|]; simpl;
    split; done.
Qed.

(** What was opened can be closed; a library that was not has no handle. *)
Lemma dl_Open_handle ld l l' : dl_Open ld l = Ok l' → dl_Name l' = dl_Name l ∧ is_Some (dl_handle l').
Proof. unfold dl_Open. destruct (dlopen _ _ _); [done|]. intros [= <-]. done. Qed.

(** The path of nvidia-smi exists, or there is none. *)
Lemma smi_path_exists {D} (hw : Hardware D) :
  (smi_path hw = "" ∧ Forall (λ p, hw_stat hw p = false) smi_places) ∨
  (smi_path hw ∈ smi_places ∧ hw_stat hw (smi_path hw) = true).
Proof.
  unfold smi_path. induction smi_places as [|p l IH] using rev_ind; [left; by split|].
  rewrite foldl_app. cbn [foldl]. destruct (hw_stat hw p) eqn:E.
  - right. split; [|done]. apply elem_of_app. right. by left.
  - destruct IH as [[H1 H2]|[H1 H2]]; [left|right]; split; try done.
    + apply Forall_app. split; [done|]. by constructor.
    + apply elem_of_app. by left.
Qed.

Section choice.
Context {D : Type} (hw : Hardware D).

(** The last backend that registers is the one that is asked. *)
Lemma initialise_last order : initialise hw order = last (omap (register hw) order).
Proof.
  unfold initialise. induction order as [|p order IH] using rev_ind; [done|].
  rewrite foldl_app, omap_app, last_app. cbn [foldl omap list_omap]. destruct (register hw p); [done|]. by rewrite IH.
Qed.

Lemma register_linked p : p ∈ linked → register hw p ≠ Some EMlu.
Proof.
  unfold linked. rewrite !elem_of_cons. intros [->|[->|[->|[]%not_elem_of_nil]]]; simpl.
  - unfold atlas_init. destruct (DcInit _ _) as [[]]; [done| |done]. by destruct (dsmi_Init _).
  - unfold nvidia_init. destruct (hw_nvml hw); try done. by case_match.
  - unfold sophgo_init. by destruct (InitCtl _).
Qed.

(** Of the backends that are linked into the program, whatever the order in which their
    packages are initialised, the one that serves the devices is the last that found its
    library or device; there is an error exactly when none did. The Cambricon backend is
    never the one, and with the order of the import paths a Sophgo device hides every
    other. A node on which only the older Ascend library can be loaded has a backend, but
    it reports no device. *)
Theorem executor_choice order :
  order ≡ₚ linked →
  (is_err (GetExecutor (initialise hw order)) = true ↔ ∀ p, p ∈ linked → register hw p = None) ∧
  (∀ e, GetExecutor (initialise hw order) = Ok e → e ≠ EMlu ∧
     ∃ before p after, order = before ++ p :: after ∧ register hw p = Some e ∧ Forall (λ q, register hw q = None) after) ∧
  (order = linked → hw_bmdev hw = None → initialise hw order = Some ESophgo) ∧
  (initialise hw order = Some (EAtlas false) → InfoAll_dsmi (hw_dsmi hw) = Ok ∅).
Proof.
  intros Hord. split; [|split; [|split]].
  - rewrite initialise_last. destruct (last (omap (register hw) order)) as [e|] eqn:E; simpl.
    + split; [done|]. intros Hn. apply last_Some_elem_of, list_elem_of_omap in E as (p & Hp & E).
      rewrite Hn in E; [done|]. by rewrite <-Hord.
    + split; [intros _ p Hp|done]. apply last_None in E. destruct (register hw p) as [e|] eqn:Er; [|done].
      assert (e ∈ omap (register hw) order) as Hin.
      { apply list_elem_of_omap. exists p. split; [by rewrite Hord|done]. }
      rewrite E in Hin. by apply not_elem_of_nil in Hin.
  - intros e He. assert (initialise hw order = Some e) as E by (destruct (initialise hw order); by simplify_eq/=).
    assert (∀ p, p ∈ order → p ∈ linked) as Hsub by (intros p; by rewrite Hord). clear Hord He.
    unfold initialise in E. induction order as [|p order IH] using rev_ind; [done|].
    rewrite foldl_app in E. cbn [foldl] in E. destruct (register hw p) as [e'|] eqn:Er.
    + injection E as ->. split.
      * intros ->. apply (register_linked p); [|done]. apply Hsub, elem_of_app. right. by left.
      * by exists order, p, [].
    + destruct IH as (Hm & before & q & after & -> & Hq & Ha); [done|intros q Hq; apply Hsub, elem_of_app; by left|].
      split; [done|]. exists before, q, (after ++ [p]). rewrite <-app_assoc. split; [done|]. split; [done|].
      apply Forall_app. split; [done|]. by constructor.
  - intros -> Hb. rewrite initialise_last. unfold linked. cbn [omap list_omap register].
    unfold sophgo_init, InitCtl. rewrite Hb. by destruct (atlas_init hw).1.1, (nvidia_init hw).1.
  - intros _. apply InfoAll_dsmi_empty.
Qed.

End choice.

(** The number of devices is never negative: a negative count becomes a large one. *)
Lemma GetDeviceCount_range lib : (0 <= (GetDeviceCount lib).1 < 2 ^ 32)%Z.
Proof. unfold GetDeviceCount. destruct (dsmi_get_device_count lib). simpl. apply u32_range. Qed.

(** Every identifier asked for is in the table, with the memory in the unit of the library:
    [AllDeviceInfo] reports the same memory a million times larger. *)
Lemma GetDeviceInfoByDeviceIds_keys lib ids v :
  GetDeviceInfoByDeviceIds lib ids !! v = if decide (v ∈ ids) then Some (id_info lib v) else None.
Proof.
  unfold GetDeviceInfoByDeviceIds. induction ids as [|w ids IH] using rev_ind; [done|].
  rewrite foldl_app. cbn [foldl]. destruct (decide (v = w)) as [->|Hne].
  - rewrite lookup_insert_eq, decide_True; [done|]. apply elem_of_app. right. by left.
  - rewrite lookup_insert_ne by done. rewrite IH. apply decide_ext. rewrite elem_of_app, list_elem_of_singleton. naive_solver.
Qed.

Lemma id_info_unit lib v info :
  atlas_info lib v = Some info → a_Total info = u64 (a_Total (id_info lib v) * 1000000).
Proof.
  unfold atlas_info, id_info. destruct (dsmi_get_memory_info lib v) as [ret [size util]]. simpl.
  destruct (ret =? 0)%Z; [|done]. destruct (dsmi_get_chip_info lib v). by intros [= <-].
Qed.

(** ** An example *)

(** A node with Ascend devices, whose Cambricon client would start as well. *)
Definition demo_dsmi : DsmiLib :=
  {| dsmi_open_host := false; dsmi_open := true; dsmi_close_ret := 0; dsmi_get_device_count := (0, 1)%Z;
     dsmi_list_device := λ _, (0%Z, [0%Z]); dsmi_get_memory_info := λ _, (0, (16000, 75))%Z;
     dsmi_get_device_utilization_rate := λ _ _, (0, 37)%Z; dsmi_get_chip_info := λ _, ([], []) |}.

Definition demo_hardware : Hardware unit :=
  mkHardware _ (demo_lib None) demo_rt demo_dsmi Panic (λ _, false) (Some "no such device") (Ok None) None.

Lemma executor_choice_witness :
  GetExecutor (initialise demo_hardware linked) = Ok (EAtlas true) ∧ EAtlas true ≠ EMlu.
Proof.
  assert (GetExecutor (initialise demo_hardware linked) = Ok (EAtlas true)) as E by (vm_compute; reflexivity).
  split; [exact E|].
  exact (proj1 (proj1 (proj2 (executor_choice demo_hardware linked (reflexivity _))) (EAtlas true) E)).
Defined.
