(* ===== verification/WebServer.v ===== *)
(** * The HTTP server of a node

    server/WebServer.go: the routes of [Handler] with the multiplexer of net/http, and one
    dispatcher over the handlers of [QuotaService], [LogService], [PodFiles], [FileTail],
    [ApiService] and [Accelerators], on the state of a node: its quotas, its log
    connections ([Hub]) and the GPU check. *)

From S2P Require Import Prelude GoStrings GoPath GoIo GoUrl IoUtils Clients Quota Connection Token.
From S2P Require Import QuotaService PodLog Hub PodFiles FileTail LogService Dcmi ApiService.
From S2P Require Import Accelerators.

(** ** Routes *)

Inductive Route :=
| RLog | RCheckGpu | RContainerGpuInfo | RDownloadLog | RUploadLogByTrackNo
| RSetDirQuota | RGetNodeSpaceInfo | RGetDirQuotaInfo | RReleaseDir | RGetImageDiskQuotaInfo
| RPodFiles | RPodFile | RTailFile | RTailFileInter
| RListModelFile | RSaveModelFile | RContainerGpuInfoForMonitor.

#[global] Instance Route_eq_dec : EqDecision Route.
Proof. solve_decision. Defined.

(** The calls of [http.HandleFunc]. *)
Definition routes : list (string * Route) :=
  [("/api/log", RLog); ("/api/checkGpu", RCheckGpu); ("/api/containerGpuInfo", RContainerGpuInfo);
   ("/api/downloadLog", RDownloadLog); (API_UPLOADLOGBYTRACKNO, RUploadLogByTrackNo);
   (API_SETQUOTA, RSetDirQuota); (API_GETNODESPACEINFO, RGetNodeSpaceInfo);
   (API_GETDIRQUOTAINFO, RGetDirQuotaInfo); (API_RELEASEDIR, RReleaseDir);
   (API_GETIMAGEQUOTAINFO, RGetImageDiskQuotaInfo); (API_FILES, RPodFiles); (API_FILE, RPodFile);
   ("/api/tailFile", RTailFile); (INTER_TAIL_FILE, RTailFileInter);
   ("/api/listModeFile", RListModelFile); ("/api/saveModeFile", RSaveModelFile);
   ("/api/containerGpuInfoForMonitor", RContainerGpuInfoForMonitor)].

(** [cleanPath] of net/http: the slash at the end is kept. *)
Definition cleanPath (p : string) : string :=
  if decide (p = "") then "/"
  else
    let p := if HasPrefix p "/" then p else "/" +:+ p in
    let np := Clean p in
    if HasSuffix p "/" && negb (bool_decide (np = "/")) then
      if bool_decide (p = np +:+ "/") then p else np +:+ "/"
    else np.

Definition find_route (p : string) : option Route :=
  match list_find (λ e, e.1 = p) routes with Some (_, e) => Some e.2 | None => None end.

(** A pattern that ends in a slash stands for all paths below; of several, the longest. *)
Definition longer (best e : string * Route) : string * Route :=
  if decide (String.length best.1 < String.length e.1) then e else best.

Definition subtree_route (p : string) : option Route :=
  match filter (λ e, HasSuffix e.1 "/" = true ∧ HasPrefix p e.1 = true) routes with
  | [] => None
  | e :: es => Some (foldl longer e es).2
  end.

Inductive mux_result := MuxFound (r : Route) | MuxMoved (path : string) | MuxNotFound.

(** [ServeMux.Handler] without host patterns: a path that lacks the slash of a subtree, or
    is not clean, is redirected. *)
Definition ServeMux (path : string) : mux_result :=
  let p := cleanPath path in
  match find_route p, find_route (p +:+ "/") with
  | None, Some _ => MuxMoved (p +:+ "/")
  | found, _ =>
      if bool_decide (p ≠ path) then MuxMoved p
      else
        match found with
        | Some r => MuxFound r
        | None => match subtree_route p with Some r => MuxFound r | None => MuxNotFound end
        end
  end.

(** ** Dispatch *)

Record HttpRequest := mkHttpRequest {
  hr_path : string;
  hr_url : string;           (** with its query *)
  hr_target : string;        (** the header Target_host *)
  hr_view : ReqView;         (** the method and the other headers *)
  hr_body : bytes;
  hr_upgraded : bool         (** whether [Upgrade] succeeds *)
}.

Definition hr_query (r : HttpRequest) (key : string) : string := QueryGet (hr_url r) key.
Definition hr_api (r : HttpRequest) : ApiRequest := mkApiRequest (hr_target r) (hr_query r) (hr_body r).

(** What the world around the node answers while one request is handled. *)
Record Site (R : Type) := mkSite {
  st_node : Node;
  st_files : FileNode;
  st_now : Z;
  st_ivs : nat → bytes;
  st_uuid : string;
  st_parse : string → option string;
  st_compile : string → option (string → bool);
  st_post : nat → Request → string + bytes;
  st_collector : nat → bytes → string + bytes;
  st_pods : string → option Pod;
  st_logs : string → string + bytes;
  st_put : string → bytes → option string;
  st_object : string → string + bytes;
  st_seen : Z;
  st_url_ok : string → bool;
  st_do : ReqView → Request → string + Z * bytes;
  st_ServeFile : ReqView → string → string → ResponseWriter → ResponseWriter;
  st_client : string → outcome (option DockerClient);
  st_bucket : string;
  st_UnmarshalTail : bytes → string + TailParam;
  st_rounds : TailParam → list (bool * option (list (string * list string)) * (string → dial));
  st_turns : list (bool * (string → list (bool * option (Opened (R := R)) * list (Round (R := R)))));
  st_md5hex : string → string;
  st_backend : string → ApiRequest → ResponseWriter → ResponseWriter;
  st_marshal : BaseResult ApiData → bytes;
  st_open : string → string + list tar_event;
  st_DecodeList : bytes → option ListModelParam;
  st_DecodeSave : bytes → option SaveModeParam;
  st_minio : string → string → string → bool → option string;
  st_bucket_exists : string → bool;
  st_put_object : nat → string → string → bytes → option (string * bytes);
  st_progress : nat;
  st_executor : option GpuInfo;
  st_infos : list (outcome (gmap string InfoObj) * option string);
  st_check : check_run
}.
Arguments st_node {R}. Arguments st_files {R}. Arguments st_now {R}. Arguments st_ivs {R}. Arguments st_uuid {R}.
Arguments st_parse {R}. Arguments st_compile {R}. Arguments st_post {R}. Arguments st_collector {R}.
Arguments st_pods {R}. Arguments st_logs {R}. Arguments st_put {R}. Arguments st_object {R}. Arguments st_seen {R}.
Arguments st_url_ok {R}. Arguments st_do {R}. Arguments st_ServeFile {R}. Arguments st_client {R}. Arguments st_bucket {R}.
Arguments st_UnmarshalTail {R}. Arguments st_rounds {R}. Arguments st_turns {R}. Arguments st_md5hex {R}.
Arguments st_backend {R}. Arguments st_marshal {R}. Arguments st_open {R}. Arguments st_DecodeList {R}.
Arguments st_DecodeSave {R}. Arguments st_minio {R}. Arguments st_bucket_exists {R}. Arguments st_put_object {R}.
Arguments st_progress {R}. Arguments st_executor {R}. Arguments st_infos {R}. Arguments st_check {R}.

(** The answer to a request, as its handler describes it. *)
Inductive Answer :=
| AnNotFound
| AnMoved (path : string)
| AnLog (l : LogOpen)
| AnCheck (status : Z) (msg : string)
| AnGpu (g : GpuStream)
| AnDownload (w : ResponseWriter) (panicked : bool)
| AnUpload (u : UState)
| AnQuota (h : outcome HState)
| AnFile (f : outcome FState)
| AnTail (t : TailOpen)
| AnInter (t : TailOpen)
| AnApi (a : outcome AState)
| AnSave (a : AState).

Record NodeState := mkNodeState { ns_quota : QState; ns_hub : Hub; ns_checking : bool }.

Section dispatch.
Context `{AES, Base64, JSON, QuotaJSON, FileJSON, UploadJSON, Retry, Reader R}.
Context (site : Site R).

Let conf := nd_conf (st_node site).

Definition quota_handler (handler : bytes → QState → outcome HState) (r : HttpRequest) (ns : NodeState)
    : Answer * NodeState :=
  let o := handler (hr_body r) (ns_quota ns) in
  (AnQuota o, match o with Ok h => mkNodeState (h_quota h) (ns_hub ns) (ns_checking ns) | _ => ns end).

Definition log_handler (r : HttpRequest) (ns : NodeState) : Answer * NodeState :=
  let l := LogHandler conf (st_now site) (hr_upgraded r) (hr_query r "token") in
  (AnLog l,
   match l with
   | LRegistered p =>
       let h := (RegistryConnect conf (st_client site) (st_bucket site) (st_uuid site) p (ns_hub ns)).1 in
       mkNodeState (ns_quota ns) h (ns_checking ns)
   | _ => ns
   end).

Definition handle (route : Route) (r : HttpRequest) (ns : NodeState) : Answer * NodeState :=
  let quota f := quota_handler (f (st_parse site) (st_compile site) (st_post site) (st_node site)) r ns in
  let quota_now f := quota_handler (f (st_parse site) (st_compile site) (st_post site) (st_node site) (st_now site)
                                      (st_ivs site 0)) r ns in
  match route with
  | RLog => log_handler r ns
  | RCheckGpu =>
      let '((status, msg), running) := CheckGpuHandler (st_check site) (ns_checking ns) in
      (AnCheck status msg, mkNodeState (ns_quota ns) (ns_hub ns) running)
  | RContainerGpuInfo =>
      (AnGpu (ContainerGpuInfoHandler (st_executor site) (hr_query r "containerID") (hr_upgraded r) (st_infos site)), ns)
  | RDownloadLog =>
      let '(w, p) := DownloadLogHandler conf (st_now site) (st_object site) (hr_query r "token") in (AnDownload w p, ns)
  | RUploadLogByTrackNo =>
      (AnUpload (UploadLogByTrackNo (st_parse site) (st_compile site) conf (st_now site) (st_ivs site 0) (st_post site)
                   (st_collector site) (st_pods site) (st_logs site) (st_put site) (st_seen site) (hr_body r)), ns)
  | RSetDirQuota => quota (λ P C po n, SetDirQuotaHandler P C po n (st_ivs site 0))
  | RGetNodeSpaceInfo => quota (λ P C po n, GetNodeSpaceInfoHandler P C po n (st_ivs site 0))
  | RReleaseDir => quota (λ P C po n, ReleaseDirHandler P C po n (st_ivs site 0))
  | RGetDirQuotaInfo => quota_now GetDirQuotaInfoHandler
  | RGetImageDiskQuotaInfo => quota_now GetImageDiskQuotaInfoHandler
  | RPodFiles =>
      (AnFile (PodFilesHandler (st_ivs site) (st_parse site) (st_compile site) (st_url_ok site) (st_do site)
                 (st_now site) (st_files site) (hr_view r) (hr_body r)), ns)
  | RPodFile =>
      (AnFile (PodFileHandler (st_ivs site) (st_parse site) (st_compile site) (st_url_ok site) (st_do site)
                 (st_ServeFile site) (st_files site) (hr_view r) (hr_path r) (hr_query r "token") (hr_body r)), ns)
  | RTailFile =>
      (AnTail (TailFileHandler conf (st_UnmarshalTail site) (st_rounds site) (hr_query r "token") (hr_upgraded r)), ns)
  | RTailFileInter => (AnInter (TailFileInterHandler (st_files site) (st_turns site) (hr_url r) (hr_upgraded r)), ns)
  | RListModelFile =>
      (AnApi (ListModelFile conf (st_md5hex site) (st_backend site) (st_marshal site) (fn_base (st_files site))
                (fn_lstat (st_files site)) (fn_stat (st_files site)) (st_open site) (st_DecodeList site) (hr_api r)), ns)
  | RSaveModelFile =>
      (AnSave (SaveModelFile conf (st_md5hex site) (st_backend site) (st_marshal site) (fn_base (st_files site))
                 (fn_lstat (st_files site)) (fn_stat (st_files site)) (st_open site) (st_DecodeSave site)
                 (st_minio site) (st_bucket_exists site) (st_put_object site) (st_progress site) (hr_api r)), ns)
  | RContainerGpuInfoForMonitor =>
      (AnApi (ContainerGpuInfoForMonitorHandler conf (st_md5hex site) (st_backend site) (st_marshal site)
                (st_executor site) (hr_api r)), ns)
  end.

Definition Handler (r : HttpRequest) (ns : NodeState) : Answer * NodeState :=
  match ServeMux (hr_path r) with
  | MuxFound route => handle route r ns
  | MuxMoved path => (AnMoved path, ns)
  | MuxNotFound => (AnNotFound, ns)
  end.

End dispatch.

(** ** Routing *)

(** Every registered path reaches its handler. *)
Lemma ServeMux_registered : Forall (λ e, ServeMux e.1 = MuxFound e.2) routes.
Proof. repeat constructor. Qed.

(** A handler is reached by its own path only, but for the one of files, which is reached
    by every path below its own. *)
Lemma ServeMux_found p r :
  ServeMux p = MuxFound r → (p, r) ∈ routes ∨ (r = RPodFile ∧ HasPrefix p API_FILE = true).
Proof.
  unfold ServeMux. set (q := cleanPath p).
  assert (∀ x, find_route q = Some x → (q, x) ∈ routes) as Hfind.
  { intros x. unfold find_route. destruct (list_find _ routes) as [[i e]|] eqn:E; [|done].
    apply list_find_Some in E as (Hi & <- & _). intros [= <-]. rewrite <-surjective_pairing.
    by eapply list_elem_of_lookup_2. }
  destruct (find_route q) as [x|] eqn:Ef.
  - case_bool_decide as Hq; [done|]. intros [= <-]. left. replace p with q by (by destruct (decide (q = p))).
    by apply Hfind.
  - destruct (find_route (q +:+ "/")); [done|]. case_bool_decide as Hq; [done|].
    clearbody q. assert (q = p) as -> by (by destruct (decide (q = p))). clear Hfind Ef Hq.
    unfold subtree_route. destruct (filter _ routes) as [|e es] eqn:Es; [done|]. intros [= <-]. right.
    assert (Forall (λ e, e.2 = RPodFile ∧ HasPrefix p API_FILE = true) (e :: es)) as Hall.
    { rewrite <-Es. apply Forall_forall. intros x [[Hsuf Hpre] Hx]%list_elem_of_filter.
      assert (Forall (λ e, HasSuffix e.1 "/" = true → e = (API_FILE, RPodFile)) routes) as Hone by by_decide.
      rewrite Forall_forall in Hone. rewrite (Hone x Hx Hsuf) in *. done. }
    apply Forall_cons in Hall as [He Hes]. clear Es. revert e He. induction Hes as [|x es Hx _ IH]; intros e He; [done|].
    cbn [foldl]. apply IH. unfold longer. by case_decide.
Qed.

(** ** Requests without credentials *)

Section access.
Context `{AES, Base64, JSON, QuotaJSON, FileJSON, UploadJSON, Retry, Reader R}.

(** The tokens a request may carry: in the URL, or in the body of the routes that read one. *)
Definition tokens (r : HttpRequest) : list string :=
  [hr_query r "token"; QToken (DecodeParam (hr_body r)); FToken (DecodeFiles (hr_body r));
   UToken (DecodeUpload (hr_body r))].

(** No token of the request opens with the secret of the node, it is not signed, and it does
    not ask to be passed on. *)
Definition no_credentials (site : Site R) (r : HttpRequest) : Prop :=
  let conf := nd_conf (st_node site) in
  (∀ t res, t ∈ tokens r → AuthJWTToken (SecretKey conf) t ≠ Ok res) ∧
  signed conf (st_md5hex site) (hr_api r) = false ∧ hr_target r = "".

(** The routes that ask for nothing: the check and the statistics of devices, the files of
    containers under the internal path, and the storing of model files. *)
Definition open_routes : list Route := [RCheckGpu; RContainerGpuInfo; RTailFileInter; RSaveModelFile].

(** An answer that does nothing and tells nothing but why the token was rejected. *)
Definition refused (site : Site R) (r : HttpRequest) (an : Answer) : Prop :=
  let key := SecretKey (nd_conf (st_node site)) in
  let rejected (token : string) (b : bytes) := ∃ e, Auth key (st_now site) token = Err e ∧ b = str_elems e in
  match an with
  | AnNotFound | AnMoved _ => True
  | AnLog l => l = LNoUpgrade ∨ ∃ b, rejected (hr_query r "token") b ∧ l = LRejected [b; str_elems "connect close"]
  | AnDownload w _ => rejected (hr_query r "token") (rw_body w)
  | AnUpload u => rejected (UToken (DecodeUpload (hr_body r))) (rw_body (u_rw u)) ∧
                  u_collector u = [] ∧ u_posts u = [] ∧ u_puts u = [] ∧ u_go u = []
  | AnQuota o => ∃ h e, o = Ok h ∧ check_token (st_node site) (QToken (DecodeParam (hr_body r))) = Err e ∧
                        rw_body (h_rw h) = str_elems e ∧ h_posts h = [] ∧ h_go h = []
  | AnFile o => o = Ok (f_set_rw (http_Error "" StatusNotFound) startF) ∨
                ∃ e, files_token (st_files site) (FToken (DecodeFiles (hr_body r))) = Err e ∧ o = Ok (f_reject e startF)
  | AnTail t => ∃ e, AuthJWTToken key (hr_query r "token") = Err e ∧
                     t = TRefused (RW_Write (str_elems e) (WriteHeader StatusUnauthorized newRW))
  | AnApi o => o = Ok (a_fail (st_marshal site) "auth fail" ANil startA)
  | _ => False
  end.

Lemma Auth_opens key now t p : Auth key now t = Ok p → ∃ res, AuthJWTToken key t = Ok res.
Proof. unfold Auth, AuthJWTToken. destruct (open_token key t) as [res| |]; cbn; [by eauto|done..]. Qed.

Lemma AuthJWT_refused key t :
  (∀ res, AuthJWTToken key t ≠ Ok res) → ∃ e, AuthJWTToken key t = Err e.
Proof.
  intros Hn. destruct (AuthJWTToken key t) as [res|e|] eqn:E; [by destruct (Hn res)|by eauto|].
  unfold AuthJWTToken, recovered in E. by destruct (open_token key t).
Qed.

Lemma Auth_refused key now t :
  (∀ res, AuthJWTToken key t ≠ Ok res) → ∃ e, Auth key now t = Err e.
Proof.
  intros Hn. destruct (Auth key now t) as [p|e|] eqn:E; [|by eauto|].
  - apply Auth_opens in E as [res E]. by destruct (Hn res).
  - unfold Auth, recovered in E. by case_match.
Qed.

(** A request to the quota routes whose token is rejected. *)
Lemma check_token_refused n t :
  (∀ res, AuthJWTToken (SecretKey (nd_conf n)) t ≠ Ok res) → ∃ e, check_token n t = Err e.
Proof. intros [e E]%AuthJWT_refused. exists e. unfold check_token. by rewrite E. Qed.

Lemma handle_refused site route r ns :
  fn_conf (st_files site) = nd_conf (st_node site) → no_credentials site r → route ∉ open_routes →
  refused site r (handle site route r ns).1 ∧ ns_quota (handle site route r ns).2 = ns_quota ns ∧
  ns_hub (handle site route r ns).2 = ns_hub ns.
Proof.
  intros Hconf (Htok & Hsig & Htarget) Hroute.
  assert (∀ t, t ∈ tokens r → ∃ e, check_token (st_node site) t = Err e) as Hq
    by (intros t Ht; by apply check_token_refused; intros res; apply Htok).
  assert (∀ t, t ∈ tokens r → ∃ e, AuthJWTToken (SecretKey (nd_conf (st_node site))) t = Err e) as Hj
    by (intros t Ht; by apply AuthJWT_refused; intros res; apply Htok).
  assert (∀ t, t ∈ tokens r → ∃ e, Auth (SecretKey (nd_conf (st_node site))) (st_now site) t = Err e) as Ha
    by (intros t Ht; by apply Auth_refused; intros res; apply Htok).
  destruct (Hq (QToken (DecodeParam (hr_body r)))) as [eq Eq]; [set_solver|].
  destruct (Hj (hr_query r "token")) as [ej Ej]; [set_solver|].
  destruct (Hj (FToken (DecodeFiles (hr_body r)))) as [ef Ef]; [set_solver|].
  destruct (Ha (hr_query r "token")) as [ea Ea]; [set_solver|].
  destruct (Ha (UToken (DecodeUpload (hr_body r)))) as [eu Eu]; [set_solver|].
  assert (RequestAndRedirect (nd_conf (st_node site)) (st_md5hex site) (st_backend site) (st_marshal site) (hr_api r) startA
    = (false, Some "auth fail", a_fail (st_marshal site) "auth fail" ANil startA)) as Er.
  { unfold RequestAndRedirect. rewrite decide_False by (cbn; tauto). by rewrite Hsig. }
  apply (bool_decide_eq_false_2 (_ ∈ _)) in Hroute. destruct route; vm_compute in Hroute; try discriminate Hroute; cbn [handle].
  - unfold log_handler, LogHandler. destruct (hr_upgraded r); cbn [negb]; [rewrite Ea|];
      (split; [|done]); cbn; [right|by left]. exists (str_elems ea). split; [by exists ea|done].
  - unfold DownloadLogHandler. rewrite Ea. split; [by exists ea|done].
  - unfold UploadLogByTrackNo. rewrite Eu. split; [split; [by exists eu|done]|done].
  - unfold quota_handler, SetDirQuotaHandler. rewrite Eq. split; [by repeat eexists|done].
  - unfold quota_handler, GetNodeSpaceInfoHandler. rewrite Eq. split; [by repeat eexists|done].
  - unfold quota_handler, GetDirQuotaInfoHandler. rewrite Eq. split; [by repeat eexists|done].
  - unfold quota_handler, ReleaseDirHandler. rewrite Eq. split; [by repeat eexists|done].
  - unfold quota_handler, GetImageDiskQuotaInfoHandler. rewrite Eq. split; [by repeat eexists|done].
  - assert (files_token (st_files site) (FToken (DecodeFiles (hr_body r))) = Err ef) as Eft
      by (unfold files_token; by rewrite Hconf, Ef).
    unfold PodFilesHandler. rewrite Eft. split; [right; by exists ef|done].
  - unfold PodFileHandler. rewrite Hconf, Ej, UnmarshalFile_nil. split; [by left|done].
  - unfold TailFileHandler. rewrite Ej. split; [by exists ej|done].
  - unfold ListModelFile. by rewrite Er.
  - unfold ContainerGpuInfoForMonitorHandler. by rewrite Er.
Qed.

(** Requests that come in one after another, each with the world as it is then. *)
Definition serve_all (rs : list (Site R * HttpRequest)) (ns : NodeState) : NodeState :=
  foldl (λ ns sr, (Handler sr.1 sr.2 ns).2) ns rs.

Lemma open_route_state site route r ns :
  route ∈ open_routes →
  ns_quota (handle site route r ns).2 = ns_quota ns ∧ ns_hub (handle site route r ns).2 = ns_hub ns.
Proof.
  intros Hr. apply (bool_decide_eq_true_2 (_ ∈ _)) in Hr. destruct route; vm_compute in Hr; try discriminate Hr; cbn [handle]; try done.
  by destruct (CheckGpuHandler _ _) as [[]].
Qed.

(** C21. What a request without credentials can do to a node: none of the tokens it may
    carry opens with the secret of the node, it has no signature, and no header
    Target_host (with that header three routes pass a request on to another node before
    any check, see C28). Whatever path it asks for and whatever the world answers, it
    leaves the quotas and the log connections of the node as they are; and unless its
    path is one of the four that ask for no credentials (the GPU check, the GPU statistics
    of a container, the internal file tail, the storing of model files), it is refused:
    the answer is not found, a redirect, a failed upgrade, or the very error that rejected
    its token or signature, no file is served, nothing is stored, and no other node,
    collector or callback is called. Any number of such requests, one after another,
    leave the quotas and the log connections as they were. *)
Theorem unauthenticated_requests site r ns rs :
  fn_conf (st_files site) = nd_conf (st_node site) → no_credentials site r →
  Forall (λ sr, fn_conf (st_files sr.1) = nd_conf (st_node sr.1) ∧ no_credentials sr.1 sr.2) rs →
  (refused site r (Handler site r ns).1 ∨ ∃ route, ServeMux (hr_path r) = MuxFound route ∧ route ∈ open_routes) ∧
  ns_quota (serve_all ((site, r) :: rs) ns) = ns_quota ns ∧ ns_hub (serve_all ((site, r) :: rs) ns) = ns_hub ns.
Proof.
  intros Hconf Hno Hrs.
  assert (∀ site r ns, fn_conf (st_files site) = nd_conf (st_node site) → no_credentials site r →
    (refused site r (Handler site r ns).1 ∨ ∃ route, ServeMux (hr_path r) = MuxFound route ∧ route ∈ open_routes) ∧
    ns_quota (Handler site r ns).2 = ns_quota ns ∧ ns_hub (Handler site r ns).2 = ns_hub ns) as Hone.
  { clear. intros site r ns Hconf Hno. unfold Handler. destruct (ServeMux (hr_path r)) as [route| |]; [|by split; [left|]..].
    destruct (decide (route ∈ open_routes)) as [Hin|Hin].
    - split; [right; by exists route|]. by apply open_route_state.
    - destruct (handle_refused site route r ns Hconf Hno Hin) as (Hr & Hq & Hh). split; [by left|done]. }
  split; [by apply Hone|]. cut (Forall (λ sr, fn_conf (st_files sr.1) = nd_conf (st_node sr.1) ∧ no_credentials sr.1 sr.2)
    ((site, r) :: rs)); [|by constructor]. clear Hrs Hno Hconf. revert ns.
  induction ((site, r) :: rs) as [|[st q] l IH]; intros ns Hl; [done|]. apply Forall_cons in Hl as [[Hc Hn] Hl].
  cbn [serve_all foldl fst snd]. destruct (Hone st q ns Hc Hn) as (_ & Hq & Hh).
  destruct (IH (Handler st q ns).2 Hl) as [Hq' Hh']. unfold serve_all in Hq', Hh'. by rewrite Hq', Hh'.
Qed.

End access.

(** ** Witness *)

#[local] Existing Instance toy_aes.
#[local] Existing Instance plain_base64.
#[local] Existing Instance bits_log_json.
#[local] Existing Instance bits_json.
#[local] Existing Instance bits_file_json.
#[local] Existing Instance bits_upload_json.
#[local] Existing Instance plain_retry.

Definition demo_site : Site (list read_event) := {|
  st_node := demo_node; st_files := demo_file_node; st_now := 5; st_ivs := λ _, demo_iv; st_uuid := "u1";
  st_parse := Some; st_compile := λ _, None; st_post := λ _ _, inl "refused"; st_collector := λ _ _, inl "refused";
  st_pods := λ _, None; st_logs := λ _, inl "none"; st_put := λ _ _, None; st_object := λ _, inr [];
  st_seen := 0; st_url_ok := λ _, true; st_do := λ _ _, inl "refused"; st_ServeFile := demo_ServeFile;
  st_client := λ _, Ok None; st_bucket := "b"; st_UnmarshalTail := λ _, inl "json"; st_rounds := λ _, [];
  st_turns := []; st_md5hex := demo_md5; st_backend := λ _ _ w, w; st_marshal := λ _, [];
  st_open := λ _, inl "none"; st_DecodeList := λ _, None; st_DecodeSave := λ _, None;
  st_minio := λ _ _ _ _, None; st_bucket_exists := λ _, true; st_put_object := demo_put; st_progress := 0;
  st_executor := None; st_infos := []; st_check := mkCheckRun None None []
|}.

Definition demo_http : HttpRequest := mkHttpRequest API_SETQUOTA "http://n/api/setDirQuota?token=x" "" demo_view [] false.

Definition demo_node_state : NodeState := mkNodeState demo_state empty_hub false.

Lemma demo_http_anonymous : no_credentials demo_site demo_http.
Proof.
  split; [|split; reflexivity].
  assert (forallb (λ t, match AuthJWTToken (SecretKey (nd_conf demo_node)) t with Ok _ => false | _ => true end)
    (tokens demo_http) = true) as Hall by (vm_compute; reflexivity).
  intros t res Ht%list_elem_of_In E. rewrite forallb_forall in Hall. specialize (Hall t Ht).
  change (nd_conf (st_node demo_site)) with (nd_conf demo_node) in E. by rewrite E in Hall.
Qed.

Lemma unauthenticated_requests_witness :
  refused demo_site demo_http (Handler demo_site demo_http demo_node_state).1 ∧
  ns_quota (serve_all [(demo_site, demo_http)] demo_node_state) = demo_state.
Proof.
  destruct (unauthenticated_requests demo_site demo_http demo_node_state []) as (Hr & Hq & _);
    [reflexivity|exact demo_http_anonymous|constructor|].
  split; [|exact Hq]. destruct Hr as [Hr|(route & Hm & Hin)]; [exact Hr|exfalso].
  vm_compute in Hm. injection Hm as <-. apply (bool_decide_eq_true_2 (_ ∈ _)) in Hin. vm_compute in Hin. discriminate.
Defined.
