(* ===== verification/Cluster.v ===== *)
(** * A cluster of nodes

    The nodes of a cluster, each with the server of [WebServer] (server/WebServer.go) on its
    own state, and the requests that the quota service (Service/QuotaService.go) of one node
    sends: to the node named in a request, again when an attempt failed, and to callbacks.

    The network is a parameter. It says of every request sent, by its sender, transport and
    URL and by the number of the attempt, whether it reaches a server, which one, and
    whether the answer comes back; names, loopback addresses, proxies, losses and time-outs
    are all its business. A client sends a request to some node; its handler runs, and what
    the handler and the goroutines it started have sent takes effect at the servers it
    reached, in the order it was sent, before the next client is served. What the handlers
    of other services send is not carried to the members. *)

From S2P Require Import Prelude GoStrings GoIo Clients Quota Connection Token QuotaService.
From S2P Require Import PodFiles LogService Hub Accelerators WebServer.

(** ** The network *)

Definition quota_routes : list string :=
  [API_SETQUOTA; API_GETNODESPACEINFO; API_GETDIRQUOTAINFO; API_RELEASEDIR; API_GETIMAGEQUOTAINFO].

(** What becomes of a request: it reaches the server at an address and the answer comes
    back; it reaches the server, but the sender is told an error; it reaches none. *)
Inductive delivery :=
| Delivered (dst : string)
| AnswerLost (dst err : string)
| Undelivered (err : string).

(** The network while one client is served: the attempt, the sender, the transport, the URL. *)
Abbreviation Wire := (nat → string → Transport → string → delivery).

Section cluster.
Context `{AES, Base64, JSON, QuotaJSON, FileJSON, UploadJSON, Retry, Reader R}.
(** The path that a server reads from a URL. *)
Context (url_path : string → string).
(** What the HTTP client makes of the answer of another handler than those of the quota
    service, as of a redirect. *)
Context (other_reply : Answer → string + bytes).

Record Member := mkMember { mb_site : Site R; mb_state : NodeState }.

(** The members by the address they listen on. *)
Abbreviation Cluster := (gmap string Member).

(** A node whose requests to other nodes go through [post]. *)
Definition with_post (post : nat → Request → string + bytes) (s : Site R) : Site R := {|
  st_node := st_node s; st_files := st_files s; st_now := st_now s; st_ivs := st_ivs s; st_uuid := st_uuid s;
  st_parse := st_parse s; st_compile := st_compile s; st_post := post; st_collector := st_collector s;
  st_pods := st_pods s; st_logs := st_logs s; st_put := st_put s; st_object := st_object s;
  st_seen := st_seen s; st_url_ok := st_url_ok s; st_do := st_do s; st_ServeFile := st_ServeFile s;
  st_client := st_client s; st_bucket := st_bucket s; st_UnmarshalTail := st_UnmarshalTail s;
  st_rounds := st_rounds s; st_turns := st_turns s; st_md5hex := st_md5hex s; st_backend := st_backend s;
  st_marshal := st_marshal s; st_open := st_open s; st_DecodeList := st_DecodeList s;
  st_DecodeSave := st_DecodeSave s; st_minio := st_minio s; st_bucket_exists := st_bucket_exists s;
  st_put_object := st_put_object s; st_progress := st_progress s; st_executor := st_executor s;
  st_infos := st_infos s; st_check := st_check s
|}.

(** A request as it arrives. *)
Definition arrives (rq : Request) : HttpRequest :=
  mkHttpRequest (url_path (rq_url rq)) (rq_url rq) "" (mkReqView "POST" [("Content-Type", "application/json")])
    (rq_body rq) false.

Definition reply (an : Answer) : string + bytes :=
  match an with
  | AnQuota (Ok h) => inr (rw_body (h_rw h))
  | AnQuota _ => inl "EOF"
  | _ => other_reply an
  end.

(** The requests an answer costs, with those of the goroutines it left behind; callbacks
    go out without a proxy (they are repeated on failure, which is not modelled). *)
Definition calls (j : job) : list Request :=
  match j with
  | GoCallback url status res => (λ ub, mkRequest None ub.1 ub.2) <$> callback url status res
  | GoRelease _ _ => []
  end.

Definition finish (s : Site R) (h : HState) : HState :=
  foldl (λ h j, (run_job (st_parse s) (st_compile s) (st_post s) (st_node s) j h).1) h (h_go h).

Definition sent (s : Site R) (an : Answer) : list Request :=
  match an with
  | AnQuota (Ok h) => h_posts (finish s h) ++ concat (calls <$> h_go (finish s h))
  | _ => []
  end.

(** Requests sent one after another, the first as attempt [k]. *)
Fixpoint deliver {C} (send : nat → Request → C → (string + bytes) * C) (k : nat) (rqs : list Request) (c : C) : C :=
  match rqs with
  | [] => c
  | rq :: rqs => deliver send (S k) rqs (send k rq c).2
  end.

(** Attempt [k] of the node at [addr], where [ask] is the answer of a server that is reached. *)
Definition send (ask : Cluster → string → HttpRequest → option (Answer * Cluster)) (w : Wire) (addr : string)
    (k : nat) (rq : Request) (c : Cluster) : (string + bytes) * Cluster :=
  match w k addr (rq_via rq) (rq_url rq) with
  | Undelivered err => (inl err, c)
  | AnswerLost dst err =>
      (inl err, match ask c dst (arrives rq) with Some (_, c') => c' | None => c end)
  | Delivered dst =>
      match ask c dst (arrives rq) with
      | Some (an, c') => (reply an, c')
      | None => (inl "connection refused", c)
      end
  end.

(** The answer to attempt [k] of a handler is given after its [k] earlier attempts took
    effect; they were attempts of the same request. *)
Definition net ask (w : Wire) (addr : string) (c : Cluster) (k : nat) (rq : Request) : string + bytes :=
  (send ask w addr k rq (deliver (send ask w addr) 0 (replicate k rq) c)).1.

(** A request to the node at [addr]; [fuel] bounds how often it is passed on. *)
Fixpoint request (fuel : nat) (w : Wire) (c : Cluster) (addr : string) (r : HttpRequest)
    : option (Answer * Cluster) :=
  match fuel with
  | O => None
  | S fuel =>
      match c !! addr with
      | None => None
      | Some m =>
          let s :=
            if decide (hr_path r ∈ quota_routes)
            then with_post (net (request fuel w) w addr c) (mb_site m)
            else mb_site m in
          let '(an, ns) := Handler s r (mb_state m) in
          Some (an, deliver (send (request fuel w) w addr) 0 (sent s an) (<[addr := mkMember (mb_site m) ns]> c))
      end
  end.

(** A request of the quota service at a member. *)
Lemma request_quota fuel w c addr m r :
  c !! addr = Some m → hr_path r ∈ quota_routes →
  let s := with_post (net (request fuel w) w addr c) (mb_site m) in
  let '(an, ns) := Handler s r (mb_state m) in
  request (S fuel) w c addr r =
  Some (an, deliver (send (request fuel w) w addr) 0 (sent s an) (<[addr := mkMember (mb_site m) ns]> c)).
Proof.
  intros Hm Hr s. destruct (Handler s r (mb_state m)) as [an ns] eqn:E. cbn [request].
  rewrite Hm, decide_True by done. fold s. by rewrite E.
Qed.

(** A path of the quota service leads to its handler. *)
Lemma Handler_quota site route handler r ns :
  serve (st_parse site) (st_compile site) (st_post site) (st_node site) (st_now site) (st_ivs site 0) route = Some handler →
  hr_path r = route → Handler site r ns = quota_handler handler r ns.
Proof.
  intros Hs Hp. unfold serve in Hs. unfold Handler. rewrite Hp.
  repeat case_decide; simplify_eq; reflexivity.
Qed.

Lemma serve_route P C post n now iv route :
  route ∈ quota_routes → ∃ handler, serve P C post n now iv route = Some handler.
Proof. intros Hr. unfold quota_routes in Hr. set_unfold in Hr. unfold serve. repeat case_decide; naive_solver. Qed.

(** A member whose quotas are changed by [f]. *)
Definition upd_quota (f : QState → QState) (m : Member) : Member :=
  mkMember (mb_site m) (mkNodeState (f (ns_quota (mb_state m))) (ns_hub (mb_state m)) (ns_checking (mb_state m))).

Lemma upd_quota_id m : upd_quota id m = m.
Proof. by destruct m as [? []]. Qed.

(** Such a request does not ask the network. *)
Lemma serve_local P C post1 post2 n now iv route h1 h2 body q :
  local_token n (QToken (DecodeParam body)) →
  serve P C post1 n now iv route = Some h1 → serve P C post2 n now iv route = Some h2 → h1 body q = h2 body q.
Proof.
  intros (a & Hc & Ha). unfold serve. repeat case_decide; intros E1 E2; simplify_eq.
  all: unfold SetDirQuotaHandler, GetNodeSpaceInfoHandler, GetDirQuotaInfoHandler, ReleaseDirHandler,
    GetImageDiskQuotaInfoHandler; rewrite Hc; by destruct (decide (Host a = "localhost")).
Qed.

(** A request with a token for the node itself acts there, and goes no further. *)
Lemma request_local fuel w c addr m r :
  let p := DecodeParam (hr_body r) in
  c !! addr = Some m → hr_path r ∈ quota_routes → local_token (st_node (mb_site m)) (QToken p) →
  ∃ h, request (S fuel) w c addr r =
    Some (AnQuota (Ok h), <[addr := upd_quota (effect (st_node (mb_site m)) (hr_path r) p) m]> c).
Proof.
  intros p Hm Hr Hl. pose proof (request_quota fuel w c addr m r Hm Hr) as Hreq. cbv zeta in Hreq.
  set (s := with_post _ _) in Hreq.
  destruct (serve_route (st_parse s) (st_compile s) (st_post s) (st_node s) (st_now s) (st_ivs s 0) _ Hr) as [handler Hs].
  rewrite (Handler_quota s _ handler r (mb_state m) Hs eq_refl) in Hreq. unfold quota_handler in Hreq.
  destruct (serve_effect _ _ _ _ _ _ _ _ (hr_body r) (ns_quota (mb_state m)) Hs) as (h & E & Hloc & _).
  destruct (Hloc Hl) as (Hq & Hposts & Hgo). exists h. rewrite E in Hreq. cbv iota zeta beta in Hreq.
  rewrite Hreq. cbn [sent]. unfold finish. rewrite Hgo. cbn [foldl]. rewrite Hposts, Hgo, Hq. done.
Qed.

(** ** The attempts of a handler *)

Definition is_inr {A B} (x : A + B) : bool := match x with inl _ => false | inr _ => true end.

(** How many of [n] attempts are made when those with [ok] succeed, the first being [k]. *)
Fixpoint tries (ok : nat → bool) (n k : nat) : nat :=
  match n with
  | O => O
  | S n => if ok k then 1 else S (tries ok n (S k))
  end.

Definition calls_to (url : string) (j : job) : Prop :=
  match j with GoCallback u _ _ => u = url | GoRelease _ _ => False end.

(** [h'] is [h] after [m] attempts of [rq], with callbacks to [url] started. *)
Definition asked (rq : Request) (url : string) (m : nat) (h h' : HState) : Prop :=
  h_posts h' = h_posts h ++ replicate m rq ∧ ∃ l, h_go h' = h_go h ++ l ∧ Forall (calls_to url) l.

Lemma asked_rw rq url m h h' f : asked rq url m h h' → asked rq url m h (set_rw f h').
Proof. done. Qed.

Lemma asked_callback rq url m h h' st b : asked rq url m h h' → asked rq url m h (go (GoCallback url st b) h').
Proof.
  intros [Hp (l & Hg & Hl)]. split; [done|]. exists (l ++ [GoCallback url st b]). cbn [h_go go].
  rewrite Hg, (assoc app). split; [done|]. apply Forall_app. split; [done|by constructor].
Qed.

(** A handler asks one place only, until it is answered or has tried [n] times. *)
Lemma asked_retry P C post nd host url js p n h :
  let rq := mkRequest (GetHttpClient (nd_conf nd) P C host) url js in
  0 < n →
  asked rq (CallBackUrl p) (tries (λ k, is_inr (post k rq)) n (length (h_posts h))) h
    (retry_Do n (post_once P C post nd host url js p) h).2.
Proof.
  intros rq. revert h. induction n as [|n IH]; intros h Hn; [lia|]. cbn [tries].
  set (f := post_once P C post nd host url js p) in *.
  destruct (post (length (h_posts h)) rq) as [e|r] eqn:E; cbn [is_inr].
  - set (h1 := mkH (h_rw h) (h_posts h ++ [rq]) (h_go h) (h_quota h)).
    assert (f h = (Some e, h1)) as Ef by (unfold f, post_once; fold rq; by rewrite E).
    destruct n as [|n].
    + destruct (retry_last f h h1 e Ef) as [m ->]. split; [done|]. exists []. by rewrite app_nil_r.
    + destruct (retry_again (S n) f h h1 e Ef ltac:(lia)) as [-> _].
      destruct (IH h1 ltac:(lia)) as [Hp (l & Hg & Hl)]. split; [|by exists l].
      rewrite Hp. unfold h1. cbn [h_posts]. rewrite length_app, Nat.add_comm, <-(assoc app). done.
  - erewrite (retry_ok (S n) f h); [|lia|unfold f, post_once; fold rq; by rewrite E].
    destruct (Async p =? 0)%Z; (split; [done|]); by exists [GoCallback (CallBackUrl p) 1 r]; split; [|repeat constructor].
Qed.

Lemma asked_release P C post nd host p h :
  let rq := mkRequest (GetHttpClient (nd_conf nd) P C host) (GetURLByHost (nd_conf nd) host +:+ API_RELEASEDIR)
              (MarshalParam p) in
  asked rq (CallBackUrl p) (tries (λ k, is_inr (post k rq)) 3 (length (h_posts h))) h
    (doReleaseFunc P C post nd host p h).
Proof.
  intros rq. unfold doReleaseFunc.
  pose proof (asked_retry P C post nd host (GetURLByHost (nd_conf nd) host +:+ API_RELEASEDIR) (MarshalParam p) p 3 h
    ltac:(lia)) as Ha. fold rq in Ha.
  destruct (retry_Do 3 _ h) as [[e|] h']; cbn [snd] in Ha; [|done].
  apply asked_callback. by destruct (Async p =? 0)%Z.
Qed.

(** The callbacks of jobs that are callbacks to [url]. *)
Lemma calls_of url l :
  Forall (calls_to url) l → Forall (λ rq, rq_url rq = url ∧ rq_via rq = None) (concat (calls <$> l)).
Proof.
  induction 1 as [|[u st b|] l Hj _ IH]; [constructor| |done]. cbn [fmap list_fmap concat]. apply Forall_app. split; [|done].
  cbn [calls]. unfold callback. case_decide; repeat constructor. by simpl in Hj.
Qed.

(** The requests of a handler that asked at once. *)
Lemma sent_now (s : Site R) rq url m q h :
  asked rq url m (startH q) h →
  ∃ cbs, sent s (AnQuota (Ok h)) = replicate m rq ++ cbs ∧ Forall (λ rq, rq_url rq = url ∧ rq_via rq = None) cbs.
Proof.
  intros [Hp (l & Hg & Hl)]. cbn [startH h_posts h_go app] in Hp, Hg. cbn [sent].
  assert (finish s h = h) as ->.
  { unfold finish. rewrite Hg. clear Hg. induction Hl as [|[|] l Hj _ IH]; [done|exact IH|done]. }
  rewrite Hp, Hg. eexists. split; [done|]. by apply calls_of.
Qed.

(** The requests of a handler that left the asking to a goroutine. *)
Lemma sent_later (s : Site R) host p h :
  let conf := nd_conf (st_node s) in
  let rq := mkRequest (GetHttpClient conf (st_parse s) (st_compile s) host)
              (GetURLByHost conf host +:+ API_RELEASEDIR) (MarshalParam p) in
  h_posts h = [] → h_go h = [GoRelease host p] →
  ∃ cbs, sent s (AnQuota (Ok h)) = replicate (tries (λ k, is_inr (st_post s k rq)) 3 0) rq ++ cbs ∧
    Forall (λ rq, rq_url rq = CallBackUrl p ∧ rq_via rq = None) cbs.
Proof.
  intros conf rq Hp Hg. cbn [sent]. unfold finish. rewrite Hg. cbn [foldl run_job fst h_posts h_go]. rewrite Hp, Hg.
  destruct (asked_release (st_parse s) (st_compile s) (st_post s) (st_node s) host p
    (mkH newRW [] [GoRelease host p] (h_quota h))) as [Hp' (l & Hg' & Hl)].
  rewrite Hp', Hg'. cbn [h_posts h_go length app]. exists (concat (calls <$> l)). split; [done|]. by apply calls_of.
Qed.

(** The requests of a node that passes a request on, now or in a goroutine: attempts to
    reach the host in the body until one is answered, at most three; then callbacks. *)
Lemma forward_sent (s : Site R) route handler body q a t :
  let p := DecodeParam body in
  let conf := nd_conf (st_node s) in
  let rq := mkRequest (GetHttpClient conf (st_parse s) (st_compile s) (Host (QAuthParam p)))
              (GetURLByHost conf (Host (QAuthParam p)) +:+ route)
              (MarshalParam (with_token t (with_auth (passed_auth (st_now s) route) p))) in
  serve (st_parse s) (st_compile s) (st_post s) (st_node s) (st_now s) (st_ivs s 0) route = Some handler →
  check_token (st_node s) (QToken p) = Ok a → Host a ≠ "localhost" →
  mint (st_node s) (st_ivs s 0) (passed_auth (st_now s) route) = Ok t →
  ∃ h cbs, handler body q = Ok h ∧ h_quota h = q ∧
    sent s (AnQuota (Ok h)) = replicate (tries (λ k, is_inr (st_post s k rq)) 3 0) rq ++ cbs ∧
    Forall (λ rq, rq_url rq = CallBackUrl p ∧ rq_via rq = None) cbs.
Proof.
  intros p conf rq Hs Hc Ha Ht. destruct (serve_effect _ _ _ _ _ _ _ _ body q Hs) as (h & E & _ & Hq).
  specialize (Hq ltac:(intros (a' & Hc' & Ha'); fold p in Hc'; congruence)). exists h.
  cut (∃ cbs, sent s (AnQuota (Ok h)) = replicate (tries (λ k, is_inr (st_post s k rq)) 3 0) rq ++ cbs ∧
    Forall (λ rq, rq_url rq = CallBackUrl p ∧ rq_via rq = None) cbs).
  { intros (cbs & Hsent & Hcbs). by exists cbs. }
  clear Hq. unfold serve in Hs. repeat case_decide; simplify_eq.
  all: revert E; unfold SetDirQuotaHandler, GetNodeSpaceInfoHandler, GetDirQuotaInfoHandler, ReleaseDirHandler,
    GetImageDiskQuotaInfoHandler; fold p; rewrite Hc; rewrite decide_False by done; cbn [QAuthParam with_auth].
  4:{ change (mkAuthParam "localhost" 0) with (passed_auth (st_now s) API_RELEASEDIR). rewrite Ht. cbn [obind].
      set (p' := with_token t (with_auth (passed_auth (st_now s) API_RELEASEDIR) p)) in *.
      destruct (0 <? _)%Z; intros [= <-].
      - apply (sent_later s (Host (QAuthParam p)) p'); reflexivity.
      - exact (sent_now s _ _ _ q _ (asked_release _ _ _ _ (Host (QAuthParam p)) p' (startH q))). }
  all: match type of Ht with mint _ _ (passed_auth ?n ?r) = _ =>
      let x := eval vm_compute in (bool_decide (r = API_GETDIRQUOTAINFO ∨ r = API_GETIMAGEQUOTAINFO)) in
      match x with
      | true => change (mkAuthParam "localhost" (i64 (n + 1000 * 2))) with (passed_auth n r)
      | false => change (mkAuthParam "localhost" 0) with (passed_auth n r)
      end end; rewrite Ht; cbn [obind].
  all: match goal with |- context [retry_Do 3 (post_once _ _ _ _ ?host ?url ?js ?p') ?h0] =>
      pose proof (asked_retry (st_parse s) (st_compile s) (st_post s) (st_node s) host url js p' 3 h0 ltac:(lia))
        as Hasked end; cbv zeta in Hasked; destruct (retry_Do 3 _ _) as [[e|] h']; cbn [snd] in Hasked;
    intros [= <-]; refine (sent_now s rq _ _ q _ _); [apply asked_callback|]; exact Hasked.
Qed.

(** ** What a request sent to a member does *)

Definition sites (c : Cluster) : gmap string (Site R) := mb_site <$> c.
Definition quotas_of (c : Cluster) : gmap string QState := (λ m, ns_quota (mb_state m)) <$> c.

(** The same nodes with the same quotas. *)
Definition same (c c' : Cluster) : Prop := sites c' = sites c ∧ quotas_of c' = quotas_of c.

#[local] Instance same_preorder : PreOrder same.
Proof. split; [by intros c|]. intros c1 c2 c3 [] []. split; by etrans. Qed.

Lemma quota_path_dec path :
  path ∉ quota_routes → ∀ route, ServeMux path = MuxFound route →
  route ∉ [RSetDirQuota; RGetNodeSpaceInfo; RGetDirQuotaInfo; RReleaseDir; RGetImageDiskQuotaInfo].
Proof.
  intros Hp route [Hr|[-> _]]%ServeMux_found Hq; [|revert Hq; by apply (bool_decide_unpack _)].
  apply Hp. assert (Forall (λ e, e.2 ∈ [RSetDirQuota; RGetNodeSpaceInfo; RGetDirQuotaInfo; RReleaseDir; RGetImageDiskQuotaInfo]
    → e.1 ∈ quota_routes) routes) as Hall by by_decide.
  rewrite Forall_forall in Hall. by apply (Hall (path, route)).
Qed.

(** What is not a request of the quota service neither changes quotas nor is passed on here. *)
Lemma Handler_other (s : Site R) r ns :
  hr_path r ∉ quota_routes → ns_quota (Handler s r ns).2 = ns_quota ns ∧ sent s (Handler s r ns).1 = [].
Proof.
  intros Hp. pose proof (quota_path_dec _ Hp) as Hq. unfold Handler.
  destruct (ServeMux (hr_path r)) as [route| |]; [|done..]. specialize (Hq route eq_refl).
  apply (bool_decide_eq_false_2 (_ ∈ _)) in Hq.
  destruct route; vm_compute in Hq; try discriminate Hq; clear Hq; cbn [handle]; try done.
  - unfold log_handler. by destruct (LogHandler _ _ _ _).
  - by destruct (CheckGpuHandler _ _) as [[]].
  - by destruct (DownloadLogHandler _ _ _ _).
Qed.

Lemma lookup_sites c k : sites c !! k = mb_site <$> c !! k.
Proof. apply lookup_fmap. Qed.

Lemma sites_upd c addr f m :
  c !! addr = Some m → sites (<[addr := upd_quota f m]> c) = sites c.
Proof.
  intros Hm. unfold sites. rewrite fmap_insert. cbn [mb_site upd_quota]. apply insert_id. by rewrite lookup_fmap, Hm.
Qed.

Lemma quotas_upd c addr f m :
  c !! addr = Some m → quotas_of (<[addr := upd_quota f m]> c) = alter f addr (quotas_of c).
Proof.
  intros Hm. unfold quotas_of. rewrite fmap_insert. cbn [mb_state upd_quota ns_quota].
  apply map_eq. intros k. destruct (decide (k = addr)) as [->|Hk].
  - by rewrite lookup_insert_eq, lookup_alter_eq, lookup_fmap, Hm.
  - by rewrite lookup_insert_ne, lookup_alter_ne by done.
Qed.

Lemma same_insert c addr m ns :
  c !! addr = Some m → ns_quota ns = ns_quota (mb_state m) → same c (<[addr := mkMember (mb_site m) ns]> c).
Proof.
  intros Hm Hq. unfold same, sites, quotas_of. rewrite !fmap_insert. cbn [mb_site mb_state]. rewrite Hq.
  split; apply insert_id; by rewrite lookup_fmap, Hm.
Qed.

(** The cluster after a request to a server. *)
Definition after (c : Cluster) (an : option (Answer * Cluster)) : Cluster :=
  match an with Some (_, c') => c' | None => c end.

Lemma request_other fuel w c addr r :
  hr_path r ∉ quota_routes → same c (after c (request fuel w c addr r)).
Proof.
  intros Hr. destruct fuel; [done|]. cbn [request]. destruct (c !! addr) as [m|] eqn:Hm; [|done].
  rewrite decide_False by done. destruct (Handler_other (mb_site m) r (mb_state m) Hr) as [Hq Hsent].
  destruct (Handler _ _ _) as [an ns]. cbn [fst snd] in *. rewrite Hsent. cbn [deliver after]. by apply same_insert.
Qed.

(** The server a request reaches. *)
Definition reached (d : delivery) : option string :=
  match d with Delivered dst | AnswerLost dst _ => Some dst | Undelivered _ => None end.

Lemma send_after ask w addr k rq c :
  (send ask w addr k rq c).2 =
  match reached (w k addr (rq_via rq) (rq_url rq)) with
  | Some dst => after c (ask c dst (arrives rq))
  | None => c
  end.
Proof. unfold send. destruct (w _ _ _ _) as [dst|dst e|e]; cbn [reached]; [|done..]. by destruct (ask _ _ _) as [[]|]. Qed.

(** A request that is not of the quota service, or reaches no member, changes nothing. *)
Lemma send_other fuel w addr k rq c :
  (url_path (rq_url rq) ∈ quota_routes → ∀ dst, reached (w k addr (rq_via rq) (rq_url rq)) = Some dst →
     sites c !! dst = None) →
  same c (send (request fuel w) w addr k rq c).2.
Proof.
  intros Hout. rewrite send_after. destruct (reached _) as [dst|] eqn:Hd; [|done].
  destruct (decide (url_path (rq_url rq) ∈ quota_routes)) as [Hr|Hr]; [|by apply request_other].
  specialize (Hout Hr dst eq_refl). rewrite lookup_sites in Hout. destruct fuel; [done|]. cbn [request].
  by destruct (c !! dst).
Qed.

Lemma deliver_app {C} (snd : nat → Request → C → (string + bytes) * C) k l1 l2 c :
  deliver snd k (l1 ++ l2) c = deliver snd (k + length l1) l2 (deliver snd k l1 c).
Proof.
  revert k c. induction l1 as [|rq l1 IH]; intros k c; cbn [app deliver length]; [by rewrite Nat.add_0_r|].
  by rewrite IH, Nat.add_succ_comm.
Qed.

Lemma deliver_same snd k rqs c :
  (∀ k rq c', rq ∈ rqs → sites c' = sites c → same c' (snd k rq c').2) → same c (deliver snd k rqs c).
Proof.
  revert k c. induction rqs as [|rq rqs IH]; intros k c Hsnd; cbn [deliver]; [done|].
  assert (same c (snd k rq c).2) as Hone by (apply Hsnd; [by left|done]). etrans; [exact Hone|].
  apply IH. intros k' rq' c' Hin Hs. apply Hsnd; [by right|]. rewrite Hs. apply Hone.
Qed.

(** ** The cluster as one service *)

(** What a request that is meant for the operation [route] with the parameters [p] does to
    the quotas of the cluster when it is delivered so. *)
Definition hit (ss : gmap string (Site R)) (route : string) (p : QuotaParam) (d : delivery)
    (q : gmap string QState) : gmap string QState :=
  match reached d with
  | Some dst => match ss !! dst with Some s => alter (effect (st_node s) route p) dst q | None => q end
  | None => q
  end.

Definition answered (ss : gmap string (Site R)) (d : delivery) : bool :=
  match d with Delivered dst => bool_decide (is_Some (ss !! dst)) | _ => false end.

(** Attempts [k], [k + 1], ..., at most [n], until one is answered. *)
Fixpoint attempts (ss : gmap string (Site R)) (route : string) (p : QuotaParam) (d : nat → delivery) (n k : nat)
    (q : gmap string QState) : gmap string QState :=
  match n with
  | O => q
  | S n =>
      let q := hit ss route p (d k) q in
      if answered ss (d k) then q else attempts ss route p d n (S k) q
  end.

(** What a request of a client means for the quotas of the cluster: nothing, unless it is of
    the quota service and its token opens at the node that receives it; then the operation
    takes effect at that node when the token is for "localhost", and otherwise at the
    servers that the attempts to reach the host in its body get to, by the operation that
    the path of the URL names. *)
Definition spec_step (w : Wire) (ss : gmap string (Site R)) (q : gmap string QState) (ar : string * HttpRequest)
    : gmap string QState :=
  let '(addr, r) := ar in
  match ss !! addr with
  | None => q
  | Some s =>
      let p := DecodeParam (hr_body r) in
      let conf := nd_conf (st_node s) in
      match check_token (st_node s) (QToken p) with
      | Ok a =>
          if decide (hr_path r ∈ quota_routes) then
            if decide (Host a = "localhost") then alter (effect (st_node s) (hr_path r) p) addr q
            else
              let host := Host (QAuthParam p) in
              let url := GetURLByHost conf host +:+ hr_path r in
              if decide (url_path url ∈ quota_routes)
              then attempts ss (url_path url) p
                     (λ k, w k addr (GetHttpClient conf (st_parse s) (st_compile s) host) url) 3 0 q
              else q
          else q
      | _ => q
      end
  end.

Definition client_step (fuel : nat) (w : Wire) (c : Cluster) (ar : string * HttpRequest) : Cluster :=
  after c (request fuel w c ar.1 ar.2).

(** The clients are served one after another, the [i]-th with the network [wire i]. *)
Fixpoint clients (fuel : nat) (wire : nat → Wire) (i : nat) (rs : list (string * HttpRequest)) (c : Cluster) : Cluster :=
  match rs with
  | [] => c
  | ar :: rs => clients fuel wire (S i) rs (client_step fuel (wire i) c ar)
  end.

Fixpoint spec (wire : nat → Wire) (ss : gmap string (Site R)) (i : nat) (rs : list (string * HttpRequest))
    (q : gmap string QState) : gmap string QState :=
  match rs with
  | [] => q
  | ar :: rs => spec wire ss (S i) rs (spec_step (wire i) ss q ar)
  end.

(** A request with a token that every node takes for its own. *)
Definition everywhere (ss : gmap string (Site R)) (rq : Request) : Prop :=
  url_path (rq_url rq) ∈ quota_routes ∧
  map_Forall (λ _ s, local_token (st_node s) (QToken (DecodeParam (rq_body rq)))) ss.

Lemma send_quota fuel w addr k rq c :
  everywhere (sites c) rq →
  let d := w k addr (rq_via rq) (rq_url rq) in
  let x := send (request (S fuel) w) w addr k rq c in
  sites x.2 = sites c ∧
  quotas_of x.2 = hit (sites c) (url_path (rq_url rq)) (DecodeParam (rq_body rq)) d (quotas_of c) ∧
  is_inr x.1 = answered (sites c) d.
Proof.
  intros [Hr Htok] d x. unfold x, hit. rewrite send_after. fold d.
  assert (∀ dst, match c !! dst with
    | Some m => ∃ h, request (S fuel) w c dst (arrives rq) = Some (AnQuota (Ok h),
        <[dst := upd_quota (effect (st_node (mb_site m)) (url_path (rq_url rq)) (DecodeParam (rq_body rq))) m]> c)
    | None => request (S fuel) w c dst (arrives rq) = None end) as Hask.
  { intros dst. destruct (c !! dst) as [m|] eqn:Hm; [|cbn [request]; by rewrite Hm].
    apply (request_local fuel w c dst m (arrives rq) Hm Hr). apply (Htok dst). by rewrite lookup_sites, Hm. }
  assert (∀ dst, sites (after c (request (S fuel) w c dst (arrives rq))) = sites c ∧
    quotas_of (after c (request (S fuel) w c dst (arrives rq))) =
      match sites c !! dst with
      | Some s => alter (effect (st_node s) (url_path (rq_url rq)) (DecodeParam (rq_body rq))) dst (quotas_of c)
      | None => quotas_of c end) as Hafter.
  { intros dst. specialize (Hask dst). rewrite lookup_sites. destruct (c !! dst) as [m|] eqn:Hm; [|by rewrite Hask].
    destruct Hask as [h ->]. cbn [after fmap option_fmap option_map]. split; [by apply sites_upd|by apply quotas_upd]. }
  split_and!; [destruct (reached d); [apply Hafter|done]|destruct (reached d); [apply Hafter|done]|].
  unfold send. fold d. destruct d as [dst|dst e|e]; [|done..]. specialize (Hask dst). cbn [answered].
  rewrite lookup_sites. destruct (c !! dst); [destruct Hask as [h ->]|rewrite Hask]; cbn [fst reply is_inr]; symmetry.
  - by apply bool_decide_eq_true_2; eexists.
  - apply bool_decide_eq_false_2. by intros [].
Qed.

(** The attempts of a node, against their meaning. *)
Lemma attempts_quota fuel w addr rq c n k :
  everywhere (sites c) rq →
  let d k := w k addr (rq_via rq) (rq_url rq) in
  let c' := deliver (send (request (S fuel) w) w addr) k (replicate (tries (λ k, answered (sites c) (d k)) n k) rq) c in
  sites c' = sites c ∧
  quotas_of c' = attempts (sites c) (url_path (rq_url rq)) (DecodeParam (rq_body rq)) d n k (quotas_of c).
Proof.
  intros Hev d. revert k c Hev. induction n as [|n IH]; intros k c Hev; cbn [tries attempts]; [done|].
  destruct (send_quota fuel w addr k rq c Hev) as (Hs & Hq & _). fold (d k) in Hq.
  destruct (answered (sites c) (d k)); cbn [replicate deliver]; [by split|].
  specialize (IH (S k) (send (request (S fuel) w) w addr k rq c).2). rewrite Hs, Hq in IH. by apply IH.
Qed.

(** The network answers as the specification says. *)
Lemma net_answered fuel w addr rq c k :
  everywhere (sites c) rq →
  is_inr (net (request (S fuel) w) w addr c k rq) = answered (sites c) (w k addr (rq_via rq) (rq_url rq)).
Proof.
  intros Hev. unfold net. set (c' := deliver _ 0 _ c).
  assert (sites c' = sites c) as Hs.
  { unfold c'. clear c'. generalize 0 as j. revert c Hev. induction k as [|k IH]; intros c Hev j; [done|].
    cbn [replicate deliver]. destruct (send_quota fuel w addr j rq c Hev) as (Hs & _).
    rewrite IH by (by rewrite Hs). done. }
  rewrite <-Hs in *. by apply send_quota.
Qed.

Lemma tries_ext (f g : nat → bool) n k : (∀ k, f k = g k) → tries f n k = tries g n k.
Proof. intros E. revert k. induction n as [|n IH]; intros k; cbn [tries]; [done|]. by rewrite E, IH. Qed.

(** Nodes of one cluster share their secret; their initialisation vectors have the length
    of a block. *)
Definition cluster_ok (key : string) (ss : gmap string (Site R)) : Prop :=
  map_Forall (λ _ s, SecretKey (nd_conf (st_node s)) = key ∧ length (st_ivs s 0) = BlockSize) ss.

(** A request whose parameters can be written as JSON, and whose callback, should it go to a
    path of the quota service, goes to none of the members. *)
Definition passable (w : Wire) (ss : gmap string (Site R)) (ar : string * HttpRequest) : Prop :=
  let p := DecodeParam (hr_body ar.2) in
  (∀ s t route, ss !! ar.1 = Some s → param_ok (with_token t (with_auth (passed_auth (st_now s) route) p))) ∧
  (url_path (CallBackUrl p) ∈ quota_routes →
   ∀ k dst, reached (w k ar.1 None (CallBackUrl p)) = Some dst → ss !! dst = None).

(** A request that a node passes on. *)
Lemma request_forward key fuel w c addr m r a :
  let p := DecodeParam (hr_body r) in
  cluster_ok key (sites c) → passable w (sites c) (addr, r) →
  c !! addr = Some m → hr_path r ∈ quota_routes →
  check_token (st_node (mb_site m)) (QToken p) = Ok a → Host a ≠ "localhost" →
  let c' := after c (request (S (S fuel)) w c addr r) in
  sites c' = sites c ∧ quotas_of c' = spec_step w (sites c) (quotas_of c) (addr, r).
Proof.
  intros p Hok [Hparam Hcall] Hm Hr Hc Ha. set (s0 := mb_site m) in *. cbn [fst snd] in Hparam, Hcall. fold p in Hparam, Hcall.
  assert (sites c !! addr = Some s0) as Hsite by (by rewrite lookup_sites, Hm).
  destruct (Hok _ _ Hsite) as [Hkey Hiv]. cbv beta in Hkey, Hiv.
  pose proof (request_quota (S fuel) w c addr m r Hm Hr) as Hreq. cbv zeta in Hreq. fold s0 in Hreq.
  set (s := with_post (net _ w addr c) s0) in Hreq.
  destruct (serve_route (st_parse s) (st_compile s) (st_post s) (st_node s) (st_now s) (st_ivs s 0) _ Hr) as [handler Hs].
  rewrite (Handler_quota s _ handler r (mb_state m) Hs eq_refl) in Hreq. unfold quota_handler in Hreq.
  destruct (mint_opens (st_node s0) (st_ivs s0 0) (passed_auth (st_now s0) (hr_path r))) as (t & Ht & Hopen);
    [by eapply check_token_key|].
  destruct (forward_sent s _ handler (hr_body r) (ns_quota (mb_state m)) a t Hs Hc Ha Ht) as (h & cbs & E & Hq & Hsent & Hcbs).
  fold p in Hsent, Hcbs. rewrite E in Hreq. cbv iota zeta beta in Hreq. intros c'. subst c'.
  set (rq := mkRequest _ (GetURLByHost _ _ +:+ hr_path r) _) in Hsent. rewrite Hreq, Hsent. cbn [after]. rewrite Hq.
  change (mkMember s0 _) with (upd_quota id m). rewrite upd_quota_id, (insert_id (M := gmap string) c addr m Hm), deliver_app.
  cbn [spec_step]. rewrite Hsite. fold p. rewrite Hc, (decide_True (P := hr_path r ∈ quota_routes)), (decide_False (P := Host a = "localhost")) by done.
  change (GetURLByHost _ _ +:+ hr_path r) with (rq_url rq). change (GetHttpClient _ _ _ _) with (rq_via rq).
  set (c1 := deliver _ 0 (replicate _ rq) c).
  assert (sites c1 = sites c ∧ quotas_of c1 = if decide (url_path (rq_url rq) ∈ quota_routes)
    then attempts (sites c) (url_path (rq_url rq)) p (λ k, w k addr (rq_via rq) (rq_url rq)) 3 0 (quotas_of c)
    else quotas_of c) as [Hs1 Hq1].
  { case_decide as Hu.
    - assert (DecodeParam (rq_body rq) = with_token t (with_auth (passed_auth (st_now s0) (hr_path r)) p)) as Hdec.
      { apply Decode_MarshalParam, (Hparam _ _ _ Hsite). }
      assert (everywhere (sites c) rq) as Hev.
      { split; [done|]. intros dst sB HB. destruct (Hok _ _ HB) as [HkB _]. rewrite Hdec.
        exists (passed_auth (st_now s0) (hr_path r)). split; [|done]. apply Hopen; [done| |congruence].
        apply auth_ok_localhost. unfold passed_auth. case_decide; [apply i64_range|done]. }
      pose proof (attempts_quota fuel w addr rq c 3 0 Hev) as Hatt. cbv zeta in Hatt. rewrite Hdec in Hatt.
      unfold c1. rewrite (tries_ext _ (λ k, answered (sites c) (w k addr (rq_via rq) (rq_url rq)))); [exact Hatt|].
      intros k. by apply net_answered.
    - apply deliver_same. intros k rq' c2 Hin _. apply elem_of_replicate_inv in Hin as ->. by apply send_other. }
  destruct (deliver_same (send (request (S fuel) w) w addr)
    (0 + length (replicate (tries (λ k, is_inr (st_post s k rq)) 3 0) rq)) cbs c1) as [-> ->]; [|by split].
  intros k rq' c2 Hin Hs2. rewrite Forall_forall in Hcbs. destruct (Hcbs rq' Hin) as [Eu Ev]. apply send_other.
  rewrite Eu, Ev, Hs2, Hs1. intros Hu dst Hd. by eapply Hcall.
Qed.

(** One client, against the meaning of its request. *)
Lemma client_step_spec key fuel w c ar :
  cluster_ok key (sites c) → passable w (sites c) ar →
  let c' := client_step (S (S fuel)) w c ar in
  sites c' = sites c ∧ quotas_of c' = spec_step w (sites c) (quotas_of c) ar.
Proof.
  destruct ar as [addr r]. intros Hok Hpass c'. subst c'. unfold client_step. cbn [fst snd].
  destruct (c !! addr) as [m|] eqn:Hm.
  2:{ cbn [spec_step request]. by rewrite lookup_sites, Hm. }
  set (p := DecodeParam (hr_body r)).
  assert (sites c !! addr = Some (mb_site m)) as Hsite by (by rewrite lookup_sites, Hm).
  destruct (decide (hr_path r ∈ quota_routes)) as [Hr|Hr].
  2:{ destruct (request_other (S (S fuel)) w c addr r Hr) as [-> ->]. split; [done|]. cbn [spec_step].
      rewrite Hsite. by repeat case_match; try done; rewrite decide_False by done. }
  pose proof (check_token_no_panic (st_node (mb_site m)) (QToken p)) as Hnp.
  destruct (check_token (st_node (mb_site m)) (QToken p)) as [a|e|] eqn:Hc; [|clear Hnp|done].
  - destruct (decide (Host a = "localhost")) as [Ha|Ha]; [|by eapply request_forward].
    destruct (request_local (S fuel) w c addr m r Hm Hr) as [h ->]; [by exists a|]. cbn [after spec_step].
    rewrite Hsite. fold p. rewrite Hc, !decide_True by done. split; [by apply sites_upd|by apply quotas_upd].
  - pose proof (request_quota (S fuel) w c addr m r Hm Hr) as Hreq. cbv zeta in Hreq. set (s := with_post _ _) in Hreq.
    destruct (serve_route (st_parse s) (st_compile s) (st_post s) (st_node s) (st_now s) (st_ivs s 0) _ Hr) as [handler Hs].
    rewrite (Handler_quota s _ handler r (mb_state m) Hs eq_refl) in Hreq. unfold quota_handler in Hreq.
    destruct (proj1 (quota_error_status _ _ _ _ _ _ _ _ (hr_body r) (ns_quota (mb_state m)) Hs) e Hc)
      as (h & E & _ & Hposts & Hgo & Hq & _).
    rewrite E in Hreq. cbv iota zeta beta in Hreq. rewrite Hreq. cbn [after sent]. unfold finish. rewrite Hgo.
    cbn [foldl]. rewrite Hposts, Hgo. cbn [fmap list_fmap concat app deliver spec_step]. rewrite Hsite. fold p. rewrite Hc.
    by apply same_insert.
Qed.

(** C16. The cluster implements one service of quotas. Clients send requests one after
    another to any addresses, on the quota paths or others, with good tokens or bad ones;
    each is served, with the goroutines it starts, before the next. The network is
    arbitrary: it may send an attempt to any member by whatever name the request uses (the
    sender itself included), lose the request, or lose the answer. Then the quotas of all
    nodes are those of the specification: a request counts when its token opens at the node
    that receives it; when the token is for "localhost" it counts there, once; otherwise it
    counts once for each attempt to reach the host in its body that gets to a member, until
    the first one that is answered and at most three times, by the operation that the path
    of the URL so built names; and it counts for nothing anywhere else. The members share
    their secret and have initialisation vectors of the length of a block, the parameters of
    the requests can be written as JSON, and no callback leads to a path of the quota
    service of a member. *)
Theorem cluster_refines key fuel wire c rs i :
  cluster_ok key (sites c) →
  (∀ j ar, rs !! j = Some ar → passable (wire (i + j)) (sites c) ar) →
  quotas_of (clients (S (S fuel)) wire i rs c) = spec wire (sites c) i rs (quotas_of c).
Proof.
  revert i c. induction rs as [|ar rs IH]; intros i c Hok Hrs; cbn [clients spec]; [done|].
  destruct (client_step_spec key fuel (wire i) c ar Hok) as [Hs Hq].
  { specialize (Hrs 0 ar eq_refl). by rewrite Nat.add_0_r in Hrs. }
  rewrite <-Hq, IH; [by rewrite Hs|by rewrite Hs|].
  intros j ar' Hj. rewrite Hs. specialize (Hrs (S j) ar' Hj). by rewrite Nat.add_succ_comm.
Qed.

End cluster.

(** ** Witness *)

#[local] Existing Instance toy_aes.
#[local] Existing Instance plain_base64.
#[local] Existing Instance bits_log_json.
#[local] Existing Instance bits_json.
#[local] Existing Instance bits_file_json.
#[local] Existing Instance bits_upload_json.
#[local] Existing Instance plain_retry.

(** The path of a URL without query, after "http://" and the authority. *)
Definition demo_path (url : string) : string :=
  match SplitN2 (TrimPrefix url "http://") "/" with [_; path] => "/" +:+ path | _ => "" end.

Definition demo_member : Member := mkMember demo_site demo_node_state.

(** Two nodes, of which the second also goes by the name [gpu-7]. *)
Definition demo_cluster : gmap string (Member (R := list read_event)) :=
  {["10.0.0.6:888" := demo_member; "10.0.0.7:888" := demo_member]}.

(** The network resolves the name, the loopback address and the addresses; the answer of
    the very first attempt of all is lost. *)
Definition demo_wire (i k : nat) (from : string) (via : Transport) (url : string) : delivery :=
  let authority := hd "" (SplitN2 (TrimPrefix url "http://") "/") in
  let dst :=
    if decide (authority = "gpu-7:888") then "10.0.0.7:888"
    else if decide (authority = "localhost:888") then from else authority in
  if decide (i = 0 ∧ k = 0) then AnswerLost dst "timeout" else Delivered dst.

Definition demo_post (body : bytes) : HttpRequest := mkHttpRequest API_SETQUOTA "" "" demo_view body false.

Definition demo_for (host path : string) : HttpRequest :=
  demo_post (MarshalParam (mkQuotaParam (mkAuthParam host 0) (demo_token "elsewhere") "" path 1024 "" 0)).

(** Requests for the second node by its name, for the first by the loopback address, by a
    stranger, and for a node that does not exist. *)
Definition demo_clients : list (string * HttpRequest) :=
  [("10.0.0.6:888", demo_for "gpu-7/" "/data/d"); ("10.0.0.6:888", demo_for "localhost" "/data/e");
   ("10.0.0.7:888", demo_post []); ("10.0.0.7:888", demo_for "10.0.0.8" "/data/f")].

Definition demo_quotas : gmap string QState :=
  spec demo_path demo_wire (sites demo_cluster) 0 demo_clients (quotas_of demo_cluster).

Lemma cluster_refines_witness :
  quotas_of (clients demo_path (λ _, inl "other") 2 demo_wire 0 demo_clients demo_cluster) = demo_quotas ∧
  ((λ q, map_to_list (quotas q)) <$> demo_quotas !! "10.0.0.7:888") = Some [("/data/d", 10001%Z)] ∧
  ((λ q, map_to_list (quotas q)) <$> demo_quotas !! "10.0.0.6:888") = Some [("/data/e", 10001%Z)].
Proof.
  split; [|split; vm_compute; reflexivity].
  refine (cluster_refines demo_path (λ _, inl "other") (SecretKey (nd_conf demo_node)) 0 demo_wire demo_cluster
            demo_clients 0 _ _).
  - intros k s Hs. unfold sites, demo_cluster in Hs. rewrite lookup_fmap in Hs.
    destruct (decide (k = "10.0.0.6:888")) as [->|H1]; [|destruct (decide (k = "10.0.0.7:888")) as [->|H2]].
    + vm_compute in Hs. injection Hs as <-. split; reflexivity.
    + vm_compute in Hs. injection Hs as <-. split; reflexivity.
    + rewrite lookup_insert_ne, lookup_singleton_ne in Hs by congruence. discriminate.
  - assert (Forall (λ ar, bool_decide (demo_path (CallBackUrl (DecodeParam (hr_body ar.2))) ∈ quota_routes) = false)
      demo_clients) as Hcb by (repeat constructor; vm_compute; reflexivity).
    intros j ar Hj. rewrite Forall_lookup in Hcb. specialize (Hcb j ar Hj). split; [intros s t route _; exact I|].
    intros Hin. apply bool_decide_eq_false_1 in Hcb. by destruct (Hcb Hin).
Defined.
