(* ===== verification/Main.v ===== *)
(** * The start of the program

    main.go: [main] and [configInit]; pilot/pilot.go: [Run]; server/WebServer.go: the
    listener of [Handler].

    [main] reads the flags and the configuration, fixes the directory under which it sees
    the root of the host, makes the clients ([Clients]) and the quota controller
    ([QuotaInit]), starts goroutines for the HTTP server ([WebServer]) and, if enabled, the
    proxy ([ProxyService]), and becomes the pilot ([Supervisor]). The three get to run in
    any order, and the proxy and the pilot can end the process for the others. *)

From S2P Require Import Prelude GoStrings GoPath ShardMap Clients LogConfig Pilot Supervisor Quota.
From S2P Require Import QuotaInit ProxyAuth NetUtils ServeChannel ProxyHttp ProxyService.

(** ** Flags and the base directory *)

Record Flags := mkFlags { f_template : string; f_base : string; f_config : string; f_level : string }.

Definition default_flags : Flags :=
  mkFlags "/config/filebeat/filebeat.tpl" "" "/etc/cvmart/daemon-config.json" "INFO".

(** [filepath.Abs]; [cwd] is what [os.Getwd] gives. *)
Definition Abs (cwd : string + string) (path : string) : string + string :=
  if IsAbs path then inr (GoPath.Clean path)
  else match cwd with
       | inl err => inl err
       | inr wd => inr (PathJoin [wd; path])
       end.

Definition base_dir (cwd : string + string) (base : string) : outcome string :=
  match Abs cwd base with
  | inl _ => Panic
  | inr baseDir => Ok (if decide (baseDir = "/") then "" else baseDir)
  end.

(** ** The outside *)

Record Outside := mkOutside {
  o_cwd : string + string;
  o_read : string → option bytes;
  o_unmarshal : bytes → Config → Config;
  o_level_ok : string → bool;                            (** [log.ParseLevel] *)
  o_parse_url : string → option string;
  o_minio : string → string → string → bool;
  o_in_cluster : option K8sConfig;
  o_k8s : K8sConfig → option string;
  o_docker : option string;                              (** the error of [NewEnvClient] *)
  o_listen : string → option string;                     (** [http.ListenAndServe] *)
  o_host : Host;
  o_accepts : list (string + InConn);                    (** what the listener of the proxy accepts *)
  o_template : bytes → option string;                    (** the error of parsing it *)
  o_getenv : string → string;
  o_stat : string → LogConfig.stat_result;
  o_cat : string → string + string
}.

(** ** Globals *)

(** The variables of utils/Common.go and of Service/FileService.go. *)
Record Globals := mkGlobals {
  remoteProxyUrl : option string;
  httpClients : Clients.Clients;
  minioClient : option string;
  fileBeatClient : FileBeatClient;
  k8sClient : K8sConfig;
  retryHttpClient : RetryClient;
  quotaController : option (Control * QState);
  localDockerClient : bool;
  podFileExporter : string                               (** its base directory *)
}.

(** What has been started. *)
Inductive started {MU MB MD : Type} :=
| WebServerOn (address : string)
| WebServerFailed (err : string)
| ProxyRun (r : string + ServiceItem * goroutine MU MB MD)
| PilotRun (env : PilotEnv) (p : Piloter).
Arguments started : clear implicits.

Inductive thread := TServer | TProxy | TPilot.

#[global] Instance thread_eq_dec : EqDecision thread.
Proof. solve_decision. Defined.

(** What has become of the process. *)
Inductive process := Running | Panicked | Exited (msg : string).

Section start.
Context `{GoRange} (sys : BootSys) (k : Kernel) (readdir_err : string → bool) (mknod : string → mknod_result)
  (qstat : string → Z * Z) (fs : Fs) (qs : QState).
Context {MU MB MD : Type} `{StringMap MU string, StringMap MB bool, StringMap MD CheckerItem}.
Context (o : Outside).

Definition configInit (conf : Config) (baseDir : string) : outcome Globals :=
  let remoteProxyUrl := InitConfig conf (o_parse_url o) in
  let clients := InitProxyHttpClient conf (o_parse_url o) in
  let minio := InitMinioClient conf (o_minio o) in
  let fileBeat := InitFileBeatClient in
  let! k8s := InitK8sClient conf (o_in_cluster o) (o_k8s o) in
  let retry := InitRetryHttpClient in
  let! quota := InitQuotaController sys k readdir_err mknod qstat conf baseDir fs qs in
  let docker := InitEnvDockerClient (o_docker o) in
  Ok (mkGlobals remoteProxyUrl clients minio fileBeat k8s retry quota docker baseDir).

(** [Handler] returns, and nothing is said, when it cannot listen. *)
Definition server_Handler (conf : Config) : started MU MB MD :=
  let address := ":" +:+ Itoa (ServerPort conf) in
  match o_listen o address with
  | Some err => WebServerFailed err
  | None => WebServerOn address
  end.

(** [pilot.Run]: an error of [New] is a panic; [watch] runs in what it gives. *)
Definition Run (conf : Config) (templ : bytes) (baseDir : string) : outcome (PilotEnv * Piloter) :=
  match New (o_template o templ) (o_docker o) conf baseDir (o_getenv o) (o_stat o) (o_cat o) with
  | Ok p => Ok p
  | _ => Panic
  end.

(** The goroutines once everything is set up; [main] itself goes on as the pilot. *)
Definition threads (conf : Config) : list thread :=
  [TServer] ++ (if EnableProxy conf then [TProxy] else []) ++ [TPilot].

(** What a goroutine starts, and what that does to the process: a proxy that cannot start
    ends it ([log.Fatalf]), a pilot that cannot be made panics. *)
Definition run_thread (conf : Config) (templ : bytes) (baseDir : string) (t : thread)
    : list (started MU MB MD) * process :=
  match t with
  | TServer => ([server_Handler conf], Running)
  | TProxy =>
      let r := ProxyService.Run (o_host o) (InitProxy (ProxyPort conf) ∅) "http" (o_accepts o) in
      ([ProxyRun r], match r with inr (_, Fatal msg) => Exited msg | _ => Running end)
  | TPilot =>
      match Run conf templ baseDir with
      | Ok (env, p) => ([PilotRun env p], Running)
      | _ => ([], Panicked)
      end
  end.

Fixpoint run_threads (conf : Config) (templ : bytes) (baseDir : string) (order : list thread)
    : list (started MU MB MD) * process :=
  match order with
  | [] => ([], Running)
  | t :: order =>
      match run_thread conf templ baseDir t with
      | (ev, Running) => let '(evs, e) := run_threads conf templ baseDir order in (ev ++ evs, e)
      | (ev, e) => (ev, e)
      end
  end.

Definition boot (flags : Flags) (conf0 : Config) : outcome (Config * string * bytes * Globals) :=
  let! conf := ParseFromFile (o_read o (f_config flags)) (o_unmarshal o) conf0 in
  let! baseDir := base_dir (o_cwd o) (f_base flags) in
  if decide (f_template flags = "") then Panic else
  if negb (o_level_ok o (f_level flags)) then Panic else
  match o_read o (f_template flags) with
  | None => Panic
  | Some b =>
      let! g := configInit conf baseDir in Ok (conf, baseDir, b, g)
  end.

(** What was started, what became of the process, and the globals once they are set; the
    goroutines get to run in the given order. *)
Definition main (order : list thread) (flags : Flags) (conf0 : Config)
    : list (started MU MB MD) * process * option (Config * Globals) :=
  match boot flags conf0 with
  | Ok (conf, baseDir, b, g) => (run_threads conf b baseDir order, Some (conf, g))
  | _ => ([], Panicked, None)
  end.

End start.

(** ** What runs *)

(** The directory every path of the host is put below: nothing, or a clean path without a
    slash at its end. *)
Definition clean_base (b : string) : Prop := b = "" ∨ ∃ cs, cs ≠ [] ∧ Forall comp_ok cs ∧ b = abs_path cs.

Lemma Clean_base p : IsAbs p = true → clean_base (if decide (GoPath.Clean p = "/") then "" else GoPath.Clean p).
Proof.
  intros [-> Hok]%Clean_abs. case_decide as E; [by left|right].
  exists (clean_words true p). split_and!; try done. intros En. by rewrite En in E.
Qed.

Lemma base_dir_clean cwd base baseDir :
  (∀ wd, cwd = inr wd → IsAbs wd = true) → base_dir cwd base = Ok baseDir → clean_base baseDir.
Proof.
  intros Hwd. unfold base_dir, Abs. destruct (IsAbs base) eqn:Ea; [intros [= <-]; by apply Clean_base|].
  destruct cwd as [|wd]; [done|]. intros [= <-]. specialize (Hwd wd eq_refl).
  assert (wd ≠ "") as Hne by (by intros ->). unfold PathJoin. cbn [drop_empty]. rewrite !(decide_False (P := wd = "")) by done.
  apply Clean_base. apply HasPrefix_spec in Hwd as [r ->]. by apply HasPrefix_spec; eexists.
Qed.

Section theorems.
Context `{GoRange} (sys : BootSys) (k : Kernel) (readdir_err : string → bool) (mknod : string → mknod_result)
  (qstat : string → Z * Z) (fs : Fs) (qs : QState).
Context {MU MB MD : Type} `{StringMap MU string, StringMap MB bool, StringMap MD CheckerItem}.

Abbreviation main := (main (MU := MU) (MB := MB) (MD := MD) sys k readdir_err mknod qstat fs qs).
Abbreviation InitQuota := (InitQuotaController sys k readdir_err mknod qstat).

Lemma ParseFromFile_size file unmarshal conf0 conf :
  ParseFromFile file unmarshal conf0 = Ok conf → LineMaxSize conf ≠ 0%Z.
Proof.
  unfold ParseFromFile. destruct file as [data|]; [|done]. cbv zeta.
  destruct (LineMaxSize (unmarshal data conf0) =? 0)%Z eqn:E; intros [= <-]; case_decide; simpl; try done;
    by apply Z.eqb_neq.
Qed.

(** When the pilot is made. *)
Definition pilot_possible (o : Outside) (conf : Config) (b : bytes) : Prop :=
  o_template o b = None ∧ o_docker o = None ∧ Clients.PilotType conf ∈ [PILOT_FILEBEAT; PILOT_FLUENTD].

Lemma Run_spec o conf b baseDir :
  match Run o conf b baseDir with
  | Ok (env, p) => LogConfig.baseDir env = baseDir ∧ pilot_possible o conf b
  | Err _ => False
  | Panic => ¬ pilot_possible o conf b
  end.
Proof.
  unfold Run, New, NewPiloter. destruct (o_template o b) eqn:Et; [by intros [? _]; simplify_eq|].
  destruct (o_docker o) eqn:Ed; [by intros (_ & ? & _); simplify_eq|].
  assert (Clients.PilotType conf ∈ [PILOT_FILEBEAT; PILOT_FLUENTD] ↔
    Clients.PilotType conf = PILOT_FILEBEAT ∨ Clients.PilotType conf = PILOT_FLUENTD) as Hin.
  { rewrite !elem_of_cons, elem_of_nil. tauto. }
  unfold pilot_possible. rewrite Et, Ed.
  destruct (decide (Clients.PilotType conf = PILOT_FILEBEAT)); [cbn [obind]; naive_solver|].
  destruct (decide (Clients.PilotType conf = PILOT_FLUENTD)); cbn [obind]; naive_solver.
Qed.

(** What starting depends on, with the configuration, the base directory and the template
    that are read. *)
Record can_start (o : Outside) (flags : Flags) (conf0 conf : Config) (baseDir : string) (b : bytes) : Prop := {
  cs_conf : ParseFromFile (o_read o (f_config flags)) (o_unmarshal o) conf0 = Ok conf;
  cs_base : base_dir (o_cwd o) (f_base flags) = Ok baseDir;
  cs_named : f_template flags ≠ "";
  cs_level : o_level_ok o (f_level flags) = true;
  cs_templ : o_read o (f_template flags) = Some b;
  cs_k8s : is_ok (InitK8sClient conf (o_in_cluster o) (o_k8s o)) = true;
  cs_quota : InitQuota conf baseDir fs qs ≠ Panic;
  cs_pilot : pilot_possible o conf b;
  cs_proxy : EnableProxy conf = true → net_Listen (o_host o) ("0.0.0.0:" +:+ Itoa (ProxyPort conf)) = None
}.

Abbreviation boot o := (boot sys k readdir_err mknod qstat fs qs o).

(** Everything up to the goroutines. *)
Lemma boot_spec (o : Outside) flags conf0 conf baseDir b g :
  boot o flags conf0 = Ok (conf, baseDir, b, g) ↔
  ParseFromFile (o_read o (f_config flags)) (o_unmarshal o) conf0 = Ok conf ∧
  base_dir (o_cwd o) (f_base flags) = Ok baseDir ∧ f_template flags ≠ "" ∧ o_level_ok o (f_level flags) = true ∧
  o_read o (f_template flags) = Some b ∧
  configInit sys k readdir_err mknod qstat fs qs o conf baseDir = Ok g.
Proof.
  unfold Main.boot. destruct (ParseFromFile _ _ conf0) as [conf'| |]; cbn [obind]; [|by split; [|intros (? & _)]..].
  destruct (base_dir _ _) as [baseDir'| |]; cbn [obind]; [|by split; [|intros (_ & ? & _)]..].
  case_decide as Et; [by split; [|intros (_ & _ & ? & _)]|].
  destruct (o_level_ok o (f_level flags)); cbn [negb]; [|by split; [|intros (_ & _ & _ & ? & _)]].
  destruct (o_read o (f_template flags)) as [b'|]; [|by split; [|intros (_ & _ & _ & _ & ? & _)]].
  split; [intros (g' & Hg & [= <- <- <- <-])%obind_ok_inv; done|]. intros ([= <-] & [= <-] & _ & _ & [= <-] & ->). done.
Qed.

Lemma configInit_spec (o : Outside) conf baseDir :
  let c := configInit sys k readdir_err mknod qstat fs qs o conf baseDir in
  (is_ok c = true ↔ is_ok (InitK8sClient conf (o_in_cluster o) (o_k8s o)) = true ∧ InitQuota conf baseDir fs qs ≠ Panic) ∧
  ∀ g, c = Ok g → podFileExporter g = baseDir ∧ InitQuota conf baseDir fs qs = Ok (quotaController g) ∧
    localDockerClient g = InitEnvDockerClient (o_docker o).
Proof.
  intros c. unfold c, configInit. destruct (InitK8sClient _ _ _); cbn [obind is_ok]; [|split; [naive_solver|done]..].
  destruct (InitQuota conf baseDir fs qs) as [q|e|] eqn:Eq; cbn [obind is_ok]; [| |split; [naive_solver|done]].
  - split; [done|]. by intros g [= <-].
  - unfold InitQuotaController in Eq. by destruct (NewControl _ _ _ _ _ _ _ _ _) as [[[] ]| |].
Qed.

(** The goroutines one after another: all start, or one of them ends the process. *)
Lemma run_threads_spec (o : Outside) conf b baseDir order :
  let run := run_thread (MU := MU) (MB := MB) (MD := MD) o conf b baseDir in
  match run_threads o conf b baseDir order with
  | (evs, Running) => Forall (λ t, (run t).2 = Running) order ∧ evs = order ≫= (λ t, (run t).1)
  | (_, e) => ∃ t, t ∈ order ∧ (run t).2 = e
  end.
Proof.
  intros run. induction order as [|t order IH]; cbn [run_threads]; [by split; [constructor|]|]. fold run.
  destruct (run t) as [ev e] eqn:Et. destruct e; [|by exists t; split; [left|rewrite Et]..].
  destruct (run_threads o conf b baseDir order) as [evs []].
  - destruct IH as [Hf ->]. split; [constructor; [by rewrite Et|done]|]. cbn [mbind list_bind]. by rewrite Et.
  - destruct IH as (t' & ? & ?). exists t'. split; [by right|done].
  - destruct IH as (t' & ? & ?). exists t'. split; [by right|done].
Qed.

(** The proxy goroutine. *)
Lemma run_proxy (o : Outside) conf b baseDir :
  in_i64 (ProxyPort conf) →
  let address := "0.0.0.0:" +:+ Itoa (ProxyPort conf) in
  match net_Listen (o_host o) address with
  | Some err => (run_thread (MU := MU) (MB := MB) (MD := MD) o conf b baseDir TProxy).2 =
                Exited ("http servcie fail, ERR: " +:+ err)
  | None => ∃ item s, run_thread (MU := MU) (MB := MB) (MD := MD) o conf b baseDir TProxy =
              ([ProxyRun (inr (item, Serving s))], Running) ∧ sv_address s = address
  end.
Proof.
  intros Hp address. cbn [run_thread]. unfold ProxyService.Run, InitProxy, Register. rewrite lookup_insert_eq.
  cbn [Args]. rewrite Start_proxy_args by done. change (Local (proxy_args _)) with address.
  destruct (net_Listen _ address); [done|]. destruct (accept_loop Tcp (o_accepts o)). by eexists _, _.
Qed.

(** When no goroutine ends the process. *)
Lemma threads_fine (o : Outside) conf b baseDir :
  in_i64 (ProxyPort conf) →
  Forall (λ t, (run_thread (MU := MU) (MB := MB) (MD := MD) o conf b baseDir t).2 = Running) (threads conf) ↔
  pilot_possible o conf b ∧
  (EnableProxy conf = true → net_Listen (o_host o) ("0.0.0.0:" +:+ Itoa (ProxyPort conf)) = None).
Proof.
  intros Hport. pose proof (run_proxy o conf b baseDir Hport) as Hx. cbv zeta in Hx.
  pose proof (Run_spec o conf b baseDir) as Hr.
  assert ((run_thread (MU := MU) (MB := MB) (MD := MD) o conf b baseDir TPilot).2 = Running ↔ pilot_possible o conf b)
    as Hpilot.
  { cbn [run_thread]. destruct (Run o conf b baseDir) as [[env p]|e|]; naive_solver. }
  unfold threads. rewrite !Forall_app, !Forall_singleton, Hpilot. destruct (EnableProxy conf).
  - rewrite Forall_singleton. destruct (net_Listen _ _) eqn:E; [rewrite Hx|destruct Hx as (? & ? & -> & _)]; naive_solver.
  - rewrite Forall_nil. naive_solver.
Qed.

Lemma can_start_boot (o : Outside) flags conf0 conf baseDir b :
  can_start o flags conf0 conf baseDir b ↔
  (∃ g, boot o flags conf0 = Ok (conf, baseDir, b, g) ∧ pilot_possible o conf b) ∧
  (EnableProxy conf = true → net_Listen (o_host o) ("0.0.0.0:" +:+ Itoa (ProxyPort conf)) = None).
Proof.
  destruct (configInit_spec o conf baseDir) as [Hok _]. split.
  - intros []. split; [|done]. destruct (configInit _ _ _ _ _ _ _ o conf baseDir) as [g| |] eqn:E.
    2,3: exfalso; assert (false = true); [by apply Hok|done].
    exists g. split; [by apply boot_spec|done].
  - intros [(g & (? & ? & ? & ? & ? & Hg)%boot_spec & ?) ?]. rewrite Hg in Hok. destruct (proj1 Hok eq_refl). by constructor.
Qed.

(** What is started when nothing ends the process. *)
Lemma main_events (o : Outside) conf b baseDir :
  in_i64 (ProxyPort conf) →
  pilot_possible o conf b ∧
    (EnableProxy conf = true → net_Listen (o_host o) ("0.0.0.0:" +:+ Itoa (ProxyPort conf)) = None) →
  ∃ env p proxy, (threads conf ≫= λ t, (run_thread (MU := MU) (MB := MB) (MD := MD) o conf b baseDir t).1) =
      server_Handler o conf :: proxy ++ [PilotRun env p] ∧
    LogConfig.baseDir env = baseDir ∧
    if EnableProxy conf
    then ∃ item s, proxy = [ProxyRun (inr (item, Serving s))] ∧ sv_address s = "0.0.0.0:" +:+ Itoa (ProxyPort conf)
    else proxy = [].
Proof.
  intros Hport [Hp Hx]. pose proof (run_proxy o conf b baseDir Hport) as Hr. cbv zeta in Hr.
  pose proof (Run_spec o conf b baseDir) as Hrun. unfold threads.
  assert (∃ env p, Run o conf b baseDir = Ok (env, p) ∧ LogConfig.baseDir env = baseDir) as (env & p & Er & Hb).
  { destruct (Run o conf b baseDir) as [[env p]| |]; [|done..]. exists env, p. by destruct Hrun. }
  exists env, p. destruct (EnableProxy conf).
  - rewrite (Hx eq_refl) in Hr. destruct Hr as (item & s & Et & Ha). exists [ProxyRun (inr (item, Serving s))].
    cbn [app mbind list_bind]. rewrite Et. cbn [run_thread fst]. rewrite Er. split; [done|]. split; [done|]. by exists item, s.
  - exists []. cbn [app mbind list_bind run_thread fst]. by rewrite Er.
Qed.

(** C23. The start of the program, in whatever order its goroutines get to run. It comes to
    run as the pilot exactly when the configuration and the template can be read, the base
    directory is found, a template is named, the log level is one, the client for
    Kubernetes can be made, the setting up of quotas does not panic, the template parses,
    the Docker client can be made, the type of the pilot is known, and the proxy, if it is
    enabled, can listen on its port. Then the quotas, the exporter of files and the pilot
    work below the same directory, a clean path; the client of the local daemon is there;
    lines have a limit; the pilot and, exactly when it is enabled, the proxy were started;
    and the HTTP server listens on the configured port exactly when it can (otherwise the
    program goes on without it). When it is the proxy that ends the process, it could not
    listen; all other failures are panics. *)
Theorem main_starts (o : Outside) order flags conf0 :
  (∀ wd, o_cwd o = inr wd → IsAbs wd = true) →
  (∀ conf, ParseFromFile (o_read o (f_config flags)) (o_unmarshal o) conf0 = Ok conf →
     order ≡ₚ threads conf ∧ in_i64 (ProxyPort conf)) →
  let '(events, proc, globals) := main o order flags conf0 in
  (proc = Running ↔ ∃ conf baseDir b, can_start o flags conf0 conf baseDir b) ∧
  (∀ conf baseDir b, can_start o flags conf0 conf baseDir b →
     ∃ g env p proxy, globals = Some (conf, g) ∧ clean_base baseDir ∧
       events ≡ₚ server_Handler o conf :: proxy ++ [PilotRun env p] ∧
       (if EnableProxy conf
        then ∃ item s, proxy = [ProxyRun (inr (item, Serving s))] ∧
                       sv_address s = "0.0.0.0:" +:+ Itoa (ProxyPort conf)
        else proxy = []) ∧
       (let address := ":" +:+ Itoa (ServerPort conf) in
        WebServerOn address ∈ events ↔ o_listen o address = None) ∧
       LogConfig.baseDir env = baseDir ∧ podFileExporter g = baseDir ∧
       InitQuota conf baseDir fs qs = Ok (quotaController g) ∧
       localDockerClient g = true ∧ LineMaxSize conf ≠ 0%Z) ∧
  (∀ msg, proc = Exited msg → ∃ conf g err, globals = Some (conf, g) ∧ EnableProxy conf = true ∧
     net_Listen (o_host o) ("0.0.0.0:" +:+ Itoa (ProxyPort conf)) = Some err ∧
     msg = "http servcie fail, ERR: " +:+ err).
Proof.
  intros Hwd Horder. unfold main, Main.main. destruct (boot o flags conf0) as [[[[conf baseDir] b] g]| |] eqn:Eb.
  2,3: split_and!; [|intros conf baseDir b Hcs|done]; [split; [done|intros (conf & baseDir & b & Hcs)]|];
    apply can_start_boot in Hcs as [(g & ? & _) _]; congruence.
  assert (∀ conf' baseDir' b', can_start o flags conf0 conf' baseDir' b' ↔ conf' = conf ∧ baseDir' = baseDir ∧ b' = b ∧
    pilot_possible o conf b ∧
    (EnableProxy conf = true → net_Listen (o_host o) ("0.0.0.0:" +:+ Itoa (ProxyPort conf)) = None)) as Hcs.
  { intros conf' baseDir' b'. rewrite can_start_boot, Eb. naive_solver. }
  pose proof Eb as (Hconf & Hbase & _ & _ & _ & Hinit)%boot_spec. destruct (Horder _ Hconf) as [Hperm Hport].
  pose proof (threads_fine o conf b baseDir Hport) as Hfine. rewrite <-Hperm in Hfine.
  pose proof (run_threads_spec o conf b baseDir order) as Hrun. cbv zeta in Hrun.
  destruct (run_threads o conf b baseDir order) as [evs proc] eqn:Et.
  assert (proc = Running ↔ pilot_possible o conf b ∧
    (EnableProxy conf = true → net_Listen (o_host o) ("0.0.0.0:" +:+ Itoa (ProxyPort conf)) = None)) as Hproc.
  { rewrite <-Hfine. split; [intros ->; apply Hrun|]. intros Hall. rewrite Forall_forall in Hall.
    destruct proc; [done|..]; destruct Hrun as (t & Ht & Hb); rewrite (Hall t Ht) in Hb; done. }
  split_and!.
  - rewrite Hproc. split; [intros []; exists conf, baseDir, b; by apply Hcs|]. by intros (? & ? & ? & (_ & _ & _ & ? & ?)%Hcs).
  - intros ? ? ? (-> & -> & -> & Hpp)%Hcs. pose proof (proj2 Hproc Hpp) as ->. destruct Hrun as [_ ->].
    destruct (configInit_spec o conf baseDir) as [_ Hg]. destruct (Hg g Hinit) as (Hx & Hq & Hd).
    destruct (main_events o conf b baseDir Hport Hpp) as (env & p & proxy & Hev & Hbd & Hproxy).
    exists g, env, p, proxy. rewrite Hperm, Hev. split_and!; try done.
    + by eapply base_dir_clean.
    + rewrite elem_of_cons, elem_of_app, list_elem_of_singleton. unfold server_Handler.
      destruct (o_listen _ _); split; try done; [|by left]. intros [?|[Hin|?]]; try done.
      destruct (EnableProxy conf); [destruct Hproxy as (? & ? & -> & _)|subst proxy]; rewrite ?list_elem_of_singleton, ?elem_of_nil in Hin; done.
    + rewrite Hd. unfold InitEnvDockerClient. by destruct Hpp as [(_ & -> & _) _].
    + by eapply ParseFromFile_size.
  - intros msg ->. destruct Hrun as (t & Ht & Hb). rewrite Hperm in Ht. exists conf, g.
    pose proof (run_proxy o conf b baseDir Hport) as Hx. cbv zeta in Hx.
    destruct t; [done| |cbn [run_thread] in Hb; by destruct (Run _ _ _ _) as [[]| |]].
    assert (EnableProxy conf = true) as He by (unfold threads in Ht; destruct (EnableProxy conf); [done|];
      cbn [app] in Ht; rewrite !elem_of_cons, elem_of_nil in Ht; naive_solver).
    destruct (net_Listen _ _) as [err|]; [|destruct Hx as (? & ? & Hx & _); by rewrite Hx in Hb].
    exists err. rewrite Hx in Hb. by injection Hb as <-.
Qed.
End theorems.

(** ** An example *)

Definition demo_outside : Outside :=
  mkOutside (inr "/pilot") (λ _, Some []) (λ _ c, c) (λ _, true) Some (λ _ _ _, true) None (λ _, None) None
    (λ _, None) demo_host [inr demo_conn] (λ _, None) (λ _, "") (λ _, LogConfig.StatOk) (λ _, inl "no such file").

(** The flags of the entry point of the image. *)
Definition demo_flags : Flags := mkFlags "/pilot/filebeat.tpl" "/host" "/etc/cvmart/daemon-config.json" "debug".

(** The pilot comes first, the server last. *)
Lemma main_starts_witness :
  let '(events, proc, globals) :=
    main (H := range_sorted) (MU := ConcurrentMap string) (MB := ConcurrentMap bool) (MD := ConcurrentMap CheckerItem)
      new_boot demo_kernel (λ _, false) (λ _, MkOk) (λ _, (0, 0)%Z) new_fs demo_qstate
      demo_outside [TPilot; TProxy; TServer] demo_flags demo_config in
  proc = Running ∧ WebServerOn ":888" ∈ events ∧ (podFileExporter ∘ snd) <$> globals = Some "/host".
Proof.
  pose proof (main_starts (H := range_sorted) (MU := ConcurrentMap string) (MB := ConcurrentMap bool)
    (MD := ConcurrentMap CheckerItem) new_boot demo_kernel (λ _, false) (λ _, MkOk) (λ _, (0, 0)%Z) new_fs demo_qstate
    demo_outside [TPilot; TProxy; TServer] demo_flags demo_config) as Hm.
  destruct (main _ _ _ _ _ _ _ _ _ _ _) as [[events proc] globals].
  assert (∀ conf, ParseFromFile (o_read demo_outside (f_config demo_flags)) (o_unmarshal demo_outside) demo_config = Ok conf →
    conf = demo_config) as Hconf by (intros conf [= <-]; vm_compute; reflexivity).
  destruct Hm as (Hrun & Hfacts & _).
  - intros wd [= <-]. reflexivity.
  - intros conf ->%Hconf. split; [|unfold in_i64; vm_compute; by split].
    apply (bool_decide_eq_true_1 _). vm_compute. reflexivity.
  - assert (can_start (H := range_sorted) new_boot demo_kernel (λ _, false) (λ _, MkOk) (λ _, (0, 0)%Z) new_fs demo_qstate
      demo_outside demo_flags demo_config demo_config "/host" []) as Hcs.
    { constructor; try (vm_compute; reflexivity); vm_compute; try discriminate.
      split; [done|]. split; [done|]. left. }
    destruct (Hfacts _ _ _ Hcs) as (g & env & p & proxy & -> & _ & _ & _ & Hserver & _ & Hx & _).
    split; [apply Hrun; by eexists _, _, _|]. split; [by apply Hserver|]. cbn. by rewrite Hx.
Defined.
